(* ===== verification/_CoqProject ===== *)
-Q . S2P
Prelude.v
ChaCha20.v
GoStrings.v
Errors.v
State.v
Codec.v
Sha2.v
Json.v
MasterSeed.v
KmsMapping.v
OpenBao.v
GoTime.v
KmsAuthorizer.v
KmsClient.v
KmsProviders.v
KmsPlugin.v
KmsTenant.v
KmsRoundtrip.v
KmsHandlers.v
KeyStore.v
MemBao.v
KmsRuns.v
Threshold.v
ThresholdRetry.v
ThresholdProtocol.v
ThresholdRuns.v
Http.v
Account.v
AccountSpec.v
SingleFlight.v
ThreadControl.v
AccountRefresh.v
P256.v
Auth.v
AuthSpec.v
AuthRefresh.v
PatIssuer.v
PatIssuerSpec.v
PatRoundtrip.v
PatSigners.v
Beacon.v
BeaconSpec.v
BeaconChain.v
BeaconRegistry.v
BeaconScheduler.v
Ipfs.v
IpfsSpec.v
BeaconIpfs.v
Jwks.v
JwksSpec.v
JwksServer.v
GoFloat.v
OAuth.v
Orbital.v
OrbitalSpec.v
BeaconRandomness.v
BeaconLifecycle.v
DevPlugins.v
Health.v
HealthSpec.v
Metrics.v
Mocker.v
FreePort.v
Process.v
