(* ===== verification/Prelude.v ===== *)
(** * Orbitport: a verification development

    Orbitport is a gateway to randomness, keys and tokens, made of gRPC plugins
    written in Go (src/plugins). This library translates the plugins' own code
    into Rocq functions and proves what makes it correct. The gateway in front
    of the plugins (Rust) is not part of it.

    ** How the program is put together

    The aptosorbital plugin fetches true randomness from a satellite API. The
    masterseed plugin keeps a pool of such seeds and expands them with ChaCha20.
    The beacon plugin asks both for values and appends them to a chain of blocks
    that the ipfs plugin stores and publishes. The kms plugin serves tenants'
    keys and secrets from OpenBao; the threshold plugin drives a distributed key
    generation over several OpenBao servers. Requests are authorized by the auth
    plugin, with tokens and keys that the patissuer plugin makes, and are paid
    for through the account plugin.

    ** How it is modelled

    A Go function is a Rocq function of the same name. [State.Prog S A] is a call
    with a state [S] that returns a value or an error, blocks or panics; errors
    are values ([Errors.error]) that keep their format, arguments and wrapped
    cause, so that [errors.Is] and [errors.As] are computed. What the repository
    only calls (servers, third-party libraries, the clock) is the parameter of a
    type class; its laws, where a theorem needs them, are a second class, and
    concrete instances show that the laws can hold. Integers carry their width
    by explicit wrap-around ([u32], [u64], [i64]). Strings are bytes.

    ** The files

    Shared: Prelude (integers, lists), State (computations, and the relation
    [steps] of what a computation may do to its state), GoStrings, Errors, Codec
    (hex, base64), Sha2, Json (encoding/json), GoTime, GoFloat, Http, P256; and
    SingleFlight, the pattern of a cached value behind a refresh lock as a step
    system of many goroutines, with its theorems for any [Flight] that keeps
    [FlightLaws]. ThreadControl: pkg/utils/thread_control.go, the groups of
    goroutines as a step system; [Close] stops them all and waits for no other.

    - ChaCha20: pkg/chacha20/chacha20_rng.go. The generator refines a cursor in
      the key stream; skipping bytes equals reading them.
    - MasterSeed: pkg/plugin/masterseed. The pool, its cursors and the boot; the
      ranges that requests reserve are disjoint, and outputs are key stream.
    - OpenBao, KmsMapping, KmsAuthorizer, KmsClient, KmsProviders, KmsPlugin,
      KeyStore: internal/openbao and pkg/plugin/kms, a file or two each. KmsTenant
      proves tenant isolation, KmsRoundtrip that a client can decrypt what it
      encrypted, KmsHandlers the error paths; MemBao is an OpenBao in memory at
      which KmsRuns runs the theorems.
    - Threshold: pkg/plugin/threshold. ThresholdRetry says which replies of a node
      are worth another attempt, on a history of requests, replies and waits;
      ThresholdProtocol proves the transcript of a key generation, in which each
      message is what its sender had answered, and the agreement on the key;
      ThresholdRuns runs one.
    - Account: pkg/plugin/account. AccountSpec is what each call sends and
      answers; AccountRefresh is the token manager as a [Flight].
    - Auth and AuthSpec: pkg/plugin/auth. Which tokens are accepted, and how often
      keys are fetched. AuthRefresh is the key cache as a [Flight], which one call
      of [Auth.refresh] runs, and bounds the fetches of many.
    - PatIssuer and PatIssuerSpec: pkg/plugin/patissuer. Token lifetimes, and that
      the auth plugin reads the tokens and key sets as they were written.
      PatRoundtrip runs the auth plugin on the patissuer plugin: what one issues
      the other accepts, until it expires, through key rotations. It asks for
      [SignerLaws] of the signer; PatSigners proves them of both signers.
    - Beacon: pkg/plugin/beacon. BeaconSpec and BeaconChain: executions extend one
      chain; BeaconRegistry: the registry is not overwritten; BeaconScheduler: the
      intervals and the bounded queue; BeaconLifecycle: the plugin's goroutines
      from [Start] to [Close].
    - Ipfs and IpfsSpec: pkg/plugin/ipfs. The caches and size limits. BeaconIpfs
      runs the beacon plugin on the ipfs plugin, BeaconRandomness on the ipfs,
      aptosorbital and masterseed plugins: a block holds a whole batch of values,
      with or without the satellite.
    - Jwks and JwksSpec: pkg/plugin/jwks. What is published, by one request and by
      a burst of them. JwksServer: its public port has one route.
    - OAuth: pkg/oauth; Orbital and OrbitalSpec: pkg/plugin/aptosorbital. The
      plugin always answers, and its callers share one token.
    - DevPlugins: pkg/plugin/accountnoop and authnoop. Health and HealthSpec:
      pkg/core/health, the wait of a plugin for the ones it needs.
    - Process: cmd/plugin, pkg/core/config.go and plugin.go, beacon/health.go. What
      a process registers, serves and closes, in which order, and the health check
      of its container. Metrics: the metrics.go files and the interceptor that
      counts RPCs without changing them. Mocker: cmd/mocker and pkg/testutils, and
      the aptosorbital plugin on the mockers, on one host and on two. FreePort:
      the ports that tests are given.

    ** Fuel and bounds

    Loops of the source that are bounded recurse on their bound (retries, list
    lengths, block counts). Rejection sampling and the reads of crypto/rand run
    over the sequence of answers that the reads give, and are [Blocked] while the
    sequence is too short; MasterSeed proves which sequences suffice. The JSON
    parser and the number scanner take the length of their input as fuel, which
    they never exhaust. The interleavings of SingleFlight are arbitrary action
    sequences, as are those of ThreadControl and BeaconLifecycle, with a bound on
    the steps of each call proved. The wait for dependencies runs for a number of
    rounds; HealthSpec says when it is still waiting after them.

    ** Not modelled

    Logging, and what the plugins add to their own collectors, which nothing reads
    back; the metrics endpoint. Reading the environment through viper is an
    argument of each [readFromEnv], and serving gRPC is the library's. The
    generated protobuf code: messages are records. The deadlines of contexts are a
    cancel function that may be called at any time, or an error of the request. *)

From stdpp Require Export base tactics list numbers option strings gmap pretty.
From Stdlib Require Export ZArith Lia Sorted.

#[global] Open Scope Z_scope.
#[global] Set Default Goal Selector "!".

(** ** Machine integers

    A Go [uintN] is a [Z] kept in range by writing its wrap-around out. *)

Definition wrap (w z : Z) : Z := z mod 2 ^ w.

Abbreviation u32 := (wrap 32).
Abbreviation u64 := (wrap 64).

(** The wrap-around of a Go [intN] (two's complement). *)
Definition swrap (w z : Z) : Z := (z + 2 ^ (w - 1)) mod 2 ^ w - 2 ^ (w - 1).

Abbreviation i64 := (swrap 64).

Definition is_byte (z : Z) : Prop := 0 <= z < 256.
Definition is_u32 (z : Z) : Prop := 0 <= z < 2 ^ 32.
Definition is_u64 (z : Z) : Prop := 0 <= z < 2 ^ 64.
Definition is_i64 (z : Z) : Prop := - 2 ^ 63 <= z < 2 ^ 63.

(** [int(^uint(0) >> 1)] on a 64-bit machine. *)
Definition maxInt : Z := 2 ^ 63 - 1.

Lemma wrap_range w z : 0 <= w -> 0 <= wrap w z < 2 ^ w.
Proof. intros. apply Z.mod_pos_bound, Z.pow_pos_nonneg; lia. Qed.

Lemma wrap_small w z : 0 <= z < 2 ^ w -> wrap w z = z.
Proof. apply Z.mod_small. Qed.

Lemma wrap_wrap w z : wrap w (wrap w z) = wrap w z.
Proof. apply Zmod_mod. Qed.

Lemma wrap_add_l w a b : wrap w (wrap w a + b) = wrap w (a + b).
Proof. apply Zplus_mod_idemp_l. Qed.

Lemma u32_range z : is_u32 (u32 z).
Proof. apply (wrap_range 32); lia. Qed.

Lemma u64_range z : is_u64 (u64 z).
Proof. apply (wrap_range 64); lia. Qed.

(** Bit operations stay within the width of their operands. *)

Lemma bits_below w z : 0 <= w -> 0 <= z -> (forall i, w <= i -> Z.testbit z i = false) -> z < 2 ^ w.
Proof.
  intros Hw Hz Hb. destruct (decide (z = 0)) as [->|]; [apply Z.pow_pos_nonneg; lia|].
  apply Z.log2_lt_pow2; [lia|]. apply Z.nle_gt. intros Hl.
  apply (Hb (Z.log2 z)) in Hl. rewrite Z.bit_log2 in Hl; [done|lia].
Qed.

Lemma bits_above w z i : 0 <= z < 2 ^ w -> w <= i -> Z.testbit z i = false.
Proof.
  intros [H0 Hlt] Hi. destruct (decide (z = 0)) as [->|]; [apply Z.bits_0|].
  apply Z.bits_above_log2; [done|]. apply Z.log2_lt_pow2 in Hlt; lia.
Qed.

Lemma lor_range w a b : 0 <= w ->
  0 <= a < 2 ^ w -> 0 <= b < 2 ^ w -> 0 <= Z.lor a b < 2 ^ w.
Proof.
  intros Hw Ha Hb. split; [apply Z.lor_nonneg; lia|].
  apply bits_below; [done|apply Z.lor_nonneg; lia|]. intros i Hi.
  by rewrite Z.lor_spec, (bits_above w a), (bits_above w b).
Qed.

Lemma lxor_range w a b : 0 <= w ->
  0 <= a < 2 ^ w -> 0 <= b < 2 ^ w -> 0 <= Z.lxor a b < 2 ^ w.
Proof.
  intros Hw Ha Hb. assert (0 <= Z.lxor a b) by (apply Z.lxor_nonneg; lia). split; [done|].
  apply bits_below; [done..|]. intros i Hi.
  by rewrite Z.lxor_spec, (bits_above w a), (bits_above w b).
Qed.

(** Two fields that do not overlap: [or] is addition. *)
Lemma lor_shiftl_add w hi lo : 0 <= w -> 0 <= lo < 2 ^ w ->
  Z.lor (Z.shiftl hi w) lo = hi * 2 ^ w + lo.
Proof.
  intros Hw Hlo. rewrite Z.shiftl_mul_pow2 by done.
  assert (Z.land (hi * 2 ^ w) lo = 0) as Hl; [|pose proof (Z.add_lor_land (hi * 2 ^ w) lo); lia].
  apply Z.bits_inj'. intros i Hi. rewrite Z.land_spec, Z.bits_0.
  destruct (Z.lt_ge_cases i w).
  - by rewrite Z.mul_pow2_bits_low.
  - by rewrite (bits_above w lo), andb_false_r.
Qed.

(** ** Hint databases *)

Create HintDb machine.
#[export] Hint Resolve u32_range u64_range : machine.

(** Linear arithmetic with the equations of [/] and [mod]. *)
Ltac divlia := Z.div_mod_to_equations; lia.

(** The same with the ranges of machine integers unfolded. *)
Ltac mlia := unfold is_u32, is_u64, is_byte in *; lia.

(** ** Total array accesses

    Go arrays have a fixed length and the indices of the source are constants
    within it, so [x[i]] is the total lookup. *)

Lemma Forall_insert_total {A} (P : A -> Prop) (l : list A) i x :
  Forall P l -> P x -> Forall P (<[i:=x]> l).
Proof. intros Hl Hx. by apply Forall_insert. Qed.

Lemma Forall_lookup_total {A} `{Inhabited A} (P : A -> Prop) (l : list A) i :
  (i < length l)%nat -> Forall P l -> P (l !!! i).
Proof. intros Hi Hl. apply (Forall_lookup_1 P l i); [done|]. by apply list_lookup_lookup_total_lt. Qed.

#[export] Hint Resolve Forall_insert_total : machine.

Lemma Forall_mp {A} (P Q : A -> Prop) l : Forall (fun x => P x -> Q x) l -> Forall P l -> Forall Q l.
Proof. rewrite !Forall_forall. auto. Qed.

(** ** Sorting

    The sorted list is unique under a total order, so the algorithm of the
    source's [sort] package does not matter. *)
Section Sorting.
Context {A : Type} (leb : A -> A -> bool).

Fixpoint insert_sorted (x : A) (l : list A) : list A :=
  match l with
  | [] => [x]
  | y :: l' => if leb x y then x :: l else y :: insert_sorted x l'
  end.

Definition isort (l : list A) : list A := foldr insert_sorted [] l.

Lemma insert_sorted_perm x l : insert_sorted x l ≡ₚ x :: l.
Proof. induction l as [|y l IH]; cbn; [done|]. destruct (leb x y); [done|]. rewrite IH. constructor. Qed.

Lemma isort_perm l : isort l ≡ₚ l.
Proof. induction l as [|x l IH]; cbn; [done|]. by rewrite insert_sorted_perm, IH. Qed.

Context (Htrans : forall a b c, leb a b = true -> leb b c = true -> leb a c = true).
Context (Htotal : forall a b, leb a b = true \/ leb b a = true).

Lemma insert_sorted_ok x l : StronglySorted (fun a b => leb a b = true) l ->
  StronglySorted (fun a b => leb a b = true) (insert_sorted x l).
Proof.
  induction 1 as [|y l Hl IH Hy]; cbn; [by repeat constructor|]. destruct (leb x y) eqn:E.
  - constructor; [by constructor|]. constructor; [done|]. eapply Forall_impl; [exact Hy|]. intros z Hz. by eapply Htrans.
  - constructor; [done|]. rewrite insert_sorted_perm. constructor; [|done]. by destruct (Htotal x y); congruence.
Qed.

Lemma isort_sorted l : StronglySorted (fun a b => leb a b = true) (isort l).
Proof. induction l as [|x l IH]; cbn; [constructor|]. by apply insert_sorted_ok. Qed.

End Sorting.

(** Sorting by a key. *)
Lemma map_isort_sorted {A K} (key : A -> K) (leb : K -> K -> bool) l :
  (forall a b c, leb a b = true -> leb b c = true -> leb a c = true) -> (forall a b, leb a b = true \/ leb b a = true) ->
  StronglySorted (fun a b => leb a b = true) (map key (isort (fun a b => leb (key a) (key b)) l)).
Proof.
  intros Ht Hto. assert (StronglySorted (fun a b => leb (key a) (key b) = true) (isort (fun a b => leb (key a) (key b)) l)) as Hs.
  { apply isort_sorted; [intros a b d; apply Ht|intros a b; apply Hto]. }
  induction Hs as [|x k _ IH Hx]; cbn [map]; constructor; [done|]. by apply Forall_map.
Qed.

Lemma NoDup_map_inj {A B} (f : A -> B) l x y : NoDup (map f l) -> x ∈ l -> y ∈ l -> f x = f y -> x = y.
Proof.
  intros Hn (i & Hi)%list_elem_of_lookup (j & Hj)%list_elem_of_lookup Hf.
  assert (i = j) as ->; [|congruence]. eapply NoDup_lookup; [exact Hn|..].
  - apply list_lookup_fmap_Some. eauto.
  - apply list_lookup_fmap_Some. exists y. eauto.
Qed.

(** Sums of weights over a list, of which one entry changes. *)
Lemma sum_list_insert {A} (f : A -> nat) i x y l : l !! i = Some x ->
  (sum_list (f <$> <[i := y]> l) + f x = sum_list (f <$> l) + f y)%nat.
Proof.
  revert i. induction l as [|z l IH]; intros [|i] Hi; try done; cbn in Hi.
  - simplify_eq. change (<[0%nat := y]> (x :: l)) with (y :: l). unfold sum_list. rewrite !fmap_cons. cbn [sum_list_with]. unfold id. lia.
  - specialize (IH i Hi). change (<[S i := y]> (z :: l)) with (z :: <[i := y]> l).
    unfold sum_list in *. rewrite !fmap_cons. cbn [sum_list_with]. unfold id at 1 3. lia.
Qed.

Lemma sum_list_bound {A} (f : A -> nat) n l : Forall (fun x => (f x <= n)%nat) l -> (sum_list (f <$> l) <= n * length l)%nat.
Proof.
  intros Hl. induction Hl as [|x l Hx _ IH]; [cbn; lia|]. unfold sum_list in *. rewrite fmap_cons. cbn [sum_list_with length]. unfold id at 1. lia.
Qed.
