(* ===== verification/ChaCha20.v ===== *)
(** * The ChaCha20 random generator (pkg/chacha20/chacha20_rng.go) *)

From S2P Require Import Prelude.

Record ChaCha20Rng := mkRng {
  state : list Z;   (* [16]uint32 *)
  buf : list Z;     (* [64]byte *)
  bufPos : Z;
}.

Definition rotl32 (v n : Z) : Z :=
  Z.lor (u32 (Z.shiftl v n)) (Z.shiftr v (32 - n)).

Definition quarterRound (x : list Z) (a b c d : nat) : list Z :=
  let x := <[a := u32 (x !!! a + x !!! b)]> x in
  let x := <[d := Z.lxor (x !!! d) (x !!! a)]> x in
  let x := <[d := rotl32 (x !!! d) 16]> x in

  let x := <[c := u32 (x !!! c + x !!! d)]> x in
  let x := <[b := Z.lxor (x !!! b) (x !!! c)]> x in
  let x := <[b := rotl32 (x !!! b) 12]> x in

  let x := <[a := u32 (x !!! a + x !!! b)]> x in
  let x := <[d := Z.lxor (x !!! d) (x !!! a)]> x in
  let x := <[d := rotl32 (x !!! d) 8]> x in

  let x := <[c := u32 (x !!! c + x !!! d)]> x in
  let x := <[b := Z.lxor (x !!! b) (x !!! c)]> x in
  let x := <[b := rotl32 (x !!! b) 7]> x in
  x.

(** The body of the loop of [refillBlock]: four column rounds, then four
    diagonal rounds. *)
Definition doubleRound (x : list Z) : list Z :=
  let x := quarterRound x 0 4 8 12 in
  let x := quarterRound x 1 5 9 13 in
  let x := quarterRound x 2 6 10 14 in
  let x := quarterRound x 3 7 11 15 in

  let x := quarterRound x 0 5 10 15 in
  let x := quarterRound x 1 6 11 12 in
  let x := quarterRound x 2 7 8 13 in
  quarterRound x 3 4 9 14.

(** [binary.LittleEndian.PutUint32] and [binary.LittleEndian.Uint32]. *)
Definition PutUint32 (v : Z) : list Z :=
  [wrap 8 v; wrap 8 (Z.shiftr v 8); wrap 8 (Z.shiftr v 16); wrap 8 (Z.shiftr v 24)].

Definition Uint32 (b : list Z) : Z :=
  Z.lor (b !!! 0%nat) (Z.lor (Z.shiftl (b !!! 1%nat) 8)
    (Z.lor (Z.shiftl (b !!! 2%nat) 16) (Z.shiftl (b !!! 3%nat) 24))).

(** The part of [refillBlock] that computes the key stream block of a state:
    20 rounds, the feed-forward addition and the little-endian serialization. *)
Definition block (st : list Z) : list Z :=
  let x := Nat.iter 10 doubleRound st in
  let x := zip_with (fun xi si => u32 (xi + si)) x st in
  flat_map PutUint32 x.

Definition incrementCounter (st : list Z) : list Z :=
  let st := <[12%nat := u32 (st !!! 12%nat + 1)]> st in
  if st !!! 12%nat =? 0
  then <[13%nat := u32 (st !!! 13%nat + 1)]> st
  else st.

Definition refillBlock (r : ChaCha20Rng) : ChaCha20Rng :=
  {| state := incrementCounter (state r); buf := block (state r); bufPos := 0 |}.

Definition New (seed : list Z) : ChaCha20Rng :=
  let key := map (fun i => Uint32 (take 4 (drop (i * 4) seed))) (seq 0 8) in
  {| state := [0x61707865; 0x3320646e; 0x79622d32; 0x6b206574] ++ key ++ [0; 0; 0; 0];
     buf := replicate 64 0;
     bufPos := 64 |}.

(** [FillBytes(dst)] with [len(dst) = n]: the bytes written into [dst] and the
    generator after the call. Every iteration writes at least one byte, so [n]
    iterations are enough (proved in [FillBytes_spec]); [None] means that the
    fuel ran out. *)
Fixpoint fill_loop (fuel : nat) (r : ChaCha20Rng) (n : nat) : option (list Z * ChaCha20Rng) :=
  match n with
  | O => Some ([], r)
  | _ =>
    match fuel with
    | O => None
    | S fuel =>
      let r := if bufPos r =? Z.of_nat (length (buf r)) then refillBlock r else r in
      let k := (length (buf r) - Z.to_nat (bufPos r))%nat in
      let k := if (n <? k)%nat then n else k in
      let chunk := take k (drop (Z.to_nat (bufPos r)) (buf r)) in
      let r := {| state := state r; buf := buf r; bufPos := bufPos r + Z.of_nat k |} in
      match fill_loop fuel r (n - k) with
      | Some (rest, r') => Some (chunk ++ rest, r')
      | None => None
      end
    end
  end.

Definition FillBytes (r : ChaCha20Rng) (n : nat) : option (list Z * ChaCha20Rng) :=
  fill_loop n r n.

Definition Counter (r : ChaCha20Rng) : Z :=
  Z.lor (Z.shiftl (state r !!! 13%nat) 32) (state r !!! 12%nat).

Definition SetCounter (r : ChaCha20Rng) (counter : Z) : ChaCha20Rng :=
  let st := <[12%nat := u32 counter]> (state r) in
  let st := <[13%nat := u32 (Z.shiftr counter 32)]> st in
  {| state := st; buf := buf r; bufPos := Z.of_nat (length (buf r)) |}.

Definition DiscardBytesFast (r : ChaCha20Rng) (n : Z) : ChaCha20Rng :=
  if n =? 0 then r else
  let len := Z.of_nat (length (buf r)) in
  let avail := len - bufPos r in
  if (bufPos r <? len) && (n <? avail)
  then {| state := state r; buf := buf r; bufPos := bufPos r + n |}
  else
    let '(r, n) :=
      if bufPos r <? len
      then ({| state := state r; buf := buf r; bufPos := len |}, n - avail)
      else (r, n) in
    let blocks := n / 64 in
    let rem := n mod 64 in
    let r := if 0 <? blocks then SetCounter r (u64 (Counter r + blocks)) else r in
    if 0 <? rem
    then
      let r := refillBlock r in
      {| state := state r; buf := buf r; bufPos := rem |}
    else r.

(** ** Well-formed generators *)

Definition words_ok (x : list Z) : Prop := length x = 16%nat /\ Forall is_u32 x.

Definition wf (r : ChaCha20Rng) : Prop :=
  words_ok (state r) /\ length (buf r) = 64%nat /\ Forall is_byte (buf r) /\ 0 <= bufPos r <= 64.

Lemma rotl32_range v n : is_u32 v -> 0 <= n <= 32 -> is_u32 (rotl32 v n).
Proof.
  intros [Hv0 Hv] Hn. apply (lor_range 32); [lia|apply u32_range|].
  rewrite Z.shiftr_div_pow2 by lia. split; [apply Z.div_pos; [done|apply Z.pow_pos_nonneg; lia]|].
  apply Z.le_lt_trans with v; [|done]. apply Z.div_le_upper_bound; [apply Z.pow_pos_nonneg; lia|].
  pose proof (Z.pow_pos_nonneg 2 (32 - n)). nia.
Qed.

Lemma lxor_u32 a b : is_u32 a -> is_u32 b -> is_u32 (Z.lxor a b).
Proof. apply (lxor_range 32); lia. Qed.

#[local] Hint Resolve rotl32_range lxor_u32 : machine.

Lemma words_get x i : words_ok x -> (i < 16)%nat -> is_u32 (x !!! i).
Proof. intros [Hl HF] Hi. apply Forall_lookup_total; [lia|done]. Qed.

Lemma words_set x i v : words_ok x -> is_u32 v -> words_ok (<[i:=v]> x).
Proof. intros [Hl HF] Hv. split; [by rewrite length_insert|auto with machine]. Qed.

#[local] Hint Resolve words_get words_set : machine.

(** One add-xor-rotate group; a quarter round is four of them. *)
Definition arx (x : list Z) (a b d : nat) (n : Z) : list Z :=
  let x := <[a := u32 (x !!! a + x !!! b)]> x in
  let x := <[d := Z.lxor (x !!! d) (x !!! a)]> x in
  <[d := rotl32 (x !!! d) n]> x.

Lemma arx_ok x a b d n :
  words_ok x -> (a < 16)%nat -> (b < 16)%nat -> (d < 16)%nat -> 0 <= n <= 32 ->
  words_ok (arx x a b d n).
Proof.
  intros Hx Ha Hb Hd Hn. unfold arx.
  assert (words_ok (<[a := u32 (x !!! a + x !!! b)]> x)) as H1 by auto with machine.
  revert H1. generalize (<[a := u32 (x !!! a + x !!! b)]> x). intros y Hy.
  assert (words_ok (<[d := Z.lxor (y !!! d) (y !!! a)]> y)) as H2 by auto with machine.
  auto with machine.
Qed.

Lemma quarterRound_arx x a b c d :
  quarterRound x a b c d = arx (arx (arx (arx x a b d 16) c d b 12) a b d 8) c d b 7.
Proof. reflexivity. Qed.

Lemma quarterRound_ok x a b c d :
  words_ok x -> (a < 16)%nat -> (b < 16)%nat -> (c < 16)%nat -> (d < 16)%nat ->
  words_ok (quarterRound x a b c d).
Proof. intros. rewrite quarterRound_arx. repeat (apply arx_ok; [|lia..]). done. Qed.

Lemma doubleRound_ok x : words_ok x -> words_ok (doubleRound x).
Proof. intros. unfold doubleRound. cbv zeta. repeat (apply quarterRound_ok; [|lia..]). done. Qed.

Lemma rounds_ok k x : words_ok x -> words_ok (Nat.iter k doubleRound x).
Proof. intros Hx. induction k; simpl; auto using doubleRound_ok. Qed.

Lemma PutUint32_bytes v : Forall is_byte (PutUint32 v).
Proof. repeat constructor; apply (wrap_range 8); lia. Qed.

Lemma flat_map_PutUint32 x :
  length (flat_map PutUint32 x) = (4 * length x)%nat /\ Forall is_byte (flat_map PutUint32 x).
Proof.
  induction x as [|v x [IHl IHf]]; [done|]. change (flat_map PutUint32 (v :: x)) with (PutUint32 v ++ flat_map PutUint32 x).
  split; [rewrite length_app, IHl; cbn [length PutUint32]; lia|apply Forall_app_2; auto using PutUint32_bytes].
Qed.

Lemma block_ok st : words_ok st -> length (block st) = 64%nat /\ Forall is_byte (block st).
Proof.
  intros Hst. unfold block. set (y := zip_with _ _ _).
  assert (length y = 16%nat) as Hy.
  { unfold y. rewrite length_zip_with. destruct (rounds_ok 10 st Hst) as [-> _]. by rewrite (proj1 Hst). }
  pose proof (flat_map_PutUint32 y) as [Hl Hf]. by rewrite Hy in Hl.
Qed.

Lemma incrementCounter_ok st : words_ok st -> words_ok (incrementCounter st).
Proof. intros. unfold incrementCounter. case_match; auto with machine. Qed.

Lemma refillBlock_wf r : wf r -> wf (refillBlock r).
Proof.
  intros (Hs & _). destruct (block_ok _ Hs) as [Hl Hb]. unfold wf, refillBlock; cbn [state buf bufPos].
  split; [by apply incrementCounter_ok|]. split; [exact Hl|]. split; [exact Hb|lia].
Qed.

Lemma SetCounter_wf r c : wf r -> wf (SetCounter r c).
Proof.
  intros (Hs & Hl & Hb & Hp). unfold wf, SetCounter; cbn [state buf bufPos].
  split; [auto with machine|]. split; [exact Hl|]. split; [exact Hb|lia].
Qed.

(** ** The counter as one 64-bit number *)

Definition set_ctr (st : list Z) (k : Z) : list Z :=
  <[13%nat := u32 (Z.shiftr k 32)]> (<[12%nat := u32 k]> st).

Lemma set_ctr_ok st k : words_ok st -> words_ok (set_ctr st k).
Proof. intros. unfold set_ctr. auto with machine. Qed.

Lemma set_ctr_set_ctr st j k : set_ctr (set_ctr st j) k = set_ctr st k.
Proof.
  unfold set_ctr. rewrite (list_insert_insert_ne _ 12 13) by done.
  by rewrite !list_insert_insert_eq.
Qed.

Lemma set_ctr_12 st k : words_ok st -> set_ctr st k !!! 12%nat = u32 k.
Proof.
  intros [Hl _]. unfold set_ctr. rewrite list_lookup_total_insert_ne by done.
  apply list_lookup_total_insert_eq. lia.
Qed.

Lemma set_ctr_13 st k : words_ok st -> set_ctr st k !!! 13%nat = u32 (Z.shiftr k 32).
Proof. intros [Hl _]. apply list_lookup_total_insert_eq. rewrite length_insert. lia. Qed.

Lemma wrap_div_split k : u32 (Z.shiftr k 32) * 2 ^ 32 + u32 k = u64 k.
Proof.
  unfold wrap. rewrite Z.shiftr_div_pow2 by lia.
  change (2 ^ 64) with (2 ^ 32 * 2 ^ 32). rewrite Z.rem_mul_r by lia. lia.
Qed.

Lemma set_ctr_u64 st k : set_ctr st (u64 k) = set_ctr st k.
Proof.
  unfold set_ctr. assert (u32 (u64 k) = u32 k) as ->.
  { unfold wrap. apply Z.mod_mod_divide. by exists (2 ^ 32). }
  f_equal. rewrite <- wrap_div_split, Z.shiftr_div_pow2 by lia.
  pose proof (u32_range k). rewrite Z.div_add_l, (Z.div_small (u32 k)) by mlia.
  by rewrite Z.add_0_r, wrap_wrap.
Qed.

Lemma incrementCounter_set_ctr st k :
  words_ok st -> incrementCounter (set_ctr st k) = set_ctr st (k + 1).
Proof.
  intros Hst. unfold incrementCounter. rewrite set_ctr_12 by done.
  rewrite list_lookup_total_insert_eq by (destruct (set_ctr_ok st k Hst); lia).
  rewrite wrap_add_l. destruct (Z.eqb_spec (u32 (k + 1)) 0) as [E|E].
  - rewrite list_lookup_total_insert_ne, set_ctr_13 by done.
    unfold set_ctr.
    rewrite (list_insert_insert_ne _ 12 13), !list_insert_insert_eq by done.
    f_equal. rewrite wrap_add_l. f_equal. rewrite !Z.shiftr_div_pow2 by lia.
    unfold wrap in E. divlia.
  - unfold set_ctr. rewrite (list_insert_insert_ne _ 12 13), list_insert_insert_eq by done.
    f_equal. f_equal. rewrite !Z.shiftr_div_pow2 by lia. unfold wrap in E. divlia.
Qed.

Lemma Counter_set_ctr st k b p : words_ok st -> Counter (mkRng (set_ctr st k) b p) = u64 k.
Proof.
  intros Hst. unfold Counter; cbn [state]. rewrite set_ctr_12, set_ctr_13 by done.
  rewrite lor_shiftl_add by (first [lia | apply u32_range]). apply wrap_div_split.
Qed.

(** ** The key stream and the position of a generator in it *)

(** Byte [p] of the key stream of an initial state: the counter of its block is
    [p / 64], taken modulo 2^64 by [set_ctr]. *)
Definition keystream (st : list Z) (p : Z) : Z :=
  block (set_ctr st (p / 64)) !!! Z.to_nat (p mod 64).

Definition keystream_range (st : list Z) (p n : Z) : list Z := keystream st <$> seqZ p n.

(** [at_pos st r p]: the generator [r], started from the state [st], will
    output byte [p] of the key stream next. Either its buffer is used up and its
    counter is that of the next block, or it holds the block of [p]. *)
Definition loaded (st : list Z) (r : ChaCha20Rng) (p : Z) : Prop :=
  exists k, 0 <= bufPos r < 64 /\ p = 64 * k + bufPos r /\
    state r = set_ctr st (k + 1) /\ buf r = block (set_ctr st k).

Definition drained (st : list Z) (r : ChaCha20Rng) (p : Z) : Prop :=
  exists k, bufPos r = 64 /\ p = 64 * k /\ state r = set_ctr st k /\ length (buf r) = 64%nat.

Definition at_pos (st : list Z) (r : ChaCha20Rng) (p : Z) : Prop :=
  words_ok st /\ 0 <= p /\ (loaded st r p \/ drained st r p).

Lemma keystream_range_app st p n m : 0 <= n -> 0 <= m ->
  keystream_range st p (n + m) = keystream_range st p n ++ keystream_range st (p + n) m.
Proof. intros. unfold keystream_range. by rewrite seqZ_app, fmap_app by done. Qed.

Lemma length_keystream_range st p n : length (keystream_range st p n) = Z.to_nat n.
Proof. unfold keystream_range. by rewrite length_fmap, length_seqZ. Qed.

Lemma keystream_in_block st k b : 0 <= b < 64 ->
  keystream st (64 * k + b) = block (set_ctr st k) !!! Z.to_nat b.
Proof.
  intros Hb. unfold keystream. rewrite (Z.mul_comm 64 k), Z.div_add_l, Z.div_small by lia.
  by rewrite Z.add_0_r, Z.add_comm, Z.mod_add, Z.mod_small by lia.
Qed.

Lemma keystream_chunk st k b n : words_ok st -> 0 <= b -> b + Z.of_nat n <= 64 ->
  take n (drop (Z.to_nat b) (block (set_ctr st k))) = keystream_range st (64 * k + b) (Z.of_nat n).
Proof.
  intros Hst Hb Hn. destruct (block_ok _ (set_ctr_ok st k Hst)) as [Hlen _].
  apply list_eq. intros i. unfold keystream_range.
  rewrite list_lookup_fmap. destruct (decide (i < n)%nat).
  - rewrite lookup_take_lt, lookup_drop, lookup_seqZ_lt by lia. cbn [fmap option_fmap option_map].
    rewrite <- Z.add_assoc, keystream_in_block by lia.
    rewrite Z2Nat.inj_add, Nat2Z.id by lia. apply list_lookup_lookup_total_lt. lia.
  - rewrite lookup_take_ge, lookup_seqZ_ge by lia. done.
Qed.

Lemma refill_loaded st r p : at_pos st r p -> drained st r p -> loaded st (refillBlock r) p.
Proof.
  intros (Hst & _ & _) (k & _ & -> & Hs & _). exists k. unfold refillBlock; cbn [state buf bufPos].
  rewrite Hs, incrementCounter_set_ctr by done. repeat split; lia.
Qed.

(** Moving the read position inside a loaded block. *)
Lemma loaded_advance st r p n :
  words_ok st -> 0 <= p -> loaded st r p -> 0 <= n -> bufPos r + n <= 64 ->
  at_pos st (mkRng (state r) (buf r) (bufPos r + n)) (p + n).
Proof.
  intros Hst Hp (k & Hb & -> & Hs & Hbuf) Hn Hle. split; [done|]. split; [lia|].
  destruct (decide (bufPos r + n = 64)).
  - right. exists (k + 1). cbn [state buf bufPos]. repeat split; [lia..|done|].
    rewrite Hbuf. by apply block_ok, set_ctr_ok.
  - left. exists k. cbn [state buf bufPos]. repeat split; [lia..|done|done].
Qed.

(** ** Reading and skipping *)

Lemma at_pos_buf st r p : at_pos st r p -> length (buf r) = 64%nat /\ 0 <= bufPos r <= 64.
Proof.
  intros (Hst & _ & [(k & Hb & _ & _ & Hbuf)|(k & Hb & _ & _ & Hl)]).
  - rewrite Hbuf. destruct (block_ok _ (set_ctr_ok st k Hst)). split; [done|lia].
  - split; [done|lia].
Qed.

(** The state in which an iteration of [FillBytes] copies: the refill has
    happened if it was needed. *)
Lemma refill_if_drained st r p : at_pos st r p ->
  loaded st (if bufPos r =? Z.of_nat (length (buf r)) then refillBlock r else r) p.
Proof.
  intros Hat. destruct (at_pos_buf _ _ _ Hat) as [-> _].
  destruct Hat as (Hst & Hp & Hc). destruct (Z.eqb_spec (bufPos r) (Z.of_nat 64)) as [E|E].
  - destruct Hc as [(k & Hb & _)|Hd]; [lia|]. apply refill_loaded; [|done]. split_and!; auto.
  - destruct Hc as [|(k & Hb & _)]; [done|lia].
Qed.

Lemma fill_loop_spec st fuel n : forall r p, at_pos st r p -> (n <= fuel)%nat ->
  exists r', fill_loop fuel r n = Some (keystream_range st p (Z.of_nat n), r') /\
             at_pos st r' (p + Z.of_nat n).
Proof.
  revert n. induction fuel as [|fuel IH]; intros [|n] r p Hat Hn; try lia.
  1,2: exists r; rewrite Z.add_0_r; by split.
  pose proof (refill_if_drained _ _ _ Hat) as Hld. cbn [fill_loop].
  set (r1 := if bufPos r =? _ then refillBlock r else r) in *. clearbody r1.
  destruct Hat as (Hst & Hp & _).
  assert (length (buf r1) = 64%nat) as Hlen.
  { apply (at_pos_buf st r1 p). split_and!; auto. }
  pose proof Hld as (k & Hb & Ek & Hs & Hbuf). rewrite Hlen.
  set (c := if (S n <? 64 - Z.to_nat (bufPos r1))%nat then S n else (64 - Z.to_nat (bufPos r1))%nat).
  assert ((1 <= c <= S n)%nat /\ Z.of_nat c <= 64 - bufPos r1) as [Hc1 Hc2].
  { unfold c. destruct (Nat.ltb_spec (S n) (64 - Z.to_nat (bufPos r1))); lia. }
  destruct (IH (S n - c)%nat (mkRng (state r1) (buf r1) (bufPos r1 + Z.of_nat c)) (p + Z.of_nat c))
    as (r' & -> & Hat'); [apply loaded_advance; try done; lia|lia|].
  exists r'. rewrite Hbuf, keystream_chunk, <- Ek by (done || lia).
  rewrite <- keystream_range_app by lia. split; [|replace (p + Z.of_nat (S n)) with (p + Z.of_nat c + Z.of_nat (S n - c)) by lia; done].
  do 3 f_equal. lia.
Qed.

Lemma FillBytes_at st r p n : at_pos st r p ->
  exists r', FillBytes r n = Some (keystream_range st p (Z.of_nat n), r') /\
             at_pos st r' (p + Z.of_nat n).
Proof. intros. by apply fill_loop_spec. Qed.

(** Skipping [n] bytes from a drained buffer: the jump over whole blocks and the
    bytes of the last one. *)
Definition skip_blocks (r : ChaCha20Rng) (n : Z) : ChaCha20Rng :=
  let r := if 0 <? n / 64 then SetCounter r (u64 (Counter r + n / 64)) else r in
  if 0 <? n mod 64
  then let r := refillBlock r in mkRng (state r) (buf r) (n mod 64)
  else r.

Lemma SetCounter_drained st r p b : at_pos st r p -> drained st r p -> 0 <= b ->
  drained st (SetCounter r (u64 (Counter r + b))) (p + 64 * b).
Proof.
  intros (Hst & _ & _) (k & Hb & -> & Hs & Hl) Hb0. exists (k + b).
  unfold SetCounter; cbn [state buf bufPos]. rewrite Hl. split; [done|]. split; [lia|]. split; [|done].
  destruct r as [s bf bp]; cbn [state buf bufPos] in *. subst s. rewrite Counter_set_ctr by done.
  rewrite wrap_add_l. fold (set_ctr (set_ctr st k) (u64 (k + b))).
  by rewrite set_ctr_set_ctr, set_ctr_u64.
Qed.

Lemma skip_blocks_at st r p n : at_pos st r p -> drained st r p -> 0 <= n ->
  at_pos st (skip_blocks r n) (p + n).
Proof.
  intros Hat Hd Hn. pose proof Hat as (Hst & Hp & _). unfold skip_blocks.
  set (r1 := if 0 <? n / 64 then _ else r).
  assert (0 <= n / 64) by (apply Z.div_pos; lia).
  assert (drained st r1 (p + 64 * (n / 64))) as Hd1.
  { unfold r1. destruct (Z.ltb_spec 0 (n / 64)); [by apply SetCounter_drained|].
    by replace (p + 64 * (n / 64)) with p by lia. }
  assert (at_pos st r1 (p + 64 * (n / 64))) as Hat1 by (split_and!; [done|lia|auto]).
  clearbody r1. pose proof (Z.div_mod n 64 ltac:(lia)). pose proof (Z.mod_pos_bound n 64 ltac:(lia)).
  destruct (Z.ltb_spec 0 (n mod 64)).
  - pose proof (refill_loaded _ _ _ Hat1 Hd1) as Hl.
    replace (p + n) with (p + 64 * (n / 64) + n mod 64) by lia.
    apply (loaded_advance st (refillBlock r1)); try done; unfold refillBlock; cbn [bufPos]; lia.
  - by replace (p + n) with (p + 64 * (n / 64)) by lia.
Qed.

Lemma DiscardBytesFast_at st r p n : at_pos st r p -> 0 <= n ->
  at_pos st (DiscardBytesFast r n) (p + n).
Proof.
  intros Hat Hn. unfold DiscardBytesFast. destruct (at_pos_buf _ _ _ Hat) as [Hlen Hbp].
  rewrite Hlen. pose proof Hat as (Hst & Hp & Hc).
  destruct (Z.eqb_spec n 0) as [->|]; [by rewrite Z.add_0_r|].
  change (Z.of_nat 64) with 64. destruct (Z.ltb_spec (bufPos r) 64); cbn [andb].
  - assert (loaded st r p) as Hl by (destruct Hc as [|(k & ? & _)]; [done|lia]).
    destruct (Z.ltb_spec n (64 - bufPos r)); [apply loaded_advance; try done; lia|].
    pose proof (loaded_advance st r p (64 - bufPos r) Hst Hp Hl ltac:(lia) ltac:(lia)) as Hat'.
    replace (bufPos r + (64 - bufPos r)) with 64 in Hat' by lia.
    replace (p + n) with (p + (64 - bufPos r) + (n - (64 - bufPos r))) by lia.
    apply skip_blocks_at; [done| |lia].
    destruct Hat' as (_ & _ & [(k & Hk & _)|Hd]); [cbn in Hk; lia|done].
  - apply skip_blocks_at; [done| |lia].
    destruct Hc as [(k & ? & _)|]; [lia|done].
Qed.

(** ** Runs of a generator

    The abstract specification is a cursor [p] into the key stream of the seed:
    reading [n] bytes and skipping [n] bytes both move it by [n], and setting
    the counter moves it to the first byte of a block. [run seed r p] says that
    [r] is reached from [New seed] by the exported operations while the abstract
    cursor went to [p]. *)
Definition is_seed (seed : list Z) : Prop := length seed = 32%nat /\ Forall is_byte seed.

Inductive run (seed : list Z) : ChaCha20Rng -> Z -> Prop :=
| run_new : run seed (New seed) 0
| run_fill r p n out r' :
    run seed r p -> FillBytes r n = Some (out, r') -> run seed r' (p + Z.of_nat n)
| run_discard r p n : run seed r p -> is_u64 n -> run seed (DiscardBytesFast r n) (p + n)
| run_set r p c : run seed r p -> is_u64 c -> run seed (SetCounter r c) (64 * c).

Lemma Uint32_range b : Forall is_byte b -> (4 <= length b)%nat -> is_u32 (Uint32 b).
Proof.
  intros Hb Hl. unfold Uint32.
  assert (forall i, (i < 4)%nat -> is_byte (b !!! i)) as Hi
    by (intros; apply Forall_lookup_total; [lia|done]).
  assert (forall i s, (i < 4)%nat -> 0 <= s <= 24 -> 0 <= Z.shiftl (b !!! i) s < 2 ^ 32) as Hsh.
  { intros i sh Hi4 Hs. specialize (Hi i Hi4). rewrite Z.shiftl_mul_pow2 by lia.
    assert (2 ^ sh <= 2 ^ 24) by (apply Z.pow_le_mono_r; lia).
    pose proof (Z.pow_pos_nonneg 2 sh). unfold is_byte in Hi. nia. }
  specialize (Hi 0%nat ltac:(lia)).
  repeat (apply (lor_range 32); [lia|..]); [unfold is_byte in Hi; lia|apply Hsh; lia..].
Qed.

Lemma New_words_ok seed : is_seed seed -> words_ok (state (New seed)).
Proof.
  intros [Hl Hb]. split; [done|]. cbn [New state].
  repeat (apply Forall_cons; split; [unfold is_u32; lia|]). apply Forall_app_2.
  - apply Forall_fmap, Forall_forall. intros i Hi. apply Uint32_range.
    + by apply Forall_take, Forall_drop.
    + apply elem_of_seq in Hi. rewrite length_take, length_drop. lia.
  - repeat (apply Forall_cons; split; [unfold is_u32; lia|]). by apply Forall_nil.
Qed.

Lemma New_at seed : is_seed seed -> at_pos (state (New seed)) (New seed) 0.
Proof.
  intros Hs. split; [by apply New_words_ok|]. split; [lia|]. right. by exists 0.
Qed.

Lemma SetCounter_at st r p c : at_pos st r p -> 0 <= c -> at_pos st (SetCounter r c) (64 * c).
Proof.
  intros Hat Hc. destruct (at_pos_buf _ _ _ Hat) as [Hl _]. destruct Hat as (Hst & _ & Hcase).
  split; [done|]. split; [lia|]. right. exists c. unfold SetCounter; cbn [state buf bufPos].
  rewrite Hl. split; [done|]. split; [done|]. split; [|done].
  fold (set_ctr (state r) c).
  destruct Hcase as [(k & _ & _ & -> & _)|(k & _ & _ & -> & _)]; apply set_ctr_set_ctr.
Qed.

Lemma run_at seed r p : is_seed seed -> run seed r p -> at_pos (state (New seed)) r p.
Proof.
  intros Hs Hr. induction Hr as [|r p n out r' _ IH Hf|r p n _ IH Hn|r p c _ IH Hc].
  - by apply New_at.
  - destruct (FillBytes_at _ _ _ n IH) as (r2 & Hf2 & Hat). by simplify_eq.
  - apply DiscardBytesFast_at; [done|mlia].
  - eapply SetCounter_at; [done|mlia].
Qed.

(** Two generators that no read can tell apart. *)
Definition rng_equiv (r1 r2 : ChaCha20Rng) : Prop :=
  forall n, fst <$> FillBytes r1 n = fst <$> FillBytes r2 n.

#[export] Instance rng_equiv_equivalence : Equivalence rng_equiv.
Proof. split; red; unfold rng_equiv; intros; naive_solver congruence. Qed.

#[export] Instance FillBytes_bytes_proper (n : nat) :
  Proper (rng_equiv ==> eq) (fun r => fst <$> FillBytes r n).
Proof. intros r1 r2 H. apply H. Qed.

Lemma at_pos_equiv st r1 r2 p : at_pos st r1 p -> at_pos st r2 p -> rng_equiv r1 r2.
Proof.
  intros H1 H2 n. destruct (FillBytes_at _ _ _ n H1) as (? & -> & _).
  by destruct (FillBytes_at _ _ _ n H2) as (? & -> & _).
Qed.

(** C7: [FillBytes] always returns, and a generator reached by any sequence of
    reads, skips and counter changes produces exactly the bytes of the key
    stream that the abstract cursor points at. *)
Theorem FillBytes_refines_cursor seed r p n :
  is_seed seed -> run seed r p ->
  exists r', FillBytes r n = Some (keystream_range (state (New seed)) p (Z.of_nat n), r').
Proof.
  intros Hs Hr. destruct (FillBytes_at _ _ _ n (run_at _ _ _ Hs Hr)) as (r' & Hf & _). eauto.
Qed.

(** The fast skip is equivalent to reading and dropping the bytes: after
    it, no read can tell the generator from one that produced them. *)
Theorem DiscardBytesFast_equiv_read seed r p n out r1 :
  is_seed seed -> run seed r p -> is_u64 n ->
  FillBytes r (Z.to_nat n) = Some (out, r1) ->
  rng_equiv (DiscardBytesFast r n) r1.
Proof.
  intros Hs Hr Hn Hf. apply (at_pos_equiv (state (New seed)) _ _ (p + n)).
  - apply run_at; [done|]. by constructor.
  - replace n with (Z.of_nat (Z.to_nat n)) by mlia. apply run_at; [done|]. by econstructor.
Qed.

Definition seed0 : list Z := map Z.of_nat (seq 0 32).

Lemma seed0_ok : is_seed seed0.
Proof. split; [done|]. apply (bool_decide_unpack _). vm_compute. done. Qed.

(** ** Every operation keeps the generator well formed *)

Lemma advance_wf r k : wf r -> 0 <= k <= 64 - bufPos r -> wf (mkRng (state r) (buf r) (bufPos r + k)).
Proof. intros (Hs & Hl & Hb & Hp) Hk. split_and!; cbn [state buf bufPos]; (done || lia). Qed.

Lemma fill_loop_wf fuel : forall n r out r',
  wf r -> fill_loop fuel r n = Some (out, r') -> wf r' /\ length out = n /\ Forall is_byte out.
Proof.
  induction fuel as [|fuel IH]; intros [|n] r out r' Hwf Hf; try done.
  1,2: cbn [fill_loop] in Hf; by simplify_eq.
  cbn [fill_loop] in Hf. set (r1 := if bufPos r =? _ then refillBlock r else r) in *.
  assert (wf r1) as Hwf1 by (unfold r1; destruct (_ =? _); [by apply refillBlock_wf|done]). clearbody r1.
  pose proof Hwf1 as (Hs & Hl & Hb & Hp). rewrite Hl in Hf.
  set (c := if (S n <? _)%nat then S n else _) in *.
  assert ((c <= S n)%nat /\ Z.of_nat c <= 64 - bufPos r1) as [Hc1 Hc2].
  { unfold c. destruct (Nat.ltb_spec (S n) (64 - Z.to_nat (bufPos r1))); lia. }
  destruct (fill_loop fuel _ (S n - c)) as [[rest r2]|] eqn:E; [|done]. simplify_eq.
  apply IH in E as (Hwf2 & Hlr & Hbr); [|apply advance_wf; [done|lia]]. split; [done|].
  rewrite length_app, length_take, length_drop, Hl, Hlr. split; [lia|].
  apply Forall_app_2; [by apply Forall_take, Forall_drop|done].
Qed.

Lemma DiscardBytesFast_wf r n : wf r -> 0 <= n -> wf (DiscardBytesFast r n).
Proof.
  intros Hwf Hn. pose proof Hwf as (Hs & Hl & Hb & Hp). unfold DiscardBytesFast. rewrite Hl.
  assert (forall r m, wf r -> wf (skip_blocks r m)) as Hskip.
  { intros r1 m Hr1. unfold skip_blocks. pose proof (Z.mod_pos_bound m 64 ltac:(lia)).
    set (r2 := if 0 <? m / 64 then _ else r1).
    assert (wf r2) as Hr2 by (unfold r2; destruct (0 <? _); [by apply SetCounter_wf|done]).
    destruct (0 <? m mod 64); [|done]. apply refillBlock_wf in Hr2 as (? & ? & ? & ?).
    split_and!; cbn [state buf bufPos]; (done || lia). }
  destruct (n =? 0) eqn:E0; [done|]. change (Z.of_nat 64) with 64.
  destruct (Z.ltb_spec (bufPos r) 64); cbn [andb].
  - destruct (Z.ltb_spec n (64 - bufPos r)); [apply advance_wf; [done|lia]|].
    apply Hskip. split_and!; cbn [state buf bufPos]; (done || lia).
  - by apply Hskip.
Qed.

(** C32: the type invariant of a generator: in every state reached from [New]
    by reads, skips and counter changes the sixteen words are 32-bit, the
    buffer holds 64 bytes and the read position stays inside it. *)
Theorem run_wf seed r p : is_seed seed -> run seed r p -> wf r.
Proof.
  intros Hs Hr. induction Hr as [|r p n out r' _ IH Hf|r p n _ IH Hn|r p c _ IH Hc].
  - split; [by apply New_words_ok|]. split; [done|].
    split; [apply Forall_replicate; unfold is_byte; lia|cbn; lia].
  - by apply fill_loop_wf in Hf as [? _].
  - apply DiscardBytesFast_wf; [done|mlia].
  - by apply SetCounter_wf.
Qed.

(** ** Witnesses *)

Lemma run_seed0_100 : run seed0 (DiscardBytesFast (New seed0) 100) 100.
Proof. apply (run_discard seed0 (New seed0) 0 100); [apply run_new|unfold is_u64; lia]. Defined.

Lemma FillBytes_refines_cursor_witness :
  exists r', FillBytes (DiscardBytesFast (New seed0) 100) 32 =
    Some (keystream_range (state (New seed0)) 100 32, r').
Proof. exact (FillBytes_refines_cursor seed0 _ 100 32 seed0_ok run_seed0_100). Defined.

Lemma DiscardBytesFast_equiv_read_witness :
  exists out r1, FillBytes (New seed0) 100 = Some (out, r1) /\
    rng_equiv (DiscardBytesFast (New seed0) 100) r1.
Proof.
  destruct (FillBytes (New seed0) 100) as [[out r1]|] eqn:E; [|vm_compute in E; discriminate].
  exists out, r1. split; [reflexivity|].
  apply (DiscardBytesFast_equiv_read seed0 (New seed0) 0 100 out r1 seed0_ok (run_new seed0)).
  - unfold is_u64; lia.
  - exact E.
Defined.

Lemma run_wf_witness : wf (DiscardBytesFast (New seed0) 100).
Proof. exact (run_wf seed0 _ 100 seed0_ok run_seed0_100). Defined.
