(* ===== verification/GoStrings.v ===== *)
(** * Go strings: the functions of package [strings] the plugins call

    A Go string is a sequence of bytes, which is what Rocq's [string] (a
    sequence of 8-bit [ascii]) is. A [[]byte] is a [list Z] of values below
    256. [len] is the number of bytes. *)

From S2P Require Import Prelude.
From Stdlib Require Export Ascii.

#[global] Open Scope string_scope.
#[global] Open Scope list_scope.
#[global] Open Scope Z_scope.

(** ** Bytes *)

Definition byte_of (c : ascii) : Z := Z.of_N (N_of_ascii c).
Definition char_of (b : Z) : ascii := ascii_of_N (Z.to_N b).

Fixpoint bytes_of_string (s : string) : list Z :=
  match s with
  | "" => []
  | String c s => byte_of c :: bytes_of_string s
  end.

Fixpoint string_of_bytes (b : list Z) : string :=
  match b with
  | [] => ""
  | z :: b => String (char_of z) (string_of_bytes b)
  end.

Lemma byte_of_range c : is_byte (byte_of c).
Proof. unfold is_byte, byte_of. pose proof (N_ascii_bounded c). lia. Qed.

Lemma char_of_byte_of c : char_of (byte_of c) = c.
Proof. unfold char_of, byte_of. rewrite N2Z.id. apply ascii_N_embedding. Qed.

Lemma byte_of_char_of z : is_byte z -> byte_of (char_of z) = z.
Proof. unfold is_byte, byte_of, char_of. intros. rewrite N_ascii_embedding by lia. lia. Qed.

Lemma byte_of_inj c d : byte_of c = byte_of d -> c = d.
Proof. intros H. by rewrite <- (char_of_byte_of c), H, char_of_byte_of. Qed.

Lemma bytes_of_string_range s : Forall is_byte (bytes_of_string s).
Proof. induction s; cbn; constructor; auto using byte_of_range. Qed.

Lemma string_of_bytes_of_string s : string_of_bytes (bytes_of_string s) = s.
Proof. induction s as [|c s IH]; cbn; [done|]. by rewrite char_of_byte_of, IH. Qed.

Lemma bytes_of_string_of_bytes b : Forall is_byte b -> bytes_of_string (string_of_bytes b) = b.
Proof. induction 1 as [|z b Hz _ IH]; cbn; [done|]. by rewrite byte_of_char_of, IH. Qed.

Lemma length_bytes_of_string s : length (bytes_of_string s) = String.length s.
Proof. induction s; cbn; congruence. Qed.

Lemma length_string_of_bytes b : String.length (string_of_bytes b) = length b.
Proof. induction b; cbn; congruence. Qed.

(** ** Concatenation and predicates on all characters *)

Lemma append_assoc (a b c : string) : (a +:+ b) +:+ c = a +:+ b +:+ c.
Proof. induction a as [|x a IH]; [done|]. change (String x ((a +:+ b) +:+ c) = String x (a +:+ b +:+ c)). by rewrite IH. Qed.

Lemma append_nil_r (a : string) : a +:+ "" = a.
Proof. induction a as [|x a IH]; [done|]. change (String x (a +:+ "") = String x a). by rewrite IH. Qed.

Lemma append_cons c (a b : string) : String c a +:+ b = String c (a +:+ b).
Proof. done. Qed.

Lemma length_append (a b : string) : String.length (a +:+ b) = (String.length a + String.length b)%nat.
Proof. induction a as [|x a IH]; [done|]. rewrite append_cons. cbn [String.length]. lia. Qed.

Lemma append_inj_l (a b c : string) : a +:+ b = a +:+ c -> b = c.
Proof. induction a as [|x a IH]; [done|]. rewrite !append_cons. intros [= H]. auto. Qed.

Lemma append_inj_same_len (a b c d : string) :
  String.length a = String.length b -> a +:+ c = b +:+ d -> a = b /\ c = d.
Proof.
  revert b. induction a as [|x a IH]; intros [|y b] Hl; try done.
  rewrite !append_cons. intros [= -> H]. cbn in Hl. destruct (IH b) as [-> ->]; auto.
Qed.

Fixpoint all_chars (f : ascii -> bool) (s : string) : bool :=
  match s with
  | "" => true
  | String c s => f c && all_chars f s
  end.

Lemma all_chars_append f (a b : string) : all_chars f (a +:+ b) = all_chars f a && all_chars f b.
Proof. induction a as [|c a IH]; [done|]. rewrite append_cons. cbn. by rewrite IH, andb_assoc. Qed.

Lemma all_chars_impl (f g : ascii -> bool) s :
  (forall c, f c = true -> g c = true) -> all_chars f s = true -> all_chars g s = true.
Proof.
  intros Hfg. induction s as [|c s IH]; cbn; [done|].
  rewrite !andb_true_iff. intros [Hc Hs]. auto.
Qed.

Definition in_range (lo hi : ascii) (c : ascii) : bool :=
  (byte_of lo <=? byte_of c) && (byte_of c <=? byte_of hi).

Definition alnum (c : ascii) : bool :=
  in_range "A" "Z" c || in_range "a" "z" c || in_range "0" "9" c.

(** ** [strings.HasPrefix], [TrimPrefix], [HasSuffix], [TrimSuffix] *)

Definition HasPrefix (s p : string) : bool := String.prefix p s.

Fixpoint drop_chars (n : nat) (s : string) : string :=
  match n, s with
  | S n, String _ s => drop_chars n s
  | _, _ => s
  end.

Definition TrimPrefix (s p : string) : string :=
  if HasPrefix s p then drop_chars (String.length p) s else s.

Fixpoint HasSuffix (s x : string) : bool :=
  String.eqb s x ||
  match s with
  | "" => false
  | String _ s => HasSuffix s x
  end.

(** [s] without its suffix [x], when it has one. *)
Fixpoint CutSuffix (s x : string) : option string :=
  if String.eqb s x then Some "" else
  match s with
  | "" => None
  | String c s => String c <$> CutSuffix s x
  end.

Definition TrimSuffix (s x : string) : string := default s (CutSuffix s x).

Lemma CutSuffix_Some s x r : CutSuffix s x = Some r -> s = r +:+ x.
Proof.
  revert r. induction s as [|c s IH]; intros r; cbn [CutSuffix].
  - destruct (String.eqb_spec "" x) as [<-|]; [by intros [= <-]|done].
  - destruct (String.eqb_spec (String c s) x) as [<-|]; [by intros [= <-]|].
    destruct (CutSuffix s x) as [t|]; [|done]. cbn. intros [= <-]. rewrite append_cons. f_equal. by apply IH.
Qed.

Lemma CutSuffix_append r x : CutSuffix (r +:+ x) x = Some r.
Proof.
  induction r as [|c r IH].
  - change ("" +:+ x) with x. destruct x as [|d x]; cbn [CutSuffix]; by rewrite String.eqb_refl.
  - rewrite append_cons. cbn [CutSuffix]. destruct (String.eqb_spec (String c (r +:+ x)) x) as [He|_]; [|by rewrite IH].
    apply (f_equal String.length) in He. cbn in He. rewrite length_append in He. lia.
Qed.

Lemma prefix_append p s : String.prefix p (p +:+ s) = true.
Proof. induction p as [|c p IH]; [by destruct s|]. rewrite append_cons. cbn. by destruct (ascii_dec c c). Qed.

Lemma HasPrefix_true s p : HasPrefix s p = true <-> exists r, s = p +:+ r.
Proof.
  unfold HasPrefix. split; [|intros [r ->]; apply prefix_append].
  revert s. induction p as [|c p IH]; intros s; [exists s; done|].
  destruct s as [|d s]; [done|]. cbn. destruct (ascii_dec c d) as [->|]; [|done].
  intros [r ->]%IH. by exists r.
Qed.

Lemma drop_chars_append p s : drop_chars (String.length p) (p +:+ s) = s.
Proof. induction p; [by destruct s|done]. Qed.

Lemma TrimPrefix_append p s : TrimPrefix (p +:+ s) p = s.
Proof. unfold TrimPrefix, HasPrefix. by rewrite prefix_append, drop_chars_append. Qed.

(** ** [strings.TrimSpace]

    White space is Unicode's [White_Space] property. Its code points have
    encodings of one, two or three bytes; a byte sequence that is not one of
    these encodings decodes to another rune or to [RuneError]. *)
Definition space1 (a : ascii) : bool :=
  let a := byte_of a in ((9 <=? a) && (a <=? 13)) || (a =? 32).

Definition space2 (a b : ascii) : bool :=
  (byte_of a =? 0xC2) && ((byte_of b =? 0x85) || (byte_of b =? 0xA0)).

Definition space3 (a b c : ascii) : bool :=
  let '(a, b, c) := (byte_of a, byte_of b, byte_of c) in
  ((a =? 0xE1) && (b =? 0x9A) && (c =? 0x80)) ||
  ((a =? 0xE2) && (b =? 0x80) &&
    (((0x80 <=? c) && (c <=? 0x8A)) || (c =? 0xA8) || (c =? 0xA9) || (c =? 0xAF))) ||
  ((a =? 0xE2) && (b =? 0x81) && (c =? 0x9F)) ||
  ((a =? 0xE3) && (b =? 0x80) && (c =? 0x80)).

Fixpoint TrimLeftSpace (s : string) : string :=
  match s with
  | "" => ""
  | String a r =>
    if space1 a then TrimLeftSpace r else
    match r with
    | "" => s
    | String b r2 =>
      if space2 a b then TrimLeftSpace r2 else
      match r2 with
      | "" => s
      | String c r3 => if space3 a b c then TrimLeftSpace r3 else s
      end
    end
  end.

(** The longest suffix made of white space is dropped: the encodings form a
    suffix code, so this is what trimming rune by rune from the end removes. *)
Fixpoint TrimRightSpace (s : string) : string :=
  if String.eqb (TrimLeftSpace s) "" then "" else
  match s with
  | "" => ""
  | String c s => String c (TrimRightSpace s)
  end.

Definition TrimSpace (s : string) : string := TrimRightSpace (TrimLeftSpace s).

(** [strings.Fields]: the words between runs of white space; [word] is the word
    under way. *)
Fixpoint fields_from (word : string) (s : string) : list string :=
  let flush := if String.eqb word "" then [] else [word] in
  match s with
  | "" => flush
  | String a r =>
    if space1 a then flush ++ fields_from "" r else
    match r with
    | "" => [word +:+ s]
    | String b r2 =>
      if space2 a b then flush ++ fields_from "" r2 else
      match r2 with
      | String c r3 => if space3 a b c then flush ++ fields_from "" r3 else fields_from (word +:+ String a "") r
      | "" => fields_from (word +:+ String a "") r
      end
    end
  end.

Definition Fields (s : string) : list string := fields_from "" s.

(** Visible ASCII characters are no white space and start none. *)
Definition visible (c : ascii) : bool := (33 <=? byte_of c) && (byte_of c <=? 126).

Lemma TrimLeftSpace_visible c s : visible c = true -> TrimLeftSpace (String c s) = String c s.
Proof.
  unfold visible. rewrite andb_true_iff, !Z.leb_le. intros [H1 H2]. cbn [TrimLeftSpace].
  assert (space1 c = false) as ->.
  { unfold space1. apply orb_false_iff; split; [apply andb_false_iff; right; lia|lia]. }
  destruct s as [|b s]; [done|].
  assert (space2 c b = false) as ->.
  { unfold space2. apply andb_false_iff; left; lia. }
  destruct s as [|d s]; [done|].
  assert (space3 c b d = false) as ->; [|done].
  unfold space3. repeat (apply orb_false_iff; split).
  all: repeat (apply andb_false_iff; left); lia.
Qed.

Lemma TrimRightSpace_visible s : all_chars visible s = true -> TrimRightSpace s = s.
Proof.
  induction s as [|c s IH]; [done|]. cbn [all_chars]. rewrite andb_true_iff. intros [Hc Hs].
  unfold TrimRightSpace; fold TrimRightSpace. rewrite TrimLeftSpace_visible by done.
  cbn [String.eqb]. by rewrite IH.
Qed.

Lemma TrimSpace_visible s : all_chars visible s = true -> TrimSpace s = s.
Proof.
  intros Hs. unfold TrimSpace. destruct s as [|c s]; [done|].
  rewrite TrimLeftSpace_visible; [by apply TrimRightSpace_visible|].
  cbn in Hs. by apply andb_true_iff in Hs as [-> _].
Qed.

(** ** [strings.Trim] with a cut set of one character *)

Fixpoint TrimLeftChar (x : ascii) (s : string) : string :=
  match s with
  | "" => ""
  | String c r => if Ascii.eqb c x then TrimLeftChar x r else s
  end.

Fixpoint TrimRightChar (x : ascii) (s : string) : string :=
  match s with
  | "" => ""
  | String c s =>
    match TrimRightChar x s with
    | "" => if Ascii.eqb c x then "" else String c ""
    | r => String c r
    end
  end.

Definition TrimChar (x : ascii) (s : string) : string := TrimRightChar x (TrimLeftChar x s).

Definition free_of (x : ascii) (s : string) : bool := all_chars (fun c => negb (Ascii.eqb c x)) s.

(** ** [strings.Split] and [strings.Join] with a separator of one character *)

Fixpoint Split (sep : ascii) (s : string) : list string :=
  match s with
  | "" => [""]
  | String c s =>
    if Ascii.eqb c sep then "" :: Split sep s
    else match Split sep s with
         | h :: t => String c h :: t
         | [] => []
         end
  end.

Fixpoint Join (sep : string) (l : list string) : string :=
  match l with
  | [] => ""
  | [x] => x
  | x :: l => x +:+ sep +:+ Join sep l
  end.

Lemma Split_not_nil sep s : Split sep s <> [].
Proof. induction s as [|c s IH]; cbn; [done|]. case_match; [done|]. by destruct (Split sep s). Qed.

Lemma Split_free sep s : free_of sep s = true -> Split sep s = [s].
Proof.
  unfold free_of. induction s as [|c s IH]; cbn; [done|]. rewrite andb_true_iff, negb_true_iff.
  intros [-> Hs]. by rewrite IH.
Qed.

Lemma Split_append sep a b :
  free_of sep a = true -> Split sep (a +:+ String sep b) = a :: Split sep b.
Proof.
  unfold free_of. induction a as [|c a IH].
  - intros _. change ("" +:+ String sep b) with (String sep b). cbn. by rewrite Ascii.eqb_refl.
  - rewrite append_cons. cbn. rewrite andb_true_iff, negb_true_iff. intros [-> Hs]. by rewrite IH.
Qed.

Lemma Split_all_free sep s : Forall (fun x => free_of sep x = true) (Split sep s).
Proof.
  induction s as [|c s IH]; cbn; [by repeat constructor|].
  destruct (Ascii.eqb c sep) eqn:E; [by constructor|].
  pose proof (Split_not_nil sep s). destruct (Split sep s) as [|h t]; [done|].
  apply Forall_cons in IH as [Hh Ht]. constructor; [|done]. unfold free_of in *. cbn. by rewrite E.
Qed.

Lemma Join_cons sep x y l : Join sep (x :: y :: l) = x +:+ sep +:+ Join sep (y :: l).
Proof. done. Qed.

Lemma Join_Split sep s : Join (String sep "") (Split sep s) = s.
Proof.
  induction s as [|c s IH]; [done|]. cbn [Split]. destruct (Ascii.eqb_spec c sep) as [->|].
  - pose proof (Split_not_nil sep s). destruct (Split sep s) as [|h t]; [done|].
    rewrite Join_cons, IH. done.
  - pose proof (Split_not_nil sep s). destruct (Split sep s) as [|h [|h2 t]]; [done|..].
    + cbn in *. by rewrite IH.
    + rewrite Join_cons in IH |- *. by rewrite append_cons, IH.
Qed.

Lemma Split_Join sep l : l <> [] -> Forall (fun x => free_of sep x = true) l ->
  Split sep (Join (String sep "") l) = l.
Proof.
  intros Hne Hl. induction Hl as [|x l Hx Hl IH]; [done|]. destruct l as [|y l].
  - cbn. by apply Split_free.
  - rewrite Join_cons. change (x +:+ String sep "" +:+ Join (String sep "") (y :: l))
      with (x +:+ String sep (Join (String sep "") (y :: l))).
    rewrite Split_append by done. by rewrite IH.
Qed.

Lemma TrimLeftChar_free x s : free_of x s = true -> TrimLeftChar x s = s.
Proof. unfold free_of. destruct s as [|c s]; cbn; [done|]. rewrite andb_true_iff, negb_true_iff. by intros [-> _]. Qed.

Lemma TrimRightChar_free x s : free_of x s = true -> TrimRightChar x s = s.
Proof.
  unfold free_of. induction s as [|c s IH]; cbn; [done|]. rewrite andb_true_iff, negb_true_iff.
  intros [-> Hs]. rewrite IH by done. by destruct s.
Qed.

Lemma TrimChar_free x s : free_of x s = true -> TrimChar x s = s.
Proof. intros H. unfold TrimChar. by rewrite TrimLeftChar_free, TrimRightChar_free. Qed.

(** ** Package [path] *)

Definition slash : ascii := "/".

(** One element of [path.Clean]; [stack] is the cleaned path so far, last
    element first. *)
Definition clean_step (rooted : bool) (stack : list string) (seg : string) : list string :=
  if String.eqb seg "" || String.eqb seg "." then stack
  else if String.eqb seg ".." then
    match stack with
    | top :: rest => if String.eqb top ".." then ".." :: stack else rest
    | [] => if rooted then [] else [".."]
    end
  else seg :: stack.

Definition Clean (p : string) : string :=
  let rooted := HasPrefix p "/" in
  let segs := rev (fold_left (clean_step rooted) (Split slash p) []) in
  if rooted then "/" +:+ Join "/" segs
  else match segs with [] => "." | _ => Join "/" segs end.

(** [path.Join]. *)
Fixpoint path_Join (elems : list string) : string :=
  match elems with
  | [] => ""
  | e :: rest => if String.eqb e "" then path_Join rest else Clean (Join "/" elems)
  end.

(** A path segment that [Clean] keeps as it is. *)
Definition safe_segment (s : string) : bool :=
  negb (String.eqb s "") && negb (String.eqb s ".") && negb (String.eqb s "..") && free_of slash s.

Lemma safe_segment_free s : safe_segment s = true -> free_of slash s = true.
Proof. unfold safe_segment. rewrite !andb_true_iff. by intros [_ ?]. Qed.

Lemma safe_segments_free l : Forall (fun s => safe_segment s = true) l -> Forall (fun s => free_of slash s = true) l.
Proof. intros H. eapply Forall_impl; [done|]. apply safe_segment_free. Qed.

Lemma clean_step_safe rooted stack s : safe_segment s = true -> clean_step rooted stack s = s :: stack.
Proof.
  unfold safe_segment, clean_step. rewrite !andb_true_iff, !negb_true_iff.
  intros [[[-> ->] ->] _]. done.
Qed.

Lemma clean_fold_safe rooted l : forall stack, Forall (fun s => safe_segment s = true) l ->
  fold_left (clean_step rooted) l stack = rev l ++ stack.
Proof.
  induction l as [|s l IH]; intros stack Hl; cbn; [done|].
  apply Forall_cons in Hl as [Hs Hl]. rewrite clean_step_safe, IH by done.
  by rewrite <- app_assoc.
Qed.

Lemma Clean_rel l : l <> [] -> Forall (fun s => safe_segment s = true) l ->
  HasPrefix (Join "/" l) "/" = false -> Clean (Join "/" l) = Join "/" l.
Proof.
  intros Hne Hl Hp. unfold Clean. rewrite Hp, Split_Join by (done || by apply safe_segments_free).
  rewrite clean_fold_safe, app_nil_r, rev_involutive by done. by destruct l.
Qed.

Lemma Clean_rooted l : l <> [] -> Forall (fun s => safe_segment s = true) l ->
  Clean ("/" +:+ Join "/" l) = "/" +:+ Join "/" l.
Proof.
  intros Hne Hl. unfold Clean. change (HasPrefix ("/" +:+ Join "/" l) "/") with (String.prefix "" (Join "/" l)).
  assert (String.prefix "" (Join "/" l) = true) as -> by (by destruct (Join "/" l)).
  change ("/" +:+ Join "/" l) with (String slash (Join "/" l)) at 1.
  change (Split slash (String slash (Join "/" l))) with ("" :: Split slash (Join "/" l)).
  rewrite Split_Join by (done || by apply safe_segments_free). cbn [fold_left].
  change (clean_step true [] "") with (@nil string).
  by rewrite clean_fold_safe, app_nil_r, rev_involutive.
Qed.

Lemma Join_append l1 l2 : l1 <> [] -> l2 <> [] -> Join "/" (l1 ++ l2) = Join "/" l1 +:+ "/" +:+ Join "/" l2.
Proof.
  intros H1 H2. induction l1 as [|x l1 IH]; [done|]. destruct l1 as [|y l1].
  - destruct l2; done.
  - change ((x :: y :: l1) ++ l2) with (x :: y :: (l1 ++ l2)). rewrite !Join_cons.
    change (y :: (l1 ++ l2)) with ((y :: l1) ++ l2). rewrite IH by done. by rewrite !append_assoc.
Qed.

(** The base paths of a server URL: none, or a rooted clean path. *)
Definition base_path (b : string) : Prop :=
  b = "" \/ exists l, l <> [] /\ Forall (fun s => safe_segment s = true) l /\ b = "/" +:+ Join "/" l.

(** The path under [b] made of the segments [l]. *)
Definition under (b : string) (l : list string) : string :=
  if String.eqb b "" then Join "/" l else b +:+ "/" +:+ Join "/" l.

Lemma HasPrefix_slash_safe l : l <> [] -> Forall (fun s => safe_segment s = true) l ->
  HasPrefix (Join "/" l) "/" = false.
Proof.
  intros Hne Hl. destruct l as [|s l]; [done|]. apply Forall_cons in Hl as [Hs _].
  unfold safe_segment in Hs. rewrite !andb_true_iff, !negb_true_iff in Hs. destruct Hs as [[[Hs _] _] Hf].
  destruct s as [|c s]; [done|]. unfold free_of in Hf. cbn in Hf. apply andb_true_iff in Hf as [Hc _].
  apply negb_true_iff, Ascii.eqb_neq in Hc.
  assert (forall t, HasPrefix (String c t) "/" = false) as Hpre.
  { intros t. unfold HasPrefix, String.prefix. destruct (ascii_dec "/" c); [by destruct Hc|done]. }
  destruct l as [|s' l]; [apply Hpre|]. rewrite Join_cons. apply Hpre.
Qed.

Lemma TrimRightChar_append x a b : TrimRightChar x b <> "" -> TrimRightChar x (a +:+ b) = a +:+ TrimRightChar x b.
Proof.
  intros Hb. induction a as [|c a IH]; [done|]. rewrite append_cons. cbn [TrimRightChar]. rewrite IH, append_cons.
  destruct (a +:+ TrimRightChar x b) eqn:E; [|done]. by destruct a.
Qed.

Lemma TrimLeftChar_Join l : l <> [] -> Forall (fun s => safe_segment s = true) l ->
  TrimLeftChar slash (Join "/" l) = Join "/" l.
Proof.
  intros Hne Hl. pose proof (HasPrefix_slash_safe l Hne Hl) as Hpre. destruct (Join "/" l) as [|c t]; [done|].
  cbn [TrimLeftChar]. destruct (Ascii.eqb_spec c slash) as [->|]; [|done]. by destruct t.
Qed.

Lemma TrimChar_Join l : l <> [] -> Forall (fun s => safe_segment s = true) l -> TrimChar slash (Join "/" l) = Join "/" l.
Proof.
  intros Hne Hl. unfold TrimChar. rewrite TrimLeftChar_Join by done. induction Hl as [|s l Hs Hl IH]; [done|]. destruct l as [|s' l].
  - cbn [Join]. by apply TrimRightChar_free, safe_segment_free.
  - rewrite Join_cons. specialize (IH ltac:(done)).
    assert (Join "/" (s' :: l) <> "") as Hn.
    { apply Forall_cons in Hl as [Hs' _]. destruct s' as [|c s']; [done|]. by destruct l. }
    rewrite TrimRightChar_append, TrimRightChar_append, IH; rewrite ?TrimRightChar_append; rewrite ?IH; done.
Qed.

Lemma TrimRightChar_length x s : (String.length (TrimRightChar x s) <= String.length s)%nat.
Proof.
  induction s as [|c s IH]; cbn [TrimRightChar String.length]; [lia|]. destruct (TrimRightChar x s) eqn:E.
  - destruct (Ascii.eqb c x); cbn; lia.
  - cbn [String.length] in *. lia.
Qed.

Lemma TrimRightChar_suffix s : HasSuffix s "/" = true -> TrimRightChar slash s <> s.
Proof.
  induction s as [|c s IH]; [done|]. cbn [HasSuffix]. intros H Heq.
  destruct (String.eqb_spec (String c s) "/") as [E|_]; [injection E as -> ->; done|]. cbn [orb] in H.
  specialize (IH H). cbn [TrimRightChar] in Heq. pose proof (TrimRightChar_length slash s).
  destruct (TrimRightChar slash s) as [|d r] eqn:Er; [|by injection Heq].
  destruct (Ascii.eqb c slash); [done|]. by injection Heq as <-.
Qed.

Lemma HasSuffix_slash_safe l : l <> [] -> Forall (fun s => safe_segment s = true) l ->
  HasSuffix (Join "/" l) "/" = false.
Proof.
  intros Hne Hl. destruct (HasSuffix (Join "/" l) "/") eqn:E; [|done]. apply TrimRightChar_suffix in E.
  pose proof (TrimChar_Join l Hne Hl) as Ht. unfold TrimChar in Ht. by rewrite TrimLeftChar_Join in Ht.
Qed.

Lemma path_Join_safe b l : base_path b -> l <> [] -> Forall (fun s => safe_segment s = true) l ->
  path_Join (b :: l) = under b l.
Proof.
  intros Hb Hne Hl. unfold under. destruct Hb as [->|(bl & Hbn & Hbl & ->)].
  - destruct l as [|s l]; [done|]. cbn [path_Join String.eqb].
    destruct (String.eqb_spec s "") as [->|].
    + apply Forall_cons in Hl as [Hs _]. done.
    + apply Clean_rel; try done. by apply HasPrefix_slash_safe.
  - change ("/" +:+ Join "/" bl) with (String slash (Join "/" bl)). cbn [path_Join String.eqb].
    assert (Join "/" (String slash (Join "/" bl) :: l) = "/" +:+ Join "/" (bl ++ l)) as ->.
    { destruct l as [|s l]; [done|]. rewrite Join_cons, Join_append by done. done. }
    rewrite Clean_rooted; [by rewrite Join_append|by destruct bl|by apply Forall_app_2].
Qed.

Lemma under_inj b l1 l2 : l1 <> [] -> l2 <> [] ->
  Forall (fun s => safe_segment s = true) l1 -> Forall (fun s => safe_segment s = true) l2 ->
  under b l1 = under b l2 -> l1 = l2.
Proof.
  intros Hn1 Hn2 H1 H2 Heq. assert (Join "/" l1 = Join "/" l2) as HJ.
  { unfold under in Heq. case_match; [done|]. by do 2 apply append_inj_l in Heq. }
  rewrite <- (Split_Join slash l1), <- (Split_Join slash l2); try done; [by f_equal|..].
  all: by apply safe_segments_free.
Qed.

(** ** [strconv]: decimal numbers *)

Definition is_digit (c : ascii) : bool := in_range "0" "9" c.
Definition digit_val (c : ascii) : Z := byte_of c - 48.

Fixpoint digits_val (acc : Z) (s : string) : option Z :=
  match s with
  | "" => Some acc
  | String c s => if is_digit c then digits_val (10 * acc + digit_val c) s else None
  end.

(** [ParseUint(s, 10, 64)] without its range check: at least one digit, digits
    only. *)
Definition parse_nat (s : string) : option Z :=
  if String.eqb s "" then None else digits_val 0 s.

(** The same with an optional sign. *)
Definition parse_int (s : string) : option Z :=
  match s with
  | String c r =>
      if Ascii.eqb c "-" then Z.opp <$> parse_nat r
      else if Ascii.eqb c "+" then parse_nat r
      else parse_nat s
  | "" => None
  end.

(** [strconv.Atoi]. *)
Definition Atoi (s : string) : option Z :=
  z ← parse_int s; if (- 2 ^ 63 <=? z) && (z <? 2 ^ 63) then Some z else None.

Lemma pretty_digit_spec (x : N) : (x < 10)%N ->
  is_digit (pretty_N_char x) = true /\ digit_val (pretty_N_char x) = Z.of_N x.
Proof.
  intros Hx. assert (N.to_nat x < 10)%nat as Hn by lia. rewrite <- (N2Nat.id x).
  generalize dependent (N.to_nat x). intros n Hn. do 10 (destruct n as [|n]; [done|]). lia.
Qed.

Lemma digits_val_pretty_go (x : N) : forall s, digits_val 0 (pretty_N_go x s) = digits_val (Z.of_N x) s.
Proof.
  induction x as [x IH] using (well_founded_induction N.lt_wf_0). intros s. destruct (decide (x = 0)%N) as [->|Hx].
  - by rewrite pretty_N_go_0.
  - rewrite pretty_N_go_step by lia. rewrite IH by (apply N.div_lt; lia).
    cbn [digits_val]. destruct (pretty_digit_spec (x `mod` 10)%N) as [-> ->]; [apply N.mod_lt; lia|].
    f_equal. rewrite N2Z.inj_div, N2Z.inj_mod. divlia.
Qed.

Lemma digits_val_pretty (x : N) : digits_val 0 (pretty x) = Some (Z.of_N x).
Proof.
  unfold pretty, pretty_N. destruct (decide (x = 0)%N) as [->|Hx]; [done|]. by rewrite digits_val_pretty_go.
Qed.

Lemma pretty_N_not_empty (x : N) : pretty x <> "".
Proof.
  assert (forall (x : N) s, s <> "" -> pretty_N_go x s <> "") as H.
  { clear x. intros x. induction x as [x IH] using (well_founded_induction N.lt_wf_0). intros s Hs.
    destruct (decide (x = 0)%N) as [->|]; [by rewrite pretty_N_go_0|].
    rewrite pretty_N_go_step by lia. apply IH; [apply N.div_lt; lia|done]. }
  unfold pretty, pretty_N. destruct (decide (x = 0)%N); [done|]. rewrite pretty_N_go_step by lia. by apply H.
Qed.

Lemma parse_nat_pretty (x : N) : parse_nat (pretty x) = Some (Z.of_N x).
Proof.
  unfold parse_nat. destruct (String.eqb_spec (pretty x) "") as [E|_]; [by apply pretty_N_not_empty in E|].
  apply digits_val_pretty.
Qed.

Lemma pretty_Z_nonneg (z : Z) : 0 <= z -> pretty z = pretty (Z.to_N z).
Proof. intros. destruct z; [done..|lia]. Qed.

Lemma parse_nat_pretty_Z (z : Z) : 0 <= z -> parse_nat (pretty z) = Some z.
Proof. intros Hz. rewrite pretty_Z_nonneg, parse_nat_pretty by done. f_equal. lia. Qed.

(** The printed form of a positive number: a non-zero digit, then digits. *)
Lemma pretty_go_digits (x : N) : (0 < x)%N -> forall s, exists d ds,
  pretty_N_go x s = String d (ds +:+ s) /\ in_range "1" "9" d = true /\ all_chars is_digit ds = true.
Proof.
  induction x as [x IH] using (well_founded_induction N.lt_wf_0). intros Hx s. rewrite pretty_N_go_step by done.
  pose proof (N.mod_lt x 10 ltac:(lia)) as Hm.
  destruct (decide (x / 10 = 0)%N) as [E|E].
  - rewrite E, pretty_N_go_0. exists (pretty_N_char (x `mod` 10)), "". split; [done|]. split; [|done].
    assert (x `mod` 10 <> 0)%N as Hn0 by (rewrite (N.div_mod x 10), E in Hx by lia; lia).
    clear -Hm Hn0. assert (N.to_nat (x `mod` 10) < 10)%nat as Hn by lia. rewrite <- (N2Nat.id (x `mod` 10)) in *.
    generalize dependent (N.to_nat (x `mod` 10)). intros n. intros.
    do 10 (destruct n as [|n]; [done || lia|]). lia.
  - assert (x / 10 < x)%N as Hlt by (apply N.div_lt; lia). assert (0 < x / 10)%N as Hpos by (apply N.neq_0_lt_0; exact E).
    destruct (IH _ Hlt Hpos (String (pretty_N_char (x `mod` 10)) s)) as (d & ds & -> & Hd & Hds).
    exists d, (ds +:+ String (pretty_N_char (x `mod` 10)) ""). split; [|split; [done|]].
    + by rewrite append_assoc.
    + rewrite all_chars_append, Hds. cbn. destruct (pretty_digit_spec _ Hm) as [-> _]. done.
Qed.

Lemma pretty_Z_digits (z : Z) : 0 <= z -> pretty z = "0" \/
  exists d ds, pretty z = String d ds /\ in_range "1" "9" d = true /\ all_chars is_digit ds = true.
Proof.
  intros Hz. rewrite pretty_Z_nonneg by done. unfold pretty, pretty_N.
  destruct (decide (Z.to_N z = 0)%N); [by left|right].
  destruct (pretty_go_digits (Z.to_N z) ltac:(lia) "") as (d & ds & -> & ? & ?).
  exists d, ds. by rewrite append_nil_r.
Qed.

(** ** The order of strings (bytewise) *)

Lemma string_leb_trans a b d : String.leb a b = true -> String.leb b d = true -> String.leb a d = true.
Proof.
  revert b d. induction a as [|x a IH]; intros [|y b] [|z d]; try done. unfold String.leb. cbn [String.compare].
  unfold Ascii.compare. intros H1 H2.
  destruct (N.compare_spec (N_of_ascii x) (N_of_ascii y)) as [E1|E1|E1]; [| |done];
    destruct (N.compare_spec (N_of_ascii y) (N_of_ascii z)) as [E2|E2|E2]; try done;
    destruct (N.compare_spec (N_of_ascii x) (N_of_ascii z)); try lia; [|done..].
  by apply (IH b d).
Qed.

Lemma pretty_N_digits (x : N) : all_chars is_digit (pretty x) = true.
Proof.
  assert (forall (x : N) s, all_chars is_digit s = true -> all_chars is_digit (pretty_N_go x s) = true) as Hgo.
  { clear x. intros x. induction (N.lt_wf_0 x) as [x _ IH]. intros s Hs. destruct (decide (x = 0)%N) as [->|Hx].
    - by rewrite pretty_N_go_0.
    - rewrite pretty_N_go_step by lia. apply IH; [apply N.div_lt; lia|]. cbn.
      destruct (pretty_digit_spec (x `mod` 10)%N) as [-> _]; [apply N.mod_lt; lia|done]. }
  unfold pretty, pretty_N. destruct (decide (x = 0)%N) as [->|Hx]; [done|]. by apply Hgo.
Qed.

(** The characters of a printed integer, and that there are some. *)
Lemma pretty_Z_chars (z : Z) : all_chars (fun c => is_digit c || Ascii.eqb c "-") (pretty z) = true /\ pretty z <> "".
Proof.
  assert (forall x : N, all_chars (fun c => is_digit c || Ascii.eqb c "-") (pretty x) = true) as Hd.
  { intros x. eapply all_chars_impl; [|apply pretty_N_digits]. intros c Hc. by rewrite Hc. }
  destruct z as [|p|p].
  - done.
  - split; [apply (Hd (N.pos p))|apply (pretty_N_not_empty (N.pos p))].
  - split; [|done]. change (pretty (Z.neg p)) with ("-" +:+ pretty (N.pos p)). rewrite all_chars_append. apply Hd.
Qed.

Lemma Atoi_pretty (z : Z) : 0 <= z < 2 ^ 63 -> Atoi (pretty z) = Some z.
Proof.
  intros Hz. unfold Atoi. assert (parse_int (pretty z) = Some z) as ->.
  { pose proof (parse_nat_pretty_Z z ltac:(lia)) as Hp. unfold parse_int.
    pose proof (pretty_N_digits (Z.to_N z)) as Hd. rewrite <- pretty_Z_nonneg in Hd by lia.
    destruct (pretty z) as [|c r]; [done|]. cbn [all_chars] in Hd. apply andb_true_iff in Hd as [Hc _].
    destruct (Ascii.eqb_spec c "-") as [->|]; [done|]. by destruct (Ascii.eqb_spec c "+") as [->|]. }
  cbn. destruct (Z.leb_spec (- 2 ^ 63) z); [|lia]. by destruct (Z.ltb_spec z (2 ^ 63)); [|lia].
Qed.
