(* ===== verification/Errors.v ===== *)
(** * Go errors and results

    An error value is kept as the call that made it: the format string and the
    printed arguments of [errors.New]/[fmt.Errorf], the wrapped cause of a [%w]
    verb, a gRPC status made by [status.Error]/[status.Errorf] (which keeps the
    text only: [errors.As] does not look through it), or the [StatusError] of the
    OpenBao client. A function that returns [(T, error)] returns [result T]. *)

From S2P Require Import Prelude GoStrings.

(** The gRPC codes the plugins return. *)
Inductive code :=
| Canceled | Unknown | InvalidArgument | DeadlineExceeded | NotFound | AlreadyExists
| PermissionDenied | ResourceExhausted | FailedPrecondition | Unimplemented | Internal
| Unavailable | Unauthenticated.

#[export] Instance code_eq_dec : EqDecision code.
Proof. solve_decision. Defined.

Inductive error :=
| Errorf (fmt : string) (args : list string)
| Wrapf (fmt : string) (args : list string) (cause : error)
| StatusErr (c : code) (text : error)
| StatusError (StatusCode : Z) (Status Body : string)
| Wrap2 (fmt : string) (cause1 cause2 : error)      (* two [%w] verbs *)
| Printed (e : error).                              (* the text of [e]: a [%v] verb *)

#[export] Instance error_eq_dec : EqDecision error.
Proof. solve_decision. Defined.

(** [errors.As(err, *StatusError)]: the first [StatusError] down the chain of
    wrapped causes. *)
Fixpoint as_StatusError (e : error) : option (Z * string * string) :=
  match e with
  | StatusError c s b => Some (c, s, b)
  | Wrapf _ _ e => as_StatusError e
  | Wrap2 _ e1 e2 => match as_StatusError e1 with Some r => Some r | None => as_StatusError e2 end
  | Errorf _ _ | StatusErr _ _ | Printed _ => None
  end.

(** [status.Code(err)]: a wrapped gRPC status keeps its code, any other error
    is [Unknown]. *)
Fixpoint status_code (e : error) : code :=
  match e with
  | StatusErr c _ => c
  | Wrapf _ _ e => status_code e
  | Wrap2 _ e1 e2 => match status_code e1 with Unknown => status_code e2 | c => c end
  | Errorf _ _ | StatusError _ _ _ | Printed _ => Unknown
  end.

(** [errors.Is(err, target)] for a target made by [errors.New]: the targets of
    this development have texts of their own, so equality of values stands for
    the identity of pointers. *)
Fixpoint errors_Is (e target : error) : bool :=
  bool_decide (e = target) ||
  match e with
  | Wrapf _ _ c => errors_Is c target
  | Wrap2 _ c1 c2 => errors_Is c1 target || errors_Is c2 target
  | _ => false
  end.

(** [fmt.Errorf] with a [%v] verb for an error. *)
Definition Printf (fmt : string) (args : list string) (e : error) : error := Wrapf fmt args (Printed e).

Inductive result (A : Type) :=
| Ok (a : A)
| Err (e : error).
Arguments Ok {A} a.
Arguments Err {A} e.

#[export] Instance result_eq_dec {A} `{EqDecision A} : EqDecision (result A).
Proof. solve_decision. Defined.

#[export] Instance result_ret : MRet result := fun A a => Ok a.
#[export] Instance result_bind : MBind result :=
  fun A B f m => match m with Ok a => f a | Err e => Err e end.
#[export] Instance result_fmap : FMap result :=
  fun A B f m => match m with Ok a => Ok (f a) | Err e => Err e end.

(** [if err != nil { return fmt.Errorf(..., err) }] *)
Definition map_err {A} (f : error -> error) (m : result A) : result A :=
  match m with Ok a => Ok a | Err e => Err (f e) end.

Definition is_ok {A} (m : result A) : bool := match m with Ok _ => true | Err _ => false end.

(** A guard: [if b { return err }]. *)
Definition reject (b : bool) (e : error) : result unit := if b then Err e else Ok tt.

Lemma bind_Ok {A B} (m : result A) (f : A -> result B) b :
  m ≫= f = Ok b <-> exists a, m = Ok a /\ f a = Ok b.
Proof. split; [destruct m; cbn; [eauto|done]|]. by intros (a & -> & H). Qed.

Lemma bind_Ok_l {A B} (a : A) (f : A -> result B) : (Ok a ≫= f) = f a.
Proof. done. Qed.

Lemma reject_Ok b e u : reject b e = Ok u <-> b = false.
Proof. destruct b, u; cbn; naive_solver. Qed.

Lemma map_err_Ok {A} f (m : result A) a : map_err f m = Ok a <-> m = Ok a.
Proof. destruct m; cbn; naive_solver. Qed.

(** Splits a successful run into the runs of its steps. *)
Ltac inv_ok :=
  repeat match goal with
  | H : Ok _ = Ok _ |- _ => injection H; clear H; intros; subst
  | H : Err _ = Ok _ |- _ => discriminate H
  | H : Ok _ = Err _ |- _ => discriminate H
  | H : mret _ = Ok _ |- _ => unfold mret, result_ret in H
  | H : _ ≫= _ = Ok _ |- _ => apply bind_Ok in H as (? & ? & ?)
  | H : reject _ _ = Ok _ |- _ => apply reject_Ok in H
  | H : map_err _ _ = Ok _ |- _ => apply map_err_Ok in H
  end.

(** What a call does: it returns, it has not returned yet, or it panics. *)
Inductive outcome (A : Type) :=
| Returned (r : result A)
| Blocked
| Panicked.
Arguments Returned {A} r.
Arguments Blocked {A}.
Arguments Panicked {A}.

#[export] Instance outcome_eq_dec {A} `{EqDecision A} : EqDecision (outcome A).
Proof. solve_decision. Defined.
