(* ===== verification/State.v ===== *)
(** * Computations with a state

    A Go call that reads and writes the state around it (a server, a cache, a
    clock) is a [Prog S A]: from the state it finds, the state it leaves and
    what it does: it returns a value or an error, blocks, or panics. *)

From S2P Require Import Prelude Errors.

Definition Prog (S A : Type) : Type := S -> S * outcome A.

#[export] Instance Prog_ret {S} : MRet (Prog S) := fun A a s => (s, Returned (Ok a)).
#[export] Instance Prog_bind {S} : MBind (Prog S) := fun A B f m s =>
  match m s with
  | (s', Returned (Ok a)) => f a s'
  | (s', Returned (Err e)) => (s', Returned (Err e))
  | (s', Blocked) => (s', Blocked)
  | (s', Panicked) => (s', Panicked)
  end.

Definition throw {S A} (e : error) : Prog S A := fun s => (s, Returned (Err e)).
Definition panic {S A} : Prog S A := fun s => (s, Panicked).
Definition lift {S A} (r : result A) : Prog S A := fun s => (s, Returned r).

(** Reads of the state and writes to it. *)
Definition gets {S A} (f : S -> A) : Prog S A := fun s => (s, Returned (Ok (f s))).
Definition modify {S} (f : S -> S) : Prog S unit := fun s => (f s, Returned (Ok tt)).

(** [x, err := m]: the error becomes a value. *)
Definition attempt {S A} (m : Prog S A) : Prog S (result A) := fun s =>
  match m s with
  | (s', Returned r) => (s', Returned (Ok r))
  | (s', Blocked) => (s', Blocked)
  | (s', Panicked) => (s', Panicked)
  end.

(** [if err != nil { return f(err) }] *)
Definition on_err {S A} (f : error -> error) (m : Prog S A) : Prog S A := fun s =>
  match m s with
  | (s', Returned r) => (s', Returned (map_err f r))
  | o => o
  end.

(** [return nil, status.Error(c, err.Error())] *)
Definition as_status {S A} (c : code) (m : Prog S A) : Prog S A := on_err (StatusErr c) m.

Definition guard_err {S} (b : bool) (e : error) : Prog S unit := lift (reject b e).

(** ** Running computations *)

Section Runs.
Context {S : Type}.

Lemma run_bind {A B} (m : Prog S A) (f : A -> Prog S B) s s1 a : m s = (s1, Returned (Ok a)) -> (m ≫= f) s = f a s1.
Proof. intros Hm. unfold mbind, Prog_bind. by rewrite Hm. Qed.

Lemma run_bind_inv {A B} (m : Prog S A) (f : A -> Prog S B) s s' b : (m ≫= f) s = (s', Returned (Ok b)) ->
  exists s1 a, m s = (s1, Returned (Ok a)) /\ f a s1 = (s', Returned (Ok b)).
Proof. unfold mbind, Prog_bind. destruct (m s) as [s1 [[a|e]| |]]; try done. eauto. Qed.

Lemma run_on_err_inv {A} f (m : Prog S A) s s' a : on_err f m s = (s', Returned (Ok a)) -> m s = (s', Returned (Ok a)).
Proof. unfold on_err. destruct (m s) as [s1 [[x|e]| |]]; cbn; try done. Qed.

Lemma run_on_err {A} f (m : Prog S A) s s' a : m s = (s', Returned (Ok a)) -> on_err f m s = (s', Returned (Ok a)).
Proof. intros Hm. unfold on_err. by rewrite Hm. Qed.

Lemma run_lift_inv {A} (r : result A) (s s' : S) a : lift r s = (s', Returned (Ok a)) -> s' = s /\ r = Ok a.
Proof. intros H. unfold lift in H. by simplify_eq. Qed.

Lemma run_bind_err {A B} (m : Prog S A) (f : A -> Prog S B) s s1 e :
  m s = (s1, Returned (Err e)) -> (m ≫= f) s = (s1, Returned (Err e)).
Proof. intros Hm. unfold mbind, Prog_bind. by rewrite Hm. Qed.

Lemma run_on_err_err {A} f (m : Prog S A) s s1 e : m s = (s1, Returned (Err e)) -> on_err f m s = (s1, Returned (Err (f e))).
Proof. intros Hm. unfold on_err. by rewrite Hm. Qed.

Lemma run_attempt {A} (m : Prog S A) s s1 r : m s = (s1, Returned r) -> attempt m s = (s1, Returned (Ok r)).
Proof. intros Hm. unfold attempt. by rewrite Hm. Qed.

Lemma run_attempt_inv {A} (m : Prog S A) s s1 r : attempt m s = (s1, Returned (Ok r)) -> m s = (s1, Returned r).
Proof. unfold attempt. destruct (m s) as [s2 [x| |]]; try done. intros. by simplify_eq. Qed.

(** ** Relations that a computation keeps between the states before and after

    [steps R m]: every run of [m] takes its state to an [R]-related one. *)
Definition steps {A} (R : S -> S -> Prop) (m : Prog S A) : Prop := forall s, R s (m s).1.

Context (R : S -> S -> Prop) `{!PreOrder R}.

Lemma steps_pure {A} (m : Prog S A) : (forall s, (m s).1 = s) -> steps R m.
Proof. intros Hm s. rewrite Hm. reflexivity. Qed.

Lemma steps_bind {A B} (m : Prog S A) (f : A -> Prog S B) : steps R m -> (forall a, steps R (f a)) -> steps R (m ≫= f).
Proof.
  intros Hm Hf s. specialize (Hm s). unfold mbind, Prog_bind. destruct (m s) as [s1 [[a|e]| |]]; cbn [fst] in *; [|done..].
  etrans; [exact Hm|apply Hf].
Qed.

Lemma steps_attempt {A} (m : Prog S A) : steps R m -> steps R (attempt m).
Proof. intros Hm s. specialize (Hm s). unfold attempt. by destruct (m s) as [s1 []]. Qed.

Lemma steps_on_err {A} f (m : Prog S A) : steps R m -> steps R (on_err f m).
Proof. intros Hm s. specialize (Hm s). unfold on_err. by destruct (m s) as [s1 []]. Qed.

Lemma steps_modify f : (forall s, R s (f s)) -> steps R (modify f).
Proof. done. Qed.

End Runs.

Create HintDb steps.
#[export] Hint Resolve steps_attempt steps_on_err : steps.
#[export] Hint Extern 1 (steps _ _) => (apply steps_pure; [typeclasses eauto|done]) : steps.
#[export] Hint Extern 2 (steps _ (_ ≫= _)) => (apply steps_bind; [typeclasses eauto| |intros ?]) : steps.
#[export] Hint Extern 2 (steps _ (as_status _ _)) => (apply steps_on_err) : steps.
#[export] Hint Extern 3 (steps _ (if ?b then _ else _)) => (destruct b) : steps.

(** Inverts a run that returned a value into the runs of its steps. *)
Ltac inv_run := repeat
  match goal with
  | H : (_ ≫= _) _ = (_, Returned (Ok _)) |- _ => apply run_bind_inv in H as (? & ? & ? & ?)
  | H : as_status _ _ _ = (_, Returned (Ok _)) |- _ => apply run_on_err_inv in H
  | H : on_err _ _ _ = (_, Returned (Ok _)) |- _ => apply run_on_err_inv in H
  | H : guard_err _ _ _ = (_, Returned (Ok _)) |- _ => unfold guard_err in H
  | H : lift _ _ = (_, Returned (Ok _)) |- _ => apply run_lift_inv in H as [-> ?]
  | H : mret _ _ = (_, Returned (Ok _)) |- _ => unfold mret, Prog_ret in H; injection H; clear H; intros; subst
  | H : throw _ _ = (_, Returned (Ok _)) |- _ => discriminate H
  | H : reject _ _ = Ok _ |- _ => apply reject_Ok in H
  | x : () |- _ => destruct x
  end.

(** ** Errors across an RPC *)

(** An error as the client of an RPC sees it. *)
Definition grpc_error (e : error) : error := StatusErr (status_code e) (Printed e).

(** What a handler's outcome is for the client; a handler that does not return
    is a transport error. *)
Definition answer {A} (o : outcome A) : result A :=
  match o with
  | Returned (Ok a) => Ok a
  | Returned (Err e) => Err (grpc_error e)
  | Blocked => Err (StatusErr Errors.DeadlineExceeded (Errorf "context deadline exceeded" []))
  | Panicked => Err (StatusErr Unavailable (Errorf "connection closed" []))
  end.
