(* ===== verification/Codec.v ===== *)
(** * encoding/hex, encoding/base64 and the escapes of net/url *)

From S2P Require Import Prelude GoStrings Errors.

Module Hex.

Definition digit (v : Z) : ascii := char_of (if v <? 10 then 48 + v else 87 + v).

Definition fromHexChar (c : ascii) : option Z :=
  if in_range "0" "9" c then Some (byte_of c - 48)
  else if in_range "a" "f" c then Some (byte_of c - 87)
  else if in_range "A" "F" c then Some (byte_of c - 55)
  else None.

Fixpoint EncodeToString (b : list Z) : string :=
  match b with
  | [] => ""
  | z :: b => String (digit (z / 16)) (String (digit (z mod 16)) (EncodeToString b))
  end.

Definition ErrLength : error := Errorf "encoding/hex: odd length hex string" [].
Definition InvalidByteError (c : ascii) : error := Errorf "encoding/hex: invalid byte: %#U" [String c ""].

(** An odd length is reported only when every pair before it is valid. *)
Fixpoint DecodeString (s : string) : result (list Z) :=
  match s with
  | "" => Ok []
  | String c "" => match fromHexChar c with Some _ => Err ErrLength | None => Err (InvalidByteError c) end
  | String c (String d s) =>
      match fromHexChar c, fromHexChar d with
      | Some hi, Some lo => rest ← DecodeString s; Ok (hi * 16 + lo :: rest)
      | None, _ => Err (InvalidByteError c)
      | _, None => Err (InvalidByteError d)
      end
  end.

Definition hexchar (c : ascii) : bool := match fromHexChar c with Some _ => true | None => false end.

Lemma fromHexChar_digit v : 0 <= v < 16 -> fromHexChar (digit v) = Some v.
Proof.
  intros Hv. assert (Z.to_nat v < 16)%nat as Hn by lia. rewrite <- (Z2Nat.id v) by lia.
  generalize dependent (Z.to_nat v). intros n Hn.
  do 16 (destruct n as [|n]; [reflexivity|]). lia.
Qed.

Lemma fromHexChar_range c v : fromHexChar c = Some v -> 0 <= v < 16.
Proof.
  unfold fromHexChar, in_range. intros H.
  repeat (match type of H with (if ?b then _ else _) = _ => destruct b eqn:? end);
    rewrite ?andb_true_iff, ?Z.leb_le in *; simplify_eq;
    change (byte_of "0") with 48 in *; change (byte_of "9") with 57 in *;
    change (byte_of "a") with 97 in *; change (byte_of "f") with 102 in *;
    change (byte_of "A") with 65 in *; change (byte_of "F") with 70 in *; lia.
Qed.

(** A property of every digit holds of every character of an encoding. *)
Lemma hex_Encode_chars (f : ascii -> bool) b :
  forallb (fun v => f (digit (Z.of_nat v))) (seq 0 16) = true -> Forall is_byte b -> all_chars f (EncodeToString b) = true.
Proof.
  intros Hf. assert (forall v, 0 <= v < 16 -> f (digit v) = true) as Hd.
  { intros v Hv. rewrite forallb_forall in Hf. rewrite <- (Z2Nat.id v) by lia. apply Hf, in_seq. lia. }
  induction 1 as [|z b Hz _ IH]; [done|]. cbn [EncodeToString all_chars]. unfold is_byte in Hz. by rewrite !Hd, IH by divlia.
Qed.

Lemma hex_Decode_Encode b : Forall is_byte b -> DecodeString (EncodeToString b) = Ok b.
Proof.
  induction 1 as [|z b Hz _ IH]; [done|]. cbn [EncodeToString DecodeString]. unfold is_byte in Hz.
  rewrite !fromHexChar_digit by divlia. rewrite IH. cbn. do 2 f_equal. divlia.
Qed.

Lemma length_hex_Encode b : String.length (EncodeToString b) = (2 * length b)%nat.
Proof. induction b as [|z b IH]; cbn; [done|]. rewrite IH. lia. Qed.

Lemma hex_Encode_app a b : EncodeToString (a ++ b) = EncodeToString a +:+ EncodeToString b.
Proof. induction a as [|z a IH]; [done|]. cbn [app EncodeToString]. by rewrite IH. Qed.

Lemma hex_Encode_inj a b : Forall is_byte a -> Forall is_byte b ->
  EncodeToString a = EncodeToString b -> a = b.
Proof. intros Ha Hb H. apply hex_Decode_Encode in Ha, Hb. rewrite H in Ha. congruence. Qed.

(** Induction on a string two characters at a time. *)
Lemma pair_ind (P : string -> Prop) :
  P "" -> (forall c, P (String c "")) -> (forall c d s, P s -> P (String c (String d s))) -> forall s, P s.
Proof.
  intros H0 H1 H2 s. enough (P s /\ forall c, P (String c s)) as [? _] by done.
  induction s as [|c s [IH1 IH2]]; auto.
Qed.

Lemma hex_Decode_spec s b : DecodeString s = Ok b ->
  Forall is_byte b /\ String.length s = (2 * length b)%nat.
Proof.
  revert b. induction s as [|c|c d s IH] using pair_ind; intros b H.
  - cbn in H. inv_ok. split; [constructor|done].
  - cbn in H. by destruct (fromHexChar c).
  - cbn [DecodeString] in H. destruct (fromHexChar c) as [hi|] eqn:Ec; [|done].
    destruct (fromHexChar d) as [lo|] eqn:Ed; [|done]. inv_ok.
    apply fromHexChar_range in Ec, Ed. edestruct IH as [Hb Hl]; [eassumption|]. split; [constructor; [mlia|done]|].
    cbn [String.length length]. lia.
Qed.

End Hex.

Module Base64.

(** The standard alphabet. *)
Definition encode_char (v : Z) : ascii :=
  char_of (if v <? 26 then 65 + v else if v <? 52 then 71 + v else if v <? 62 then v - 4
           else if v =? 62 then 43 else 47).

Definition decode_char (c : ascii) : option Z :=
  if in_range "A" "Z" c then Some (byte_of c - 65)
  else if in_range "a" "z" c then Some (byte_of c - 71)
  else if in_range "0" "9" c then Some (byte_of c + 4)
  else if Ascii.eqb c "+" then Some 62
  else if Ascii.eqb c "/" then Some 63
  else None.

Definition pad : ascii := "=".

(** [StdEncoding.EncodeToString]. *)
Fixpoint EncodeToString (b : list Z) : string :=
  match b with
  | [] => ""
  | [x] => String (encode_char (x / 4)) (String (encode_char (x mod 4 * 16))
             (String pad (String pad "")))
  | [x; y] => String (encode_char (x / 4)) (String (encode_char (x mod 4 * 16 + y / 16))
                (String (encode_char (y mod 16 * 4)) (String pad "")))
  | x :: y :: z :: b =>
      String (encode_char (x / 4)) (String (encode_char (x mod 4 * 16 + y / 16))
        (String (encode_char (y mod 16 * 4 + z / 64)) (String (encode_char (z mod 64))
          (EncodeToString b))))
  end.

Definition newline (c : ascii) : bool := (byte_of c =? 10) || (byte_of c =? 13).

Definition CorruptInputError {A} (pos : Z) : result A :=
  Err (Errorf "illegal base64 data at input byte %d" [pretty pos]).

(** The line breaks before the next character, and its position. *)
Fixpoint skip_newlines (pos : Z) (s : string) : Z * string :=
  match s with
  | String c s' => if newline c then skip_newlines (pos + 1) s' else (pos, s)
  | "" => (pos, s)
  end.

(** After the padding only line breaks may follow. *)
Definition finish (pos : Z) (s : string) (out : list Z) : result (list Z) :=
  match skip_newlines pos s with
  | (_, "") => Ok out
  | (pos, _) => CorruptInputError pos
  end.

(** [decodeQuantum] in a loop: [acc] holds the sextets of the quantum read so
    far. Bits beyond the last whole byte are not looked at ([Strict] is off). *)
Fixpoint decode_loop (pos : Z) (acc : list Z) (s : string) : result (list Z) :=
  match s with
  | "" => match acc with [] => Ok [] | _ => CorruptInputError (pos - Z.of_nat (length acc)) end
  | String c s =>
      match decode_char c with
      | Some v =>
          match acc with
          | [a; b; d] =>
              rest ← decode_loop (pos + 1) [] s;
              Ok (a * 4 + b / 16 :: b mod 16 * 16 + d / 4 :: d mod 4 * 64 + v :: rest)
          | _ => decode_loop (pos + 1) (acc ++ [v]) s
          end
      | None =>
          if newline c then decode_loop (pos + 1) acc s
          else if negb (Ascii.eqb c pad) then CorruptInputError pos
          else match acc with
               | [a; b] =>
                   match skip_newlines (pos + 1) s with
                   | (pos, "") => CorruptInputError pos
                   | (pos, String c s) =>
                       if Ascii.eqb c pad then finish (pos + 1) s [a * 4 + b / 16]
                       else CorruptInputError pos
                   end
               | [a; b; d] => finish (pos + 1) s [a * 4 + b / 16; b mod 16 * 16 + d / 4]
               | _ => CorruptInputError pos
               end
      end
  end.

(** [StdEncoding.DecodeString]. *)
Definition DecodeString (s : string) : result (list Z) := decode_loop 0 [] s.

Lemma decode_encode_char v : 0 <= v < 64 -> decode_char (encode_char v) = Some v.
Proof.
  intros Hv. assert (Z.to_nat v < 64)%nat as Hn by lia. rewrite <- (Z2Nat.id v) by lia.
  generalize dependent (Z.to_nat v). intros n Hn.
  do 64 (destruct n as [|n]; [reflexivity|]). lia.
Qed.

Lemma triple_ind {A} (P : list A -> Prop) :
  P [] -> (forall x, P [x]) -> (forall x y, P [x; y]) ->
  (forall x y z l, P l -> P (x :: y :: z :: l)) -> forall l, P l.
Proof.
  intros H0 H1 H2 H3 l. enough (P l /\ (forall x, P (x :: l)) /\ (forall x y, P (x :: y :: l))) as [? _] by done.
  induction l as [|x l (IH1 & IH2 & IH3)]; auto.
Qed.

Lemma decode_loop_Encode b : Forall is_byte b -> forall pos, decode_loop pos [] (EncodeToString b) = Ok b.
Proof.
  induction b as [|x|x y|x y z b IH] using triple_ind; intros Hb pos.
  all: repeat (apply Forall_cons in Hb as [? Hb]); unfold is_byte in *.
  all: cbn -[encode_char decode_char Z.div Z.modulo]; rewrite ?decode_encode_char by divlia.
  all: cbn -[encode_char decode_char Z.div Z.modulo]; rewrite ?decode_encode_char by divlia.
  all: cbn -[encode_char decode_char Z.div Z.modulo]; rewrite ?decode_encode_char by divlia.
  all: cbn -[encode_char decode_char Z.div Z.modulo]; rewrite ?decode_encode_char by divlia.
  all: cbn -[encode_char decode_char Z.div Z.modulo].
  - done.
  - do 2 f_equal. divlia.
  - do 3 f_equal; divlia.
  - rewrite IH by done. cbn -[Z.div Z.modulo]. f_equal. f_equal; [divlia|f_equal; [divlia|f_equal; divlia]].
Qed.

Lemma b64_Decode_Encode b : Forall is_byte b -> DecodeString (EncodeToString b) = Ok b.
Proof. intros. by apply decode_loop_Encode. Qed.

Lemma b64_Encode_inj a b : Forall is_byte a -> Forall is_byte b ->
  EncodeToString a = EncodeToString b -> a = b.
Proof. intros Ha Hb H. apply b64_Decode_Encode in Ha, Hb. rewrite H in Ha. congruence. Qed.

End Base64.

(** base64.RawURLEncoding: the URL alphabet without padding. *)
Module RawURL.

Definition encode_char (v : Z) : ascii :=
  char_of (if v <? 26 then 65 + v else if v <? 52 then 71 + v else if v <? 62 then v - 4
           else if v =? 62 then 45 else 95).

Definition decode_char (c : ascii) : option Z :=
  if in_range "A" "Z" c then Some (byte_of c - 65)
  else if in_range "a" "z" c then Some (byte_of c - 71)
  else if in_range "0" "9" c then Some (byte_of c + 4)
  else if Ascii.eqb c "-" then Some 62
  else if Ascii.eqb c "_" then Some 63
  else None.

Fixpoint EncodeToString (b : list Z) : string :=
  match b with
  | [] => ""
  | [x] => String (encode_char (x / 4)) (String (encode_char (x mod 4 * 16)) "")
  | [x; y] =>
      String (encode_char (x / 4)) (String (encode_char (x mod 4 * 16 + y / 16)) (String (encode_char (y mod 16 * 4)) ""))
  | x :: y :: z :: b =>
      String (encode_char (x / 4)) (String (encode_char (x mod 4 * 16 + y / 16))
        (String (encode_char (y mod 16 * 4 + z / 64)) (String (encode_char (z mod 64)) (EncodeToString b))))
  end.

(** The bytes of a quantum of two, three or four characters; the bits left over
    are dropped. *)
Definition quantum (q : list Z) : list Z :=
  match q with
  | [a; b] => [a * 4 + b / 16]
  | [a; b; c] => [a * 4 + b / 16; b mod 16 * 16 + c / 4]
  | [a; b; c; d] => [a * 4 + b / 16; b mod 16 * 16 + c / 4; c mod 4 * 64 + d]
  | _ => []
  end.

Fixpoint decode_loop (pos : Z) (q : list Z) (s : string) : result (list Z) :=
  match s with
  | "" => match q with [_] => Base64.CorruptInputError (pos - 1) | _ => Ok (quantum q) end
  | String c s =>
      if Base64.newline c then decode_loop (pos + 1) q s
      else match decode_char c with
           | None => Base64.CorruptInputError pos
           | Some v =>
               match q with
               | [a; b; d] => rest ← decode_loop (pos + 1) [] s; Ok (quantum [a; b; d; v] ++ rest)
               | _ => decode_loop (pos + 1) (q ++ [v]) s
               end
           end
  end.

Definition DecodeString (s : string) : result (list Z) := decode_loop 0 [] s.

Lemma raw_decode_encode_char v : 0 <= v < 64 -> decode_char (encode_char v) = Some v /\ Base64.newline (encode_char v) = false.
Proof.
  intros Hv. assert (Z.to_nat v < 64)%nat as Hn by lia. rewrite <- (Z2Nat.id v) by lia.
  generalize dependent (Z.to_nat v). intros n Hn.
  do 64 (destruct n as [|n]; [by split|]). lia.
Qed.

Lemma raw_Decode_Encode b : Forall is_byte b -> DecodeString (EncodeToString b) = Ok b.
Proof.
  unfold DecodeString. generalize 0. induction b as [|x|x y|x y z b IH] using Base64.triple_ind; intros pos Hb;
    [done|rewrite ?Forall_cons in Hb; unfold is_byte in Hb; destruct_and?..].
  - cbn [EncodeToString decode_loop].
    destruct (raw_decode_encode_char (x / 4)) as [-> ->]; [divlia|].
    destruct (raw_decode_encode_char (x mod 4 * 16)) as [-> ->]; [divlia|]. cbn. do 2 f_equal. divlia.
  - cbn [EncodeToString decode_loop].
    destruct (raw_decode_encode_char (x / 4)) as [-> ->]; [divlia|].
    destruct (raw_decode_encode_char (x mod 4 * 16 + y / 16)) as [-> ->]; [divlia|].
    destruct (raw_decode_encode_char (y mod 16 * 4)) as [-> ->]; [divlia|]. cbn. f_equal. f_equal; [divlia|f_equal; divlia].
  - cbn [EncodeToString decode_loop].
    destruct (raw_decode_encode_char (x / 4)) as [-> ->]; [divlia|].
    destruct (raw_decode_encode_char (x mod 4 * 16 + y / 16)) as [-> ->]; [divlia|].
    destruct (raw_decode_encode_char (y mod 16 * 4 + z / 64)) as [-> ->]; [divlia|].
    destruct (raw_decode_encode_char (z mod 64)) as [-> ->]; [divlia|]. cbn [app]. rewrite IH by done. cbn.
    f_equal. f_equal; [divlia|f_equal; [divlia|f_equal; divlia]].
Qed.

(** The characters of an encoding: letters, digits, [-] and [_]. *)
Definition raw_char (c : ascii) : bool := alnum c || Ascii.eqb c "-" || Ascii.eqb c "_".

Lemma raw_encode_char v : 0 <= v < 64 -> raw_char (encode_char v) = true.
Proof.
  intros Hv. assert (Z.to_nat v < 64)%nat as Hn by lia. rewrite <- (Z2Nat.id v) by lia.
  generalize dependent (Z.to_nat v). intros n Hn.
  do 64 (destruct n as [|n]; [by vm_compute|]). lia.
Qed.

Lemma raw_Encode_chars b : Forall is_byte b -> all_chars raw_char (EncodeToString b) = true.
Proof.
  induction b as [|x|x y|x y z b IH] using Base64.triple_ind; intros Hb;
    [done|rewrite ?Forall_cons in Hb; unfold is_byte in Hb; destruct_and?..];
    cbn [EncodeToString all_chars]; rewrite ?raw_encode_char by divlia; auto.
Qed.

End RawURL.

(** base64.URLEncoding is base64.StdEncoding, and base64.RawStdEncoding is
    base64.RawURLEncoding, with the last two characters of the alphabet
    exchanged; characters of the other alphabet are illegal. *)
Fixpoint map_chars (f : ascii -> ascii) (s : string) : string :=
  match s with "" => "" | String c s => String (f c) (map_chars f s) end.

Definition illegal : ascii := "!".

Definition url_to_std (c : ascii) : ascii :=
  if Ascii.eqb c "-" then "+" else if Ascii.eqb c "_" then "/"
  else if Ascii.eqb c "+" || Ascii.eqb c "/" then illegal else c.

Definition std_to_url (c : ascii) : ascii :=
  if Ascii.eqb c "+" then "-" else if Ascii.eqb c "/" then "_"
  else if Ascii.eqb c "-" || Ascii.eqb c "_" then illegal else c.

Definition URLEncoding_DecodeString (s : string) : result (list Z) := Base64.DecodeString (map_chars url_to_std s).
Definition RawStdEncoding_DecodeString (s : string) : result (list Z) := RawURL.DecodeString (map_chars std_to_url s).

(** ** Escapes of a path *)

(** [url.PathUnescape]; [None] is an invalid escape. *)
Fixpoint unescape (s : string) : option string :=
  match s with
  | "" => Some ""
  | String c s =>
      if Ascii.eqb c "%" then
        match s with
        | String a (String b s) =>
            x ← Hex.fromHexChar a; y ← Hex.fromHexChar b; String (char_of (16 * x + y)) <$> unescape s
        | _ => None
        end
      else String c <$> unescape s
  end.

Definition hex_upper (v : Z) : ascii := char_of (if v <? 10 then 48 + v else 55 + v).

(** Characters of a path that are not escaped, and those that are valid in one
    that is. *)
Definition path_char (c : ascii) : bool :=
  alnum c || existsb (Ascii.eqb c) ["-"; "_"; "."; "~"; "$"; "&"; "+"; ","; "/"; ":"; ";"; "="; "@"]%char.
Definition valid_encoded (s : string) : bool :=
  all_chars (fun c => path_char c || existsb (Ascii.eqb c) ["!"; "'"; "("; ")"; "*"; "["; "]"; "%"]%char) s.

Fixpoint escape_path (s : string) : string :=
  match s with
  | "" => ""
  | String c s =>
      if path_char c then String c (escape_path s)
      else String "%" (String (hex_upper (byte_of c / 16)) (String (hex_upper (byte_of c mod 16)) (escape_path s)))
  end.
