(* ===== verification/Sha2.v ===== *)
(** * crypto/sha256, crypto/sha512 and crypto/hmac

    The standard library's hashes, written as in FIPS 180-4 and RFC 2104: both
    hashes are one construction, at word sizes of 32 and of 64 bits. *)

From S2P Require Import Prelude.

(** ** Big-endian words *)

Fixpoint be_bytes (n : nat) (v : Z) : list Z :=
  match n with
  | O => []
  | S n => (v / 2 ^ (8 * Z.of_nat n)) mod 256 :: be_bytes n v
  end.

Definition be_word (b : list Z) : Z := fold_left (fun acc x => acc * 256 + x) b 0.

Lemma length_be_bytes n v : length (be_bytes n v) = n.
Proof. induction n; cbn; congruence. Qed.

Lemma be_bytes_range n v : Forall is_byte (be_bytes n v).
Proof. induction n; cbn; constructor; [apply Z.mod_pos_bound; lia|done]. Qed.

Fixpoint chunks {A} (fuel n : nat) (l : list A) : list (list A) :=
  match fuel, l with
  | S fuel, _ :: _ => take n l :: chunks fuel n (drop n l)
  | _, _ => []
  end.

(** ** The construction *)

Section Sha2.
Context (w : Z) (wordBytes : nat) (K H0 : list Z).
Context (bigSigma0 bigSigma1 smallSigma0 smallSigma1 : Z -> Z).

Definition msg_schedule_step (r : list Z) : list Z :=
  wrap w (smallSigma1 (r !!! 1%nat) + r !!! 6%nat + smallSigma0 (r !!! 14%nat) + r !!! 15%nat) :: r.

Definition round (st : list Z) (kw : Z * Z) : list Z :=
  match st with
  | [a; b; c; d; e; f; g; h] =>
      let ch := Z.lxor (Z.land e f) (Z.land (2 ^ w - 1 - e) g) in
      let maj := Z.lxor (Z.lxor (Z.land a b) (Z.land a c)) (Z.land b c) in
      let t1 := wrap w (h + bigSigma1 e + ch + fst kw + snd kw) in
      let t2 := wrap w (bigSigma0 a + maj) in
      [wrap w (t1 + t2); a; b; c; wrap w (d + t1); e; f; g]
  | _ => st
  end.

Definition compress (st blk : list Z) : list Z :=
  let ws := be_word <$> chunks 16 wordBytes blk in
  let sched := rev (Nat.iter (length K - 16) msg_schedule_step (rev ws)) in
  zip_with (fun a b => wrap w (a + b)) st (fold_left round (zip K sched) st).

Definition blockBytes : nat := 16 * wordBytes.

Definition padding (len : nat) : list Z :=
  let lenBytes := (2 * wordBytes)%nat in
  let used := ((len + 1 + lenBytes) mod blockBytes)%nat in
  128 :: replicate ((blockBytes - used) mod blockBytes) 0 ++ be_bytes lenBytes (8 * Z.of_nat len).

Definition sha2 (msg : list Z) : list Z :=
  let m := msg ++ padding (length msg) in
  flat_map (be_bytes wordBytes) (fold_left compress (chunks (S (length m)) blockBytes m) H0).

Lemma length_round st kw : length (round st kw) = length st.
Proof. do 9 (destruct st as [|? st]; [reflexivity|]). reflexivity. Qed.

Lemma length_compress st blk : length (compress st blk) = length st.
Proof.
  unfold compress. rewrite length_zip_with.
  assert (forall l st, length (fold_left round l st) = length st) as ->; [|lia].
  induction l as [|x l IH]; intros st'; [done|]. cbn. by rewrite IH, length_round.
Qed.

Lemma length_sha2 msg : length (sha2 msg) = (length H0 * wordBytes)%nat.
Proof.
  unfold sha2. generalize (chunks (S (length (msg ++ padding (length msg)))) blockBytes (msg ++ padding (length msg))).
  intros bs. assert (length (fold_left compress bs H0) = length H0) as <-.
  { generalize H0. induction bs as [|x bs IH]; intros st; [done|]. cbn. by rewrite IH, length_compress. }
  induction (fold_left compress bs H0) as [|x l IH]; [done|].
  cbn [flat_map length]. rewrite length_app, length_be_bytes, IH. lia.
Qed.

Lemma sha2_range msg : Forall is_byte (sha2 msg).
Proof.
  unfold sha2. induction (fold_left _ _ _) as [|x l IH]; [constructor|].
  apply Forall_app_2; [apply be_bytes_range|done].
Qed.

End Sha2.

Definition rotr (w x n : Z) : Z := Z.lor (Z.shiftr x n) (wrap w (Z.shiftl x (w - n))).
Definition xor3 (a b c : Z) : Z := Z.lxor (Z.lxor a b) c.

(** ** SHA-256 *)

Definition K256 : list Z :=
  [1116352408; 1899447441; 3049323471; 3921009573; 961987163; 1508970993; 2453635748; 2870763221;
   3624381080; 310598401; 607225278; 1426881987; 1925078388; 2162078206; 2614888103; 3248222580;
   3835390401; 4022224774; 264347078; 604807628; 770255983; 1249150122; 1555081692; 1996064986;
   2554220882; 2821834349; 2952996808; 3210313671; 3336571891; 3584528711; 113926993; 338241895;
   666307205; 773529912; 1294757372; 1396182291; 1695183700; 1986661051; 2177026350; 2456956037;
   2730485921; 2820302411; 3259730800; 3345764771; 3516065817; 3600352804; 4094571909; 275423344;
   430227734; 506948616; 659060556; 883997877; 958139571; 1322822218; 1537002063; 1747873779;
   1955562222; 2024104815; 2227730452; 2361852424; 2428436474; 2756734187; 3204031479; 3329325298].

Definition H256 : list Z :=
  [1779033703; 3144134277; 1013904242; 2773480762; 1359893119; 2600822924; 528734635; 1541459225].

Definition Sum256 : list Z -> list Z :=
  sha2 32 4 K256 H256
    (fun x => xor3 (rotr 32 x 2) (rotr 32 x 13) (rotr 32 x 22))
    (fun x => xor3 (rotr 32 x 6) (rotr 32 x 11) (rotr 32 x 25))
    (fun x => xor3 (rotr 32 x 7) (rotr 32 x 18) (Z.shiftr x 3))
    (fun x => xor3 (rotr 32 x 17) (rotr 32 x 19) (Z.shiftr x 10)).

Lemma length_Sum256 m : length (Sum256 m) = 32%nat.
Proof. apply length_sha2. Qed.

Lemma Sum256_range m : Forall is_byte (Sum256 m).
Proof. apply sha2_range. Qed.

(** ** SHA-512 and HMAC *)

Definition K512 : list Z :=
  [4794697086780616226; 8158064640168781261; 13096744586834688815; 16840607885511220156;
   4131703408338449720; 6480981068601479193; 10538285296894168987; 12329834152419229976;
   15566598209576043074; 1334009975649890238; 2608012711638119052; 6128411473006802146;
   8268148722764581231; 9286055187155687089; 11230858885718282805; 13951009754708518548;
   16472876342353939154; 17275323862435702243; 1135362057144423861; 2597628984639134821;
   3308224258029322869; 5365058923640841347; 6679025012923562964; 8573033837759648693;
   10970295158949994411; 12119686244451234320; 12683024718118986047; 13788192230050041572;
   14330467153632333762; 15395433587784984357; 489312712824947311; 1452737877330783856;
   2861767655752347644; 3322285676063803686; 5560940570517711597; 5996557281743188959;
   7280758554555802590; 8532644243296465576; 9350256976987008742; 10552545826968843579;
   11727347734174303076; 12113106623233404929; 14000437183269869457; 14369950271660146224;
   15101387698204529176; 15463397548674623760; 17586052441742319658; 1182934255886127544;
   1847814050463011016; 2177327727835720531; 2830643537854262169; 3796741975233480872;
   4115178125766777443; 5681478168544905931; 6601373596472566643; 7507060721942968483;
   8399075790359081724; 8693463985226723168; 9568029438360202098; 10144078919501101548;
   10430055236837252648; 11840083180663258601; 13761210420658862357; 14299343276471374635;
   14566680578165727644; 15097957966210449927; 16922976911328602910; 17689382322260857208;
   500013540394364858; 748580250866718886; 1242879168328830382; 1977374033974150939;
   2944078676154940804; 3659926193048069267; 4368137639120453308; 4836135668995329356;
   5532061633213252278; 6448918945643986474; 6902733635092675308; 7801388544844847127].

Definition H512 : list Z :=
  [7640891576956012808; 13503953896175478587; 4354685564936845355; 11912009170470909681;
   5840696475078001361; 11170449401992604703; 2270897969802886507; 6620516959819538809].

Definition Sum512 : list Z -> list Z :=
  sha2 64 8 K512 H512
    (fun x => xor3 (rotr 64 x 28) (rotr 64 x 34) (rotr 64 x 39))
    (fun x => xor3 (rotr 64 x 14) (rotr 64 x 18) (rotr 64 x 41))
    (fun x => xor3 (rotr 64 x 1) (rotr 64 x 8) (Z.shiftr x 7))
    (fun x => xor3 (rotr 64 x 19) (rotr 64 x 61) (Z.shiftr x 6)).

Lemma length_Sum512 m : length (Sum512 m) = 64%nat.
Proof. apply length_sha2. Qed.

Lemma Sum512_range m : Forall is_byte (Sum512 m).
Proof. apply sha2_range. Qed.

(** [hmac.New(sha512.New, key)], all of [m] written, then [Sum(nil)]. *)
Definition hmac_sha512 (key m : list Z) : list Z :=
  let key := if (128 <? length key)%nat then Sum512 key else key in
  let key := key ++ replicate (128 - length key) 0 in
  Sum512 (map (Z.lxor 92) key ++ Sum512 (map (Z.lxor 54) key ++ m)).

