(* ===== verification/Json.v ===== *)
(** * encoding/json

    The text format as the Go package reads and writes it: [print] is
    [json.Marshal] of a value that is already a tree (HTML characters, U+2028 and
    U+2029 escaped, bytes that are not UTF-8 replaced by U+FFFD), [parse] is the
    syntax check and the tree that [json.Unmarshal] walks. The second half is the
    decoding of trees into structs: field names compare without case when there is
    no exact match, unknown names are skipped, [null] leaves a field alone, and a
    later duplicate decodes over an earlier one. *)

From S2P Require Import Prelude GoStrings Errors Codec.

#[local] Set Warnings "-register-all".

Inductive json :=
| JNull
| JBool (b : bool)
| JNum (lit : string)
| JStr (s : string)
| JArr (l : list json)
| JObj (l : list (string * json)).

(** ** UTF-8 *)

Definition cont (c : ascii) : bool := (128 <=? byte_of c) && (byte_of c <=? 191).
Definition between (lo hi : Z) (c : ascii) : bool := (lo <=? byte_of c) && (byte_of c <=? hi).

(** The number of bytes of the well-formed rune a string starts with, [0] when
    there is none ([utf8.DecodeRune] answers [RuneError] of width 1). *)
Definition rune_len (s : string) : nat :=
  match s with
  | "" => 0
  | String a s =>
      if byte_of a <? 128 then 1
      else match s with
           | "" => 0
           | String b s =>
               if between 194 223 a && cont b then 2
               else match s with
                    | "" => 0
                    | String c s =>
                        if cont c && ((byte_of a =? 224) && between 160 191 b
                             || (byte_of a =? 237) && between 128 159 b
                             || (between 225 236 a || between 238 239 a) && cont b) then 3
                        else match s with
                             | "" => 0
                             | String d _ =>
                                 if cont c && cont d && ((byte_of a =? 240) && between 144 191 b
                                      || (byte_of a =? 244) && between 128 143 b
                                      || between 241 243 a && cont b) then 4
                                 else 0
                             end
                    end
           end
  end.

(** [utf8.ValidString]; [skip] bytes are left of the rune before. *)
Fixpoint valid_from (skip : nat) (s : string) : bool :=
  match s with
  | "" => true
  | String _ s' =>
      match skip with
      | S k => valid_from k s'
      | O => match rune_len s with O => false | S k => valid_from k s' end
      end
  end.
Definition valid_utf8 (s : string) : bool := valid_from 0 s.

(** The text with the bytes that are not UTF-8 replaced by U+FFFD, which is what
    writing and reading it back gives. *)
Fixpoint sanitize_from (skip : nat) (s : string) : string :=
  match s with
  | "" => ""
  | String c s' =>
      match skip with
      | S k => String c (sanitize_from k s')
      | O => match rune_len s with
             | O => string_of_bytes [239; 191; 189] +:+ sanitize_from 0 s'
             | S k => String c (sanitize_from k s')
             end
      end
  end.
Definition sanitize (s : string) : string := sanitize_from 0 s.

Lemma sanitize_from_valid s : forall k, valid_from k s = true -> sanitize_from k s = s.
Proof.
  induction s as [|c s IH]; intros [|k] Hv; try done; unfold sanitize_from, valid_from in *; fold sanitize_from valid_from in *.
  - destruct (rune_len (String c s)); [done|]. by rewrite IH.
  - by rewrite IH.
Qed.

Lemma sanitize_valid s : valid_utf8 s = true -> sanitize s = s.
Proof. apply sanitize_from_valid. Qed.

(** ASCII text is UTF-8. *)
Lemma valid_utf8_ascii s : all_chars (fun c => byte_of c <? 128) s = true -> valid_utf8 s = true.
Proof.
  unfold valid_utf8. induction s as [|c s IH]; cbn [all_chars valid_from]; [done|].
  intros [Hc Hs]%andb_true_iff. unfold rune_len. rewrite Hc. auto.
Qed.

Definition str3 (a b c : Z) : string := string_of_bytes [a; b; c].
Definition replacement : string := str3 239 191 189.

(** [utf8.EncodeRune] *)
Definition encode_rune (r : Z) : string :=
  string_of_bytes
    (if r <? 128 then [r]
     else if r <? 2048 then [192 + r / 64; 128 + r mod 64]
     else if r <? 65536 then [224 + r / 4096; 128 + r / 64 mod 64; 128 + r mod 64]
     else [240 + r / 262144; 128 + r / 4096 mod 64; 128 + r / 64 mod 64; 128 + r mod 64]).

(** ** Writing *)

Definition backslash : ascii := char_of 92.
Definition dquote : ascii := char_of 34.

Definition u_escape (hi lo : Z) : string :=
  String backslash (String "u" (Hex.EncodeToString [hi; lo])).

(** A byte below 128 inside a string. *)
Definition quote_ascii (c : ascii) : string :=
  let b := byte_of c in
  if (b =? 92) || (b =? 34) then String backslash (String c "")
  else if b =? 8 then String backslash "b"
  else if b =? 12 then String backslash "f"
  else if b =? 10 then String backslash "n"
  else if b =? 13 then String backslash "r"
  else if b =? 9 then String backslash "t"
  else if (b <? 32) || (b =? 60) || (b =? 62) || (b =? 38) then u_escape 0 b
  else String c "".

(** What to do with the bytes left of a rune that was already looked at. *)
Fixpoint quote_from (keep : bool) (skip : nat) (s : string) : string :=
  match s with
  | "" => ""
  | String c s' =>
      match skip with
      | S k => if keep then String c (quote_from keep k s') else quote_from keep k s'
      | O =>
          if byte_of c <? 128 then quote_ascii c +:+ quote_from true 0 s'
          else match rune_len s with
               | O => u_escape 255 253 +:+ quote_from true 0 s'
               | S k =>
                   if HasPrefix s (str3 226 128 168) then u_escape 32 40 +:+ quote_from false k s'
                   else if HasPrefix s (str3 226 128 169) then u_escape 32 41 +:+ quote_from false k s'
                   else String c (quote_from true k s')
               end
      end
  end.

Definition quote (s : string) : string := String dquote (quote_from true 0 s +:+ String dquote "").

Fixpoint print (v : json) : string :=
  match v with
  | JNull => "null"
  | JBool b => if b then "true" else "false"
  | JNum lit => lit
  | JStr s => quote s
  | JArr l => "[" +:+ Join "," (map print l) +:+ "]"
  | JObj l => "{" +:+ Join "," (map (fun kv => quote kv.1 +:+ ":" +:+ print kv.2) l) +:+ "}"
  end.

(** ** Reading *)

Definition ws (c : ascii) : bool :=
  let b := byte_of c in (b =? 32) || (b =? 9) || (b =? 10) || (b =? 13).

Fixpoint skip_ws (s : string) : string :=
  match s with
  | String c s' => if ws c then skip_ws s' else s
  | "" => ""
  end.

Definition hex4 (a b c d : ascii) : option Z :=
  a ← Hex.fromHexChar a; b ← Hex.fromHexChar b; c ← Hex.fromHexChar c; d ← Hex.fromHexChar d;
  Some (((a * 16 + b) * 16 + c) * 16 + d).

Definition simple_escape (c : ascii) : option Z :=
  let b := byte_of c in
  if (b =? 34) || (b =? 92) || (b =? 47) then Some b
  else if b =? 98 then Some 8
  else if b =? 102 then Some 12
  else if b =? 110 then Some 10
  else if b =? 114 then Some 13
  else if b =? 116 then Some 9
  else None.

(** [utf16.DecodeRune] of a pair of surrogates. *)
Definition surrogates (hi lo : Z) : option Z :=
  if (55296 <=? hi) && (hi <? 56320) && (56320 <=? lo) && (lo <? 57344)
  then Some ((hi - 55296) * 1024 + (lo - 56320) + 65536) else None.

Definition cons_fst (t : string) (r : option (string * string)) : option (string * string) :=
  match r with Some (x, rest) => Some (t +:+ x, rest) | None => None end.

(** The body of a string after its opening quote: the decoded text and what
    follows the closing quote. *)
Fixpoint str_body (skip : nat) (s : string) : option (string * string) :=
  match s with
  | "" => None
  | String c s' =>
      match skip with
      | S k => cons_fst (String c "") (str_body k s')
      | O =>
          if Ascii.eqb c dquote then Some ("", s')
          else if Ascii.eqb c backslash then
            match s' with
            | "" => None
            | String e s2 =>
                if Ascii.eqb e "u" then
                  match s2 with
                  | String h1 (String h2 (String h3 (String h4 s3))) =>
                      match hex4 h1 h2 h3 h4 with
                      | None => None
                      | Some r =>
                          if (55296 <=? r) && (r <? 57344) then
                            match s3 with
                            | String b (String u (String l1 (String l2 (String l3 (String l4 s4))))) =>
                                match (if Ascii.eqb b backslash && Ascii.eqb u "u"
                                       then lo ← hex4 l1 l2 l3 l4; surrogates r lo else None) with
                                | Some r => cons_fst (encode_rune r) (str_body 0 s4)
                                | None => cons_fst replacement (str_body 0 s3)
                                end
                            | _ => cons_fst replacement (str_body 0 s3)
                            end
                          else cons_fst (encode_rune r) (str_body 0 s3)
                      end
                  | _ => None
                  end
                else match simple_escape e with
                     | Some b => cons_fst (String (char_of b) "") (str_body 0 s2)
                     | None => None
                     end
            end
          else if byte_of c <? 32 then None
          else if byte_of c <? 128 then cons_fst (String c "") (str_body 0 s')
          else match rune_len s with
               | O => cons_fst replacement (str_body 0 s')
               | S k => cons_fst (String c "") (str_body k s')
               end
      end
  end.

(** Numbers: the literal and what follows it. *)
Fixpoint span_digits (s : string) : string * string :=
  match s with
  | String c s' => if is_digit c then let '(a, b) := span_digits s' in (String c a, b) else ("", s)
  | "" => ("", "")
  end.

Definition lex_digits1 (s : string) : option (string * string) :=
  let '(a, b) := span_digits s in if String.eqb a "" then None else Some (a, b).

Definition lex_int (s : string) : option (string * string) :=
  match s with
  | String c s' => if Ascii.eqb c "0" then Some ("0", s') else lex_digits1 s
  | "" => None
  end.

Definition lex_frac (s : string) : option (string * string) :=
  match s with
  | String c s' => if Ascii.eqb c "." then cons_fst "." (lex_digits1 s') else Some ("", s)
  | "" => Some ("", "")
  end.

Definition lex_exp (s : string) : option (string * string) :=
  match s with
  | String c s' =>
      if Ascii.eqb c "e" || Ascii.eqb c "E" then
        match s' with
        | String d s2 => if Ascii.eqb d "+" || Ascii.eqb d "-"
                         then cons_fst (String c (String d "")) (lex_digits1 s2)
                         else cons_fst (String c "") (lex_digits1 s')
        | "" => None
        end
      else Some ("", s)
  | "" => Some ("", "")
  end.

Definition lex_num (s : string) : option (string * string) :=
  '(sign, s) ← (match s with
                | String c s' => if Ascii.eqb c "-" then Some ("-", s') else Some ("", s)
                | "" => None end);
  '(i, s) ← lex_int s; '(f, s) ← lex_frac s; '(e, s) ← lex_exp s;
  Some (sign +:+ i +:+ f +:+ e, s).

Definition literal (word : string) (v : json) (s : string) : option (json * string) :=
  if HasPrefix s word then Some (v, drop_chars (String.length word) s) else None.

Definition maxNestingDepth : Z := 10000.

(** Every call consumes a character or moves to a smaller construct, so the
    length of the text is enough fuel. [depth] counts the open brackets. *)
Fixpoint value (fuel : nat) (depth : Z) (s : string) : option (json * string) :=
  match fuel with
  | O => None
  | S fuel =>
      match skip_ws s with
      | "" => None
      | String c s' =>
          let b := byte_of c in
          if b =? 123 then
            if maxNestingDepth <=? depth then None
            else match skip_ws s' with
                 | String d s2 => if Ascii.eqb d "}" then Some (JObj [], s2)
                                  else '(l, r) ← members fuel (depth + 1) s'; Some (JObj l, r)
                 | "" => None
                 end
          else if b =? 91 then
            if maxNestingDepth <=? depth then None
            else match skip_ws s' with
                 | String d s2 => if Ascii.eqb d "]" then Some (JArr [], s2)
                                  else '(l, r) ← elements fuel (depth + 1) s'; Some (JArr l, r)
                 | "" => None
                 end
          else if b =? 34 then '(t, r) ← str_body 0 s'; Some (JStr t, r)
          else if b =? 116 then literal "true" (JBool true) (String c s')
          else if b =? 102 then literal "false" (JBool false) (String c s')
          else if b =? 110 then literal "null" JNull (String c s')
          else '(n, r) ← lex_num (String c s'); Some (JNum n, r)
      end
  end
with elements (fuel : nat) (depth : Z) (s : string) : option (list json * string) :=
  match fuel with
  | O => None
  | S fuel =>
      '(v, r) ← value fuel depth s;
      match skip_ws r with
      | String c r' =>
          if Ascii.eqb c "]" then Some ([v], r')
          else if Ascii.eqb c "," then '(l, r2) ← elements fuel depth r'; Some (v :: l, r2)
          else None
      | "" => None
      end
  end
with members (fuel : nat) (depth : Z) (s : string) : option (list (string * json) * string) :=
  match fuel with
  | O => None
  | S fuel =>
      match skip_ws s with
      | String q s' =>
          if Ascii.eqb q dquote then
            '(k, r) ← str_body 0 s';
            match skip_ws r with
            | String c r' =>
                if Ascii.eqb c ":" then
                  '(v, r2) ← value fuel depth r';
                  match skip_ws r2 with
                  | String d r3 =>
                      if Ascii.eqb d "}" then Some ([(k, v)], r3)
                      else if Ascii.eqb d "," then '(l, r4) ← members fuel depth r3; Some ((k, v) :: l, r4)
                      else None
                  | "" => None
                  end
                else None
            | "" => None
            end
          else None
      | "" => None
      end
  end.

(** The first value of a text and what follows it ([Decoder.Decode]). *)
Definition parse_prefix (s : string) : option (json * string) := value (S (String.length s)) 0 s.

(** The whole text ([Unmarshal]'s syntax check, [Valid]). *)
Definition parse (s : string) : option json :=
  '(v, r) ← parse_prefix s; if String.eqb (skip_ws r) "" then Some v else None.

Definition Valid (s : string) : bool := match parse s with Some _ => true | None => false end.

(** ** What is written is read back *)

Fixpoint take_chars (n : nat) (s : string) : string :=
  match n, s with
  | S n, String c s => String c (take_chars n s)
  | _, _ => ""
  end.

Lemma take_drop_chars n s : take_chars n s +:+ drop_chars n s = s.
Proof. revert n. induction s as [|c s IH]; intros [|n]; try done. cbn [take_chars drop_chars]. by rewrite append_cons, IH. Qed.

Lemma quote_from_keep k s : quote_from true k s = take_chars k s +:+ quote_from true 0 (drop_chars k s).
Proof.
  revert k. induction s as [|c s IH]; intros [|k]; try done.
  cbn [quote_from take_chars drop_chars]. by rewrite append_cons, IH.
Qed.

Lemma quote_from_drop k s : quote_from false k s = quote_from true 0 (drop_chars k s).
Proof. revert k. induction s as [|c s IH]; intros [|k]; try done. cbn [quote_from drop_chars]. by rewrite IH. Qed.

Lemma sanitize_from_split k s : sanitize_from k s = take_chars k s +:+ sanitize (drop_chars k s).
Proof.
  revert k. induction s as [|c s IH]; intros [|k]; try done.
  cbn [sanitize_from take_chars drop_chars]. by rewrite append_cons, IH.
Qed.

Lemma cons_fst_append a b r : cons_fst a (cons_fst b r) = cons_fst (a +:+ b) r.
Proof. destruct r as [[x y]|]; [|done]. cbn. by rewrite append_assoc. Qed.

Lemma str_body_skip k t X : String.length t = k -> str_body k (t +:+ X) = cons_fst t (str_body 0 X).
Proof.
  revert t. induction k as [|k IH]; intros [|c t] Hl; try done.
  - change ("" +:+ X) with X. by destruct (str_body 0 X) as [[]|].
  - rewrite append_cons. cbn [str_body]. cbn in Hl. rewrite IH by lia. by rewrite cons_fst_append.
Qed.

Lemma str_body_ascii c X : byte_of c < 128 ->
  str_body 0 (quote_ascii c +:+ X) = cons_fst (String c "") (str_body 0 X).
Proof.
  intros Hc. destruct c as [[] [] [] [] [] [] [] []]; first [reflexivity|exfalso; revert Hc; vm_compute; discriminate].
Qed.

(** A rune is recognized by its own bytes. *)
Lemma rune_len_copy c s k X : 128 <= byte_of c -> rune_len (String c s) = S k ->
  rune_len (String c (take_chars k s +:+ X)) = S k /\ String.length (take_chars k s) = k.
Proof.
  intros Hc. unfold rune_len. destruct (Z.ltb_spec (byte_of c) 128); [lia|].
  destruct s as [|b s]; [done|]. destruct (between 194 223 c && cont b) eqn:E2.
  { intros [= <-]. cbn [take_chars]. rewrite append_cons, E2. done. }
  destruct s as [|d s]; [done|].
  match goal with |- context [if ?x then 3%nat else _] => destruct x eqn:E3 end.
  { intros [= <-]. cbn [take_chars]. rewrite !append_cons, E2, E3. done. }
  destruct s as [|e s]; [done|].
  match goal with |- context [if ?x then 4%nat else _] => destruct x eqn:E4 end; [|done].
  intros [= <-]. cbn [take_chars]. rewrite !append_cons, E2, E3, E4. done.
Qed.

Lemma str_body_high c s k X : 128 <= byte_of c -> rune_len (String c s) = S k ->
  str_body 0 (String c (take_chars k s +:+ X)) = cons_fst (String c (take_chars k s)) (str_body 0 X).
Proof.
  intros Hc Hr. destruct (rune_len_copy c s k X Hc Hr) as [Hr' Hl].
  assert (Ascii.eqb c dquote = false) as H1.
  { apply Ascii.eqb_neq. intros ->. revert Hc. by vm_compute. }
  assert (Ascii.eqb c backslash = false) as H2.
  { apply Ascii.eqb_neq. intros ->. revert Hc. by vm_compute. }
  unfold str_body; fold str_body. rewrite H1, H2, Hr'.
  destruct (Z.ltb_spec (byte_of c) 32); [lia|]. destruct (Z.ltb_spec (byte_of c) 128); [lia|].
  rewrite str_body_skip by done. by rewrite cons_fst_append.
Qed.

Lemma str_body_quote n : forall s rest, (String.length s <= n)%nat ->
  str_body 0 (quote_from true 0 s +:+ String dquote rest) = Some (sanitize s, rest).
Proof.
  induction n as [|n IH]; intros [|c s] rest Hn; cbn [String.length] in Hn; try (done || lia).
  unfold sanitize. cbn [sanitize_from quote_from].
  destruct (rune_len (String c s)) as [|k] eqn:Hr.
  { destruct (Z.ltb_spec (byte_of c) 128) as [Hc|_]; [unfold rune_len in Hr; by destruct (Z.ltb_spec (byte_of c) 128); [|lia]|].
    rewrite append_assoc. change (str_body 0 (u_escape 255 253 +:+ ?x)) with (cons_fst replacement (str_body 0 x)).
    by rewrite IH by lia. }
  rewrite sanitize_from_split.
  destruct (Z.ltb_spec (byte_of c) 128) as [Hc|Hc].
  - assert (k = 0%nat) as ->.
    { unfold rune_len in Hr. destruct (Z.ltb_spec (byte_of c) 128); [congruence|lia]. }
    rewrite append_assoc, str_body_ascii, IH by (done || lia). done.
  - assert (String.length (drop_chars k s) <= n)%nat as Hlen.
    { rewrite <- (take_drop_chars k s), length_append in Hn. lia. }
    destruct (HasPrefix (String c s) (str3 226 128 168)) eqn:E1;
      [|destruct (HasPrefix (String c s) (str3 226 128 169)) eqn:E2].
    + rewrite append_assoc, quote_from_drop. apply HasPrefix_true in E1 as [r Hr1].
      rewrite Hr1 in Hr. assert (k = 2%nat) as -> by (revert Hr; by intros [= <-]).
      injection Hr1 as -> ->. cbn [drop_chars] in *.
      change (str_body 0 (u_escape 32 40 +:+ ?x)) with (cons_fst (str3 226 128 168) (str_body 0 x)).
      by rewrite IH.
    + rewrite append_assoc, quote_from_drop. apply HasPrefix_true in E2 as [r Hr1].
      rewrite Hr1 in Hr. assert (k = 2%nat) as -> by (revert Hr; by intros [= <-]).
      injection Hr1 as -> ->. cbn [drop_chars] in *.
      change (str_body 0 (u_escape 32 41 +:+ ?x)) with (cons_fst (str3 226 128 169) (str_body 0 x)).
      by rewrite IH.
    + rewrite append_cons, quote_from_keep, append_assoc, str_body_high by done.
      rewrite IH by done. cbn [cons_fst]. by rewrite append_cons.
Qed.

Lemma str_body_quoted s rest : str_body 0 (quote_from true 0 s +:+ String dquote rest) = Some (sanitize s, rest).
Proof. by apply (str_body_quote (String.length s)). Qed.

(** What may follow a value in a compact text. *)
Definition stops (rest : string) : Prop :=
  match rest with
  | "" => True
  | String c _ => c = ","%char \/ c = "]"%char \/ c = "}"%char
  end.

Lemma stops_not_digit c rest : stops (String c rest) ->
  is_digit c = false /\ Ascii.eqb c "." = false /\ Ascii.eqb c "e" = false /\ Ascii.eqb c "E" = false /\ ws c = false.
Proof. by intros [-> | [-> | ->]]. Qed.

Lemma span_digits_stop ds rest : all_chars is_digit ds = true -> stops rest ->
  span_digits (ds +:+ rest) = (ds, rest).
Proof.
  intros Hds Hr. induction ds as [|c ds IH].
  - change ("" +:+ rest) with rest. destruct rest as [|c rest]; [done|]. cbn [span_digits].
    by destruct (stops_not_digit c rest Hr) as (-> & _).
  - cbn in Hds. apply andb_true_iff in Hds as [Hc Hds]. rewrite append_cons. cbn [span_digits].
    by rewrite Hc, IH.
Qed.

Lemma lex_tail rest : stops rest -> lex_frac rest = Some ("", rest) /\ lex_exp rest = Some ("", rest).
Proof.
  destruct rest as [|c rest]; [done|]. intros Hr. destruct (stops_not_digit c rest Hr) as (_ & Hd & He & HE & _).
  unfold lex_frac, lex_exp. by rewrite Hd, He, HE.
Qed.

Lemma nonzero_digit d : in_range "1" "9" d = true ->
  is_digit d = true /\ Ascii.eqb d "0" = false /\ Ascii.eqb d "-" = false /\ ws d = false /\ 49 <= byte_of d <= 57.
Proof.
  intros H. assert (49 <= byte_of d <= 57) as Hd.
  { unfold in_range in H. apply andb_true_iff in H as [H1%Z.leb_le H2%Z.leb_le].
    change (byte_of "1") with 49 in H1. change (byte_of "9") with 57 in H2. lia. }
  assert (is_digit d = true) as ->.
  { unfold is_digit, in_range. change (byte_of "0") with 48. change (byte_of "9") with 57.
    apply andb_true_iff. rewrite !Z.leb_le. lia. }
  split_and!; try (done || lia).
  - apply Ascii.eqb_neq. intros ->. by vm_compute in Hd.
  - apply Ascii.eqb_neq. intros ->. by vm_compute in Hd.
  - unfold ws. rewrite !orb_false_iff, !Z.eqb_neq. lia.
Qed.

Lemma lex_num_int c s i rest : Ascii.eqb c "-" = false -> lex_int (String c s) = Some (i, rest) ->
  stops rest -> lex_num (String c s) = Some (i, rest).
Proof.
  intros Hc Hi Hr. destruct (lex_tail rest Hr) as [Hf He]. unfold lex_num. rewrite Hc.
  unfold mbind, option_bind. rewrite Hi, Hf, He. cbn [String.append]. by rewrite append_nil_r.
Qed.

Lemma lex_num_pretty z rest : 0 <= z -> stops rest -> lex_num (pretty z +:+ rest) = Some (pretty z, rest).
Proof.
  intros Hz Hr. destruct (pretty_Z_digits z Hz) as [->|(d & ds & -> & Hd & Hds)].
  - by apply lex_num_int.
  - destruct (nonzero_digit d Hd) as (Hdig & H0 & Hm & _). rewrite append_cons. apply lex_num_int; [done| |done].
    unfold lex_int. rewrite H0. unfold lex_digits1. cbn [span_digits]. by rewrite Hdig, span_digits_stop.
Qed.

(** Induction on trees. *)
Lemma json_tree_ind (P : json -> Prop) :
  P JNull -> (forall b, P (JBool b)) -> (forall n, P (JNum n)) -> (forall s, P (JStr s)) ->
  (forall l, Forall P l -> P (JArr l)) -> (forall l, Forall (fun kv => P kv.2) l -> P (JObj l)) -> forall v, P v.
Proof.
  intros H1 H2 H3 H4 H5 H6. fix IH 1. intros v.
  destruct v as [|b|n|s|l|l]; [exact H1|apply H2|apply H3|apply H4|apply H5|apply H6].
  - induction l as [|v l IHl]; constructor; [apply IH|exact IHl].
  - induction l as [|[k v] l IHl]; constructor; [apply IH|exact IHl].
Qed.

(** Trees whose numbers are printed naturals. *)
Fixpoint wf_json (v : json) : Prop :=
  match v with
  | JNull | JBool _ | JStr _ => True
  | JNum n => exists z, 0 <= z /\ n = pretty z
  | JArr l => Forall id (map wf_json l)
  | JObj l => Forall id (map (fun kv => wf_json kv.2) l)
  end.

(** The tree with all its texts sanitized. *)
Fixpoint clean (v : json) : json :=
  match v with
  | JStr s => JStr (sanitize s)
  | JArr l => JArr (map clean l)
  | JObj l => JObj (map (fun kv => (sanitize kv.1, clean kv.2)) l)
  | _ => v
  end.

Fixpoint height (v : json) : nat :=
  match v with
  | JArr l => S (fold_right max 0%nat (map height l))
  | JObj l => S (fold_right max 0%nat (map (fun kv => height kv.2) l))
  | _ => 0
  end.

Lemma skip_ws_here c s : ws c = false -> skip_ws (String c s) = String c s.
Proof. intros H. cbn. by rewrite H. Qed.

(** What a value's text starts with. *)
Lemma print_head v : wf_json v -> exists c t, print v = String c t /\ ws c = false /\ c <> "]"%char /\ c <> "}"%char.
Proof.
  destruct v as [|[]|n|s|l|l]; intros Hw; cbn [print]; try (by eexists _, _).
  destruct Hw as (z & Hz & ->). destruct (pretty_Z_digits z Hz) as [->|(d & ds & -> & Hd & _)]; [by eexists _, _|].
  destruct (nonzero_digit d Hd) as (_ & _ & _ & Hws & Hr). exists d, ds. split_and!; [done|done|..]; intros ->; by vm_compute in Hr.
Qed.

Definition reads (v : json) : Prop := forall fuel d rest,
  (String.length (print v) <= fuel)%nat -> d + Z.of_nat (height v) <= maxNestingDepth -> stops rest ->
  value fuel d (print v +:+ rest) = Some (clean v, rest).

Definition print_member (kv : string * json) : string := quote kv.1 +:+ ":" +:+ print kv.2.

Lemma elements_print l : l <> [] -> Forall reads l -> forall fuel d rest,
  (String.length (Join "," (map print l)) < fuel)%nat ->
  d + Z.of_nat (fold_right max 0%nat (map height l)) <= maxNestingDepth ->
  elements fuel d (Join "," (map print l) +:+ "]" +:+ rest) = Some (map clean l, rest).
Proof.
  intros Hne Hl. induction Hl as [|v l Hv Hl IH]; [done|]. intros [|fuel] d rest Hf Hd; [lia|].
  cbn [map fold_right] in Hd. destruct l as [|w l].
  - cbn [map Join] in *. cbn [elements]. rewrite Hv; [|lia|lia|by right; left]. done.
  - cbn [map] in *. rewrite Join_cons in *. rewrite !length_append in Hf. cbn [String.length] in Hf.
    rewrite !append_assoc. cbn [elements]. rewrite Hv; [|lia|lia|by left].
    cbn [mbind option_bind]. change (skip_ws ("," +:+ ?x)) with (String "," x).
    change (Ascii.eqb "," "]") with false. change (Ascii.eqb "," ",") with true. cbv iota beta.
    rewrite IH; [done|done|lia|lia].
Qed.

Definition clean_member (kv : string * json) : string * json := (sanitize kv.1, clean kv.2).

Lemma members_print l : l <> [] -> Forall (fun kv => reads kv.2) l -> forall fuel d rest,
  (String.length (Join "," (map print_member l)) < fuel)%nat ->
  d + Z.of_nat (fold_right max 0%nat (map (fun kv => height kv.2) l)) <= maxNestingDepth ->
  members fuel d (Join "," (map print_member l) +:+ "}" +:+ rest) = Some (map clean_member l, rest).
Proof.
  intros Hne Hl. induction Hl as [|[k v] l Hv Hl IH]; [done|]. intros [|fuel] d rest Hf Hd; [lia|].
  cbn [fst snd] in *. cbn [map fold_right snd] in Hd.
  assert (forall X, members (S fuel) d (print_member (k, v) +:+ X) =
    '(v, r2) ← value fuel d (print v +:+ X);
    match skip_ws r2 with
    | String d' r3 =>
        if Ascii.eqb d' "}" then Some ([(sanitize k, v)], r3)
        else if Ascii.eqb d' "," then '(l, r4) ← members fuel d r3; Some ((sanitize k, v) :: l, r4) else None
    | "" => None
    end) as Hmem.
  { intros X. unfold print_member, quote; cbn [fst snd]. rewrite !append_cons, !append_assoc. cbn [members].
    rewrite skip_ws_here by done. change (Ascii.eqb dquote dquote) with true. cbv iota.
    change (String dquote "" +:+ ?x) with (String dquote x).
    rewrite str_body_quoted by done. done. }
  assert (String.length (print v) + 2 <= String.length (print_member (k, v)))%nat as Hlen.
  { unfold print_member, quote; cbn [fst snd]. rewrite append_cons. cbn [String.length].
    rewrite !length_append. cbn [String.length]. lia. }
  destruct l as [|kw l].
  - cbn [map Join] in *. rewrite Hmem, Hv; [|lia|lia|by right; right]. done.
  - cbn [map] in *. rewrite Join_cons in *. rewrite !length_append in Hf. cbn [String.length] in Hf.
    rewrite !append_assoc, Hmem, Hv; [|lia|lia|by left].
    cbn [mbind option_bind]. change (skip_ws ("," +:+ ?x)) with (String "," x).
    change (Ascii.eqb "," "}") with false. change (Ascii.eqb "," ",") with true. cbv iota beta.
    rewrite IH; [done|done|lia|lia].
Qed.

Lemma Forall_id_map {A} (P : A -> Prop) l : Forall id (map P l) <-> Forall P l.
Proof. induction l as [|x l IH]; cbn; [done|]. by rewrite !Forall_cons, IH. Qed.

Lemma Join_head sep x l : exists t, Join sep (x :: l) = x +:+ t.
Proof. destruct l as [|y l]; [exists ""; by rewrite append_nil_r|]. rewrite Join_cons. eauto. Qed.

Lemma value_open_arr c fuel d s : skip_ws s = String c (drop_chars 1 (skip_ws s)) -> c <> "]"%char ->
  d < maxNestingDepth ->
  value (S fuel) d ("[" +:+ s) = '(l, r) ← elements fuel (d + 1) s; Some (JArr l, r).
Proof.
  intros Hs Hc Hd. change ("[" +:+ s) with (String "[" s). cbn [value skip_ws]. change (ws "[") with false.
  change (byte_of "[") with 91. cbv iota. change (91 =? 123) with false. change (91 =? 91) with true. cbv iota.
  destruct (Z.leb_spec maxNestingDepth d); [lia|]. rewrite Hs. by destruct (Ascii.eqb_spec c "]").
Qed.

Lemma value_open_obj c fuel d s : skip_ws s = String c (drop_chars 1 (skip_ws s)) -> c <> "}"%char ->
  d < maxNestingDepth ->
  value (S fuel) d ("{" +:+ s) = '(l, r) ← members fuel (d + 1) s; Some (JObj l, r).
Proof.
  intros Hs Hc Hd. change ("{" +:+ s) with (String "{" s). cbn [value skip_ws]. change (ws "{") with false.
  change (byte_of "{") with 123. cbv iota. change (123 =? 123) with true. cbv iota.
  destruct (Z.leb_spec maxNestingDepth d); [lia|]. rewrite Hs. by destruct (Ascii.eqb_spec c "}").
Qed.

Lemma value_num c fuel d s n r : 48 <= byte_of c <= 57 -> lex_num (String c s) = Some (n, r) ->
  value (S fuel) d (String c s) = Some (JNum n, r).
Proof.
  intros Hc Hl. assert (ws c = false) as Hws by (unfold ws; rewrite !orb_false_iff, !Z.eqb_neq; lia).
  cbn [value]. rewrite skip_ws_here by done.
  repeat match goal with |- context [byte_of c =? ?k] => destruct (Z.eqb_spec (byte_of c) k); [lia|] end.
  by rewrite Hl.
Qed.

Lemma append_drop1 c t X : String c t +:+ X = String c (drop_chars 1 (String c t +:+ X)).
Proof. rewrite append_cons. cbn [drop_chars]. done. Qed.

Lemma literal_here w v rest : literal w v (w +:+ rest) = Some (v, rest).
Proof. unfold literal, HasPrefix. by rewrite prefix_append, drop_chars_append. Qed.

Lemma reads_all v : wf_json v -> reads v.
Proof.
  induction v as [|b|n|s|l IH|l IH] using json_tree_ind; intros Hw fuel d rest Hf Hd Hr.
  - destruct fuel; [cbn in Hf; lia|]. apply (literal_here "null").
  - destruct fuel; [destruct b; cbn in Hf; lia|]. destruct b; [apply (literal_here "true")|apply (literal_here "false")].
  - destruct Hw as (z & Hz & ->). cbn [print] in *. pose proof (lex_num_pretty z rest Hz Hr) as Hl.
    destruct (pretty_Z_digits z Hz) as [E|(c & ds & E & Hc & _)]; rewrite E in *; destruct fuel; try (cbn in Hf; lia).
    + rewrite append_cons in *. by apply value_num.
    + destruct (nonzero_digit c Hc) as (_ & _ & _ & _ & ?). rewrite append_cons in *. apply value_num; [lia|done].
  - cbn [print] in *. unfold quote in *. destruct fuel; [cbn in Hf; lia|]. rewrite append_cons, append_assoc.
    change (String dquote "" +:+ rest) with (String dquote rest). cbn [value]. rewrite skip_ws_here by done.
    change (byte_of dquote) with 34. by rewrite str_body_quoted.
  - cbn [print height] in *. cbn in Hw. apply -> @Forall_id_map in Hw. rewrite !length_append in Hf. cbn [String.length] in Hf.
    destruct fuel as [|fuel]; [lia|]. destruct l as [|v l].
    { assert ((maxNestingDepth <=? d) = false) as E by (apply Z.leb_gt; cbn in Hd; lia).
      cbn [map Join]. cbn -[maxNestingDepth]. by rewrite E. }
    assert (Forall reads (v :: l)) as Hrd by (by apply (Forall_mp wf_json)).
    rewrite !append_assoc. pose proof (Forall_inv Hw) as Hwv. destruct (print_head v Hwv) as (c & t & Hp & Hws & Hc & _).
    destruct (Join_head "," (print v) (map print l)) as [t' HJ]. cbn [map] in *.
    rewrite (value_open_arr c); [|rewrite HJ, Hp, !append_assoc, append_drop1, skip_ws_here by done; done|done|lia].
    rewrite (elements_print (v :: l)); try done; cbn [map]; lia.
  - change (print (JObj l)) with ("{" +:+ Join "," (map print_member l) +:+ "}") in *. cbn [height] in Hd.
    cbn in Hw. apply -> @Forall_id_map in Hw. rewrite !length_append in Hf. cbn [String.length] in Hf.
    destruct fuel as [|fuel]; [lia|]. destruct l as [|[k v] l].
    { assert ((maxNestingDepth <=? d) = false) as E by (apply Z.leb_gt; cbn in Hd; lia).
      cbn [map Join]. cbn -[maxNestingDepth]. by rewrite E. }
    rewrite !append_assoc. destruct (Join_head "," (print_member (k, v)) (map print_member l)) as [t' HJ]. cbn [map] in *.
    rewrite (value_open_obj dquote); [|rewrite HJ; unfold print_member, quote; cbn [fst snd]; rewrite !append_assoc, append_drop1, skip_ws_here by done; done|done|lia].
    rewrite (members_print ((k, v) :: l)); cbn [map]; try (done || lia).
    by apply (Forall_mp (fun kv => wf_json kv.2)).
Qed.

Lemma parse_print v : wf_json v -> Z.of_nat (height v) <= maxNestingDepth -> parse (print v) = Some (clean v).
Proof.
  intros Hw Hh. unfold parse, parse_prefix. rewrite <- (append_nil_r (print v)) at 2.
  rewrite (reads_all v Hw); [done|lia|lia|done].
Qed.

(** ** Decoding into structs *)

Definition SyntaxError : error := Errorf "json: syntax error" [].
Definition UnmarshalTypeError : error := Errorf "json: cannot unmarshal value into Go value" [].

(** A decoder writes a tree over the value that is there. *)
Definition decoder (R : Type) := json -> R -> result R.

Definition dec_string : decoder string := fun v r =>
  match v with JStr s => Ok s | JNull => Ok r | _ => Err UnmarshalTypeError end.

Definition dec_bool : decoder bool := fun v r =>
  match v with JBool b => Ok b | JNull => Ok r | _ => Err UnmarshalTypeError end.

(** [int] and [uint32]: an integer literal in range. *)
Definition dec_int : decoder Z := fun v r =>
  match v with
  | JNum n => match Atoi n with Some z => Ok z | None => Err UnmarshalTypeError end
  | JNull => Ok r
  | _ => Err UnmarshalTypeError
  end.

Definition dec_uint32 : decoder Z := fun v r =>
  match v with
  | JNum n => match parse_nat n with
              | Some z => if z <? 2 ^ 32 then Ok z else Err UnmarshalTypeError
              | None => Err UnmarshalTypeError
              end
  | JNull => Ok r
  | _ => Err UnmarshalTypeError
  end.

Definition dec_uint64 : decoder Z := fun v r =>
  match v with
  | JNum n => match parse_nat n with
              | Some z => if z <? 2 ^ 64 then Ok z else Err UnmarshalTypeError
              | None => Err UnmarshalTypeError
              end
  | JNull => Ok r
  | _ => Err UnmarshalTypeError
  end.

Fixpoint all_ok {A B} (f : A -> result B) (l : list A) : result (list B) :=
  match l with
  | [] => Ok []
  | x :: l => y ← f x; ys ← all_ok f l; Ok (y :: ys)
  end.

(** A slice starts empty; [zero] is the element type's zero value. *)
Definition dec_list {A} (zero : A) (d : decoder A) : decoder (list A) := fun v _ =>
  match v with
  | JArr l => all_ok (fun x => d x zero) l
  | JNull => Ok []
  | _ => Err UnmarshalTypeError
  end.

(** A pointer: [null] is [nil]. *)
Definition dec_ptr {A} (zero : A) (d : decoder A) : decoder (option A) := fun v r =>
  match v with
  | JNull => Ok None
  | _ => x ← d v (default zero r); Ok (Some x)
  end.

Fixpoint assoc_insert {A} (k : string) (v : A) (l : list (string * A)) : list (string * A) :=
  match l with
  | [] => [(k, v)]
  | (k', v') :: l => if String.eqb k k' then (k, v) :: l else (k', v') :: assoc_insert k v l
  end.

Fixpoint assoc_lookup {A} (k : string) (l : list (string * A)) : option A :=
  match l with
  | [] => None
  | (k', v) :: l => if String.eqb k k' then Some v else assoc_lookup k l
  end.

Lemma assoc_lookup_insert {A} k (v : A) l : assoc_lookup k (assoc_insert k v l) = Some v.
Proof.
  induction l as [|[j x] l IH]; cbn; [by rewrite String.eqb_refl|]. destruct (String.eqb k j) eqn:E; cbn.
  - by rewrite String.eqb_refl.
  - by rewrite E.
Qed.

Lemma assoc_lookup_insert_ne {A} k j (v : A) l : k <> j -> assoc_lookup j (assoc_insert k v l) = assoc_lookup j l.
Proof.
  intros Hne. induction l as [|[i x] l IH]; cbn.
  - by apply not_eq_sym, String.eqb_neq in Hne as ->.
  - destruct (String.eqb_spec k i) as [->|]; cbn; [by apply not_eq_sym, String.eqb_neq in Hne as ->|].
    by destruct (String.eqb j i).
Qed.

(** [map[string]json.RawMessage]: the subtrees as they are. *)
Definition dec_raw_map : decoder (list (string * json)) := fun v r =>
  match v with
  | JObj l => Ok (fold_left (fun m kv => assoc_insert kv.1 kv.2 m) l r)
  | JNull => Ok []
  | _ => Err UnmarshalTypeError
  end.

(** A name with the case of its letters removed. U+017F and U+212A fold to the
    letters they are variants of. *)
Fixpoint fold_name (s : string) : string :=
  match s with
  | "" => ""
  | String a s1 =>
      match s1 with
      | String b s2 =>
          if (byte_of a =? 197) && (byte_of b =? 191) then String "S" (fold_name s2)
          else match s2 with
               | String c s3 =>
                   if (byte_of a =? 226) && (byte_of b =? 132) && (byte_of c =? 170)
                   then String "K" (fold_name s3)
                   else String (if in_range "a" "z" a then char_of (byte_of a - 32) else a) (fold_name s1)
               | "" => String (if in_range "a" "z" a then char_of (byte_of a - 32) else a) (fold_name s1)
               end
      | "" => String (if in_range "a" "z" a then char_of (byte_of a - 32) else a) ""
      end
  end.

Record field (R : Type) := mkField { field_name : string; field_dec : decoder R }.
Arguments mkField {R} field_name field_dec.
Arguments field_name {R} f.
Arguments field_dec {R} f.

Definition fld {R A} (name : string) (get : R -> A) (set : A -> R -> R) (d : decoder A) : field R :=
  mkField name (fun v r => x ← d v (get r); Ok (set x r)).

Definition find_field {R} (fs : list (field R)) (k : string) : option (field R) :=
  match find (fun f => String.eqb (field_name f) k) fs with
  | Some f => Some f
  | None => find (fun f => String.eqb (fold_name (field_name f)) (fold_name k)) fs
  end.

Fixpoint dec_members {R} (fs : list (field R)) (l : list (string * json)) (r : R) : result R :=
  match l with
  | [] => Ok r
  | (k, v) :: l =>
      match find_field fs k with
      | Some f => r ← field_dec f v r; dec_members fs l r
      | None => dec_members fs l r
      end
  end.

Definition dec_struct {R} (fs : list (field R)) : decoder R := fun v r =>
  match v with
  | JObj l => dec_members fs l r
  | JNull => Ok r
  | _ => Err UnmarshalTypeError
  end.

(** [json.Unmarshal(text, &r)]. *)
Definition Unmarshal {R} (d : decoder R) (text : string) (r : R) : result R :=
  match parse text with
  | None => Err SyntaxError
  | Some v => d v r
  end.

(** [json.NewDecoder(r).Decode(&r)]: the first value of the stream. *)
Definition Decode {R} (d : decoder R) (text : string) (r : R) : result R :=
  match parse_prefix text with
  | None => Err SyntaxError
  | Some (v, _) => d v r
  end.

(** [_ = json.Unmarshal(text, &r)] into a struct: a member that does not decode
    leaves its field as it is, and decoding goes on. *)
Fixpoint keep_members {R} (fs : list (field R)) (l : list (string * json)) (r : R) : R :=
  match l with
  | [] => r
  | (k, v) :: l =>
      keep_members fs l
        (match find_field fs k with
         | Some f => match field_dec f v r with Ok r' => r' | Err _ => r end
         | None => r
         end)
  end.

Definition Unmarshal_ignored {R} (fs : list (field R)) (text : string) (r : R) : R :=
  match parse text with
  | Some (JObj l) => keep_members fs l r
  | _ => r
  end.

(** [omitempty] for strings. *)
Definition omitempty (k s : string) : list (string * json) :=
  if String.eqb s "" then [] else [(k, JStr s)].

Lemma dec_uint32_num z r : is_u32 z -> dec_uint32 (JNum (pretty z)) r = Ok z.
Proof.
  intros Hz. unfold is_u32 in Hz. cbn. rewrite parse_nat_pretty_Z by lia.
  by destruct (Z.ltb_spec z (2 ^ 32)); [|lia].
Qed.

Lemma Unmarshal_print {R} (d : decoder R) v r : wf_json v -> Z.of_nat (height v) <= maxNestingDepth ->
  Unmarshal d (print v) r = d (clean v) r.
Proof. intros. unfold Unmarshal. by rewrite parse_print. Qed.

(** ** The errors of decoders

    A decoder that only fails on a value of another type. *)
Definition type_errors {R} (d : decoder R) : Prop := forall v r e, d v r = Err e -> e = UnmarshalTypeError.

Lemma dec_string_err : type_errors dec_string.
Proof. intros v r e. destruct v; naive_solver. Qed.

Lemma dec_int_err : type_errors dec_int.
Proof. intros v r e. destruct v; cbn; try destruct (Atoi _); naive_solver. Qed.

Lemma dec_list_err {A} zero (d : decoder A) : type_errors d -> type_errors (dec_list zero d).
Proof.
  intros Hd v r e. destruct v as [| | | |l|]; try (cbn; congruence). cbn. revert e. induction l as [|x l IH]; intros e; cbn; [done|].
  destruct (d x zero) as [y|e'] eqn:Ed; cbn; [|intros [= <-]; by eapply Hd].
  destruct (all_ok _ l) as [ys|e']; cbn; [done|]. intros [= <-]. by apply IH.
Qed.

Lemma fld_err {R A} name (get : R -> A) set (d : decoder A) : type_errors d -> type_errors (field_dec (fld name get set d)).
Proof. intros Hd v r e. cbn. destruct (d v (get r)) eqn:Ed; cbn; [done|]. intros [= <-]. by eapply Hd. Qed.

Lemma dec_struct_err {R} (fs : list (field R)) : Forall (fun f => type_errors (field_dec f)) fs -> type_errors (dec_struct fs).
Proof.
  intros Hf v r e. unfold dec_struct. destruct v as [| | | | |l]; try by intros [= <-].
  revert r. induction l as [|[k x] l IH]; [done|]. intros r. cbn. destruct (find_field fs k) as [f|] eqn:Ef; [|by apply IH].
  assert (f ∈ fs) as Hin.
  { unfold find_field in Ef. destruct (find _ fs) eqn:E1.
    - simplify_eq. apply list_elem_of_In. by eapply find_some.
    - apply list_elem_of_In. by eapply find_some. }
  rewrite Forall_forall in Hf. destruct (field_dec f x r) as [r'|e'] eqn:Ed; cbn; [by apply IH|].
  intros [= <-]. by eapply Hf.
Qed.

Create HintDb type_errors.
#[export] Hint Resolve dec_string_err dec_int_err dec_list_err fld_err dec_struct_err : type_errors.
