(* ===== verification/MasterSeed.v ===== *)
(** * The masterseed plugin (pkg/plugin/masterseed)

    [MasterSeed] derives outputs from a 32-byte block through ChaCha20; [Plugin]
    keeps a bounded pool of master seeds with a byte cursor each, and serves
    [GetSeeds] by reserving a range of one seed's key stream under its lock and
    deriving it outside.

    The critical sections of [p.mu] are the atomic steps. [crypto/rand] is the
    sequence of answers that its reads give: a loop that would need more answers
    than the sequence holds is still [Blocked]. *)

From S2P Require Import Prelude GoStrings Errors Codec Sha2 ChaCha20.

Record MasterSeed := mkSeed { Seed : string; Offset : Z }.

Definition maxUint64 : Z := 2 ^ 64 - 1.

Definition mulUint64Checked (a b : Z) : Z * bool :=
  if (a =? 0) || (b =? 0) then (0, true)
  else if maxUint64 / b <? a then (0, false)
  else (u64 (a * b), true).

Definition addUint64Checked (a b : Z) : Z * bool :=
  if maxUint64 - b <? a then (0, false) else (u64 (a + b), true).

Definition parseTRNGBlock (m : MasterSeed) : result (list Z) :=
  raw ← map_err (Wrapf "failed to decode master seed hex: %w" []) (Hex.DecodeString (Seed m));
  if negb (length raw =? 32)%nat
  then Err (Errorf "master seed length is %d bytes (hex len %d), expected 32 bytes (hex len 64)"
              [pretty (length raw); pretty (String.length (Seed m))])
  else Ok raw.

Definition clampOutLen (outLen : Z) : Z :=
  if (outLen <=? 0) || (1024 <? outLen) then 32 else outLen.

Definition DeriveBulkAtOffset (m : MasterSeed) (n offsetBytes outLen : Z) : outcome (list string) :=
  if n <=? 0 then Returned (Ok [])
  else
    let outLen := clampOutLen outLen in
    let '(need, ok) := mulUint64Checked (u64 n) (u64 outLen) in
    if negb ok then Returned (Err (Errorf "byte requirement overflow: n=%d outLen=%d" [pretty n; pretty outLen]))
    else if maxInt <? need
    then Returned (Err (Errorf "request too large: need=%d bytes exceeds max int=%d" [pretty need; pretty maxInt]))
    else match parseTRNGBlock m with
         | Err e => Returned (Err e)
         | Ok seedBlock =>
             let rng := DiscardBytesFast (New seedBlock) offsetBytes in
             match FillBytes rng (Z.to_nat need) with
             | None => Blocked
             | Some (buf, _) =>
                 Returned (Ok ((fun i => Hex.EncodeToString
                   (take (Z.to_nat outLen) (drop (Z.to_nat (i * outLen)) buf))) <$> seqZ 0 n))
             end
         end.

Definition DeriveBulk (m : MasterSeed) (n outLen : Z) : outcome (list string) :=
  DeriveBulkAtOffset m n 0 outLen.

Definition DeriveOneFromSeedHex (seedHex : string) : outcome string :=
  match DeriveBulk (mkSeed seedHex 0) 1 32 with
  | Returned (Ok (v :: _)) => Returned (Ok v)
  | Returned (Ok []) => Returned (Err (Errorf "no value produced" []))
  | Returned (Err e) => Returned (Err e)
  | Blocked => Blocked
  | Panicked => Panicked
  end.

Definition DeriveBulkFromSeedHex (seedHex : string) (n : Z) : outcome (list string) :=
  DeriveBulk (mkSeed seedHex 0) n 32.

(** ** Configuration

    [viper] is outside the repository: what it does for the plugin is to look a
    key up in the environment and to fall back to the default set before. *)

Record Viper := mkViper {
  viper_string : string -> option string;
  viper_int : string -> option Z;
}.

Record masterSeedConfig := mkConfig {
  MasterSeedDefaultMasterSeeds : list string;
  MasterSeedTRNGSize : Z;
  MasterSeedMaxMasterSeeds : Z;
  MaserSeedPeriod : Z;
  AptosPlugin : string;
  MasterSeedMaxCountPerRequest : Z;
}.

(** [setDefaults] *)
Definition string_defaults : list (string * string) :=
  [("DEFAULT_MASTER_SEEDS", ""); ("APTOS_PLUGIN", "plugin-aptos-orbital:50001")].

Definition int_defaults : list (string * Z) :=
  [("MASTER_SEED_TRNG_SIZE", 32); ("MASTER_SEED_MAX_MASTER_SEEDS", 100);
   ("MASTER_SEED_SEED_PERIOD", 3600); ("MASTER_SEED_MAX_COUNT_PER_REQUEST", 25000)].

Fixpoint assoc {A} (k : string) (l : list (string * A)) : option A :=
  match l with
  | [] => None
  | (k', v) :: l => if String.eqb k k' then Some v else assoc k l
  end.

Definition GetString (v : Viper) (key : string) : string :=
  default (default "" (assoc key string_defaults)) (viper_string v key).

Definition GetInt (v : Viper) (key : string) : Z :=
  default (default 0 (assoc key int_defaults)) (viper_int v key).

Definition extractSeeds (v : Viper) : list string :=
  let rawSeeds := TrimSpace (GetString v "DEFAULT_MASTER_SEEDS") in
  if String.eqb rawSeeds "" then []
  else filter (fun s => s <> "") (TrimSpace <$> Split "," rawSeeds).

Definition readFromEnv (v : Viper) : masterSeedConfig :=
  mkConfig (extractSeeds v) (GetInt v "MASTER_SEED_TRNG_SIZE") (GetInt v "MASTER_SEED_MAX_MASTER_SEEDS")
    (GetInt v "MASTER_SEED_SEED_PERIOD") (GetString v "APTOS_PLUGIN")
    (GetInt v "MASTER_SEED_MAX_COUNT_PER_REQUEST").

(** ** The plugin *)

Record Plugin := mkPlugin {
  masterSeeds : list MasterSeed;
  seedInterval : Z;
  trngSize : Z;
  maxMasterSeeds : Z;
  maxCountPerRequest : Z;
}.

Definition set_seeds (p : Plugin) (l : list MasterSeed) : Plugin :=
  mkPlugin l (seedInterval p) (trngSize p) (maxMasterSeeds p) (maxCountPerRequest p).

Definition masterSeedCount (p : Plugin) : Z := Z.of_nat (length (masterSeeds p)).

(** [copy(s[0:], s[1:])], the last element zeroed, then cut off: the slice
    without its first element. *)
Definition addMasterSeed (p : Plugin) (seed : string) : Plugin :=
  if String.eqb seed "" then p
  else
    let m := mkSeed seed 0 in
    match parseTRNGBlock m with
    | Err _ => p
    | Ok _ =>
        let l := masterSeeds p ++ [m] in
        if maxMasterSeeds p <? Z.of_nat (length l) then
          let l := tail l ++ [mkSeed "" 0] in
          set_seeds p (take (length l - 1) l)
        else set_seeds p l
    end.

Definition saltDefaultSeed (seedHex : string) (bootNonceNanos : Z) : result string :=
  raw ← map_err (Wrapf "default seed is not valid hex: %w" []) (Hex.DecodeString seedHex);
  if negb (length raw =? 32)%nat
  then Err (Errorf "default seed length is %d bytes; expected 32" [pretty (length raw)])
  else
    let sum := Sum256 (raw ++ be_bytes 8 (u64 bootNonceNanos)) in
    Ok (Hex.EncodeToString (take 32 sum)).

(** The seeds inserted at boot; the ones that cannot be salted are skipped. *)
Definition insertDefaultSeeds (p : Plugin) (defaultSeeds : list string) (bootNonceNanos : Z) : Plugin :=
  fold_left (fun p s =>
    match saltDefaultSeed s bootNonceNanos with
    | Err _ => p
    | Ok salted => addMasterSeed p salted
    end) defaultSeeds p.

(** One tick of the background loop, with the answer of [GetTrng]. *)
Definition fetchTick (p : Plugin) (resp : result (list string)) : Plugin :=
  match resp with
  | Err _ | Ok [] => p
  | Ok (seed :: _) => addMasterSeed p seed
  end.

(** [dialed] is what [grpc.NewClient] answers; the client connection itself is
    not part of the state. *)
Definition NewPlugin (v : Viper) (dialed : result unit) (bootNonceNanos : Z) : result Plugin :=
  let cfg := readFromEnv v in
  _ ← map_err (fun e => Wrapf "failed to init aptos client: %w" []
                (Wrapf "failed to connect to Aptos plugin: %w" [] e)) dialed;
  let trng := MasterSeedTRNGSize cfg in
  let trng := if (trng <=? 0) || (1024 <? trng) then 32 else trng in
  let maxSeeds := MasterSeedMaxMasterSeeds cfg in
  let maxSeeds := if maxSeeds <=? 0 then 100 else maxSeeds in
  let period := MaserSeedPeriod cfg in
  let period := if period <=? 0 then 3600 else period in
  let maxCount := MasterSeedMaxCountPerRequest cfg in
  let maxCount := if maxCount <=? 0 then 25000 else maxCount in
  let p := mkPlugin [] (i64 (period * 1000000000)) trng maxSeeds maxCount in
  Ok (insertDefaultSeeds p (MasterSeedDefaultMasterSeeds cfg) bootNonceNanos).

(** The loop of [cryptoRandIndex] over the answers of [rand.Read]. *)
Fixpoint sample (un limit : Z) (draws : list (result (list Z))) : outcome Z * list (result (list Z)) :=
  match draws with
  | [] => (Blocked, [])
  | Err e :: draws => (Returned (Err (Wrapf "crypto/rand failed: %w" [] e)), draws)
  | Ok buf :: draws =>
      let v := Uint32 buf in
      if v <? limit then (Returned (Ok (v mod un)), draws) else sample un limit draws
  end.

Definition cryptoRandIndex (n : Z) (draws : list (result (list Z))) : outcome Z * list (result (list Z)) :=
  if n <=? 0 then (Returned (Err (Errorf "invalid n=%d" [pretty n])), draws)
  else
    let un := u32 n in
    if un =? 0 then (Panicked, draws)
    else
      let maxU32 := 2 ^ 32 - 1 in
      sample un (maxU32 - maxU32 mod un) draws.

Definition reserveSeedOffset (p : Plugin) (count : Z) (draws : list (result (list Z)))
  : outcome (string * Z) * Plugin :=
  let outLen := trngSize p in
  if count <=? 0 then (Returned (Err (Errorf "invalid count=%d" [pretty count])), p)
  else if maxCountPerRequest p <? count
  then (Returned (Err (Errorf "count too large: %d (max %d)" [pretty count; pretty (maxCountPerRequest p)])), p)
  else
    let '(need, ok) := mulUint64Checked (u64 count) (u64 outLen) in
    if negb ok
    then (Returned (Err (Errorf "byte requirement overflow: count=%d outLen=%d" [pretty count; pretty outLen])), p)
    else if (length (masterSeeds p) =? 0)%nat
    then (Returned (Err (Errorf "no master seed available" [])), p)
    else match fst (cryptoRandIndex (Z.of_nat (length (masterSeeds p))) draws) with
         | Blocked => (Blocked, p)
         | Panicked => (Panicked, p)
         | Returned (Err e) => (Returned (Err e), p)
         | Returned (Ok idx) =>
             match masterSeeds p !! Z.to_nat idx with
             | None => (Panicked, p)
             | Some m =>
                 let start := Offset m in
                 let '(end_, ok) := addUint64Checked start need in
                 if negb ok
                 then (Returned (Err (Errorf "seed offset overflow: start=%d need=%d" [pretty start; pretty need])), p)
                 else (Returned (Ok (Seed m, start)),
                       set_seeds p (<[Z.to_nat idx := mkSeed (Seed m) end_]> (masterSeeds p)))
             end
         end.

(** The request's [count] is a [uint32]. *)
Definition GetSeeds (p : Plugin) (reqCount : Z) (draws : list (result (list Z)))
  : outcome (list string) * Plugin :=
  let count := if reqCount <=? 0 then 1 else reqCount in
  match reserveSeedOffset p count draws with
  | (Returned (Ok (seedHex, startOff)), p') =>
      (match DeriveBulkAtOffset (mkSeed seedHex 0) count startOff (trngSize p) with
       | Returned (Err e) => Returned (Err (Wrapf "failed to derive seeds: %w" [] e))
       | o => o
       end, p')
  | (Returned (Err e), p') => (Returned (Err e), p')
  | (Blocked, p') => (Blocked, p')
  | (Panicked, p') => (Panicked, p')
  end.

(** ** Checked arithmetic *)

Lemma mulUint64Checked_spec a b : is_u64 a -> is_u64 b ->
  mulUint64Checked a b = if maxUint64 <? a * b then (0, false) else (a * b, true).
Proof.
  unfold is_u64, mulUint64Checked, maxUint64. intros Ha Hb.
  destruct (Z.eqb_spec a 0) as [->|]; [done|]. destruct (Z.eqb_spec b 0) as [->|]; [by rewrite Z.mul_0_r|].
  cbn [orb]. destruct (Z.ltb_spec ((2 ^ 64 - 1) / b) a), (Z.ltb_spec (2 ^ 64 - 1) (a * b)); try done.
  - pose proof (Z.div_le_lower_bound (2 ^ 64 - 1) b a ltac:(lia) ltac:(lia)). lia.
  - exfalso. assert (a * b <= (2 ^ 64 - 1) / b * b) by (apply Z.mul_le_mono_nonneg_r; lia).
    pose proof (Z.mul_div_le (2 ^ 64 - 1) b ltac:(lia)). lia.
  - rewrite wrap_small by lia. done.
Qed.

Lemma addUint64Checked_spec a b : is_u64 a -> is_u64 b ->
  addUint64Checked a b = if maxUint64 <? a + b then (0, false) else (a + b, true).
Proof.
  unfold is_u64, addUint64Checked, maxUint64. intros Ha Hb.
  destruct (Z.ltb_spec (2 ^ 64 - 1 - b) a), (Z.ltb_spec (2 ^ 64 - 1) (a + b)); try (done || lia).
  by rewrite wrap_small by lia.
Qed.

Lemma clampOutLen_range outLen : 0 < clampOutLen outLen <= 1024.
Proof.
  unfold clampOutLen. destruct (Z.leb_spec outLen 0), (Z.ltb_spec 1024 outLen); cbn; lia.
Qed.

Lemma parseTRNGBlock_Ok m blk :
  parseTRNGBlock m = Ok blk <-> Hex.DecodeString (Seed m) = Ok blk /\ length blk = 32%nat.
Proof.
  unfold parseTRNGBlock. destruct (Hex.DecodeString (Seed m)) as [raw|e]; cbn [map_err mbind result_bind];
    [|naive_solver]. destruct (Nat.eqb_spec (length raw) 32); cbn; naive_solver.
Qed.

Lemma parseTRNGBlock_seed m blk : parseTRNGBlock m = Ok blk -> is_seed blk.
Proof. intros [Hd Hl]%parseTRNGBlock_Ok. apply Hex.hex_Decode_spec in Hd as [? _]. done. Qed.

(** ** Derivation *)

Lemma keystream_range_slice st p n a b : 0 <= a -> 0 <= b -> a + b <= n ->
  take (Z.to_nat b) (drop (Z.to_nat a) (keystream_range st p n)) = keystream_range st (p + a) b.
Proof.
  intros Ha Hb Hn. replace n with (a + (b + (n - a - b))) by lia.
  rewrite keystream_range_app by lia. rewrite drop_app_length' by (rewrite length_keystream_range; lia).
  rewrite keystream_range_app by lia. by rewrite take_app_length' by (rewrite length_keystream_range; lia).
Qed.

(** The [n] outputs of [ol] bytes each that start at byte [off] of the key
    stream of block [blk], in hex. *)
Definition derived (blk : list Z) (off ol n : Z) : list string :=
  (fun i => Hex.EncodeToString (keystream_range (state (New blk)) (off + i * ol) ol)) <$> seqZ 0 n.

Lemma length_derived blk off ol n : length (derived blk off ol n) = Z.to_nat n.
Proof. unfold derived. by rewrite length_fmap, length_seqZ. Qed.

Lemma derived_app blk off ol a b : 0 <= a -> 0 <= b ->
  derived blk off ol (a + b) = derived blk off ol a ++ derived blk (off + a * ol) ol b.
Proof.
  intros Ha Hb. unfold derived. rewrite seqZ_app, fmap_app by done. f_equal.
  rewrite (Z.add_comm 0 a), <- (fmap_add_seqZ a 0), <- list_fmap_compose.
  apply list_fmap_ext. intros _ i _. cbn. do 2 f_equal. lia.
Qed.

(** A read at a cursor: the generator positioned by [DiscardBytesFast]. *)
Lemma fill_at_offset blk off need : is_seed blk -> is_u64 off ->
  exists r, FillBytes (DiscardBytesFast (New blk) off) need =
    Some (keystream_range (state (New blk)) off (Z.of_nat need), r).
Proof.
  intros Hs Ho. pose proof (DiscardBytesFast_at _ _ _ off (New_at blk Hs) ltac:(mlia)) as Hat.
  destruct (FillBytes_at _ _ _ need Hat) as (r & Hr & _). exists r. by rewrite Hr.
Qed.

Lemma derive_total m n off outLen : 0 < n -> is_i64 n -> is_u64 off ->
  DeriveBulkAtOffset m n off outLen =
    let ol := clampOutLen outLen in
    Returned (if maxUint64 <? n * ol then Err (Errorf "byte requirement overflow: n=%d outLen=%d" [pretty n; pretty ol])
      else if maxInt <? n * ol
      then Err (Errorf "request too large: need=%d bytes exceeds max int=%d" [pretty (n * ol); pretty maxInt])
      else (fun blk => derived blk off ol n) <$> parseTRNGBlock m).
Proof.
  intros Hn Hn64 Hoff. unfold DeriveBulkAtOffset. destruct (Z.leb_spec n 0); [lia|]. cbv zeta.
  pose proof (clampOutLen_range outLen) as Hol. generalize dependent (clampOutLen outLen). intros ol Hol.
  unfold is_i64 in Hn64. rewrite !(wrap_small 64) by lia. rewrite mulUint64Checked_spec by mlia.
  destruct (Z.ltb_spec maxUint64 (n * ol)); [done|]. cbn [negb].
  destruct (Z.ltb_spec maxInt (n * ol)); [done|].
  destruct (parseTRNGBlock m) as [blk|e] eqn:Hp; [|done]. apply parseTRNGBlock_seed in Hp.
  destruct (fill_at_offset blk off (Z.to_nat (n * ol)) Hp Hoff) as [r ->].
  cbn [fmap result_fmap]. do 2 f_equal. apply list_fmap_ext. intros k i Hi. apply lookup_seqZ in Hi as [-> ?].
  rewrite Z2Nat.id by lia. f_equal. apply keystream_range_slice; nia.
Qed.

(** ** Rejection sampling *)

Lemma byte_bit v k i : 0 <= k -> 0 <= i ->
  Z.testbit (Z.shiftl (wrap 8 (Z.shiftr v k)) k) i = Z.testbit v i && ((k <=? i) && (i <? k + 8)).
Proof.
  intros Hk Hi. rewrite Z.shiftl_spec by done. unfold wrap.
  destruct (Z.leb_spec k i); [|rewrite Z.testbit_neg_r by lia; by rewrite andb_false_r].
  destruct (Z.ltb_spec i (k + 8)).
  - rewrite Z.mod_pow2_bits_low, Z.shiftr_spec, andb_true_r by lia. f_equal. lia.
  - rewrite Z.mod_pow2_bits_high by lia. by rewrite andb_false_r.
Qed.

Lemma Uint32_PutUint32 v : is_u32 v -> Uint32 (PutUint32 v) = v.
Proof.
  intros Hv. unfold Uint32, PutUint32. cbn [lookup_total list_lookup_total].
  replace (wrap 8 v) with (Z.shiftl (wrap 8 (Z.shiftr v 0)) 0) by (by rewrite Z.shiftl_0_r, Z.shiftr_0_r).
  apply Z.bits_inj'. intros i Hi. rewrite !Z.lor_spec, !byte_bit by lia.
  destruct (Z.lt_ge_cases i 32); [|by rewrite (bits_above 32 v i)].
  destruct (Z.testbit v i); [|done]. cbn [andb].
  repeat match goal with |- context [?a <=? ?b] => destruct (Z.leb_spec a b)
  | |- context [?a <? ?b] => destruct (Z.ltb_spec a b) end; try done; lia.
Qed.

(** The values below the acceptance limit, and how many there are per index. *)
Definition accept_limit (n : Z) : Z := (2 ^ 32 - 1) - (2 ^ 32 - 1) mod n.

Lemma accept_limit_mul n : 0 < n -> accept_limit n = (2 ^ 32 - 1) / n * n.
Proof. intros Hn. unfold accept_limit. pose proof (Z.div_mod (2 ^ 32 - 1) n). lia. Qed.

Lemma cryptoRandIndex_sample n draws : 0 < n < 2 ^ 32 ->
  cryptoRandIndex n draws = sample n (accept_limit n) draws.
Proof.
  intros Hn. unfold cryptoRandIndex, accept_limit. destruct (Z.leb_spec n 0); [lia|].
  rewrite (wrap_small 32) by lia. by destruct (Z.eqb_spec n 0); [lia|].
Qed.

Lemma sample_range n limit draws i rest : 0 < n ->
  sample n limit draws = (Returned (Ok i), rest) -> 0 <= i < n.
Proof.
  intros Hn. induction draws as [|[buf|e] draws IH]; cbn; [done| |done].
  destruct (_ <? limit); [|done]. intros [= <- _]. by apply Z.mod_pos_bound.
Qed.

Lemma cryptoRandIndex_range n draws i rest : 0 < n < 2 ^ 32 ->
  cryptoRandIndex n draws = (Returned (Ok i), rest) -> 0 <= i < n.
Proof. intros Hn. rewrite cryptoRandIndex_sample by done. apply sample_range. lia. Qed.

(** A draw that ends the loop. *)
Definition decisive (n : Z) (d : result (list Z)) : Prop :=
  match d with Ok buf => Uint32 buf < accept_limit n | Err _ => True end.

Lemma sample_returns n draws : Exists (decisive n) draws ->
  exists r rest, sample n (accept_limit n) draws = (Returned r, rest).
Proof.
  induction 1 as [[buf|e] draws Hd|[buf|e] draws _ (r & rest & IH)]; cbn in *; eauto.
  - destruct (Z.ltb_spec (Uint32 buf) (accept_limit n)); [eauto|lia].
  - destruct (_ <? _); eauto.
Qed.

(** ** The pool

    The state of the plugin between two critical sections. *)

Definition config_ok (p : Plugin) : Prop :=
  0 < trngSize p <= 1024 /\ 0 < maxMasterSeeds p /\ 0 < maxCountPerRequest p.

Definition entry_ok (m : MasterSeed) : Prop :=
  (exists blk, parseTRNGBlock m = Ok blk) /\ is_u64 (Offset m).

Definition pool_ok (p : Plugin) : Prop :=
  config_ok p /\ Forall entry_ok (masterSeeds p) /\ Z.of_nat (length (masterSeeds p)) <= maxMasterSeeds p.

Definition accepted (s : string) : bool :=
  negb (String.eqb s "") && is_ok (parseTRNGBlock (mkSeed s 0)).

Lemma addMasterSeed_eq p s : addMasterSeed p s =
  if accepted s then
    let l := masterSeeds p ++ [mkSeed s 0] in
    set_seeds p (if maxMasterSeeds p <? Z.of_nat (length l) then tail l else l)
  else p.
Proof.
  unfold addMasterSeed, accepted. destruct (String.eqb s ""); [done|]. cbn [negb andb].
  destruct (parseTRNGBlock _); cbn [is_ok]; [|done]. cbv zeta. destruct (_ <? _); [|done]. f_equal.
  rewrite length_app. cbn [length]. replace (_ + 1 - 1)%nat with (length (tail (masterSeeds p ++ [mkSeed s 0]))) by lia.
  by rewrite take_app_length.
Qed.

Lemma addMasterSeed_ok p s : pool_ok p -> pool_ok (addMasterSeed p s).
Proof.
  intros (Hc & Hf & Hl). rewrite addMasterSeed_eq. destruct (accepted s) eqn:Ha; [|done]. cbv zeta.
  assert (Forall entry_ok (masterSeeds p ++ [mkSeed s 0])) as Hf'.
  { apply Forall_app_2; [done|]. apply Forall_singleton. unfold accepted in Ha.
    destruct (parseTRNGBlock _) as [blk|] eqn:Hp; [|by rewrite andb_false_r in Ha].
    split; [eauto|cbn; mlia]. }
  split; [done|]. cbn [masterSeeds set_seeds maxMasterSeeds]. rewrite length_app. cbn [length].
  destruct (Z.ltb_spec (maxMasterSeeds p) (Z.of_nat (length (masterSeeds p) + 1))).
  - split; [by apply Forall_tail|].
    enough (length (tail (masterSeeds p ++ [mkSeed s 0])) = length (masterSeeds p)) by lia.
    destruct (masterSeeds p); [done|]. cbn [tail app length]. rewrite length_app. cbn [length]. lia.
  - split; [done|]. rewrite length_app. cbn [length]. lia.
Qed.

(** What a successful reservation did. *)
Lemma reserve_inv p count draws s start p' : pool_ok p -> is_i64 count ->
  reserveSeedOffset p count draws = (Returned (Ok (s, start)), p') ->
  exists i blk, 0 < count <= maxCountPerRequest p /\ masterSeeds p !! i = Some (mkSeed s start) /\
    parseTRNGBlock (mkSeed s 0) = Ok blk /\ start + count * trngSize p < 2 ^ 64 /\
    p' = set_seeds p (<[i := mkSeed s (start + count * trngSize p)]> (masterSeeds p)).
Proof.
  intros ((Ht & Hm & Hc) & Hf & Hl) Hc64 H. unfold reserveSeedOffset in H.
  destruct (Z.leb_spec count 0); [done|]. destruct (Z.ltb_spec (maxCountPerRequest p) count); [done|].
  unfold is_i64 in Hc64. rewrite !(wrap_small 64), mulUint64Checked_spec in H by mlia.
  destruct (Z.ltb_spec maxUint64 (count * trngSize p)); [done|]. cbn [negb] in H.
  destruct (length (masterSeeds p) =? 0)%nat; [done|].
  destruct (fst _) as [[idx|e]| |]; try done.
  destruct (masterSeeds p !! Z.to_nat idx) as [m|] eqn:Hi; [|done].
  pose proof (Forall_lookup_1 _ _ _ _ Hf Hi) as [[blk Hb] Ho]. unfold maxUint64 in *.
  rewrite addUint64Checked_spec in H by (first [done|split; [nia|lia]]).
  unfold maxUint64 in H. destruct (Z.ltb_spec (2 ^ 64 - 1) (Offset m + count * trngSize p)); [done|].
  cbn [negb] in H. destruct m as [s' o]; cbn [Seed Offset] in *. simplify_eq.
  exists (Z.to_nat idx), blk. split_and!; try (done || lia).
Qed.

(** ** Runs of the plugin

    [reach p h t]: the plugin is in state [p] after some interleaving of the
    critical sections of [addMasterSeed] and [reserveSeedOffset], started with an
    empty pool; [h] lists the seeds that were accepted and [t] the ranges
    [(seed, start, length)] that were reserved, both in order. A reservation that
    does not succeed leaves the state as it was. *)
Inductive reach : Plugin -> list string -> list (string * Z * Z) -> Prop :=
| reach_init p : config_ok p -> masterSeeds p = [] -> reach p [] []
| reach_add p h t s :
    reach p h t -> reach (addMasterSeed p s) (if accepted s then h ++ [s] else h) t
| reach_reserve p h t count draws s start p' :
    reach p h t -> is_i64 count ->
    reserveSeedOffset p count draws = (Returned (Ok (s, start)), p') ->
    reach p' h (t ++ [(s, start, count * trngSize p)]).

Lemma reserve_ok p count draws s start p' : pool_ok p -> is_i64 count ->
  reserveSeedOffset p count draws = (Returned (Ok (s, start)), p') -> pool_ok p'.
Proof.
  intros Hp Hc H. destruct (reserve_inv _ _ _ _ _ _ Hp Hc H) as (i & blk & Hn & Hi & Hb & He & ->).
  destruct Hp as (Hcf & Hf & Hl). split; [done|]. cbn. rewrite length_insert. split; [|done].
  apply Forall_insert_total; [done|]. split; [by exists blk|].
  pose proof (Forall_lookup_1 _ _ _ _ Hf Hi) as [_ Ho]. destruct Hcf as (? & _). unfold is_u64 in *; cbn [Offset] in *. nia.
Qed.

Lemma reach_pool_ok p h t : reach p h t -> pool_ok p.
Proof.
  induction 1 as [p Hc Hs|p h t s _ IH|p h t count draws s start p' _ IH Hc H].
  - split; [done|]. rewrite Hs. destruct Hc as (_ & ? & _). split; [done|]. cbn. lia.
  - by apply addMasterSeed_ok.
  - by eapply reserve_ok.
Qed.

Lemma addMasterSeed_max p s : maxMasterSeeds (addMasterSeed p s) = maxMasterSeeds p.
Proof. rewrite addMasterSeed_eq. by destruct (accepted s). Qed.

Lemma reach_fifo p h t : reach p h t ->
  Seed <$> masterSeeds p = drop (length h - Z.to_nat (maxMasterSeeds p)) h.
Proof.
  intros Hr. pose proof Hr as Hr0. induction Hr as [p Hc Hs|p h t s Hr IH|p h t count draws s start p' Hr IH Hc H].
  - by rewrite Hs.
  - specialize (IH Hr). apply reach_pool_ok in Hr as ((_ & Hm & _) & _ & Hl).
    rewrite addMasterSeed_max. rewrite addMasterSeed_eq. destruct (accepted s); [|done]. cbn [masterSeeds set_seeds].
    apply (f_equal length) in IH as IHl. rewrite length_fmap, length_drop in IHl.
    rewrite !length_app. cbn [length].
    destruct (Z.ltb_spec (maxMasterSeeds p) (Z.of_nat (length (masterSeeds p) + 1))).
    + replace (length h + 1 - _)%nat with ((length h - Z.to_nat (maxMasterSeeds p)) + 1)%nat by lia.
      rewrite <- drop_drop, drop_app_le by lia.
      rewrite <- IH. destruct (masterSeeds p) as [|m l]; [done|]. cbn. by rewrite fmap_app, drop_0.
    + replace (length h + 1 - _)%nat with 0%nat by lia. rewrite fmap_app, IH.
      by replace (length h - _)%nat with 0%nat by lia.
  - specialize (IH Hr). apply reach_pool_ok in Hr.
    destruct (reserve_inv _ _ _ _ _ _ Hr Hc H) as (i & blk & _ & Hi & _ & _ & ->).
    cbn [masterSeeds set_seeds maxMasterSeeds]. rewrite list_fmap_insert. cbn [Seed]. rewrite <- IH.
    apply list_insert_id. by rewrite list_lookup_fmap, Hi.
Qed.

(** The block of a seed: two spellings of one block are one key stream. *)
Definition block_of (s : string) : result (list Z) := Hex.DecodeString s.

Definition resv_seed (r : string * Z * Z) : string := r.1.1.
Definition resv_start (r : string * Z * Z) : Z := r.1.2.
Definition resv_end (r : string * Z * Z) : Z := r.1.2 + r.2.

(** Every cursor is past the ranges reserved from its block, and the ranges of
    one block follow each other. *)
Record trace_inv (p : Plugin) (h : list string) (t : list (string * Z * Z)) : Prop := {
  inv_seed r : r ∈ t -> resv_seed r ∈ h;
  inv_cursor r m : r ∈ t -> m ∈ masterSeeds p ->
    block_of (Seed m) = block_of (resv_seed r) -> resv_end r <= Offset m;
  inv_order i j ri rj : (i < j)%nat -> t !! i = Some ri -> t !! j = Some rj ->
    block_of (resv_seed ri) = block_of (resv_seed rj) -> resv_end ri <= resv_start rj;
}.

Lemma pool_seed_history p h t m : reach p h t -> m ∈ masterSeeds p -> Seed m ∈ h.
Proof.
  intros Hr Hm. apply reach_fifo in Hr. apply (list_elem_of_fmap_2 Seed) in Hm.
  rewrite Hr in Hm. by apply (subseteq_drop (length h - Z.to_nat (maxMasterSeeds p)) h).
Qed.

Lemma pool_blocks_distinct p h t i j m1 m2 : reach p h t -> NoDup (block_of <$> h) ->
  masterSeeds p !! i = Some m1 -> masterSeeds p !! j = Some m2 ->
  block_of (Seed m1) = block_of (Seed m2) -> i = j.
Proof.
  intros Hr Hnd Hi Hj Heq. apply reach_fifo in Hr.
  assert (NoDup (block_of <$> (Seed <$> masterSeeds p))) as Hn.
  { rewrite Hr, fmap_drop. by eapply NoDup_app; rewrite take_drop. }
  eapply (NoDup_lookup _ i j (block_of (Seed m1))); [exact Hn|..]; rewrite !list_lookup_fmap, ?Hi, ?Hj; cbn; congruence.
Qed.

Lemma trace_inv_add p h t s : reach p h t -> trace_inv p h t -> accepted s = true ->
  NoDup (block_of <$> h ++ [s]) -> trace_inv (addMasterSeed p s) (h ++ [s]) t.
Proof.
  intros Hr [H1 H2 H3] Ha Hnd. rewrite fmap_app in Hnd. apply NoDup_app in Hnd as (_ & Hnew & _).
  split; [intros r Hin; apply elem_of_app; auto| |done].
  intros r m Hin Hm Heq. rewrite addMasterSeed_eq, Ha in Hm. cbn [masterSeeds set_seeds] in Hm.
  assert (m ∈ masterSeeds p ++ [mkSeed s 0]) as Hm'.
  { destruct (_ <? _); [|done]. by destruct (masterSeeds p ++ [mkSeed s 0]); [|right]. }
  apply elem_of_app in Hm' as [Hm'|Hm']; [by eauto|]. apply list_elem_of_singleton in Hm' as ->.
  exfalso. apply (Hnew (block_of (resv_seed r))); [by apply list_elem_of_fmap_2, H1|].
  apply list_elem_of_singleton. done.
Qed.

Lemma trace_inv_reserve p h t count draws s start p' : reach p h t -> NoDup (block_of <$> h) ->
  trace_inv p h t -> is_i64 count -> reserveSeedOffset p count draws = (Returned (Ok (s, start)), p') ->
  trace_inv p' h (t ++ [(s, start, count * trngSize p)]).
Proof.
  intros Hr Hnd [H1 H2 H3] Hc H. pose proof (reach_pool_ok _ _ _ Hr) as Hp.
  destruct (reserve_inv _ _ _ _ _ _ Hp Hc H) as (i & blk & Hn & Hi & _ & He & ->).
  assert (0 < count * trngSize p) by (destruct Hp as ((? & _) & _); nia).
  pose proof (list_elem_of_lookup_2 _ _ _ Hi) as Hin. split.
  - intros r [Hr'| ->%list_elem_of_singleton]%elem_of_app; [auto|]. by eapply (pool_seed_history _ _ _ (mkSeed s start)).
  - intros r m Hr' Hm Heq. cbn [masterSeeds set_seeds] in Hm. apply list_elem_of_lookup in Hm as [j Hj].
    apply list_lookup_insert_Some in Hj as [(<- & <- & _)|[Hij Hj]].
    + apply elem_of_app in Hr' as [Hr'| ->%list_elem_of_singleton]; [|unfold resv_end; cbn; lia].
      pose proof (H2 r (mkSeed s start) Hr' Hin Heq). cbn in *. lia.
    + apply elem_of_app in Hr' as [Hr'| ->%list_elem_of_singleton].
      * eapply H2; [done| |done]. by eapply list_elem_of_lookup_2.
      * destruct Hij. by eapply (pool_blocks_distinct p h t i j (mkSeed s start) m).
  - intros a b ra rb Hab Hra Hrb Heq. apply lookup_app_Some in Hrb as [Hrb|[Hlb Hrb]].
    + rewrite lookup_app_l in Hra by (apply lookup_lt_Some in Hrb; lia). by eapply (H3 a b).
    + apply list_lookup_singleton_Some in Hrb as [Hb0 <-]. rewrite lookup_app_l in Hra by lia.
      apply (H2 ra (mkSeed s start)); [by eapply list_elem_of_lookup_2|done|done].
Qed.

Lemma reach_trace_inv p h t : reach p h t -> NoDup (block_of <$> h) -> trace_inv p h t.
Proof.
  induction 1 as [p Hc Hs|p h t s Hr IH|p h t count draws s start p' Hr IH Hc H]; intros Hnd.
  - split; intros; by decompose_list_elem_of || done.
  - destruct (accepted s) eqn:Ha.
    + apply trace_inv_add; try done. apply IH. rewrite fmap_app in Hnd. by apply NoDup_app in Hnd as [? _].
    + rewrite addMasterSeed_eq, Ha. auto.
  - eapply trace_inv_reserve; eauto.
Qed.

(** ** Boot *)

Lemma saltDefaultSeed_accepted s nonce salted : saltDefaultSeed s nonce = Ok salted -> accepted salted = true.
Proof.
  unfold saltDefaultSeed. intros H. inv_ok. destruct (negb _); [done|]. inv_ok.
  set (sum := Sum256 _). assert (take 32 sum = sum) as -> by (apply take_ge; unfold sum; by rewrite length_Sum256).
  assert (Hex.DecodeString (Hex.EncodeToString sum) = Ok sum) as Hd by (apply Hex.hex_Decode_Encode, Sum256_range).
  unfold accepted. apply andb_true_iff. split.
  - apply negb_true_iff, String.eqb_neq. intros He. apply (f_equal String.length) in He.
    rewrite Hex.length_hex_Encode in He. unfold sum in He. by rewrite length_Sum256 in He.
  - destruct (parseTRNGBlock _) eqn:Hp; [done|]. exfalso. revert Hp. unfold parseTRNGBlock. cbn [Seed].
    rewrite Hd. cbn [map_err mbind result_bind]. unfold sum. by rewrite length_Sum256.
Qed.

(** The default seeds that can be salted, salted. *)
Definition salted_seeds (seeds : list string) (nonce : Z) : list string :=
  omap (fun s => match saltDefaultSeed s nonce with Ok x => Some x | Err _ => None end) seeds.

Lemma insertDefaultSeeds_reach seeds nonce : forall p h t, reach p h t ->
  reach (insertDefaultSeeds p seeds nonce) (h ++ salted_seeds seeds nonce) t /\
  maxMasterSeeds (insertDefaultSeeds p seeds nonce) = maxMasterSeeds p.
Proof.
  induction seeds as [|s seeds IH]; intros p h t Hr; cbn; [by rewrite app_nil_r|].
  destruct (saltDefaultSeed s nonce) as [salted|e] eqn:Hs; cbn; [|by apply IH].
  pose proof (reach_add _ _ _ salted Hr) as Hr'. apply saltDefaultSeed_accepted in Hs. rewrite Hs in Hr'.
  destruct (IH _ _ _ Hr') as [Hr2 Hm]. rewrite <- app_assoc in Hr2. split; [done|].
  etrans; [exact Hm|apply addMasterSeed_max].
Qed.

(** ** What a call does once an index is drawn *)

Lemma clampOutLen_id ol : 0 < ol <= 1024 -> clampOutLen ol = ol.
Proof. intros. unfold clampOutLen. destruct (Z.leb_spec ol 0), (Z.ltb_spec 1024 ol); cbn; lia. Qed.

Lemma drawn_entry p draws i rest : pool_ok p -> masterSeeds p <> [] -> maxMasterSeeds p < 2 ^ 32 ->
  cryptoRandIndex (masterSeedCount p) draws = (Returned (Ok i), rest) ->
  exists m blk, masterSeeds p !! Z.to_nat i = Some m /\ parseTRNGBlock (mkSeed (Seed m) 0) = Ok blk /\
    is_u64 (Offset m).
Proof.
  intros (_ & Hf & Hl) Hne Hmax Hrand. unfold masterSeedCount in Hrand.
  apply cryptoRandIndex_range in Hrand; [|destruct (masterSeeds p); [done|cbn [length] in *; lia]].
  destruct (lookup_lt_is_Some_2 (masterSeeds p) (Z.to_nat i)) as [m Hmi]; [lia|].
  pose proof (Forall_lookup_1 _ _ _ _ Hf Hmi) as [[blk Hb] Ho]. exists m, blk. split; [done|].
  split; [|done]. apply parseTRNGBlock_Ok in Hb. by apply parseTRNGBlock_Ok.
Qed.

Lemma reserve_hit p count draws i rest m : pool_ok p -> masterSeeds p <> [] -> 0 < count < 2 ^ 32 ->
  cryptoRandIndex (masterSeedCount p) draws = (Returned (Ok i), rest) ->
  masterSeeds p !! Z.to_nat i = Some m -> is_u64 (Offset m) ->
  let need := count * trngSize p in
  reserveSeedOffset p count draws =
    if maxCountPerRequest p <? count
    then (Returned (Err (Errorf "count too large: %d (max %d)" [pretty count; pretty (maxCountPerRequest p)])), p)
    else if maxUint64 <? Offset m + need
    then (Returned (Err (Errorf "seed offset overflow: start=%d need=%d" [pretty (Offset m); pretty need])), p)
    else (Returned (Ok (Seed m, Offset m)),
          set_seeds p (<[Z.to_nat i := mkSeed (Seed m) (Offset m + need)]> (masterSeeds p))).
Proof.
  intros ((Ht & _) & _) Hne Hcnt Hrand Hmi Ho need. unfold reserveSeedOffset.
  destruct (Z.leb_spec count 0); [lia|]. destruct (maxCountPerRequest p <? count); [done|].
  rewrite !(wrap_small 64), mulUint64Checked_spec by mlia. fold need.
  assert (0 < need < 2 ^ 42) as Hneed by (unfold need; nia).
  unfold maxUint64. destruct (Z.ltb_spec (2 ^ 64 - 1) need); [lia|]. cbn [negb].
  unfold masterSeedCount in Hrand. rewrite Hrand.
  destruct (Nat.eqb_spec (length (masterSeeds p)) 0) as [E|_]; [by apply nil_length_inv in E|].
  cbn [fst]. rewrite Hmi, addUint64Checked_spec by (done || mlia).
  unfold maxUint64. by destruct (Z.ltb_spec (2 ^ 64 - 1) (Offset m + need)).
Qed.

(** ** Properties *)

(** [DeriveBulkAtOffset] on every branch: for a positive count it always
    returns; it reports an overflow, an oversized request or a seed that does not
    parse; otherwise the outputs are the consecutive blocks of the clamped output
    length of the seed's key stream from the given byte on, in hex. *)
Theorem DeriveBulkAtOffset_keystream m n off outLen : 0 < n -> is_i64 n -> is_u64 off ->
  DeriveBulkAtOffset m n off outLen =
    let ol := clampOutLen outLen in
    Returned (if maxUint64 <? n * ol then Err (Errorf "byte requirement overflow: n=%d outLen=%d" [pretty n; pretty ol])
      else if maxInt <? n * ol
      then Err (Errorf "request too large: need=%d bytes exceeds max int=%d" [pretty (n * ol); pretty maxInt])
      else (fun blk => derived blk off ol n) <$> parseTRNGBlock m).
Proof. apply derive_total. Qed.

(** A derivation can be split at any output: the outputs of one call are
    those of a call for the first [a] of them followed by those of a call at the
    cursor moved by [a] output lengths, which is how the pool's cursor continues a
    stream. *)
Theorem DeriveBulkAtOffset_split m blk a b off outLen :
  parseTRNGBlock m = Ok blk -> 0 < a -> 0 < b -> is_u64 off ->
  (a + b) * clampOutLen outLen <= maxInt -> is_u64 (off + a * clampOutLen outLen) ->
  exists xs ys,
    DeriveBulkAtOffset m a off outLen = Returned (Ok xs) /\
    DeriveBulkAtOffset m b (off + a * clampOutLen outLen) outLen = Returned (Ok ys) /\
    DeriveBulkAtOffset m (a + b) off outLen = Returned (Ok (xs ++ ys)).
Proof.
  intros Hp Ha Hb Ho Hfit Ho2. pose proof (clampOutLen_range outLen) as Hol.
  assert (forall n o, 0 < n -> n <= a + b -> is_u64 o ->
    DeriveBulkAtOffset m n o outLen = Returned (Ok (derived blk o (clampOutLen outLen) n))) as Hd.
  { intros n o Hn Hle Hou. unfold maxInt in Hfit. rewrite derive_total by (unfold is_i64; (done || nia)).
    cbv zeta. rewrite Hp. unfold maxUint64, maxInt.
    destruct (Z.ltb_spec (2 ^ 64 - 1) (n * clampOutLen outLen)); [nia|].
    destruct (Z.ltb_spec (2 ^ 63 - 1) (n * clampOutLen outLen)); [nia|]. done. }
  eexists _, _. rewrite !Hd by (done || lia). split; [done|]. split; [done|]. by rewrite derived_app by lia.
Qed.

(** The reference outputs recorded for the Rust implementation, at the
    start of the stream and at an offset. *)
Theorem golden_vectors :
  let seed := "a0a1a2a3a4a5a6a7a8a9aaabacadaeafb0b1b2b3b4b5b6b7b8b9babbbcbdbebf" in
  DeriveBulkFromSeedHex seed 3 = Returned (Ok
    ["7579d24e9d0e58ced67c55d57c6f60ad8d1c5d04f72134d82798391263e65595";
     "10578b1de5166d33ff575d81ca60999b83551701e6b7f14c0909cb2988791e14";
     "89e7bd45f921edc7d0e5d1e7968f6b998672bf05fbc0b9b807afb165732257f8"]) /\
  DeriveBulkAtOffset (mkSeed seed 0) 3 96 32 = Returned (Ok
    ["fa786b40ad85f70793a943b4595ad55637fb379082e24bd13cd487c9def9a157";
     "23ec80c355f3829358c4058447050e5f238691bfa2e590d2b48f1888775a5740";
     "b127cf65ae81e5f93c713cf8e20cdea9d6a6d4cfebf6d2b7028988ef56e010c4"]).
Proof. split; vm_compute; reflexivity. Qed.

(** [cryptoRandIndex] is unbiased: the 32-bit draws that make it return
    index [i] are exactly the numbers [q * n + i] with [q] below a bound that does
    not depend on [i], so each index has the same number of accepted draws. *)
Theorem cryptoRandIndex_uniform n i v : 0 < n < 2 ^ 32 -> 0 <= i < n -> is_u32 v ->
  cryptoRandIndex n [Ok (PutUint32 v)] = (Returned (Ok i), []) <->
  exists q, 0 <= q < (2 ^ 32 - 1) / n /\ v = q * n + i.
Proof.
  intros Hn Hi Hv. rewrite cryptoRandIndex_sample by done. cbn [sample].
  rewrite Uint32_PutUint32, accept_limit_mul by (done || lia).
  destruct (Z.ltb_spec v ((2 ^ 32 - 1) / n * n)) as [Hlt|Hge].
  - split.
    + intros [= <-]. exists (v / n). pose proof (Z.div_mod v n ltac:(lia)).
      split; [|lia]. split; [apply Z.div_pos; mlia|]. apply Z.div_lt_upper_bound; lia.
    + intros (q & Hq & ->). do 3 f_equal. rewrite Z.add_comm, Z.mod_add by lia. by apply Z.mod_small.
  - split; [done|]. intros (q & Hq & ->). exfalso. nia.
Qed.

(** The rejection loop ends as soon as the source of randomness gives a
    draw below the limit or an error, and what it returns is an error or an index
    of the pool. *)
Theorem cryptoRandIndex_returns n draws : 0 < n < 2 ^ 32 -> Exists (decisive n) draws ->
  exists r rest, cryptoRandIndex n draws = (Returned r, rest) /\
    match r with Ok i => 0 <= i < n | Err _ => True end.
Proof.
  intros Hn He. destruct (sample_returns n draws He) as (r & rest & Hs).
  rewrite <- cryptoRandIndex_sample in Hs by done. exists r, rest. split; [done|].
  destruct r; [|done]. by eapply cryptoRandIndex_range.
Qed.

(** C30: [GetSeeds] on a well-formed plugin, once an index is drawn: the request
    is refused when it is too large; the drawn entry exists and its seed parses;
    the call fails without an effect when the cursor would overflow, and otherwise
    returns the outputs at the entry's cursor and moves that cursor past them. *)
Theorem GetSeeds_behaviour p reqCount draws i rest :
  pool_ok p -> is_u32 reqCount -> masterSeeds p <> [] -> maxMasterSeeds p < 2 ^ 32 ->
  cryptoRandIndex (masterSeedCount p) draws = (Returned (Ok i), rest) ->
  let count := Z.max 1 reqCount in
  let need := count * trngSize p in
  exists m blk, masterSeeds p !! Z.to_nat i = Some m /\ Hex.DecodeString (Seed m) = Ok blk /\
  GetSeeds p reqCount draws =
    if maxCountPerRequest p <? count
    then (Returned (Err (Errorf "count too large: %d (max %d)" [pretty count; pretty (maxCountPerRequest p)])), p)
    else if maxUint64 <? Offset m + need
    then (Returned (Err (Errorf "seed offset overflow: start=%d need=%d" [pretty (Offset m); pretty need])), p)
    else (Returned (Ok (derived blk (Offset m) (trngSize p) count)),
          set_seeds p (<[Z.to_nat i := mkSeed (Seed m) (Offset m + need)]> (masterSeeds p))).
Proof.
  intros Hp Hrc Hne Hmax Hrand count need. pose proof Hp as ((Ht & Hm & Hc) & Hf & Hl).
  destruct (drawn_entry p draws i rest Hp Hne Hmax Hrand) as (m & blk & Hmi & Hb & Ho).
  exists m, blk. split; [done|]. split; [by apply parseTRNGBlock_Ok in Hb as [? _]|].
  assert (0 < count < 2 ^ 32) as Hcnt by (unfold count; mlia).
  assert (0 < need < 2 ^ 42) as Hneed by (unfold need; nia).
  unfold GetSeeds. replace (if reqCount <=? 0 then 1 else reqCount) with count
    by (unfold count; destruct (Z.leb_spec reqCount 0); lia).
  rewrite (reserve_hit p count draws i rest m) by done. fold need.
  destruct (maxCountPerRequest p <? count); [done|]. destruct (maxUint64 <? Offset m + need); [done|].
  rewrite derive_total by first [done|lia|unfold is_i64; lia]. rewrite clampOutLen_id by done.
  cbv zeta. fold need. unfold maxUint64, maxInt.
  destruct (Z.ltb_spec (2 ^ 64 - 1) need); [lia|]. destruct (Z.ltb_spec (2 ^ 63 - 1) need); [lia|].
  by rewrite Hb.
Qed.

(** C2: concurrent callers never share output ranges. In every interleaving of
    seed insertions and reservations in which no block is added twice, two
    reservations from one block are disjoint ranges of its key stream, the later
    one starting at or after the end of the earlier one. *)
Theorem reservations_disjoint p h t i j ri rj :
  reach p h t -> NoDup (block_of <$> h) -> (i < j)%nat ->
  t !! i = Some ri -> t !! j = Some rj -> block_of (resv_seed ri) = block_of (resv_seed rj) ->
  resv_end ri <= resv_start rj.
Proof. intros Hr Hnd. apply (inv_order _ _ _ (reach_trace_inv _ _ _ Hr Hnd)). Qed.

(** C31: the pool is a ring buffer: in every reachable state it holds exactly
    the last [maxMasterSeeds] accepted seeds in order of arrival, each of them
    parses to a 32-byte block, and every cursor is a [uint64]. *)
Theorem pool_is_fifo p h t : reach p h t ->
  Seed <$> masterSeeds p = drop (length h - Z.to_nat (maxMasterSeeds p)) h /\
  masterSeedCount p <= maxMasterSeeds p /\ Forall entry_ok (masterSeeds p).
Proof.
  intros Hr. split; [by apply (reach_fifo p h t)|].
  apply reach_pool_ok in Hr as (_ & Hf & Hl). done.
Qed.

(** [NewPlugin] succeeds once the client is made, replaces settings out of
    range by the defaults, and starts with the last [maxMasterSeeds] of the
    configured seeds that could be salted, in a state from which [reach]
    continues. *)
Theorem NewPlugin_boot v nonce : exists p, NewPlugin v (Ok tt) nonce = Ok p /\
  reach p (salted_seeds (extractSeeds v) nonce) [] /\
  0 < trngSize p <= 1024 /\ 0 < maxMasterSeeds p /\ 0 < maxCountPerRequest p.
Proof.
  unfold NewPlugin. cbn [map_err mbind result_bind]. eexists. split; [reflexivity|].
  set (p0 := mkPlugin _ _ _ _ _).
  assert (reach p0 [] []) as Hr0.
  { constructor; [|done]. unfold config_ok, p0; cbn [trngSize maxMasterSeeds maxCountPerRequest].
    repeat match goal with |- context [if ?b then _ else _] => destruct b eqn:? end;
      rewrite ?orb_true_iff, ?orb_false_iff, ?Z.leb_le, ?Z.leb_gt, ?Z.ltb_lt, ?Z.ltb_ge in *; lia. }
  destruct (insertDefaultSeeds_reach (MasterSeedDefaultMasterSeeds (readFromEnv v)) nonce _ _ _ Hr0) as [Hr _].
  split; [exact Hr|]. by apply reach_pool_ok in Hr as (Hc & _).
Qed.

(** ** Concrete runs *)

Definition seedA : string := "a0a1a2a3a4a5a6a7a8a9aaabacadaeafb0b1b2b3b4b5b6b7b8b9babbbcbdbebf".
Definition seedB : string := "000102030405060708090a0b0c0d0e0f101112131415161718191a1b1c1d1e1f".

(** An environment that only sets [DEFAULT_MASTER_SEEDS]. *)
Definition env_seeds (raw : string) : Viper :=
  mkViper (fun k => if String.eqb k "DEFAULT_MASTER_SEEDS" then Some raw else None) (fun _ => None).

Definition plugin2 : Plugin := addMasterSeed (addMasterSeed (mkPlugin [] 1 32 2 10) seedA) seedB.

Lemma plugin2_reach : reach plugin2 [seedA; seedB] [].
Proof.
  apply (reach_add (addMasterSeed (mkPlugin [] 1 32 2 10) seedA) [seedA] [] seedB).
  apply (reach_add (mkPlugin [] 1 32 2 10) [] [] seedA). apply reach_init; [|reflexivity].
  unfold config_ok; cbn; lia.
Defined.

(** Reads 0 then 1 of the source give these indices of a pool of two. *)
Definition draw (v : Z) : list (result (list Z)) := [Ok (PutUint32 v)].

(** A seed configured twice makes the pool hold one block twice with two
    cursors: two requests that draw different entries get the same outputs, so
    the distinctness of the blocks in [reservations_disjoint] is needed. *)
Theorem duplicate_seeds_repeat_outputs :
  match NewPlugin (env_seeds (seedA +:+ ", " +:+ seedA)) (Ok tt) 1700000000000000000 with
  | Ok p0 => let '(o1, p1) := GetSeeds p0 1 (draw 0) in
             let '(o2, p2) := GetSeeds p1 1 (draw 1) in
             exists out, o1 = Returned (Ok [out]) /\ o2 = Returned (Ok [out])
  | Err _ => False
  end.
Proof. vm_compute. eexists. split; reflexivity. Qed.

(** ** Witnesses *)

Lemma DeriveBulkAtOffset_keystream_witness : DeriveBulkAtOffset (mkSeed seedA 0) 2 70 16 =
  Returned (Ok (derived (map (Z.add 160) (seqZ 0 32)) 70 16 2)).
Proof.
  assert (parseTRNGBlock (mkSeed seedA 0) = Ok (map (Z.add 160) (seqZ 0 32))) as E by (vm_compute; reflexivity).
  rewrite (DeriveBulkAtOffset_keystream (mkSeed seedA 0) 2 70 16); [|lia|unfold is_i64; lia|unfold is_u64; lia].
  cbv zeta. rewrite E. reflexivity.
Defined.

Lemma DeriveBulkAtOffset_split_witness : exists xs ys,
  DeriveBulkAtOffset (mkSeed seedA 0) 1 5 32 = Returned (Ok xs) /\
  DeriveBulkAtOffset (mkSeed seedA 0) 2 37 32 = Returned (Ok ys) /\
  DeriveBulkAtOffset (mkSeed seedA 0) 3 5 32 = Returned (Ok (xs ++ ys)).
Proof.
  apply (DeriveBulkAtOffset_split (mkSeed seedA 0) (map (Z.add 160) (seqZ 0 32)) 1 2 5 32).
  - vm_compute; reflexivity.
  - lia.
  - lia.
  - unfold is_u64; lia.
  - vm_compute; discriminate.
  - vm_compute; split; [discriminate|reflexivity].
Defined.

Lemma cryptoRandIndex_uniform_witness :
  cryptoRandIndex 3 [Ok (PutUint32 7)] = (Returned (Ok 1), []) <->
  exists q, 0 <= q < (2 ^ 32 - 1) / 3 /\ 7 = q * 3 + 1.
Proof. apply (cryptoRandIndex_uniform 3 1 7); [lia|lia|unfold is_u32; lia]. Defined.

Lemma cryptoRandIndex_returns_witness :
  exists r rest, cryptoRandIndex 3 [Ok (PutUint32 (2 ^ 32 - 1)); Ok (PutUint32 7)] = (Returned r, rest) /\
    match r with Ok i => 0 <= i < 3 | Err _ => True end.
Proof.
  apply (cryptoRandIndex_returns 3 [Ok (PutUint32 (2 ^ 32 - 1)); Ok (PutUint32 7)]); [lia|].
  apply Exists_cons_tl, Exists_cons_hd. vm_compute. reflexivity.
Defined.

Lemma GetSeeds_behaviour_witness : exists m blk, masterSeeds plugin2 !! 1%nat = Some m /\
  Hex.DecodeString (Seed m) = Ok blk /\ fst (GetSeeds plugin2 4 (draw 3)) = Returned (Ok (derived blk 0 32 4)).
Proof.
  destruct (GetSeeds_behaviour plugin2 4 (draw 3) 1 []) as (m & blk & Hm & Hb & Hg).
  - apply (reach_pool_ok _ _ _ plugin2_reach).
  - unfold is_u32; lia.
  - vm_compute; discriminate.
  - vm_compute; reflexivity.
  - vm_compute; reflexivity.
  - exists m, blk. split; [exact Hm|]. split; [exact Hb|]. rewrite Hg.
    replace m with (mkSeed seedB 0) by (vm_compute in Hm; injection Hm as <-; reflexivity). reflexivity.
Defined.

Lemma reservations_disjoint_witness :
  let p1 := snd (reserveSeedOffset plugin2 4 (draw 1)) in
  let p2 := snd (reserveSeedOffset p1 2 (draw 1)) in
  exists start, fst (reserveSeedOffset p1 2 (draw 1)) = Returned (Ok (seedB, start)) /\ 0 + 4 * 32 <= start.
Proof.
  cbv zeta. exists 128. split; [vm_compute; reflexivity|].
  apply (reservations_disjoint (snd (reserveSeedOffset (snd (reserveSeedOffset plugin2 4 (draw 1))) 2 (draw 1)))
    [seedA; seedB] [(seedB, 0, 4 * 32); (seedB, 128, 2 * 32)] 0 1 (seedB, 0, 4 * 32) (seedB, 128, 2 * 32)).
  - apply (reach_reserve (snd (reserveSeedOffset plugin2 4 (draw 1))) [seedA; seedB] [(seedB, 0, 4 * 32)] 2 (draw 1)).
    + apply (reach_reserve plugin2 [seedA; seedB] [] 4 (draw 1)); [exact plugin2_reach|unfold is_i64; lia|].
      vm_compute; reflexivity.
    + unfold is_i64; lia.
    + vm_compute; reflexivity.
  - apply (bool_decide_unpack _). vm_compute. exact I.
  - lia.
  - reflexivity.
  - reflexivity.
  - reflexivity.
Defined.

Lemma pool_is_fifo_witness : Seed <$> masterSeeds (addMasterSeed plugin2 seedA) = [seedB; seedA].
Proof. apply (pool_is_fifo _ _ _ (reach_add plugin2 [seedA; seedB] [] seedA plugin2_reach)). Defined.
