(* ===== verification/KmsMapping.v ===== *)
(** * The KMS plugin's tables, names and ciphertext blobs
    (pkg/plugin/kms: mapping.go, tenant.go, blob.go, config.go and the alias
    check of plugin.go) *)

From S2P Require Import Prelude GoStrings Errors Codec Sha2 Json.

(** ** mapping.go *)

Definition dataKeySpecAES128 := "AES_128".
Definition dataKeySpecAES256 := "AES_256".
Definition encryptDecryptUsage := "ENCRYPT_DECRYPT".
Definition encryptionAlgorithmAES256GCM96 := "AES_256_GCM96".
Definition keyAgreementUsage := "KEY_AGREEMENT".
Definition keySpecECCSecgP256K1 := "ECC_SECG_P256K1".
Definition keySpecECDSAP256 := "ECDSA_P256".
Definition keySpecECDSAP384 := "ECDSA_P384".
Definition keySpecED25519 := "ED25519".
Definition keySpecMLKEM768 := "ML_KEM_768".
Definition keySpecMLKEM1024 := "ML_KEM_1024".
Definition keySpecMLDSA44 := "ML_DSA_44".
Definition keySpecMLDSA65 := "ML_DSA_65".
Definition keySpecMLDSA87 := "ML_DSA_87".
Definition keySpecRSA4096 := "RSA_4096".
Definition keySpecAES256GCM96 := encryptionAlgorithmAES256GCM96.
Definition messageTypeDigest := "DIGEST".
Definition messageTypeEIP191 := "EIP191".
Definition messageTypeRaw := "RAW".
Definition ethereumSignMethodRawHash := "raw_hash".
Definition schemeEthereum := "ETHEREUM".
Definition schemePQC := "PQC".
Definition schemeTransit := "TRANSIT".
Definition keyAgreementAlgorithmMLKEM := "ML_KEM".
Definition signVerifyUsage := "SIGN_VERIFY".
Definition signingAlgorithmEthereumSecp256k1 := "ETHEREUM_SECP256K1".
Definition signingAlgorithmMLDSA := "ML_DSA".

Record signMapping := mkSignMapping {
  pathAlgorithm : string;
  signatureAlgorithm : string;
  prehashed : bool;
}.

(** A [switch] on a string: membership of a [case] list. *)
Definition one_of (s : string) (l : list string) : bool := existsb (String.eqb s) l.

Definition validateTransitKeySpec (keySpec : string) : result unit :=
  if one_of keySpec [keySpecECDSAP256; keySpecECDSAP384; keySpecED25519; keySpecRSA4096; keySpecAES256GCM96]
  then Ok tt else Err (Errorf "unsupported KeySpec %q" [keySpec]).

Definition transitKeyType (keySpec : string) : result string :=
  _ ← validateTransitKeySpec keySpec;
  if String.eqb keySpec keySpecAES256GCM96 then Ok "aes256-gcm96"
  else if String.eqb keySpec keySpecECDSAP256 then Ok "ecdsa-p256"
  else if String.eqb keySpec keySpecECDSAP384 then Ok "ecdsa-p384"
  else if String.eqb keySpec keySpecED25519 then Ok "ed25519"
  else if String.eqb keySpec keySpecRSA4096 then Ok "rsa-4096"
  else Err (Errorf "unsupported KeySpec %q" [keySpec]).

Definition normalizeScheme (scheme : string) : result string :=
  if String.eqb scheme "" || String.eqb scheme schemeTransit then Ok schemeTransit
  else if String.eqb scheme schemeEthereum then Ok schemeEthereum
  else if String.eqb scheme schemePQC then Ok schemePQC
  else Err (Errorf "unsupported Scheme %q" [scheme]).

Definition supportsEncryption (keySpec : string) : bool := String.eqb keySpec keySpecAES256GCM96.

Definition supportsSigning (keySpec : string) : bool :=
  one_of keySpec [keySpecECDSAP256; keySpecECDSAP384; keySpecED25519; keySpecRSA4096; keySpecECCSecgP256K1].

Definition validateTransitKeyUsage (keySpec keyUsage : string) : result unit :=
  _ ← validateTransitKeySpec keySpec;
  if String.eqb keySpec keySpecAES256GCM96
  then reject (negb (String.eqb keyUsage encryptDecryptUsage))
         (Errorf "%s keys must use ENCRYPT_DECRYPT" [keySpecAES256GCM96])
  else reject (negb (String.eqb keyUsage signVerifyUsage)) (Errorf "asymmetric keys must use SIGN_VERIFY" []).

Definition validateEthereumKeyUsage (keySpec keyUsage : string) : result unit :=
  _ ← reject (negb (String.eqb keySpec keySpecECCSecgP256K1)) (Errorf "ETHEREUM keys must use ECC_SECG_P256K1" []);
  reject (negb (String.eqb keyUsage signVerifyUsage)) (Errorf "ETHEREUM keys must use SIGN_VERIFY" []).

Definition isPQCSigningKey (keySpec : string) : bool :=
  one_of keySpec [keySpecMLDSA44; keySpecMLDSA65; keySpecMLDSA87].

Definition isPQCKEMKey (keySpec : string) : bool := one_of keySpec [keySpecMLKEM768; keySpecMLKEM1024].

Definition validatePQCKeyUsage (keySpec keyUsage : string) : result unit :=
  if isPQCSigningKey keySpec
  then reject (negb (String.eqb keyUsage signVerifyUsage)) (Errorf "PQC ML-DSA keys must use SIGN_VERIFY" [])
  else if isPQCKEMKey keySpec
  then reject (negb (String.eqb keyUsage keyAgreementUsage)) (Errorf "PQC ML-KEM keys must use KEY_AGREEMENT" [])
  else Err (Errorf "PQC keys must use ML_DSA_44, ML_DSA_65, ML_DSA_87, ML_KEM_768, or ML_KEM_1024" []).

Definition pqcMLDSAVariant (keySpec : string) : result string :=
  if String.eqb keySpec keySpecMLDSA44 then Ok "ml-dsa-44"
  else if String.eqb keySpec keySpecMLDSA65 then Ok "ml-dsa-65"
  else if String.eqb keySpec keySpecMLDSA87 then Ok "ml-dsa-87"
  else Err (Errorf "unsupported PQC ML-DSA KeySpec %q" [keySpec]).

Definition pqcMLKEMVariant (keySpec : string) : result string :=
  if String.eqb keySpec keySpecMLKEM768 then Ok "ml-kem-768"
  else if String.eqb keySpec keySpecMLKEM1024 then Ok "ml-kem-1024"
  else Err (Errorf "unsupported PQC ML-KEM KeySpec %q" [keySpec]).

Definition normalizeEncryptionAlgorithm (algorithm : string) : result string :=
  if String.eqb algorithm "" || String.eqb algorithm keySpecAES256GCM96 then Ok encryptionAlgorithmAES256GCM96
  else Err (Errorf "unsupported EncryptionAlgorithm %q" [algorithm]).

(** [int] is 64 bits wide: the product of a [uint32] and 8 does not wrap. *)
Definition dataKeyBits (spec : string) (numberOfBytes : Z) : result Z :=
  let hasSpec := negb (String.eqb spec "") in
  let hasSize := 0 <? numberOfBytes in
  if Bool.eqb hasSpec hasSize
  then Err (Errorf "exactly one of DataKeySpec or NumberOfBytes must be provided" [])
  else if String.eqb spec "" then Ok (i64 (numberOfBytes * 8))
  else if String.eqb spec dataKeySpecAES128 then Ok 128
  else if String.eqb spec dataKeySpecAES256 then Ok 256
  else Err (Errorf "unsupported DataKeySpec %q" [spec]).

Definition signingConfig (signingAlgorithm messageType : string) : result signMapping :=
  let prehashed := String.eqb messageType messageTypeDigest in
  let messageType := if String.eqb messageType "" then messageTypeRaw else messageType in
  if negb (String.eqb messageType messageTypeRaw) && negb (String.eqb messageType messageTypeDigest)
     && negb (String.eqb messageType messageTypeEIP191)
  then Err (Errorf "unsupported MessageType %q" [messageType])
  else if String.eqb signingAlgorithm "ECDSA_SHA_256" then Ok (mkSignMapping "sha2-256" "" prehashed)
  else if String.eqb signingAlgorithm "ECDSA_SHA_384" then Ok (mkSignMapping "sha2-384" "" prehashed)
  else if String.eqb signingAlgorithm "ED25519" then Ok (mkSignMapping "sha2-512" "" prehashed)
  else if String.eqb signingAlgorithm "RSASSA_PKCS1_V1_5_SHA_256"
  then Ok (mkSignMapping "sha2-256" "pkcs1v15" prehashed)
  else if String.eqb signingAlgorithm "RSASSA_PSS_SHA_256" then Ok (mkSignMapping "sha2-256" "pss" prehashed)
  else if String.eqb signingAlgorithm signingAlgorithmEthereumSecp256k1
  then Err (Errorf "%s must be handled by the ethereum provider" [signingAlgorithmEthereumSecp256k1])
  else Err (Errorf "unsupported SigningAlgorithm %q" [signingAlgorithm]).

(** ** The alias check of plugin.go *)

(** One character of [^[A-Za-z0-9.-]+$]. *)
Definition alias_char (c : ascii) : bool := alnum c || Ascii.eqb c "." || Ascii.eqb c "-".

Definition validateAlias (alias : string) : result unit :=
  _ ← reject (String.eqb alias "") (Errorf "alias is required" []);
  _ ← reject (128 <? String.length alias)%nat (Errorf "alias must be at most %d characters" ["128"]);
  _ ← reject (HasPrefix alias "kms:") (Errorf "alias must not use the reserved kms:<alias> format" []);
  reject (negb (all_chars alias_char alias)) (Errorf "alias contains unsupported characters" []).

(** ** tenant.go *)

Definition keyIDPrefix := "kms:".
Definition tenantNamespacePrefix := "tenant_".
Definition tenantNamespaceBytes : nat := 16.

Definition tenantNamespaceForBytes (clientID : string) (size : nat) : string :=
  let sum := Sum256 (bytes_of_string (TrimSpace clientID)) in
  let size := if (length sum <? size)%nat then length sum else size in
  tenantNamespacePrefix +:+ Hex.EncodeToString (take size sum).

Definition tenantNamespace (clientID : string) : string := tenantNamespaceForBytes clientID tenantNamespaceBytes.

Definition canonicalAlias (alias : string) : result string :=
  let trimmed := TrimSpace alias in
  _ ← validateAlias trimmed; Ok trimmed.

Definition scopedBackendKey (clientID alias : string) : result string :=
  normalizedAlias ← canonicalAlias alias;
  Ok (tenantNamespace clientID +:+ "_" +:+ normalizedAlias).

Definition canonicalKeyID (alias : string) : result string :=
  normalizedAlias ← canonicalAlias alias; Ok (keyIDPrefix +:+ normalizedAlias).

Definition resolveKeyRef (keyRef : string) : result (string * string) :=
  let trimmed := TrimSpace keyRef in
  if String.eqb trimmed "" then Err (Errorf "key_id is required" [])
  else if HasPrefix trimmed keyIDPrefix then
    alias ← canonicalAlias (TrimPrefix trimmed keyIDPrefix);
    Ok (keyIDPrefix +:+ alias, alias)
  else
    alias ← canonicalAlias trimmed;
    Ok (keyIDPrefix +:+ alias, alias).

(** ** blob.go *)

Record ciphertextBlob := mkBlob {
  blob_Version : Z;
  blob_Scheme : string;
  blob_KeyID : string;
  blob_ProviderKey : string;
  blob_TransitKey : string;
  blob_Ciphertext : string;
  blob_Algorithm : string;
}.

Definition blob_backendKey (b : ciphertextBlob) : string :=
  if String.eqb (blob_ProviderKey b) "" then blob_TransitKey b else blob_ProviderKey b.

Definition blob_normalize (b : ciphertextBlob) : ciphertextBlob :=
  mkBlob (blob_Version b)
    (if String.eqb (blob_Scheme b) "" then schemeTransit else blob_Scheme b)
    (blob_KeyID b)
    (if String.eqb (blob_ProviderKey b) "" then blob_TransitKey b else blob_ProviderKey b)
    (blob_TransitKey b) (blob_Ciphertext b) (blob_Algorithm b).

(** The struct tags of [ciphertextBlob]. *)
Definition blob_json (b : ciphertextBlob) : json :=
  JObj ([("v", JNum (pretty (blob_Version b)))] ++ omitempty "scheme" (blob_Scheme b) ++
    [("key_id", JStr (blob_KeyID b))] ++ omitempty "provider_key" (blob_ProviderKey b) ++
    omitempty "transit_key" (blob_TransitKey b) ++
    [("ciphertext", JStr (blob_Ciphertext b)); ("algorithm", JStr (blob_Algorithm b))]).

Definition blob_fields : list (field ciphertextBlob) :=
  [fld "v" blob_Version (fun x b => mkBlob x (blob_Scheme b) (blob_KeyID b) (blob_ProviderKey b)
     (blob_TransitKey b) (blob_Ciphertext b) (blob_Algorithm b)) dec_int;
   fld "scheme" blob_Scheme (fun x b => mkBlob (blob_Version b) x (blob_KeyID b) (blob_ProviderKey b)
     (blob_TransitKey b) (blob_Ciphertext b) (blob_Algorithm b)) dec_string;
   fld "key_id" blob_KeyID (fun x b => mkBlob (blob_Version b) (blob_Scheme b) x (blob_ProviderKey b)
     (blob_TransitKey b) (blob_Ciphertext b) (blob_Algorithm b)) dec_string;
   fld "provider_key" blob_ProviderKey (fun x b => mkBlob (blob_Version b) (blob_Scheme b) (blob_KeyID b) x
     (blob_TransitKey b) (blob_Ciphertext b) (blob_Algorithm b)) dec_string;
   fld "transit_key" blob_TransitKey (fun x b => mkBlob (blob_Version b) (blob_Scheme b) (blob_KeyID b)
     (blob_ProviderKey b) x (blob_Ciphertext b) (blob_Algorithm b)) dec_string;
   fld "ciphertext" blob_Ciphertext (fun x b => mkBlob (blob_Version b) (blob_Scheme b) (blob_KeyID b)
     (blob_ProviderKey b) (blob_TransitKey b) x (blob_Algorithm b)) dec_string;
   fld "algorithm" blob_Algorithm (fun x b => mkBlob (blob_Version b) (blob_Scheme b) (blob_KeyID b)
     (blob_ProviderKey b) (blob_TransitKey b) (blob_Ciphertext b) x) dec_string].

Definition empty_blob : ciphertextBlob := mkBlob 0 "" "" "" "" "" "".

(** Marshalling strings and an integer does not fail. *)
Definition encodeCiphertextBlob (scheme keyID providerKey ciphertext algorithm : string) : result string :=
  Ok (Base64.EncodeToString (bytes_of_string
    (print (blob_json (mkBlob 1 scheme keyID providerKey "" ciphertext algorithm))))).

Definition decodeCiphertextBlob (encoded : string) : result ciphertextBlob :=
  raw ← map_err (Wrapf "decode ciphertext blob: %w" []) (Base64.DecodeString encoded);
  blob ← map_err (Wrapf "unmarshal ciphertext blob: %w" [])
           (Unmarshal (dec_struct blob_fields) (string_of_bytes raw) empty_blob);
  if negb (blob_Version blob =? 1)
  then Err (Errorf "unsupported ciphertext blob version: %d" [pretty (blob_Version blob)])
  else
    let blob := blob_normalize blob in
    if String.eqb (blob_KeyID blob) "" || String.eqb (blob_backendKey blob) ""
       || String.eqb (blob_Ciphertext blob) "" || String.eqb (blob_Algorithm blob) ""
    then Err (Errorf "ciphertext blob is missing required fields" [])
    else Ok blob.

(** ** config.go *)

Record kmsConfig := mkKmsConfig {
  OpenBaoProxyURL : string;
  cfg_EthereumMount : string;
  cfg_PQCMount : string;
  cfg_TransitMount : string;
  cfg_KVMount : string;
  cfg_KeyStoreMount : string;
  KeyStoreCedarPolicyPath : string;
  TimeoutSecs : Z;
}.

Definition kms_string_defaults : list (string * string) :=
  [("KMS_ETHEREUM_MOUNT", "ethereum"); ("KMS_PQC_MOUNT", "pqc"); ("KMS_TRANSIT_MOUNT", "transit");
   ("KMS_KV_MOUNT", "secret"); ("KMS_KEY_STORE_MOUNT", "key-store"); ("KMS_KEY_STORE_CEDAR_POLICY_PATH", "")].

Definition defaultKMSTimeoutSecs : Z := 10.

(** [env_string] and [env_int] are viper's look-ups: what the environment sets
    for a key. *)
Definition readFromEnv (env_string : string -> option string) (env_int : string -> option Z) : kmsConfig :=
  let get k := default (default "" (assoc_lookup k kms_string_defaults)) (env_string k) in
  mkKmsConfig (get "KMS_OPENBAO_PROXY_URL") (get "KMS_ETHEREUM_MOUNT") (get "KMS_PQC_MOUNT")
    (get "KMS_TRANSIT_MOUNT") (get "KMS_KV_MOUNT") (get "KMS_KEY_STORE_MOUNT")
    (get "KMS_KEY_STORE_CEDAR_POLICY_PATH") (default defaultKMSTimeoutSecs (env_int "KMS_TIMEOUT_SECS")).

Definition or_default (s d : string) : string := if String.eqb s "" then d else s.

Definition withKMSConfigDefaults (cfg : option kmsConfig) : kmsConfig :=
  let cfg := default (mkKmsConfig "" "" "" "" "" "" "" 0) cfg in
  mkKmsConfig (OpenBaoProxyURL cfg)
    (or_default (cfg_EthereumMount cfg) "ethereum") (or_default (cfg_PQCMount cfg) "pqc")
    (or_default (cfg_TransitMount cfg) "transit") (or_default (cfg_KVMount cfg) "secret")
    (or_default (cfg_KeyStoreMount cfg) "key-store") (KeyStoreCedarPolicyPath cfg)
    (if TimeoutSecs cfg =? 0 then defaultKMSTimeoutSecs else TimeoutSecs cfg).

(** ** Names *)

Lemma alias_char_visible c : alias_char c = true -> visible c = true.
Proof. destruct c as [[] [] [] [] [] [] [] []]; first [reflexivity|discriminate]. Qed.

Lemma alias_char_no_slash c : alias_char c = true -> negb (Ascii.eqb c slash) = true.
Proof. destruct c as [[] [] [] [] [] [] [] []]; first [reflexivity|discriminate]. Qed.

Lemma validateAlias_Ok a : validateAlias a = Ok tt <->
  a <> "" /\ (String.length a <= 128)%nat /\ all_chars alias_char a = true.
Proof.
  unfold validateAlias. split.
  - intros H. inv_ok. rewrite ?String.eqb_neq, ?Nat.ltb_ge, ?negb_false_iff in *. done.
  - intros (Hne & Hl & Hc). assert (HasPrefix a "kms:" = false) as Hp.
    { destruct (HasPrefix a "kms:") eqn:E; [|done]. apply HasPrefix_true in E as [r ->].
      rewrite all_chars_append in Hc. done. }
    apply String.eqb_neq in Hne. apply Nat.ltb_ge in Hl. by rewrite Hne, Hl, Hp, Hc.
Qed.

Lemma validateAlias_trim a : validateAlias a = Ok tt -> TrimSpace a = a.
Proof.
  intros (_ & _ & Hc)%validateAlias_Ok. apply TrimSpace_visible.
  eapply all_chars_impl; [|exact Hc]. apply alias_char_visible.
Qed.

Lemma canonicalAlias_Ok a b : canonicalAlias a = Ok b -> validateAlias b = Ok tt /\ b = TrimSpace a.
Proof. unfold canonicalAlias. intros H. inv_ok. by destruct x. Qed.

Lemma canonicalAlias_id b : validateAlias b = Ok tt -> canonicalAlias b = Ok b.
Proof. intros H. unfold canonicalAlias. rewrite validateAlias_trim by done. by rewrite H. Qed.

Lemma keyID_visible b : validateAlias b = Ok tt -> all_chars visible (keyIDPrefix +:+ b) = true.
Proof.
  intros (_ & _ & Hc)%validateAlias_Ok. rewrite all_chars_append. apply andb_true_iff. split; [done|].
  eapply all_chars_impl; [|exact Hc]. apply alias_char_visible.
Qed.

Lemma resolveKeyRef_alias b : validateAlias b = Ok tt -> resolveKeyRef b = Ok (keyIDPrefix +:+ b, b).
Proof.
  intros H. unfold resolveKeyRef. rewrite validateAlias_trim by done. pose proof H as (Hne & _ & Hc)%validateAlias_Ok.
  apply String.eqb_neq in Hne. rewrite Hne. destruct (HasPrefix b keyIDPrefix) eqn:E.
  - apply HasPrefix_true in E as [r ->]. rewrite all_chars_append in Hc. done.
  - by rewrite canonicalAlias_id.
Qed.

Lemma resolveKeyRef_keyID b : validateAlias b = Ok tt ->
  resolveKeyRef (keyIDPrefix +:+ b) = Ok (keyIDPrefix +:+ b, b).
Proof.
  intros H. unfold resolveKeyRef. rewrite TrimSpace_visible by (by apply keyID_visible).
  destruct (String.eqb_spec (keyIDPrefix +:+ b) "") as [E|_]; [done|].
  assert (HasPrefix (keyIDPrefix +:+ b) keyIDPrefix = true) as -> by apply prefix_append.
  rewrite TrimPrefix_append. by rewrite canonicalAlias_id.
Qed.

Lemma resolveKeyRef_Ok r id a : resolveKeyRef r = Ok (id, a) -> id = keyIDPrefix +:+ a /\ validateAlias a = Ok tt.
Proof.
  unfold resolveKeyRef. intros H. destruct (String.eqb _ ""); [done|].
  destruct (HasPrefix _ _); inv_ok; split; try done; by eapply canonicalAlias_Ok.
Qed.

Definition ns_char (c : ascii) : bool := alnum c || Ascii.eqb c "_".

Lemma tenantNamespace_eq c : tenantNamespace c =
  tenantNamespacePrefix +:+ Hex.EncodeToString (take 16 (Sum256 (bytes_of_string (TrimSpace c)))).
Proof. unfold tenantNamespace, tenantNamespaceForBytes. by rewrite length_Sum256. Qed.

Lemma length_tenantNamespace c : String.length (tenantNamespace c) = 39%nat.
Proof.
  rewrite tenantNamespace_eq, length_append, Hex.length_hex_Encode, length_take, length_Sum256. done.
Qed.

Lemma tenantNamespace_chars c : all_chars ns_char (tenantNamespace c) = true.
Proof.
  rewrite tenantNamespace_eq, all_chars_append. apply andb_true_iff. split; [done|].
  apply Hex.hex_Encode_chars; [by vm_compute|]. apply Forall_take, Sum256_range.
Qed.

(** Segments without a slash that are no dots are safe. *)
Lemma safe_of_chars c s : free_of slash (String c s) = true -> c <> "."%char -> safe_segment (String c s) = true.
Proof.
  intros Hf Hc. unfold safe_segment. rewrite Hf. rewrite !andb_true_iff, !negb_true_iff, !String.eqb_neq.
  split_and!; [done|..|done]; by intros [= -> _].
Qed.

Lemma ns_no_slash s : all_chars ns_char s = true -> free_of slash s = true.
Proof. apply all_chars_impl. intros c. destruct c as [[] [] [] [] [] [] [] []]; first [reflexivity|discriminate]. Qed.

Lemma alias_no_slash b : validateAlias b = Ok tt -> free_of slash b = true.
Proof. intros (_ & _ & Hc)%validateAlias_Ok. eapply all_chars_impl; [|exact Hc]. apply alias_char_no_slash. Qed.

Lemma tenantNamespace_safe c : safe_segment (tenantNamespace c) = true.
Proof.
  pose proof (ns_no_slash _ (tenantNamespace_chars c)) as Hf. rewrite tenantNamespace_eq in *.
  by apply safe_of_chars.
Qed.

Lemma keyID_safe b : validateAlias b = Ok tt -> safe_segment (keyIDPrefix +:+ b) = true.
Proof.
  intros H. apply safe_of_chars; [|done]. change (free_of slash (keyIDPrefix +:+ b) = true).
  unfold free_of. rewrite all_chars_append. by apply alias_no_slash in H.
Qed.

Lemma scopedBackendKey_Ok c a k : scopedBackendKey c a = Ok k ->
  exists b, canonicalAlias a = Ok b /\ k = tenantNamespace c +:+ "_" +:+ b.
Proof. unfold scopedBackendKey. intros H. inv_ok. eauto. Qed.

Lemma scopedBackendKey_safe c a k : scopedBackendKey c a = Ok k -> safe_segment k = true.
Proof.
  intros (b & Hb & ->)%scopedBackendKey_Ok. apply canonicalAlias_Ok in Hb as [Hb _].
  assert (free_of slash (tenantNamespace c +:+ "_" +:+ b) = true) as Hf.
  { unfold free_of. rewrite !all_chars_append.
    pose proof (ns_no_slash _ (tenantNamespace_chars c)) as H1. pose proof (alias_no_slash _ Hb) as H2.
    unfold free_of in *. by rewrite H1, H2. }
  rewrite tenantNamespace_eq in *. by apply safe_of_chars.
Qed.

(** ** Blobs *)

Definition blob_utf8 (b : ciphertextBlob) : Prop :=
  valid_utf8 (blob_Scheme b) = true /\ valid_utf8 (blob_KeyID b) = true /\
  valid_utf8 (blob_ProviderKey b) = true /\ valid_utf8 (blob_TransitKey b) = true /\
  valid_utf8 (blob_Ciphertext b) = true /\ valid_utf8 (blob_Algorithm b) = true.

Lemma blob_json_wf b : 0 <= blob_Version b -> wf_json (blob_json b) /\ (height (blob_json b) <= 1)%nat.
Proof.
  intros Hv. unfold blob_json, omitempty.
  destruct (String.eqb (blob_Scheme b) ""), (String.eqb (blob_ProviderKey b) ""), (String.eqb (blob_TransitKey b) "");
    cbn [app wf_json map height fold_right snd fst]; split; try (cbn; lia); repeat constructor; cbn; eauto.
Qed.

Lemma blob_json_clean b : blob_utf8 b -> clean (blob_json b) = blob_json b.
Proof.
  intros (H1 & H2 & H3 & H4 & H5 & H6). unfold blob_json, omitempty.
  destruct (String.eqb (blob_Scheme b) ""), (String.eqb (blob_ProviderKey b) ""), (String.eqb (blob_TransitKey b) "");
    cbn -[sanitize]; by rewrite ?sanitize_valid by done.
Qed.

Lemma blob_json_decode b : 0 <= blob_Version b < 2 ^ 63 -> dec_struct blob_fields (blob_json b) empty_blob = Ok b.
Proof.
  intros Hv. destruct b as [v sc k pk tk ct al]; cbn [blob_Version] in *. unfold blob_json, omitempty.
  cbn [blob_Version blob_Scheme blob_KeyID blob_ProviderKey blob_TransitKey blob_Ciphertext blob_Algorithm].
  assert (dec_int (JNum (pretty v)) 0 = Ok v) as Hd.
  { cbn. by rewrite Atoi_pretty. }
  destruct (String.eqb_spec sc "") as [->|], (String.eqb_spec pk "") as [->|], (String.eqb_spec tk "") as [->|];
    cbn -[dec_int pretty]; rewrite Hd; reflexivity.
Qed.

Lemma encode_decode b : 0 <= blob_Version b < 2 ^ 63 -> blob_utf8 b ->
  map_err (Wrapf "unmarshal ciphertext blob: %w" [])
    (Unmarshal (dec_struct blob_fields) (print (blob_json b)) empty_blob) = Ok b.
Proof.
  intros Hv Hu. destruct (blob_json_wf b) as [Hw Hh]; [lia|].
  rewrite Unmarshal_print, blob_json_clean by (done || (unfold maxNestingDepth; lia)). by rewrite blob_json_decode.
Qed.

Lemma b64_roundtrip s : Base64.DecodeString (Base64.EncodeToString (bytes_of_string s)) = Ok (bytes_of_string s).
Proof. apply Base64.b64_Decode_Encode, bytes_of_string_range. Qed.

(** What decoding an encoded blob gives. *)
Lemma blob_roundtrip scheme keyID providerKey ciphertext algorithm blob :
  keyID <> "" -> providerKey <> "" -> ciphertext <> "" -> algorithm <> "" ->
  blob_utf8 (mkBlob 1 scheme keyID providerKey "" ciphertext algorithm) ->
  encodeCiphertextBlob scheme keyID providerKey ciphertext algorithm = Ok blob ->
  decodeCiphertextBlob blob =
    Ok (mkBlob 1 (or_default scheme schemeTransit) keyID providerKey "" ciphertext algorithm).
Proof.
  intros Hk Hp Hc Ha Hu He. unfold encodeCiphertextBlob in He. set (b := mkBlob _ _ _ _ _ _ _) in *.
  assert (blob = Base64.EncodeToString (bytes_of_string (print (blob_json b)))) as -> by congruence.
  unfold decodeCiphertextBlob.
  rewrite b64_roundtrip. cbn [map_err mbind result_bind]. rewrite string_of_bytes_of_string.
  rewrite encode_decode by (done || (cbn; lia)). unfold b.
  apply String.eqb_neq in Hk, Hp, Hc, Ha. unfold blob_normalize, blob_backendKey, or_default.
  cbn. rewrite !Hp, ?Hp, Hk, Hc, Ha. by destruct (String.eqb scheme "").
Qed.

(** ** Properties *)

(** Key references are canonical. A reference that resolves gives the key
    id [kms:<alias>] of a valid alias, and both that id and the bare alias resolve
    to the same pair, so the id stored with a key keeps denoting it. *)
Theorem resolveKeyRef_canonical r id a : resolveKeyRef r = Ok (id, a) ->
  id = "kms:" +:+ a /\ canonicalKeyID a = Ok id /\
  resolveKeyRef id = Ok (id, a) /\ resolveKeyRef a = Ok (id, a).
Proof.
  intros H. apply resolveKeyRef_Ok in H as [-> Ha]. split; [done|].
  split; [unfold canonicalKeyID; by rewrite canonicalAlias_id|].
  split; [by apply resolveKeyRef_keyID|by apply resolveKeyRef_alias].
Qed.

(** Backend keys of different tenants or aliases differ: a scoped key
    determines the tenant namespace and the canonical alias it was made from. *)
Theorem scopedBackendKey_inj c1 a1 c2 a2 k :
  scopedBackendKey c1 a1 = Ok k -> scopedBackendKey c2 a2 = Ok k ->
  tenantNamespace c1 = tenantNamespace c2 /\ canonicalAlias a1 = canonicalAlias a2.
Proof.
  intros (b1 & H1 & ->)%scopedBackendKey_Ok (b2 & H2 & Heq)%scopedBackendKey_Ok.
  apply append_inj_same_len in Heq as [-> Heq]; [|by rewrite !length_tenantNamespace].
  apply append_inj_l in Heq as ->. split; [done|]. by rewrite H1, H2.
Qed.

(** Ciphertext blobs round trip: decoding an encoded blob gives back the
    key, the backend key, the ciphertext and the algorithm, with an empty scheme
    read as TRANSIT. *)
Theorem ciphertextBlob_roundtrip scheme keyID providerKey ciphertext algorithm :
  keyID <> "" -> providerKey <> "" -> ciphertext <> "" -> algorithm <> "" ->
  Forall (fun s => valid_utf8 s = true) [scheme; keyID; providerKey; ciphertext; algorithm] ->
  exists encoded blob,
    encodeCiphertextBlob scheme keyID providerKey ciphertext algorithm = Ok encoded /\
    decodeCiphertextBlob encoded = Ok blob /\
    blob_KeyID blob = keyID /\ blob_backendKey blob = providerKey /\
    blob_Ciphertext blob = ciphertext /\ blob_Algorithm blob = algorithm /\
    normalizeScheme (blob_Scheme blob) = normalizeScheme scheme.
Proof.
  intros Hk Hp Hc Ha Hu. decompose_Forall_hyps. eexists _, _. split; [reflexivity|].
  split; [by apply (blob_roundtrip scheme keyID providerKey ciphertext algorithm)|].
  unfold blob_backendKey, or_default; cbn. apply String.eqb_neq in Hp. rewrite Hp.
  by destruct (String.eqb_spec scheme "") as [->|].
Qed.

(** Every blob the decoder accepts is usable: its version is 1, its scheme
    is set and no field that decryption needs is empty, whatever text it came
    from. *)
Theorem decodeCiphertextBlob_complete encoded blob : decodeCiphertextBlob encoded = Ok blob ->
  blob_Version blob = 1 /\ blob_Scheme blob <> "" /\ blob_KeyID blob <> "" /\
  blob_backendKey blob <> "" /\ blob_Ciphertext blob <> "" /\ blob_Algorithm blob <> "" /\
  blob_normalize blob = blob.
Proof.
  unfold decodeCiphertextBlob. destruct (map_err _ (Base64.DecodeString _)) as [raw|]; [|done].
  cbn [mbind result_bind]. destruct (map_err _ (Unmarshal _ _ _)) as [x|]; [|done]. cbn [mbind result_bind].
  destruct (Z.eqb_spec (blob_Version x) 1) as [Hv|]; [|done]. cbn [negb].
  match goal with |- (if ?b then _ else _) = _ -> _ => destruct b eqn:E; [done|] end. intros H. inv_ok.
  rewrite !orb_false_iff, !String.eqb_neq in E. destruct E as [[[E1 E2] E3] E4].
  split_and!; try done.
  - unfold blob_normalize; cbn. by destruct (String.eqb_spec (blob_Scheme x) "").
  - destruct x as [v sc k pk tk ct al]. unfold blob_normalize; cbn. f_equal.
    + destruct (String.eqb_spec sc ""); [done|]. by destruct (String.eqb_spec sc "").
    + destruct (String.eqb_spec pk ""); [by destruct (String.eqb tk "")|]. by destruct (String.eqb_spec pk "").
Qed.

(** No combination of key spec and key usage is accepted by two schemes, so
    the scheme of a key can be read off its spec. *)
Theorem key_specs_partition keySpec u1 u2 :
  let transit := is_ok (validateTransitKeyUsage keySpec u1) in
  let ethereum := is_ok (validateEthereumKeyUsage keySpec u2) in
  let pqc u := is_ok (validatePQCKeyUsage keySpec u) in
  transit && ethereum = false /\ transit && pqc u2 = false /\ pqc u1 && ethereum = false.
Proof.
  cbv zeta. unfold validateTransitKeyUsage, validateEthereumKeyUsage, validatePQCKeyUsage, validateTransitKeySpec,
    isPQCSigningKey, isPQCKEMKey, one_of. cbn [existsb].
  repeat match goal with |- context [String.eqb keySpec ?c] => destruct (String.eqb_spec keySpec c) as [->|];
    [split_and!; cbn; rewrite ?andb_false_r; reflexivity|] end.
  done.
Qed.

(** A data key request with exactly one of a spec and a size gets a positive
    number of bits that is a multiple of 8 and does not overflow; any other request
    is refused. *)
Theorem dataKeyBits_range spec n bits : is_u32 n -> dataKeyBits spec n = Ok bits ->
  0 < bits < 2 ^ 35 /\ bits mod 8 = 0 /\
  ((spec = "" /\ bits = 8 * n) \/ (n = 0 /\ (spec = "AES_128" /\ bits = 128 \/ spec = "AES_256" /\ bits = 256))).
Proof.
  unfold is_u32, dataKeyBits. intros Hn H.
  destruct (String.eqb_spec spec "") as [->|Hs]; destruct (Z.ltb_spec 0 n); cbn in H; try done.
  - unfold swrap in H. rewrite Z.mod_small in H by lia. inv_ok. rewrite Z.mul_comm in *.
    split; [lia|]. split; [|left; split; [done|lia]]. replace (8 * n + 2 ^ (64 - 1) - 2 ^ (64 - 1)) with (n * 8) by lia.
    by rewrite Z.mod_mul.
  - destruct (String.eqb_spec spec dataKeySpecAES128) as [->|]; [inv_ok; split_and!; [lia|lia|done|right; split; [lia|by left]]|].
    destruct (String.eqb_spec spec dataKeySpecAES256) as [->|]; [|done].
    inv_ok; split_and!; [lia|lia|done|right; split; [lia|by right]].
Qed.

(** ** Witnesses *)

Lemma resolveKeyRef_canonical_witness :
  "kms:my-key.1" = "kms:" +:+ "my-key.1" /\ canonicalKeyID "my-key.1" = Ok "kms:my-key.1" /\
  resolveKeyRef "kms:my-key.1" = Ok ("kms:my-key.1", "my-key.1") /\
  resolveKeyRef "my-key.1" = Ok ("kms:my-key.1", "my-key.1").
Proof. apply (resolveKeyRef_canonical " kms: my-key.1 "). vm_compute. reflexivity. Defined.

Lemma scopedBackendKey_inj_witness :
  tenantNamespace " c1 " = tenantNamespace "c1" /\ canonicalAlias "k " = canonicalAlias "k".
Proof.
  apply (scopedBackendKey_inj " c1 " "k " "c1" "k" "tenant_d0f631ca1ddba8db3bcfcb9e057cdc98_k");
    vm_compute; reflexivity.
Defined.

Lemma ciphertextBlob_roundtrip_witness : exists encoded blob,
  encodeCiphertextBlob "" "kms:k" "tenant_x_k" "vault:v1:abc" "AES_256_GCM96" = Ok encoded /\
  decodeCiphertextBlob encoded = Ok blob /\
  blob_KeyID blob = "kms:k" /\ blob_backendKey blob = "tenant_x_k" /\
  blob_Ciphertext blob = "vault:v1:abc" /\ blob_Algorithm blob = "AES_256_GCM96" /\
  normalizeScheme (blob_Scheme blob) = normalizeScheme "".
Proof.
  apply (ciphertextBlob_roundtrip "" "kms:k" "tenant_x_k" "vault:v1:abc" "AES_256_GCM96"); try discriminate.
  repeat constructor.
Defined.

(** A blob in the old layout, with the name of the transit key only. *)
Definition old_blob : string := Base64.EncodeToString (bytes_of_string (print
  (JObj [("v", JNum "1"); ("key_id", JStr "kms:k"); ("transit_key", JStr "t");
         ("ciphertext", JStr "c"); ("algorithm", JStr "a")]))).

Lemma decodeCiphertextBlob_complete_witness :
  exists blob, decodeCiphertextBlob old_blob = Ok blob /\ blob_backendKey blob <> "".
Proof.
  destruct (decodeCiphertextBlob old_blob) as [blob|e] eqn:E; [|vm_compute in E; discriminate].
  exists blob. split; [reflexivity|]. apply (decodeCiphertextBlob_complete old_blob blob E).
Defined.

Lemma dataKeyBits_range_witness : 0 < 256 < 2 ^ 35 /\ 256 mod 8 = 0 /\
  (("" = "" /\ 256 = 8 * 32) \/ (32 = 0 /\ ("" = "AES_128" /\ 256 = 128 \/ "" = "AES_256" /\ 256 = 256))).
Proof. apply (dataKeyBits_range "" 32 256); [unfold is_u32; lia|vm_compute; reflexivity]. Defined.
