(* ===== verification/OpenBao.v ===== *)
(** * The OpenBao HTTP client (internal/openbao/client.go)

    The OpenBao server and the transport to it are outside the repository: they
    are a parameter, [Backend], that answers one request at a time and may keep
    any state. A call is a computation [M W A] over that state and the trace of
    requests sent so far; it returns a result, or panics.

    [http.NewRequestWithContext] only fails on an invalid method or URL; the
    methods are constants and the targets are paths under the configured URL, so
    that branch is not taken. Logging is left out. *)

From S2P Require Import Prelude GoStrings Errors.
From S2P Require Export State.
From S2P Require Import Json.

Record request := mkRequest {
  method : string;
  target : string;          (* the path of the URL; the whole URL where several servers are called *)
  body : option string;
}.

Inductive reply :=
| TransportFailed (msg : string)
| BodyFailed (msg : string)
| Response (StatusCode : Z) (Status : string) (Body : string).

Class Backend (W : Type) := serve : W -> request -> W * reply.

(** ** Computations *)

Record world (W : Type) := mkWorld { backend : W; sent : list request }.
Arguments mkWorld {W} backend sent.
Arguments backend {W} w.
Arguments sent {W} w.

Abbreviation M W := (Prog (world W)).

Section Client.
Context {W : Type} `{Backend W}.

(** One exchange up to the decoding of the body. *)
Definition exchange (req : request) : M W string := fun w =>
  let '(st, rep) := serve (backend w) req in
  let w' := mkWorld st (sent w ++ [req]) in
  (w', Returned
    (match rep with
     | TransportFailed msg => Err (Wrapf "openbao request failed: %w" [] (Errorf msg []))
     | BodyFailed msg => Err (Wrapf "read openbao response: %w" [] (Errorf msg []))
     | Response code status body =>
         if 400 <=? code then Err (StatusError code status (TrimSpace body)) else Ok body
     end)).

(** [into == nil] *)
Definition do_nil (req : request) : M W unit := _ ← exchange req; mret tt.

Definition do_into {R} (req : request) (d : decoder R) (zero : R) : M W R :=
  text ← exchange req;
  lift (map_err (Wrapf "decode openbao response: %w" []) (Unmarshal d text zero)).

Definition Post_nil (path : string) (payload : json) : M W unit :=
  do_nil (mkRequest "POST" path (Some (print payload))).

Definition Post {R} (path : string) (payload : json) (d : decoder R) (zero : R) : M W R :=
  do_into (mkRequest "POST" path (Some (print payload))) d zero.

Definition Get_nil (path : string) : M W unit := do_nil (mkRequest "GET" path None).

Definition Get {R} (path : string) (d : decoder R) (zero : R) : M W R :=
  do_into (mkRequest "GET" path None) d zero.

Definition Delete_nil (path : string) : M W unit := do_nil (mkRequest "DELETE" path None).

Definition List_ {R} (path : string) (d : decoder R) (zero : R) : M W R :=
  do_into (mkRequest "LIST" path None) d zero.

(** ** Which requests a computation sends

    [sends P m]: whatever the server answers, [m] only sends requests that
    satisfy [P], and never blocks. *)
Definition sends {A} (P : request -> Prop) (m : M W A) : Prop := forall w,
  exists l, sent (m w).1 = sent w ++ l /\ Forall P l /\ (m w).2 <> Blocked.

Lemma sends_ret {A} P (a : A) : sends P (mret a).
Proof. intros w. exists []. by rewrite app_nil_r. Qed.

Lemma sends_lift {A} P (r : result A) : sends P (lift r).
Proof. intros w. exists []. by rewrite app_nil_r. Qed.

Lemma sends_throw {A} P e : sends (A := A) P (throw e).
Proof. intros w. exists []. by rewrite app_nil_r. Qed.

Lemma sends_panic {A} P : sends (A := A) P panic.
Proof. intros w. exists []. by rewrite app_nil_r. Qed.

Lemma sends_bind {A B} P (m : M W A) (f : A -> M W B) :
  sends P m -> (forall a, sends P (f a)) -> sends P (m ≫= f).
Proof.
  intros Hm Hf w. destruct (Hm w) as (l1 & H1 & F1 & N1). unfold mbind, Prog_bind.
  destruct (m w) as [w' [[a|e]| |]]; cbn [fst snd] in *; [|by exists l1|done|by exists l1].
  destruct (Hf a w') as (l2 & H2 & F2 & N2). exists (l1 ++ l2). rewrite H2, H1, app_assoc.
  split_and!; [done|by apply Forall_app_2|done].
Qed.

(** The same where the rest only runs after a value the first step can give. *)
Lemma sends_bind_dep {A B} P (m : M W A) (f : A -> M W B) :
  sends P m -> (forall w w' a, m w = (w', Returned (Ok a)) -> sends P (f a)) -> sends P (m ≫= f).
Proof.
  intros Hm Hf w. destruct (Hm w) as (l1 & H1 & F1 & N1). unfold mbind, Prog_bind.
  destruct (m w) as [w' [[a|e]| |]] eqn:E; cbn [fst snd] in *; [|by exists l1|done|by exists l1].
  destruct (Hf w w' a E w') as (l2 & H2 & F2 & N2). exists (l1 ++ l2). rewrite H2, H1, app_assoc.
  split_and!; [done|by apply Forall_app_2|done].
Qed.

Lemma sends_attempt {A} P (m : M W A) : sends P m -> sends P (attempt m).
Proof. intros Hm w. destruct (Hm w) as (l & H1 & F1 & N1). exists l. unfold attempt. by destruct (m w) as [w' []]. Qed.

Lemma sends_on_err {A} P f (m : M W A) : sends P m -> sends P (on_err f m).
Proof. intros Hm w. destruct (Hm w) as (l & H1 & F1 & N1). exists l. unfold on_err. by destruct (m w) as [w' []]. Qed.

Lemma sends_exchange (P : request -> Prop) req : P req -> sends P (exchange req).
Proof.
  intros Hp w. unfold exchange. destruct (serve (backend w) req) as [st rep]. exists [req].
  split_and!; [done|by constructor|done].
Qed.

Lemma sends_do_nil (P : request -> Prop) req : P req -> sends P (do_nil req).
Proof. intros. apply sends_bind; [by apply sends_exchange|]. intros. apply sends_ret. Qed.

Lemma sends_do_into {R} (P : request -> Prop) req (d : decoder R) z : P req -> sends P (do_into req d z).
Proof. intros. apply sends_bind; [by apply sends_exchange|]. intros. apply sends_lift. Qed.

Lemma sends_mono {A} (P Q : request -> Prop) (m : M W A) : (forall r, P r -> Q r) -> sends P m -> sends Q m.
Proof. intros HPQ Hm w. destruct (Hm w) as (l & H1 & F1 & N1). exists l. split_and!; [done| |done]. by eapply Forall_impl. Qed.

End Client.

Create HintDb sends.
#[export] Hint Resolve sends_ret sends_lift sends_throw sends_panic sends_attempt sends_on_err
  sends_do_nil sends_do_into sends_exchange : sends.
#[export] Hint Extern 2 (sends _ (_ ≫= _)) => (apply sends_bind; [|intros ?]) : sends.
#[export] Hint Extern 2 (sends _ (as_status _ _)) => (apply sends_on_err) : sends.
#[export] Hint Extern 2 (sends _ (guard_err _ _)) => (apply sends_lift) : sends.
#[export] Hint Extern 3 (sends _ (if ?b then _ else _)) => (destruct b) : sends.

(** ** Running computations *)

Section Runs.
Context {W : Type}.

Context `{Backend W}.

(** A request that is answered with a body that decodes. *)
Lemma run_do_into {R} req (d : decoder R) z w st status body x :
  serve (backend w) req = (st, Response 200 status body) -> Unmarshal d body z = Ok x ->
  do_into req d z w = (mkWorld st (sent w ++ [req]), Returned (Ok x)).
Proof. intros Hs Hu. unfold do_into, exchange, mbind, Prog_bind, lift. rewrite Hs. cbn. by rewrite Hu. Qed.

Lemma run_do_into_inv {R} req (d : decoder R) z w w' x : do_into req d z w = (w', Returned (Ok x)) ->
  exists st code status body, serve (backend w) req = (st, Response code status body) /\ code < 400 /\
    w' = mkWorld st (sent w ++ [req]) /\ Unmarshal d body z = Ok x.
Proof.
  intros Hr. unfold do_into in Hr. apply run_bind_inv in Hr as (w1 & text & He & Hl).
  apply run_lift_inv in Hl as [-> Hu]. apply map_err_Ok in Hu. unfold exchange in He.
  destruct (serve (backend w) req) as [st [| |code status body]]; try done.
  destruct (Z.leb_spec 400 code); [done|]. simplify_eq. eauto 10.
Qed.

(** The outcome of an exchange, from the server's reply. *)
Definition reply_error (rep : reply) : option error :=
  match rep with
  | TransportFailed msg => Some (Wrapf "openbao request failed: %w" [] (Errorf msg []))
  | BodyFailed msg => Some (Wrapf "read openbao response: %w" [] (Errorf msg []))
  | Response code status body => if 400 <=? code then Some (StatusError code status (TrimSpace body)) else None
  end.

Lemma run_do_into_err {R} req (d : decoder R) z w st rep e :
  serve (backend w) req = (st, rep) -> reply_error rep = Some e ->
  do_into req d z w = (mkWorld st (sent w ++ [req]), Returned (Err e)).
Proof.
  intros Hs He. unfold do_into. apply run_bind_err. unfold exchange. rewrite Hs.
  destruct rep as [| |code status body]; cbn in *; [congruence..|]. destruct (400 <=? code); congruence.
Qed.

End Runs.
