(* ===== verification/GoTime.v ===== *)
(** * Package time: [t.UTC().Format(time.RFC3339)]

    A time is the number of seconds since 1970-01-01T00:00:00Z. *)

From S2P Require Import Prelude GoStrings.

(** Year, month and day of a day number (proleptic Gregorian calendar). *)
Definition civil (days : Z) : Z * Z * Z :=
  let z := days + 719468 in
  let era := z / 146097 in
  let doe := z mod 146097 in
  let yoe := (doe - doe / 1460 + doe / 36524 - doe / 146096) / 365 in
  let doy := doe - (365 * yoe + yoe / 4 - yoe / 100) in
  let mp := (5 * doy + 2) / 153 in
  let d := doy - (153 * mp + 2) / 5 + 1 in
  let m := if mp <? 10 then mp + 3 else mp - 9 in
  (yoe + era * 400 + (if m <=? 2 then 1 else 0), m, d).

Fixpoint pad_zeros (n : nat) (s : string) : string :=
  match n with
  | O => s
  | S n => if (String.length s <=? n)%nat then "0" +:+ pad_zeros n s else s
  end.

Definition FormatRFC3339 (t : Z) : string :=
  let '(y, m, d) := civil (t / 86400) in
  let sec := t mod 86400 in
  pad_zeros 4 (pretty y) +:+ "-" +:+ pad_zeros 2 (pretty m) +:+ "-" +:+ pad_zeros 2 (pretty d) +:+ "T" +:+
  pad_zeros 2 (pretty (sec / 3600)) +:+ ":" +:+ pad_zeros 2 (pretty (sec / 60 mod 60)) +:+ ":" +:+
  pad_zeros 2 (pretty (sec mod 60)) +:+ "Z".
