(* ===== verification/KmsAuthorizer.v ===== *)
(** * Authorization of key-store requests (pkg/plugin/kms/key_store_authorizer.go)

    The Cedar engine is outside the repository: parsing a policy document and
    deciding a request are the parameter [Cedar]. A policy set is the policies by
    their id. *)

From S2P Require Import Prelude GoStrings Errors Json KmsMapping.

Definition EntityUID : Type := string * string.

Record Entity := mkEntity { UID : EntityUID; Attributes : list (string * string) }.

Record CedarRequest := mkCedarRequest {
  Principal : EntityUID;
  Action : EntityUID;
  Resource : EntityUID;
  Context : list (string * string);
}.

Class Cedar := {
  Policy : Type;
  (** [cedar.NewPolicySetFromBytes] *)
  NewPolicySetFromBytes : string -> string -> result (list (string * Policy));
  (** [cedar.Authorize]: whether the decision is Allow, and the errors of the
      diagnostic. *)
  Authorize : list (string * Policy) -> list Entity -> CedarRequest -> bool * list string;
}.

Definition keyStorePrincipalType := "KmsClient".
Definition keyStoreKeyType := "KeyStoreKey".
Definition keyStoreNamespaceType := "KeyStoreNamespace".
Definition keyStoreActionType := "Action".

Section Authorizer.
Context `{Cedar}.

(** [None] is the nil policy set. *)
Record keyStoreAuthorizer := mkAuthorizer { policies : option (list (string * Policy)) }.

Definition addPolicyDocument (target : list (string * Policy)) (fileName document : string)
  : result (list (string * Policy)) :=
  parsed ← map_err (Wrapf "parse Cedar policy %s: %w" [fileName]) (NewPolicySetFromBytes fileName document);
  Ok (fold_left (fun t kp => assoc_insert (fileName +:+ ":" +:+ kp.1) kp.2 t) parsed target).

(** [readFile] is [os.ReadFile]. *)
Definition newKeyStoreAuthorizer (readFile : string -> result string) (cfg : kmsConfig) : result keyStoreAuthorizer :=
  let path := KeyStoreCedarPolicyPath cfg in
  if String.eqb path "" then Ok (mkAuthorizer (Some []))
  else
    document ← map_err (Wrapf "read key-store Cedar policy: %w" []) (readFile path);
    pol ← addPolicyDocument [] path document;
    Ok (mkAuthorizer (Some pol)).

Definition keyStoreResourceID (owner name prefix : string) : string :=
  if negb (String.eqb name "") then "owners/" +:+ owner +:+ "/" +:+ name
  else if negb (String.eqb prefix "") then "owners/" +:+ owner +:+ "/" +:+ prefix
  else "owners/" +:+ owner.

Definition opt_attr (k v : string) : list (string * string) := if String.eqb v "" then [] else [(k, v)].

(** The entities and the request that [authorize] hands to Cedar. *)
Definition cedar_query (clientID action resourceType name prefix : string) : list Entity * CedarRequest :=
  let owner := tenantNamespace clientID in
  let principalUID := (keyStorePrincipalType, owner) in
  let resourceUID := (resourceType, keyStoreResourceID owner name prefix) in
  ([mkEntity principalUID [("owner", owner); ("client_id", clientID)];
    mkEntity resourceUID ([("owner", owner)] ++ opt_attr "name" name ++ opt_attr "prefix" prefix)],
   mkCedarRequest principalUID (keyStoreActionType, action) resourceUID
     ([("client_id", clientID); ("owner", owner)] ++ opt_attr "name" name ++ opt_attr "prefix" prefix)).

Definition denied : error := StatusErr PermissionDenied (Errorf "key-store request denied by policy" []).

Definition authorize (a : option keyStoreAuthorizer) (clientID action resourceType name prefix : string)
  : result unit :=
  match a ≫= policies with
  | None => Err denied
  | Some pol =>
      let '(entities, req) := cedar_query clientID action resourceType name prefix in
      let '(allow, errors) := Authorize pol entities req in
      if (0 <? length errors)%nat then Err denied
      else if negb allow then Err denied
      else Ok tt
  end.

(** C35: authorization fails closed and stays within one owner: a request passes
    only if a policy set is loaded and Cedar allows it without a diagnostic error,
    every refusal is PermissionDenied, and the resource that Cedar is asked about
    belongs to the owner of the principal, whatever the names in the request. *)
Theorem authorize_fail_closed a clientID action resourceType name prefix :
  let r := authorize a clientID action resourceType name prefix in
  let '(entities, req) := cedar_query clientID action resourceType name prefix in
  (r = Ok tt <-> exists pol, a ≫= policies = Some pol /\ Authorize pol entities req = (true, [])) /\
  (r = Ok tt \/ r = Err denied) /\
  (exists principal resource, entities = [principal; resource] /\
    UID principal = Principal req /\ UID resource = Resource req /\
    assoc_lookup "owner" (Attributes resource) = assoc_lookup "owner" (Attributes principal) /\
    HasPrefix (snd (Resource req)) ("owners/" +:+ snd (Principal req)) = true).
Proof.
  cbv zeta. unfold authorize. destruct (cedar_query _ _ _ _ _) as [entities req] eqn:Hq.
  split; [|split].
  - destruct (a ≫= policies) as [pol|]; [|by split; [|intros (? & ? & _)]].
    destruct (Authorize pol entities req) as [[] [|e es]] eqn:E; cbn.
    + split; [intros _; by exists pol|done].
    + split; [done|]. intros (? & [= <-] & E2). congruence.
    + split; [done|]. intros (? & [= <-] & E2). congruence.
    + split; [done|]. intros (? & [= <-] & E2). congruence.
  - destruct (a ≫= policies) as [pol|]; [|by right].
    destruct (Authorize pol entities req) as [[] [|e es]]; cbn; auto.
  - unfold cedar_query in Hq. injection Hq as <- <-. eexists _, _. split; [reflexivity|]. cbn [UID Principal Resource].
    split_and!; [done..|]. apply HasPrefix_true. unfold keyStoreResourceID. cbn [snd].
    destruct (String.eqb name ""), (String.eqb prefix ""); cbn [negb].
    + exists "". by rewrite append_nil_r.
    + exists ("/" +:+ prefix). by rewrite append_assoc.
    + exists ("/" +:+ name). by rewrite append_assoc.
    + exists ("/" +:+ name). by rewrite append_assoc.
Qed.

End Authorizer.
