(* ===== verification/KmsClient.v ===== *)
(** * The KMS plugin's OpenBao client (pkg/plugin/kms/openbao.go)

    One function per call to the transit, ethereum, pqc and kv engines, with the
    JSON shapes of their requests and responses, and the paths they are sent to. *)

From S2P Require Import Prelude GoStrings Errors Codec Json OpenBao KmsMapping.

Record openBaoClient := mkClient {
  baseURL : string;
  ethereumMount : string;
  keyStoreMount : string;
  kvMount : string;
  pqcMount : string;
  transitMount : string;
}.

(** ** Records and their JSON forms *)

Record pluginTag := mkTag {
  tag_TagKey : string;
  tag_TagValue : string;
}.

Definition pluginTag_fields : list (field pluginTag) :=
  [fld "tag_key" tag_TagKey (fun x r => mkTag x (tag_TagValue r)) dec_string;
   fld "tag_value" tag_TagValue (fun x r => mkTag (tag_TagKey r) x) dec_string].

Definition tag_json (t : option pluginTag) : json :=
  match t with
  | Some t => JObj [("tag_key", JStr (tag_TagKey t)); ("tag_value", JStr (tag_TagValue t))]
  | None => JNull
  end.

Definition dec_tags : decoder (list (option pluginTag)) :=
  dec_list None (dec_ptr (mkTag "" "") (dec_struct pluginTag_fields)).

Record keyMetadataRecord := mkMeta {
  m_KeyID : string;
  m_ClientID : string;
  m_Alias : string;
  m_Scheme : string;
  m_ProviderKey : string;
  m_TransitKey : string;
  m_Description : string;
  m_KeySpec : string;
  m_KeyUsage : string;
  m_Enabled : bool;
  m_PrimaryVersion : Z;
  m_CreatedAt : string;
  m_PublicKey : string;
  m_Address : string;
  m_Tags : list (option pluginTag);
}.

Definition keyMetadataRecord_fields : list (field keyMetadataRecord) :=
  [fld "key_id" m_KeyID (fun x r => mkMeta x (m_ClientID r) (m_Alias r) (m_Scheme r) (m_ProviderKey r)
     (m_TransitKey r) (m_Description r) (m_KeySpec r) (m_KeyUsage r) (m_Enabled r) (m_PrimaryVersion r)
     (m_CreatedAt r) (m_PublicKey r) (m_Address r) (m_Tags r)) dec_string;
   fld "client_id" m_ClientID (fun x r => mkMeta (m_KeyID r) x (m_Alias r) (m_Scheme r) (m_ProviderKey r)
     (m_TransitKey r) (m_Description r) (m_KeySpec r) (m_KeyUsage r) (m_Enabled r) (m_PrimaryVersion r)
     (m_CreatedAt r) (m_PublicKey r) (m_Address r) (m_Tags r)) dec_string;
   fld "alias" m_Alias (fun x r => mkMeta (m_KeyID r) (m_ClientID r) x (m_Scheme r) (m_ProviderKey r)
     (m_TransitKey r) (m_Description r) (m_KeySpec r) (m_KeyUsage r) (m_Enabled r) (m_PrimaryVersion r)
     (m_CreatedAt r) (m_PublicKey r) (m_Address r) (m_Tags r)) dec_string;
   fld "scheme" m_Scheme (fun x r => mkMeta (m_KeyID r) (m_ClientID r) (m_Alias r) x (m_ProviderKey r)
     (m_TransitKey r) (m_Description r) (m_KeySpec r) (m_KeyUsage r) (m_Enabled r) (m_PrimaryVersion r)
     (m_CreatedAt r) (m_PublicKey r) (m_Address r) (m_Tags r)) dec_string;
   fld "provider_key" m_ProviderKey (fun x r => mkMeta (m_KeyID r) (m_ClientID r) (m_Alias r) (m_Scheme r) x
     (m_TransitKey r) (m_Description r) (m_KeySpec r) (m_KeyUsage r) (m_Enabled r) (m_PrimaryVersion r)
     (m_CreatedAt r) (m_PublicKey r) (m_Address r) (m_Tags r)) dec_string;
   fld "transit_key" m_TransitKey (fun x r => mkMeta (m_KeyID r) (m_ClientID r) (m_Alias r) (m_Scheme r)
     (m_ProviderKey r) x (m_Description r) (m_KeySpec r) (m_KeyUsage r) (m_Enabled r) (m_PrimaryVersion r)
     (m_CreatedAt r) (m_PublicKey r) (m_Address r) (m_Tags r)) dec_string;
   fld "description" m_Description (fun x r => mkMeta (m_KeyID r) (m_ClientID r) (m_Alias r) (m_Scheme r)
     (m_ProviderKey r) (m_TransitKey r) x (m_KeySpec r) (m_KeyUsage r) (m_Enabled r) (m_PrimaryVersion r)
     (m_CreatedAt r) (m_PublicKey r) (m_Address r) (m_Tags r)) dec_string;
   fld "key_spec" m_KeySpec (fun x r => mkMeta (m_KeyID r) (m_ClientID r) (m_Alias r) (m_Scheme r)
     (m_ProviderKey r) (m_TransitKey r) (m_Description r) x (m_KeyUsage r) (m_Enabled r) (m_PrimaryVersion r)
     (m_CreatedAt r) (m_PublicKey r) (m_Address r) (m_Tags r)) dec_string;
   fld "key_usage" m_KeyUsage (fun x r => mkMeta (m_KeyID r) (m_ClientID r) (m_Alias r) (m_Scheme r)
     (m_ProviderKey r) (m_TransitKey r) (m_Description r) (m_KeySpec r) x (m_Enabled r) (m_PrimaryVersion r)
     (m_CreatedAt r) (m_PublicKey r) (m_Address r) (m_Tags r)) dec_string;
   fld "enabled" m_Enabled (fun x r => mkMeta (m_KeyID r) (m_ClientID r) (m_Alias r) (m_Scheme r)
     (m_ProviderKey r) (m_TransitKey r) (m_Description r) (m_KeySpec r) (m_KeyUsage r) x (m_PrimaryVersion r)
     (m_CreatedAt r) (m_PublicKey r) (m_Address r) (m_Tags r)) dec_bool;
   fld "primary_version" m_PrimaryVersion (fun x r => mkMeta (m_KeyID r) (m_ClientID r) (m_Alias r)
     (m_Scheme r) (m_ProviderKey r) (m_TransitKey r) (m_Description r) (m_KeySpec r) (m_KeyUsage r) (m_Enabled
     r) x (m_CreatedAt r) (m_PublicKey r) (m_Address r) (m_Tags r)) dec_uint32;
   fld "created_at" m_CreatedAt (fun x r => mkMeta (m_KeyID r) (m_ClientID r) (m_Alias r) (m_Scheme r)
     (m_ProviderKey r) (m_TransitKey r) (m_Description r) (m_KeySpec r) (m_KeyUsage r) (m_Enabled r)
     (m_PrimaryVersion r) x (m_PublicKey r) (m_Address r) (m_Tags r)) dec_string;
   fld "public_key" m_PublicKey (fun x r => mkMeta (m_KeyID r) (m_ClientID r) (m_Alias r) (m_Scheme r)
     (m_ProviderKey r) (m_TransitKey r) (m_Description r) (m_KeySpec r) (m_KeyUsage r) (m_Enabled r)
     (m_PrimaryVersion r) (m_CreatedAt r) x (m_Address r) (m_Tags r)) dec_string;
   fld "address" m_Address (fun x r => mkMeta (m_KeyID r) (m_ClientID r) (m_Alias r) (m_Scheme r)
     (m_ProviderKey r) (m_TransitKey r) (m_Description r) (m_KeySpec r) (m_KeyUsage r) (m_Enabled r)
     (m_PrimaryVersion r) (m_CreatedAt r) (m_PublicKey r) x (m_Tags r)) dec_string;
   fld "tags" m_Tags (fun x r => mkMeta (m_KeyID r) (m_ClientID r) (m_Alias r) (m_Scheme r) (m_ProviderKey
     r) (m_TransitKey r) (m_Description r) (m_KeySpec r) (m_KeyUsage r) (m_Enabled r) (m_PrimaryVersion r)
     (m_CreatedAt r) (m_PublicKey r) (m_Address r) x) dec_tags].

Definition empty_meta : keyMetadataRecord := mkMeta "" "" "" "" "" "" "" "" "" false 0 "" "" "" [].

Definition meta_json (m : keyMetadataRecord) : json :=
  JObj ([("key_id", JStr (m_KeyID m)); ("client_id", JStr (m_ClientID m))] ++
    omitempty "alias" (m_Alias m) ++ [("scheme", JStr (m_Scheme m))] ++
    omitempty "provider_key" (m_ProviderKey m) ++ omitempty "transit_key" (m_TransitKey m) ++
    [("description", JStr (m_Description m)); ("key_spec", JStr (m_KeySpec m));
     ("key_usage", JStr (m_KeyUsage m)); ("enabled", JBool (m_Enabled m));
     ("primary_version", JNum (pretty (m_PrimaryVersion m))); ("created_at", JStr (m_CreatedAt m))] ++
    omitempty "public_key" (m_PublicKey m) ++ omitempty "address" (m_Address m) ++
    [("tags", JArr (map tag_json (m_Tags m)))]).

Record transitKeyInfo := mkTransitInfo {
  t_LatestVersion : Z;
  t_Type : string;
  t_PublicKey : string;
  t_Keys : list (string * json);
}.

Definition transitKeyInfo_fields : list (field transitKeyInfo) :=
  [fld "latest_version" t_LatestVersion (fun x r => mkTransitInfo x (t_Type r) (t_PublicKey r) (t_Keys r))
     dec_uint32;
   fld "type" t_Type (fun x r => mkTransitInfo (t_LatestVersion r) x (t_PublicKey r) (t_Keys r)) dec_string;
   fld "public_key" t_PublicKey (fun x r => mkTransitInfo (t_LatestVersion r) (t_Type r) x (t_Keys r))
     dec_string;
   fld "keys" t_Keys (fun x r => mkTransitInfo (t_LatestVersion r) (t_Type r) (t_PublicKey r) x) dec_raw_map].

Definition empty_transitKeyInfo : transitKeyInfo := mkTransitInfo 0 "" "" [].

Record ethereumKeyInfo := mkEthKey {
  ek_Name : string;
  ek_Address : string;
  ek_PublicKey : string;
  ek_CreatedAt : string;
}.

Definition ethereumKeyInfo_fields : list (field ethereumKeyInfo) :=
  [fld "name" ek_Name (fun x r => mkEthKey x (ek_Address r) (ek_PublicKey r) (ek_CreatedAt r)) dec_string;
   fld "address" ek_Address (fun x r => mkEthKey (ek_Name r) x (ek_PublicKey r) (ek_CreatedAt r)) dec_string;
   fld "public_key" ek_PublicKey (fun x r => mkEthKey (ek_Name r) (ek_Address r) x (ek_CreatedAt r))
     dec_string;
   fld "created_at" ek_CreatedAt (fun x r => mkEthKey (ek_Name r) (ek_Address r) (ek_PublicKey r) x)
     dec_string].

Definition empty_ethereumKeyInfo : ethereumKeyInfo := mkEthKey "" "" "" "".

Record ethereumSignInfo := mkEthSign {
  es_Signature : string;
  es_Hash : string;
  es_Method : string;
  es_Address : string;
}.

Definition ethereumSignInfo_fields : list (field ethereumSignInfo) :=
  [fld "signature" es_Signature (fun x r => mkEthSign x (es_Hash r) (es_Method r) (es_Address r)) dec_string;
   fld "hash" es_Hash (fun x r => mkEthSign (es_Signature r) x (es_Method r) (es_Address r)) dec_string;
   fld "method" es_Method (fun x r => mkEthSign (es_Signature r) (es_Hash r) x (es_Address r)) dec_string;
   fld "address" es_Address (fun x r => mkEthSign (es_Signature r) (es_Hash r) (es_Method r) x) dec_string].

Definition empty_ethereumSignInfo : ethereumSignInfo := mkEthSign "" "" "" "".

Record pqcKeyInfo := mkPqcKey {
  pk_Name : string;
  pk_Version : Z;
  pk_Variant : string;
  pk_PublicKey : string;
  pk_CreatedAt : string;
}.

Definition pqcKeyInfo_fields : list (field pqcKeyInfo) :=
  [fld "name" pk_Name (fun x r => mkPqcKey x (pk_Version r) (pk_Variant r) (pk_PublicKey r) (pk_CreatedAt
     r)) dec_string;
   fld "version" pk_Version (fun x r => mkPqcKey (pk_Name r) x (pk_Variant r) (pk_PublicKey r) (pk_CreatedAt
     r)) dec_uint32;
   fld "variant" pk_Variant (fun x r => mkPqcKey (pk_Name r) (pk_Version r) x (pk_PublicKey r) (pk_CreatedAt
     r)) dec_string;
   fld "public_key" pk_PublicKey (fun x r => mkPqcKey (pk_Name r) (pk_Version r) (pk_Variant r) x
     (pk_CreatedAt r)) dec_string;
   fld "created_at" pk_CreatedAt (fun x r => mkPqcKey (pk_Name r) (pk_Version r) (pk_Variant r)
     (pk_PublicKey r) x) dec_string].

Definition empty_pqcKeyInfo : pqcKeyInfo := mkPqcKey "" 0 "" "" "".

Record pqcSignInfo := mkPqcSign {
  ps_Name : string;
  ps_Variant : string;
  ps_Signature : string;
}.

Definition pqcSignInfo_fields : list (field pqcSignInfo) :=
  [fld "name" ps_Name (fun x r => mkPqcSign x (ps_Variant r) (ps_Signature r)) dec_string;
   fld "variant" ps_Variant (fun x r => mkPqcSign (ps_Name r) x (ps_Signature r)) dec_string;
   fld "signature" ps_Signature (fun x r => mkPqcSign (ps_Name r) (ps_Variant r) x) dec_string].

Definition empty_pqcSignInfo : pqcSignInfo := mkPqcSign "" "" "".

Record pqcDecapsulateInfo := mkPqcDecap {
  pd_Name : string;
  pd_Variant : string;
  pd_SharedKey : string;
}.

Definition pqcDecapsulateInfo_fields : list (field pqcDecapsulateInfo) :=
  [fld "name" pd_Name (fun x r => mkPqcDecap x (pd_Variant r) (pd_SharedKey r)) dec_string;
   fld "variant" pd_Variant (fun x r => mkPqcDecap (pd_Name r) x (pd_SharedKey r)) dec_string;
   fld "shared_key" pd_SharedKey (fun x r => mkPqcDecap (pd_Name r) (pd_Variant r) x) dec_string].

Definition empty_pqcDecapsulateInfo : pqcDecapsulateInfo := mkPqcDecap "" "" "".

(** ** Methods of the records *)

Definition meta_normalize (m : keyMetadataRecord) : keyMetadataRecord :=
  mkMeta (m_KeyID m) (m_ClientID m) (m_Alias m)
    (if String.eqb (m_Scheme m) "" then schemeTransit else m_Scheme m)
    (if String.eqb (m_ProviderKey m) "" then m_TransitKey m else m_ProviderKey m)
    (m_TransitKey m) (m_Description m) (m_KeySpec m) (m_KeyUsage m) (m_Enabled m) (m_PrimaryVersion m)
    (m_CreatedAt m) (m_PublicKey m) (m_Address m) (m_Tags m).

Definition meta_backendKey (m : keyMetadataRecord) : string :=
  if String.eqb (m_ProviderKey m) "" then m_TransitKey m else m_ProviderKey m.

(** A missing map entry is a [RawMessage] of length 0. *)
Definition transitVersionPublicKey (raw : option json) : string :=
  match raw with
  | None => ""
  | Some v => match dec_struct [fld "public_key" id (fun x _ => x) dec_string] v "" with
              | Ok s => s
              | Err _ => ""
              end
  end.

(** The loop over [t.Keys]: the order of the list is the order in which the
    runtime iterates over the map. *)
Definition latest_step (acc : Z * string) (kv : string * json) : Z * string :=
  let publicKey := transitVersionPublicKey (Some kv.2) in
  if String.eqb publicKey "" then acc
  else match Atoi kv.1 with
       | None => acc
       | Some versionNum => if fst acc <? versionNum then (versionNum, publicKey) else acc
       end.

Definition exportedPublicKey (t : transitKeyInfo) : string :=
  if negb (String.eqb (t_PublicKey t) "") then t_PublicKey t
  else if (length (t_Keys t) =? 0)%nat then ""
  else
    let pinned := if negb (t_LatestVersion t =? 0)
                  then transitVersionPublicKey (assoc_lookup (pretty (t_LatestVersion t)) (t_Keys t)) else "" in
    if negb (String.eqb pinned "") then pinned
    else snd (fold_left latest_step (t_Keys t) (-1, "")).

Definition publicKeyForVersion (t : transitKeyInfo) (version : Z) : string :=
  if version =? 0 then ""
  else if (version =? t_LatestVersion t) && negb (String.eqb (t_PublicKey t) "") then t_PublicKey t
  else if (length (t_Keys t) =? 0)%nat then ""
  else transitVersionPublicKey (assoc_lookup (pretty version) (t_Keys t)).

(** ** Paths *)

Fixpoint before (x : ascii) (s : string) : string :=
  match s with
  | "" => ""
  | String c s => if Ascii.eqb c x then "" else String c (before x s)
  end.

Fixpoint from_slash (s : string) : string :=
  match s with
  | "" => ""
  | String c s' => if Ascii.eqb c slash then s else from_slash s'
  end.

Fixpoint after_scheme (s : string) : option string :=
  match s with
  | "" => None
  | String _ s' => if HasPrefix s "://" then Some (drop_chars 3 s) else after_scheme s'
  end.

(** The [Path] of [url.Parse]: what follows the authority, up to the query and
    the fragment. Percent-escapes in the configured URL are not decoded. *)
Definition url_Path (u : string) : string :=
  let u := before "?" (before "#" u) in
  match after_scheme u with Some rest => from_slash rest | None => u end.

(** [u.String()] puts a slash between a host and a path that has none. *)
Definition rooted (p : string) : string := if HasPrefix p "/" then p else "/" +:+ p.

Definition path_unescaped (c : ascii) : bool :=
  alnum c || existsb (Ascii.eqb c) ["-"; "_"; "."; "~"; "$"; "&"; "+"; ":"; "="; "@"]%char.

(** [url.PathEscape] *)
Fixpoint PathEscape (s : string) : string :=
  match s with
  | "" => ""
  | String c s =>
      if path_unescaped c then String c (PathEscape s)
      else String "%" (String (hex_upper (byte_of c / 16)) (String (hex_upper (byte_of c mod 16)) (PathEscape s)))
  end.

Definition newOpenBaoClient (cfg : option kmsConfig) : openBaoClient :=
  let cfg := withKMSConfigDefaults cfg in
  mkClient (TrimRightChar slash (OpenBaoProxyURL cfg)) (cfg_EthereumMount cfg) (cfg_KeyStoreMount cfg)
    (cfg_KVMount cfg) (cfg_PQCMount cfg) (cfg_TransitMount cfg).

Definition joinPath (c : openBaoClient) (parts : list string) : string :=
  rooted (path_Join (url_Path (baseURL c) :: map (TrimChar slash) parts)).

Definition kvPath (c : openBaoClient) (parts : list string) : string :=
  joinPath c (["v1"; kvMount c; "data"] ++ parts).

Definition transitPath (c : openBaoClient) (parts : list string) : string :=
  joinPath c (["v1"; transitMount c] ++ parts).

Definition ethereumPath (c : openBaoClient) (parts : list string) : string :=
  joinPath c (["v1"; ethereumMount c] ++ parts).

Definition pqcPath (c : openBaoClient) (parts : list string) : string :=
  joinPath c (["v1"; pqcMount c] ++ parts).

Definition metadataPath (c : openBaoClient) (clientID keyID : string) : string :=
  kvPath c ["kms"; "metadata"; tenantNamespace clientID; PathEscape keyID].

(** ** Calls *)

(** [struct { Data T `json:"data"` }] *)
Definition data_of {R} (d : decoder R) : decoder R := dec_struct [fld "data" id (fun x _ => x) d].

(** A struct of one string. *)
Definition one_string (name : string) : decoder string := dec_struct [fld name id (fun x _ => x) dec_string].

Section Calls.
Context {W : Type} `{Backend W} (c : openBaoClient).

Definition readTransitKey (name : string) : M W transitKeyInfo :=
  Get (transitPath c ["keys"; name]) (data_of (dec_struct transitKeyInfo_fields)) empty_transitKeyInfo.

Definition createTransitKey (name keyType : string) : M W transitKeyInfo :=
  _ ← Post_nil (transitPath c ["keys"; name]) (JObj [("type", JStr keyType)]);
  readTransitKey name.

Definition encrypt (transitKey plaintext : string) : M W string :=
  Post (transitPath c ["encrypt"; transitKey]) (JObj [("plaintext", JStr plaintext)])
    (data_of (one_string "ciphertext")) "".

Definition decrypt (transitKey ciphertext : string) : M W string :=
  Post (transitPath c ["decrypt"; transitKey]) (JObj [("ciphertext", JStr ciphertext)])
    (data_of (one_string "plaintext")) "".

(** A Go map is marshalled with its keys in order. *)
Definition sign_body (message : string) (mapping : signMapping) (keyVersion : Z) : json :=
  JObj ([("input", JStr message)] ++
    (if keyVersion =? 0 then [] else [("key_version", JNum (pretty keyVersion))]) ++
    [("prehashed", JBool (prehashed mapping))] ++
    omitempty "signature_algorithm" (signatureAlgorithm mapping)).

Definition sign (transitKey message : string) (mapping : signMapping) (keyVersion : Z) : M W string :=
  Post (transitPath c ["sign"; transitKey; pathAlgorithm mapping]) (sign_body message mapping keyVersion)
    (data_of (one_string "signature")) "".

Definition generateDataKey (transitKey : string) (bits : Z) : M W (string * string) :=
  Post (transitPath c ["datakey"; "plaintext"; transitKey]) (JObj [("bits", JNum (pretty bits))])
    (data_of (dec_struct [fld "plaintext" fst (fun x r => (x, snd r)) dec_string;
                          fld "ciphertext" snd (fun x r => (fst r, x)) dec_string])) ("", "").

Definition rotateTransitKey (transitKey : string) : M W transitKeyInfo :=
  _ ← Post_nil (transitPath c ["keys"; transitKey; "rotate"]) (JObj []);
  readTransitKey transitKey.

Definition createEthereumKey (name : string) : M W ethereumKeyInfo :=
  Post (ethereumPath c ["keys"; name]) (JObj []) (data_of (dec_struct ethereumKeyInfo_fields)) empty_ethereumKeyInfo.

Definition signEthereum (keyName : string) (body : json) : M W ethereumSignInfo :=
  Post (ethereumPath c ["sign"; keyName]) body (data_of (dec_struct ethereumSignInfo_fields)) empty_ethereumSignInfo.

Definition signEthereumHash (keyName hash : string) : M W ethereumSignInfo :=
  signEthereum keyName (JObj [("hash", JStr hash)]).

Definition signEthereumMessage (keyName message : string) : M W ethereumSignInfo :=
  signEthereum keyName (JObj [("message", JStr message)]).

Definition createPQCKey (name variant : string) : M W pqcKeyInfo :=
  Post (pqcPath c ["mldsa"; "keys"; name]) (JObj [("variant", JStr variant)])
    (data_of (dec_struct pqcKeyInfo_fields)) empty_pqcKeyInfo.

Definition createPQCKEMKey (name variant : string) : M W pqcKeyInfo :=
  Post (pqcPath c ["mlkem"; "keys"; name]) (JObj [("variant", JStr variant)])
    (data_of (dec_struct pqcKeyInfo_fields)) empty_pqcKeyInfo.

Definition signPQC (keyName message : string) : M W pqcSignInfo :=
  Post (pqcPath c ["mldsa"; "sign"; keyName]) (JObj [("message", JStr message)])
    (data_of (dec_struct pqcSignInfo_fields)) empty_pqcSignInfo.

Definition decapsulatePQC (keyName ciphertext : string) : M W pqcDecapsulateInfo :=
  Post (pqcPath c ["mlkem"; "decapsulate"; keyName]) (JObj [("ciphertext", JStr ciphertext)])
    (data_of (dec_struct pqcDecapsulateInfo_fields)) empty_pqcDecapsulateInfo.

Definition putMetadata (clientID keyID : string) (metadata : keyMetadataRecord) : M W unit :=
  Post_nil (metadataPath c clientID keyID) (JObj [("data", meta_json metadata)]).

Definition getMetadata (clientID keyID : string) : M W keyMetadataRecord :=
  record ← Get (metadataPath c clientID keyID)
             (data_of (data_of (dec_struct keyMetadataRecord_fields))) empty_meta;
  let record := meta_normalize record in
  if negb (String.eqb (m_ClientID record) "") && negb (String.eqb (m_ClientID record) clientID)
  then throw (Errorf "metadata owner does not match request owner" [])
  else mret record.

End Calls.

(** ** Stored metadata reads back *)

Definition tag_clean (t : option pluginTag) : option pluginTag :=
  (fun t => mkTag (sanitize (tag_TagKey t)) (sanitize (tag_TagValue t))) <$> t.

(** What writing a record and reading it back does to its texts. *)
Definition meta_clean (m : keyMetadataRecord) : keyMetadataRecord :=
  mkMeta (sanitize (m_KeyID m)) (sanitize (m_ClientID m)) (sanitize (m_Alias m)) (sanitize (m_Scheme m))
    (sanitize (m_ProviderKey m)) (sanitize (m_TransitKey m)) (sanitize (m_Description m))
    (sanitize (m_KeySpec m)) (sanitize (m_KeyUsage m)) (m_Enabled m) (m_PrimaryVersion m)
    (sanitize (m_CreatedAt m)) (sanitize (m_PublicKey m)) (sanitize (m_Address m)) (map tag_clean (m_Tags m)).

Lemma dec_tags_json l r : dec_tags (clean (JArr (map tag_json l))) r = Ok (map tag_clean l).
Proof.
  unfold dec_tags, dec_list. cbn [clean]. induction l as [|t l IH]; [done|].
  cbn [map all_ok]. destruct t as [t|].
  - cbn -[sanitize all_ok]. rewrite IH. done.
  - cbn -[all_ok]. rewrite IH. done.
Qed.

(** Decoding a list of members one at a time. *)
Lemma dec_step {R} (fs : list (field R)) f k v l r r' :
  find_field fs (sanitize k) = Some f -> field_dec f (clean v) r = Ok r' ->
  dec_members fs (map clean_member ((k, v) :: l)) r = dec_members fs (map clean_member l) r'.
Proof. intros Hf Hd. cbn [map clean_member fst snd dec_members]. by rewrite Hf, Hd. Qed.

Lemma dec_opt_step {R} (fs : list (field R)) f k s l r r' :
  find_field fs (sanitize k) = Some f -> field_dec f (JStr (sanitize s)) r = Ok r' -> (s = "" -> r = r') ->
  dec_members fs (map clean_member (omitempty k s ++ l)) r = dec_members fs (map clean_member l) r'.
Proof.
  intros Hf Hd He. unfold omitempty. destruct (String.eqb_spec s "") as [->|].
  - by rewrite <- He.
  - cbn [app]. by erewrite dec_step.
Qed.

Ltac dec_walk := repeat
  match goal with
  | |- dec_members _ (map clean_member (omitempty _ _ ++ _)) _ = _ =>
      erewrite dec_opt_step; [|reflexivity|cbn -[sanitize]; reflexivity|by intros ->]
  | |- dec_members _ (map clean_member ((_, JStr _) :: _)) _ = _ =>
      erewrite dec_step; [|reflexivity|cbn -[sanitize]; reflexivity]
  | |- dec_members _ (map clean_member ((_, JBool _) :: _)) _ = _ =>
      erewrite dec_step; [|reflexivity|cbn; reflexivity]
  end.

Lemma meta_json_decode m : is_u32 (m_PrimaryVersion m) ->
  dec_struct keyMetadataRecord_fields (clean (meta_json m)) empty_meta = Ok (meta_clean m).
Proof.
  intros Hv. destruct m as [a b c d e f g h i j k l n o p]. cbn [m_PrimaryVersion] in Hv.
  unfold meta_json. cbn [clean dec_struct].
  change (fun kv : string * json => (sanitize kv.1, clean kv.2)) with clean_member.
  cbn [m_KeyID m_ClientID m_Alias m_Scheme m_ProviderKey m_TransitKey m_Description m_KeySpec m_KeyUsage
    m_Enabled m_PrimaryVersion m_CreatedAt m_PublicKey m_Address m_Tags app].
  dec_walk. erewrite dec_step; [|reflexivity|cbn -[dec_uint32 pretty]; by rewrite dec_uint32_num].
  dec_walk. erewrite dec_step; [|reflexivity|cbn -[dec_tags clean]; by rewrite dec_tags_json]. done.
Qed.

Lemma Forall_wf_omitempty k s : Forall (fun kv => wf_json kv.2) (omitempty k s).
Proof. unfold omitempty. destruct (String.eqb s ""); repeat constructor. Qed.

Lemma meta_json_wf m : is_u32 (m_PrimaryVersion m) -> wf_json (meta_json m).
Proof.
  intros Hv. unfold meta_json. cbn [wf_json]. apply Forall_id_map.
  repeat first [apply Forall_app_2; [apply Forall_wf_omitempty|]
               |apply Forall_cons; split; [|]|constructor|progress cbn [app snd wf_json]].
  - exists (m_PrimaryVersion m). unfold is_u32 in Hv. split; [lia|done].
  - apply Forall_id_map, Forall_map, Forall_true. intros [t|]; [|done]. by repeat constructor.
Qed.

Lemma max_height_le (l : list nat) n : Forall (fun h => (h <= n)%nat) l -> (fold_right max 0 l <= n)%nat.
Proof. induction 1; cbn; lia. Qed.

Lemma meta_json_height m : (height (meta_json m) <= 3)%nat.
Proof.
  unfold meta_json. cbn [height]. apply le_n_S, max_height_le, Forall_map.
  assert (forall k s, Forall (fun kv : string * json => (height kv.2 <= 2)%nat) (omitempty k s)) as Ho.
  { intros k s. unfold omitempty. destruct (String.eqb s ""); repeat constructor. }
  repeat first [apply Forall_app_2; [apply Ho|]
               |apply Forall_cons; split; [cbn; lia|]|progress cbn [app]].
  apply Forall_cons; split; [|constructor]. cbn [snd height]. apply le_n_S, max_height_le, Forall_map, Forall_map, Forall_true.
  intros [t|]; cbn; lia.
Qed.

(** The body of a metadata write. *)
Lemma parse_metadata m : is_u32 (m_PrimaryVersion m) ->
  parse (print (JObj [("data", meta_json m)])) = Some (JObj [("data", clean (meta_json m))]).
Proof.
  intros Hv. rewrite parse_print; [done| |].
  - apply Forall_id_map, Forall_singleton. by apply meta_json_wf.
  - cbn [height map fold_right snd]. pose proof (meta_json_height m). unfold maxNestingDepth. lia.
Qed.
