(* ===== verification/KmsProviders.v ===== *)
(** * The KMS providers (pkg/plugin/kms: provider.go, provider_capabilities.go,
    public_key.go, transit_provider.go, ethereum_provider.go, pqc_provider.go)

    A provider is the table of the operations its Go type implements; a type
    assertion [provider.(signProvider)] looks an optional table up. The hash of
    golang.org/x/crypto/sha3 and the randomized ML-KEM encapsulation are
    parameters ([Crypto]). *)

From S2P Require Import Prelude GoStrings Errors Codec Json OpenBao GoTime KmsMapping KmsClient.

(** ** Messages (proto/plugins/kms.proto) *)

Record EncryptRequest := mkEncryptRequest {
  enc_KeyId : string; enc_Plaintext : string; enc_EncryptionAlgorithm : option string; enc_ClientId : string }.
Record EncryptResponse := mkEncryptResponse {
  encr_CiphertextBlob : string; encr_KeyId : string; encr_EncryptionAlgorithm : string }.
Record DecryptRequest := mkDecryptRequest {
  dec_CiphertextBlob : string; dec_KeyId : option string; dec_EncryptionAlgorithm : option string; dec_ClientId : string }.
Record DecryptResponse := mkDecryptResponse {
  decr_Plaintext : string; decr_KeyId : string; decr_EncryptionAlgorithm : string }.
Record SignRequest := mkSignRequest {
  sig_KeyId : string; sig_Message : string; sig_SigningAlgorithm : string;
  sig_MessageType : option string; sig_ClientId : string }.
Record SignResponse := mkSignResponse {
  sigr_KeyId : string; sigr_Signature : string; sigr_SigningAlgorithm : string; sigr_KeyVersion : Z }.
Record EncapsulateRequest := mkEncapsulateRequest { encap_KeyId : string; encap_ClientId : string }.
Record EncapsulateResponse := mkEncapsulateResponse {
  encapr_KeyId : string; encapr_Ciphertext : string; encapr_SharedKey : string; encapr_KeyAgreementAlgorithm : string }.
Record DecapsulateRequest := mkDecapsulateRequest {
  decap_KeyId : string; decap_Ciphertext : string; decap_ClientId : string }.
Record DecapsulateResponse := mkDecapsulateResponse {
  decapr_KeyId : string; decapr_KeyAgreementAlgorithm : string; decapr_SharedKey : string }.
Record Tag := mkProtoTag { TagKey : string; TagValue : string }.
Record CreateKeyRequest := mkCreateKeyRequest {
  ck_Description : string; ck_KeySpec : string; ck_KeyUsage : string; ck_Tags : list Tag;
  ck_Scheme : option string; ck_ClientId : string; ck_Alias : string }.
Record GenerateDataKeyRequest := mkGenerateDataKeyRequest {
  gdk_KeyId : string; gdk_DataKeySpec : option string; gdk_NumberOfBytes : option Z; gdk_ClientId : string }.
Record GenerateDataKeyResponse := mkGenerateDataKeyResponse {
  gdkr_KeyId : string; gdkr_Plaintext : string; gdkr_CiphertextBlob : string }.
Record publicKeyRecord := mkPublicKeyRecord { pub_PublicKey : string; pub_Version : Z }.

Definition optionalString (value : option string) : string := default "" value.
Definition optionalUint32 (value : option Z) : Z := default 0 value.

Definition toRecordTags (tags : list Tag) : list (option pluginTag) :=
  map (fun tag => Some (mkTag (TagKey tag) (TagValue tag))) tags.

(** ** Parameters *)

Class Crypto := {
  (** [sha3.NewLegacyKeccak256] *)
  keccak256 : list Z -> list Z;
  (** [NewEncapsulationKeyN] followed by [Encapsulate]: the shared key and the
      ciphertext, or the error of parsing the key. *)
  encapsulate768 : list Z -> result (list Z * list Z);
  encapsulate1024 : list Z -> result (list Z * list Z);
}.

Definition EncapsulationKeySize768 : nat := 1184.
Definition EncapsulationKeySize1024 : nat := 1568.

(** ** provider.go *)

Section Interfaces.
Context (W : Type).

Record cipherProvider := mkCipherProvider {
  Encrypt : keyMetadataRecord -> EncryptRequest -> M W EncryptResponse;
  Decrypt : ciphertextBlob -> DecryptRequest -> M W DecryptResponse;
}.
Definition signProvider := keyMetadataRecord -> SignRequest -> M W SignResponse.
Definition publicKeyProvider := keyMetadataRecord -> Z -> M W publicKeyRecord.
Record keyAgreementProvider := mkKeyAgreementProvider {
  Encapsulate : keyMetadataRecord -> EncapsulateRequest -> M W EncapsulateResponse;
  Decapsulate : keyMetadataRecord -> DecapsulateRequest -> M W DecapsulateResponse;
}.
Definition dataKeyProvider := keyMetadataRecord -> GenerateDataKeyRequest -> M W GenerateDataKeyResponse.
Definition rotateKeyProvider := keyMetadataRecord -> M W keyMetadataRecord.

Record kmsProvider := mkProvider {
  CreateKey : CreateKeyRequest -> string -> Z -> M W keyMetadataRecord;
  as_cipher : option cipherProvider;
  as_sign : option signProvider;
  as_publicKey : option publicKeyProvider;
  as_keyAgreement : option keyAgreementProvider;
  as_dataKey : option dataKeyProvider;
  as_rotate : option rotateKeyProvider;
}.
End Interfaces.
Arguments Encrypt {W} c.
Arguments Decrypt {W} c.
Arguments Encapsulate {W} k.
Arguments Decapsulate {W} k.
Arguments CreateKey {W} k.
Arguments as_cipher {W} k.
Arguments as_sign {W} k.
Arguments as_publicKey {W} k.
Arguments as_keyAgreement {W} k.
Arguments as_dataKey {W} k.
Arguments as_rotate {W} k.

(** ** provider_capabilities.go *)

Definition require {A} (t : option A) (c : code) (fmt : string) (args : list string) : result A :=
  match t with Some t => Ok t | None => Err (StatusErr c (Errorf fmt args)) end.

Section Capabilities.
Context {W : Type} (provider : kmsProvider W).

Definition requireCipherProvider (scheme operation : string) : result (cipherProvider W) :=
  require (as_cipher provider) FailedPrecondition "%s keys do not support %s" [scheme; operation].
Definition requireSignProvider (scheme : string) : result (signProvider W) :=
  require (as_sign provider) FailedPrecondition "%s keys do not support signing" [scheme].
Definition requirePublicKeyProvider (scheme : string) : result (publicKeyProvider W) :=
  require (as_publicKey provider) FailedPrecondition "%s keys do not have public keys" [scheme].
Definition requireKeyAgreementProvider (scheme : string) : result (keyAgreementProvider W) :=
  require (as_keyAgreement provider) FailedPrecondition "%s keys do not support key agreement" [scheme].
Definition requireDataKeyProvider (scheme : string) : result (dataKeyProvider W) :=
  require (as_dataKey provider) FailedPrecondition "%s keys do not support data key generation" [scheme].
Definition requireRotateKeyProvider (scheme : string) : result (rotateKeyProvider W) :=
  require (as_rotate provider) Unimplemented "%s key rotation is not implemented" [scheme].
End Capabilities.

(** ** public_key.go *)

Definition publicKeyFromMetadata {W} (metadata : keyMetadataRecord) (version : Z) : M W publicKeyRecord :=
  _ ← guard_err (String.eqb (m_PublicKey metadata) "")
        (StatusErr FailedPrecondition (Errorf "key does not have a public key" []));
  let version := if version =? 0 then m_PrimaryVersion metadata else version in
  _ ← guard_err (negb (version =? m_PrimaryVersion metadata))
        (StatusErr NotFound (Errorf "public key version not found" []));
  mret (mkPublicKeyRecord (m_PublicKey metadata) version).

(** ** transit_provider.go *)

Section Transit.
Context {W : Type} `{Backend W} (client : openBaoClient).

Definition transit_CreateKey (req : CreateKeyRequest) (keyID : string) (now : Z) : M W keyMetadataRecord :=
  _ ← as_status InvalidArgument (lift (validateTransitKeyUsage (ck_KeySpec req) (ck_KeyUsage req)));
  _ ← as_status InvalidArgument (lift (validateTransitKeySpec (ck_KeySpec req)));
  keyType ← as_status InvalidArgument (lift (transitKeyType (ck_KeySpec req)));
  providerKey ← as_status Internal (lift (scopedBackendKey (ck_ClientId req) (ck_Alias req)));
  transitInfo ← as_status Internal (createTransitKey client providerKey keyType);
  mret (mkMeta keyID (ck_ClientId req) (ck_Alias req) schemeTransit providerKey "" (ck_Description req)
    (ck_KeySpec req) (ck_KeyUsage req) true (t_LatestVersion transitInfo) (FormatRFC3339 now)
    (exportedPublicKey transitInfo) "" (toRecordTags (ck_Tags req))).

Definition transit_Encrypt (metadata : keyMetadataRecord) (req : EncryptRequest) : M W EncryptResponse :=
  algorithm ← as_status InvalidArgument
    (lift (normalizeEncryptionAlgorithm (optionalString (enc_EncryptionAlgorithm req))));
  _ ← guard_err (negb (supportsEncryption (m_KeySpec metadata))
                 || negb (String.eqb (m_KeyUsage metadata) encryptDecryptUsage))
        (StatusErr FailedPrecondition (Errorf "key does not support encryption" []));
  ciphertext ← as_status Internal (encrypt client (meta_backendKey metadata) (enc_Plaintext req));
  blob ← as_status Internal (lift (encodeCiphertextBlob (m_Scheme metadata) (m_KeyID metadata)
           (meta_backendKey metadata) ciphertext algorithm));
  mret (mkEncryptResponse blob (m_KeyID metadata) algorithm).

Definition transit_Decrypt (blob : ciphertextBlob) (_ : DecryptRequest) : M W DecryptResponse :=
  plaintext ← as_status Internal (decrypt client (blob_backendKey blob) (blob_Ciphertext blob));
  mret (mkDecryptResponse plaintext (blob_KeyID blob) (blob_Algorithm blob)).

Definition transit_Sign (metadata : keyMetadataRecord) (req : SignRequest) : M W SignResponse :=
  mapping ← as_status InvalidArgument
    (lift (signingConfig (sig_SigningAlgorithm req) (optionalString (sig_MessageType req))));
  _ ← guard_err (negb (supportsSigning (m_KeySpec metadata))
                 || negb (String.eqb (m_KeyUsage metadata) signVerifyUsage))
        (StatusErr FailedPrecondition (Errorf "key does not support signing" []));
  signature ← as_status Internal
    (sign client (meta_backendKey metadata) (sig_Message req) mapping (m_PrimaryVersion metadata));
  mret (mkSignResponse (m_KeyID metadata) signature (sig_SigningAlgorithm req) 0).

Definition transit_GetPublicKey (metadata : keyMetadataRecord) (version : Z) : M W publicKeyRecord :=
  _ ← guard_err (negb (supportsSigning (m_KeySpec metadata))
                 || negb (String.eqb (m_KeyUsage metadata) signVerifyUsage))
        (StatusErr FailedPrecondition (Errorf "key does not have a public key" []));
  transitInfo ← as_status Internal (readTransitKey client (meta_backendKey metadata));
  let version := if version =? 0 then m_PrimaryVersion metadata else version in
  let publicKey := publicKeyForVersion transitInfo version in
  _ ← guard_err (String.eqb publicKey "") (StatusErr NotFound (Errorf "public key version not found" []));
  mret (mkPublicKeyRecord publicKey version).

Definition transit_GenerateDataKey (metadata : keyMetadataRecord) (req : GenerateDataKeyRequest)
  : M W GenerateDataKeyResponse :=
  _ ← guard_err (negb (supportsEncryption (m_KeySpec metadata))
                 || negb (String.eqb (m_KeyUsage metadata) encryptDecryptUsage))
        (StatusErr FailedPrecondition (Errorf "key does not support data key generation" []));
  bits ← as_status InvalidArgument
    (lift (dataKeyBits (optionalString (gdk_DataKeySpec req)) (optionalUint32 (gdk_NumberOfBytes req))));
  '(plaintext, ciphertext) ← as_status Internal (generateDataKey client (meta_backendKey metadata) bits);
  blob ← as_status Internal (lift (encodeCiphertextBlob (m_Scheme metadata) (m_KeyID metadata)
           (meta_backendKey metadata) ciphertext encryptionAlgorithmAES256GCM96));
  mret (mkGenerateDataKeyResponse (m_KeyID metadata) plaintext blob).

Definition transit_RotateKey (metadata : keyMetadataRecord) : M W keyMetadataRecord :=
  transitInfo ← as_status Internal (rotateTransitKey client (meta_backendKey metadata));
  mret (mkMeta (m_KeyID metadata) (m_ClientID metadata) (m_Alias metadata) (m_Scheme metadata)
    (m_ProviderKey metadata) (m_TransitKey metadata) (m_Description metadata) (m_KeySpec metadata)
    (m_KeyUsage metadata) (m_Enabled metadata) (t_LatestVersion transitInfo) (m_CreatedAt metadata)
    (exportedPublicKey transitInfo) (m_Address metadata) (m_Tags metadata)).

Definition newTransitProvider : kmsProvider W :=
  {| CreateKey := transit_CreateKey;
     as_cipher := Some (mkCipherProvider W transit_Encrypt transit_Decrypt);
     as_sign := Some transit_Sign;
     as_publicKey := Some transit_GetPublicKey;
     as_keyAgreement := None;
     as_dataKey := Some transit_GenerateDataKey;
     as_rotate := Some transit_RotateKey |}.

End Transit.

(** ** ethereum_provider.go *)

Section Ethereum.
Context {W : Type} `{Backend W} `{Crypto} (client : openBaoClient).

Definition rawEthereumHash (message : string) : result string :=
  match Base64.DecodeString message with
  | Err _ => Err (Errorf "ETHEREUM RAW messages must be base64-encoded bytes" [])
  | Ok rawBytes => Ok ("0x" +:+ Hex.EncodeToString (keccak256 rawBytes))
  end.

Definition normalizeEthereumDigest (message : string) : result string :=
  let decoded := if HasPrefix message "0x" || HasPrefix message "0X"
                 then Hex.DecodeString (drop_chars 2 message)
                 else Base64.DecodeString message in
  match decoded with
  | Err _ => Err (Errorf "ETHEREUM DIGEST messages must be base64-encoded bytes or 0x-prefixed hex" [])
  | Ok rawBytes =>
      if negb (length rawBytes =? 32)%nat
      then Err (Errorf "ETHEREUM DIGEST messages must be exactly 32 bytes" [])
      else Ok ("0x" +:+ Hex.EncodeToString rawBytes)
  end.

Definition validateEthereumHashSignResponse (signResp : option ethereumSignInfo)
  (expectedHash expectedMethod : string) : result unit :=
  match signResp with
  | None => Err (Errorf "ethereum signing response missing data" [])
  | Some signResp =>
      _ ← reject (negb (String.eqb (es_Hash signResp) expectedHash))
            (Errorf "ethereum signing response hash mismatch" []);
      reject (negb (String.eqb (es_Method signResp) expectedMethod))
        (Errorf "ethereum signing response method mismatch" [])
  end.

Definition ethereum_CreateKey (req : CreateKeyRequest) (keyID : string) (now : Z) : M W keyMetadataRecord :=
  _ ← as_status InvalidArgument (lift (validateEthereumKeyUsage (ck_KeySpec req) (ck_KeyUsage req)));
  providerKey ← as_status Internal (lift (scopedBackendKey (ck_ClientId req) (ck_Alias req)));
  keyInfo ← as_status Internal (createEthereumKey client providerKey);
  let createdAt := if String.eqb (ek_CreatedAt keyInfo) "" then FormatRFC3339 now else ek_CreatedAt keyInfo in
  mret (mkMeta keyID (ck_ClientId req) (ck_Alias req) schemeEthereum providerKey "" (ck_Description req)
    (ck_KeySpec req) (ck_KeyUsage req) true 1 createdAt (ek_PublicKey keyInfo) (ek_Address keyInfo)
    (toRecordTags (ck_Tags req))).

(** The three branches of the switch on the message type: the response, and the
    hash it has to echo. *)
Definition ethereum_sign_call (metadata : keyMetadataRecord) (req : SignRequest)
  : M W (ethereumSignInfo * option string) :=
  let messageType := optionalString (sig_MessageType req) in
  if String.eqb messageType "" || String.eqb messageType messageTypeRaw then
    hashHex ← as_status InvalidArgument (lift (rawEthereumHash (sig_Message req)));
    signResp ← as_status Internal (signEthereumHash client (meta_backendKey metadata) hashHex);
    mret (signResp, Some hashHex)
  else if String.eqb messageType messageTypeEIP191 then
    signResp ← as_status Internal (signEthereumMessage client (meta_backendKey metadata) (sig_Message req));
    mret (signResp, None)
  else if String.eqb messageType messageTypeDigest then
    hashHex ← as_status InvalidArgument (lift (normalizeEthereumDigest (sig_Message req)));
    signResp ← as_status Internal (signEthereumHash client (meta_backendKey metadata) hashHex);
    mret (signResp, Some hashHex)
  else throw (StatusErr InvalidArgument (Errorf "ETHEREUM keys support MessageType EIP191, RAW, or DIGEST" [])).

Definition ethereum_Sign (metadata : keyMetadataRecord) (req : SignRequest) : M W SignResponse :=
  _ ← guard_err (negb (String.eqb (m_KeySpec metadata) keySpecECCSecgP256K1)
                 || negb (String.eqb (m_KeyUsage metadata) signVerifyUsage))
        (StatusErr FailedPrecondition (Errorf "key does not support ethereum signing" []));
  _ ← guard_err (negb (String.eqb (sig_SigningAlgorithm req) signingAlgorithmEthereumSecp256k1))
        (StatusErr InvalidArgument (Errorf "ETHEREUM keys require SigningAlgorithm ETHEREUM_SECP256K1" []));
  '(signResp, expectedHash) ← ethereum_sign_call metadata req;
  _ ← as_status Internal (lift
        (match expectedHash with
         | Some h => validateEthereumHashSignResponse (Some signResp) h ethereumSignMethodRawHash
         | None => Ok tt
         end));
  mret (mkSignResponse (m_KeyID metadata) (es_Signature signResp) (sig_SigningAlgorithm req) 0).

Definition ethereum_GetPublicKey (metadata : keyMetadataRecord) (version : Z) : M W publicKeyRecord :=
  publicKeyFromMetadata metadata version.

Definition newEthereumProvider : kmsProvider W :=
  {| CreateKey := ethereum_CreateKey;
     as_cipher := None;
     as_sign := Some ethereum_Sign;
     as_publicKey := Some ethereum_GetPublicKey;
     as_keyAgreement := None;
     as_dataKey := None;
     as_rotate := None |}.

End Ethereum.

(** ** pqc_provider.go *)

Section Pqc.
Context {W : Type} `{Backend W} `{Crypto} (client : openBaoClient).

Definition internal {A} (b : bool) (fmt : string) (args : list string) (k : M W A) : M W A :=
  if b then throw (StatusErr Internal (Errorf fmt args)) else k.

Definition createPQCKeyFor (providerKey keySpec : string) : M W (pqcKeyInfo * string) :=
  if isPQCSigningKey keySpec then
    variant ← as_status InvalidArgument (lift (pqcMLDSAVariant keySpec));
    keyInfo ← as_status Internal (createPQCKey client providerKey variant);
    mret (keyInfo, variant)
  else if isPQCKEMKey keySpec then
    variant ← as_status InvalidArgument (lift (pqcMLKEMVariant keySpec));
    keyInfo ← as_status Internal (createPQCKEMKey client providerKey variant);
    mret (keyInfo, variant)
  else throw (StatusErr InvalidArgument (Errorf "unsupported PQC KeySpec %q" [keySpec])).

Definition pqc_CreateKey (req : CreateKeyRequest) (keyID : string) (now : Z) : M W keyMetadataRecord :=
  _ ← as_status InvalidArgument (lift (validatePQCKeyUsage (ck_KeySpec req) (ck_KeyUsage req)));
  providerKey ← as_status Internal (lift (scopedBackendKey (ck_ClientId req) (ck_Alias req)));
  '(keyInfo, variant) ← createPQCKeyFor providerKey (ck_KeySpec req);
  internal (negb (String.eqb (pk_Variant keyInfo) "") && negb (String.eqb (pk_Variant keyInfo) variant))
    "PQC key response variant mismatch" [] (
  let createdAt := if String.eqb (pk_CreatedAt keyInfo) "" then FormatRFC3339 now else pk_CreatedAt keyInfo in
  let version := if pk_Version keyInfo =? 0 then 1 else pk_Version keyInfo in
  mret (mkMeta keyID (ck_ClientId req) (ck_Alias req) schemePQC providerKey "" (ck_Description req)
    (ck_KeySpec req) (ck_KeyUsage req) true version createdAt (pk_PublicKey keyInfo) ""
    (toRecordTags (ck_Tags req)))).

Definition pqc_Sign (metadata : keyMetadataRecord) (req : SignRequest) : M W SignResponse :=
  let unsupported := StatusErr FailedPrecondition (Errorf "key does not support PQC signing" []) in
  _ ← on_err (fun _ => unsupported) (lift (validatePQCKeyUsage (m_KeySpec metadata) (m_KeyUsage metadata)));
  _ ← guard_err (negb (isPQCSigningKey (m_KeySpec metadata))) unsupported;
  _ ← guard_err (negb (String.eqb (sig_SigningAlgorithm req) signingAlgorithmMLDSA))
        (StatusErr InvalidArgument (Errorf "PQC keys require SigningAlgorithm ML_DSA" []));
  let messageType := optionalString (sig_MessageType req) in
  _ ← guard_err (negb (String.eqb messageType "") && negb (String.eqb messageType messageTypeRaw))
        (StatusErr InvalidArgument (Errorf "PQC keys support MessageType RAW only" []));
  _ ← guard_err (negb (is_ok (Base64.DecodeString (sig_Message req))))
        (StatusErr InvalidArgument (Errorf "PQC RAW messages must be base64-encoded bytes" []));
  signResp ← as_status Internal (signPQC client (meta_backendKey metadata) (sig_Message req));
  variant ← as_status Internal (lift (pqcMLDSAVariant (m_KeySpec metadata)));
  internal (String.eqb (ps_Signature signResp) "") "PQC signing response missing signature" [] (
  internal (negb (String.eqb (ps_Variant signResp) "") && negb (String.eqb (ps_Variant signResp) variant))
    "PQC signing response variant mismatch" [] (
  _ ← on_err (fun e => StatusErr Internal (Wrapf "PQC signing response signature is not base64: %s" [] e))
        (lift (Base64.DecodeString (ps_Signature signResp)));
  mret (mkSignResponse (m_KeyID metadata) (ps_Signature signResp) (sig_SigningAlgorithm req) 0))).

Definition pqc_GetPublicKey (metadata : keyMetadataRecord) (version : Z) : M W publicKeyRecord :=
  publicKeyFromMetadata metadata version.

Definition encapsulateMLKEMPublicKey (keySpec publicKeyB64 : string) : result (string * string) :=
  if String.eqb publicKeyB64 "" then Err (Errorf "PQC key metadata missing public key" [])
  else
    publicKey ← map_err (Wrapf "PQC public key is not base64: %s" []) (Base64.DecodeString publicKeyB64);
    '(sharedKey, ciphertext) ←
      (if String.eqb keySpec keySpecMLKEM768 then
         if negb (length publicKey =? EncapsulationKeySize768)%nat
         then Err (Errorf "PQC ML-KEM-768 public key has %d bytes, want %d"
                     [pretty (length publicKey); pretty EncapsulationKeySize768])
         else map_err (Wrapf "parse PQC ML-KEM-768 public key: %s" []) (encapsulate768 publicKey)
       else if String.eqb keySpec keySpecMLKEM1024 then
         if negb (length publicKey =? EncapsulationKeySize1024)%nat
         then Err (Errorf "PQC ML-KEM-1024 public key has %d bytes, want %d"
                     [pretty (length publicKey); pretty EncapsulationKeySize1024])
         else map_err (Wrapf "parse PQC ML-KEM-1024 public key: %s" []) (encapsulate1024 publicKey)
       else Err (Errorf "unsupported PQC ML-KEM KeySpec %q" [keySpec]));
    Ok (Base64.EncodeToString sharedKey, Base64.EncodeToString ciphertext).

Definition requireKEM (metadata : keyMetadataRecord) : M W unit :=
  let unsupported := StatusErr FailedPrecondition (Errorf "key does not support PQC key agreement" []) in
  _ ← on_err (fun _ => unsupported) (lift (validatePQCKeyUsage (m_KeySpec metadata) (m_KeyUsage metadata)));
  guard_err (negb (isPQCKEMKey (m_KeySpec metadata))) unsupported.

Definition pqc_Encapsulate (metadata : keyMetadataRecord) (_ : EncapsulateRequest) : M W EncapsulateResponse :=
  _ ← requireKEM metadata;
  '(sharedKey, ciphertext) ← as_status FailedPrecondition
    (lift (encapsulateMLKEMPublicKey (m_KeySpec metadata) (m_PublicKey metadata)));
  mret (mkEncapsulateResponse (m_KeyID metadata) ciphertext sharedKey keyAgreementAlgorithmMLKEM).

Definition pqc_Decapsulate (metadata : keyMetadataRecord) (req : DecapsulateRequest) : M W DecapsulateResponse :=
  _ ← requireKEM metadata;
  _ ← guard_err (negb (is_ok (Base64.DecodeString (decap_Ciphertext req))))
        (StatusErr InvalidArgument (Errorf "PQC ciphertext must be base64-encoded bytes" []));
  decapResp ← as_status Internal (decapsulatePQC client (meta_backendKey metadata) (decap_Ciphertext req));
  variant ← as_status Internal (lift (pqcMLKEMVariant (m_KeySpec metadata)));
  internal (negb (String.eqb (pd_Variant decapResp) "") && negb (String.eqb (pd_Variant decapResp) variant))
    "PQC decapsulate response variant mismatch" [] (
  internal (String.eqb (pd_SharedKey decapResp) "") "PQC decapsulate response missing shared key" [] (
  _ ← on_err (fun e => StatusErr Internal (Wrapf "PQC decapsulate response shared key is not base64: %s" [] e))
        (lift (Base64.DecodeString (pd_SharedKey decapResp)));
  mret (mkDecapsulateResponse (m_KeyID metadata) keyAgreementAlgorithmMLKEM (pd_SharedKey decapResp)))).

Definition newPQCProvider : kmsProvider W :=
  {| CreateKey := pqc_CreateKey;
     as_cipher := None;
     as_sign := Some pqc_Sign;
     as_publicKey := Some pqc_GetPublicKey;
     as_keyAgreement := Some (mkKeyAgreementProvider W pqc_Encapsulate pqc_Decapsulate);
     as_dataKey := None;
     as_rotate := None |}.

End Pqc.
