(* ===== verification/KmsPlugin.v ===== *)
(** * The KMS plugin's handlers (pkg/plugin/kms/plugin.go)

    One definition per gRPC method, over the providers and the client. The clock
    ([p.now]) is an argument of the handler that reads it. *)

From S2P Require Import Prelude GoStrings Errors Codec Sha2 Json OpenBao GoTime KmsMapping KmsAuthorizer KmsClient KmsProviders.

Record KeyMetadata := mkKeyMetadata {
  KeyId : string; Description : string; KeySpec : string; KeyUsage : string; Enabled : bool;
  PrimaryVersion : Z; CreationDate : string; Tags : list Tag; Scheme : string;
  PublicKey : option string; Address : option string; Alias : string }.
Record GetPublicKeyRequest := mkGetPublicKeyRequest {
  gpk_KeyId : string; gpk_ClientId : string; gpk_Version : option Z }.
Record GetPublicKeyResponse := mkGetPublicKeyResponse { gpkr_PublicKey : string; gpkr_Version : Z }.

(** Requests that only name a key and a client. *)
Record KeyRequest := mkKeyRequest { kr_KeyId : string; kr_ClientId : string }.

Definition http_StatusNotFound : Z := 404.

(** [errors.As(err, &statusErr) && statusErr.StatusCode == code] *)
Definition isOpenBaoStatus (err : error) (statusCode : Z) : bool :=
  match as_StatusError err with Some (c, _, _) => c =? statusCode | None => false end.

Definition requireClientID (clientID : string) : result unit :=
  reject (String.eqb (TrimSpace clientID) "") (StatusErr InvalidArgument (Errorf "client_id is required" [])).

(** A nil tag in a stored record is dereferenced: the handler panics. *)
Fixpoint toProtoTags (tags : list (option pluginTag)) : option (list Tag) :=
  match tags with
  | [] => Some []
  | Some t :: tags => cons (mkProtoTag (tag_TagKey t) (tag_TagValue t)) <$> toProtoTags tags
  | None :: _ => None
  end.

Definition opt_string (s : string) : option string := if String.eqb s "" then None else Some s.

Definition toProtoMetadata (record : keyMetadataRecord) : option KeyMetadata :=
  let record := meta_normalize record in
  tags ← toProtoTags (m_Tags record);
  Some (mkKeyMetadata (m_KeyID record) (m_Description record) (m_KeySpec record) (m_KeyUsage record)
    (m_Enabled record) (m_PrimaryVersion record) (m_CreatedAt record) tags (m_Scheme record)
    (opt_string (m_PublicKey record)) (opt_string (m_Address record)) (m_Alias record)).

Definition or_panic {W A} (o : option A) : M W A := match o with Some a => mret a | None => panic end.

Section Plugin.
Context {W : Type} `{Backend W} `{Crypto} `{Cedar}.

Record Plugin := mkPlugin {
  client : openBaoClient;
  providers : list (string * kmsProvider W);
  authorizer : option keyStoreAuthorizer;
}.

Definition newPluginWithConfig (readFile : string -> result string) (cfg : option kmsConfig) (c : openBaoClient)
  : result Plugin :=
  let cfg := withKMSConfigDefaults cfg in
  a ← newKeyStoreAuthorizer readFile cfg;
  Ok (mkPlugin c [(schemeTransit, newTransitProvider c); (schemeEthereum, newEthereumProvider c);
                  (schemePQC, newPQCProvider c)] (Some a)).

Definition NewPlugin (readFile : string -> result string) (env_string : string -> option string)
  (env_int : string -> option Z) : result Plugin :=
  let cfg := withKMSConfigDefaults (Some (readFromEnv env_string env_int)) in
  if String.eqb (OpenBaoProxyURL cfg) "" then Err (Errorf "ORBITPORT_KMS_OPENBAO_PROXY_URL is required" [])
  else newPluginWithConfig readFile (Some cfg) (newOpenBaoClient (Some cfg)).

Definition resolveKeyID (keyRef : string) : result string := fst <$> resolveKeyRef keyRef.

Definition providerForScheme (p : Plugin) (scheme : string) : result (kmsProvider W) :=
  normalized ← map_err (StatusErr InvalidArgument) (normalizeScheme scheme);
  match assoc_lookup normalized (providers p) with
  | Some provider => Ok provider
  | None => Err (StatusErr InvalidArgument (Errorf "unsupported Scheme %q" [normalized]))
  end.

Definition metadataProvider (p : Plugin) (clientID keyID : string) : M W (keyMetadataRecord * kmsProvider W) :=
  resolvedKeyID ← as_status InvalidArgument (lift (resolveKeyID keyID));
  metadata ← on_err (fun err =>
      if isOpenBaoStatus err http_StatusNotFound
      then StatusErr PermissionDenied (Errorf "key does not belong to the authenticated client" [])
      else StatusErr Internal err)
    (getMetadata (client p) clientID resolvedKeyID);
  provider ← lift (providerForScheme p (m_Scheme metadata));
  mret (metadata, provider).

Definition Plugin_Encrypt (p : Plugin) (req : EncryptRequest) : M W EncryptResponse :=
  _ ← lift (requireClientID (enc_ClientId req));
  '(metadata, provider) ← metadataProvider p (enc_ClientId req) (enc_KeyId req);
  encryptor ← lift (requireCipherProvider provider (m_Scheme metadata) "encryption");
  Encrypt encryptor metadata req.

Definition Plugin_Decrypt (p : Plugin) (req : DecryptRequest) : M W DecryptResponse :=
  _ ← lift (requireClientID (dec_ClientId req));
  blob ← as_status InvalidArgument (lift (decodeCiphertextBlob (dec_CiphertextBlob req)));
  _ ← (match dec_KeyId req with
       | None => mret tt
       | Some keyId =>
           resolvedKeyID ← as_status InvalidArgument (lift (resolveKeyID keyId));
           guard_err (negb (String.eqb resolvedKeyID (blob_KeyID blob)))
             (StatusErr InvalidArgument (Errorf "KeyId does not match CiphertextBlob" []))
       end);
  '(metadata, provider) ← metadataProvider p (dec_ClientId req) (blob_KeyID blob);
  _ ← guard_err (negb (String.eqb (m_KeyID metadata) (blob_KeyID blob))
                 || negb (String.eqb (meta_backendKey metadata) (blob_backendKey blob)))
        (StatusErr PermissionDenied (Errorf "CiphertextBlob does not belong to the authenticated client" []));
  decryptor ← lift (requireCipherProvider provider (m_Scheme metadata) "decryption");
  Decrypt decryptor blob req.

Definition Plugin_Sign (p : Plugin) (req : SignRequest) : M W SignResponse :=
  _ ← lift (requireClientID (sig_ClientId req));
  '(metadata, provider) ← metadataProvider p (sig_ClientId req) (sig_KeyId req);
  signer ← lift (requireSignProvider provider (m_Scheme metadata));
  resp ← signer metadata req;
  mret (mkSignResponse (sigr_KeyId resp) (sigr_Signature resp) (sigr_SigningAlgorithm resp)
    (m_PrimaryVersion metadata)).

Definition Plugin_Encapsulate (p : Plugin) (req : EncapsulateRequest) : M W EncapsulateResponse :=
  _ ← lift (requireClientID (encap_ClientId req));
  '(metadata, provider) ← metadataProvider p (encap_ClientId req) (encap_KeyId req);
  keyAgreement ← lift (requireKeyAgreementProvider provider (m_Scheme metadata));
  Encapsulate keyAgreement metadata req.

Definition Plugin_Decapsulate (p : Plugin) (req : DecapsulateRequest) : M W DecapsulateResponse :=
  _ ← lift (requireClientID (decap_ClientId req));
  '(metadata, provider) ← metadataProvider p (decap_ClientId req) (decap_KeyId req);
  keyAgreement ← lift (requireKeyAgreementProvider provider (m_Scheme metadata));
  Decapsulate keyAgreement metadata req.

Definition with_alias (req : CreateKeyRequest) (alias : string) : CreateKeyRequest :=
  mkCreateKeyRequest (ck_Description req) (ck_KeySpec req) (ck_KeyUsage req) (ck_Tags req) (ck_Scheme req)
    (ck_ClientId req) alias.

Definition Plugin_CreateKey (p : Plugin) (now : Z) (req : CreateKeyRequest) : M W KeyMetadata :=
  _ ← lift (requireClientID (ck_ClientId req));
  scheme ← as_status InvalidArgument (lift (normalizeScheme (optionalString (ck_Scheme req))));
  let alias := TrimSpace (ck_Alias req) in
  _ ← as_status InvalidArgument (lift (validateAlias alias));
  keyID ← as_status InvalidArgument (lift (canonicalKeyID alias));
  existing ← attempt (getMetadata (client p) (ck_ClientId req) keyID);
  _ ← (match existing with
       | Ok _ => throw (StatusErr AlreadyExists (Errorf "Alias already exists for this tenant" []))
       | Err err => guard_err (negb (isOpenBaoStatus err http_StatusNotFound)) (StatusErr Internal err)
       end);
  provider ← lift (providerForScheme p scheme);
  record ← CreateKey provider (with_alias req alias) keyID now;
  let record := meta_normalize record in
  _ ← as_status Internal (putMetadata (client p) (ck_ClientId req) keyID record);
  or_panic (toProtoMetadata record).

Definition Plugin_GetKeyMetadata (p : Plugin) (req : KeyRequest) : M W KeyMetadata :=
  _ ← lift (requireClientID (kr_ClientId req));
  '(metadata, _) ← metadataProvider p (kr_ClientId req) (kr_KeyId req);
  or_panic (toProtoMetadata metadata).

Definition Plugin_GetPublicKey (p : Plugin) (req : GetPublicKeyRequest) : M W GetPublicKeyResponse :=
  _ ← lift (requireClientID (gpk_ClientId req));
  let version := default 0 (gpk_Version req) in
  _ ← guard_err (match gpk_Version req with Some _ => version =? 0 | None => false end)
        (StatusErr InvalidArgument (Errorf "Version must be greater than 0" []));
  '(metadata, provider) ← metadataProvider p (gpk_ClientId req) (gpk_KeyId req);
  publicKeyProvider ← lift (requirePublicKeyProvider provider (m_Scheme metadata));
  publicKey ← publicKeyProvider metadata version;
  mret (mkGetPublicKeyResponse (pub_PublicKey publicKey) (pub_Version publicKey)).

Definition Plugin_GenerateDataKey (p : Plugin) (req : GenerateDataKeyRequest) : M W GenerateDataKeyResponse :=
  _ ← lift (requireClientID (gdk_ClientId req));
  '(metadata, provider) ← metadataProvider p (gdk_ClientId req) (gdk_KeyId req);
  generator ← lift (requireDataKeyProvider provider (m_Scheme metadata));
  generator metadata req.

Definition Plugin_RotateKey (p : Plugin) (req : KeyRequest) : M W KeyMetadata :=
  _ ← lift (requireClientID (kr_ClientId req));
  '(metadata, provider) ← metadataProvider p (kr_ClientId req) (kr_KeyId req);
  rotator ← lift (requireRotateKeyProvider provider (m_Scheme metadata));
  updated ← rotator metadata;
  let updated := meta_normalize updated in
  _ ← as_status Internal (putMetadata (client p) (kr_ClientId req) (m_KeyID updated) updated);
  or_panic (toProtoMetadata updated).

End Plugin.
