(* ===== verification/KmsTenant.v ===== *)
(** * Tenant isolation of the KMS plugin

    The promise: whatever a client asks for, the requests that reach OpenBao only
    name the metadata entry and the backend key of one alias in that client's own
    namespace, and no two tenants (or aliases) share such a target. The part of
    OpenBao this rests on, the kv engine, is the interface [KvV2]. *)

From S2P Require Import Prelude GoStrings Errors Codec Sha2 Json OpenBao GoTime KmsMapping KmsAuthorizer KmsClient KmsProviders KmsPlugin.

(** ** Paths *)

(** A client whose base URL and mounts are plain path segments. *)
Definition client_ok (c : openBaoClient) : Prop :=
  base_path (url_Path (baseURL c)) /\
  Forall (fun s => safe_segment s = true) [kvMount c; transitMount c; ethereumMount c; pqcMount c; keyStoreMount c].

Lemma trim_safe l : Forall (fun s => safe_segment s = true) l -> map (TrimChar slash) l = l.
Proof.
  induction 1 as [|s l Hs _ IH]; [done|]. cbn [map]. rewrite IH. f_equal. by apply TrimChar_free, safe_segment_free.
Qed.

Lemma joinPath_safe c l : client_ok c -> l <> [] -> Forall (fun s => safe_segment s = true) l ->
  joinPath c l = url_Path (baseURL c) +:+ "/" +:+ Join "/" l.
Proof.
  intros [Hb _] Hne Hl. unfold joinPath. rewrite trim_safe, path_Join_safe by done. unfold under, rooted.
  destruct (String.eqb_spec (url_Path (baseURL c)) "") as [E|E].
  - rewrite E. by rewrite HasPrefix_slash_safe.
  - destruct Hb as [?|(bl & Hn & _ & ->)]; [done|].
    assert (HasPrefix (("/" +:+ Join "/" bl) +:+ "/" +:+ Join "/" l) "/" = true) as -> by (rewrite append_assoc; apply prefix_append).
    done.
Qed.

Lemma joinPath_inj c l1 l2 : client_ok c -> l1 <> [] -> l2 <> [] ->
  Forall (fun s => safe_segment s = true) l1 -> Forall (fun s => safe_segment s = true) l2 ->
  joinPath c l1 = joinPath c l2 -> l1 = l2.
Proof.
  intros Hc N1 N2 H1 H2. rewrite !joinPath_safe by done. intros Heq. do 2 apply append_inj_l in Heq.
  rewrite <- (Split_Join slash l1), <- (Split_Join slash l2) by (done || by apply safe_segments_free). by f_equal.
Qed.

Lemma PathEscape_keyID a : validateAlias a = Ok tt -> PathEscape (keyIDPrefix +:+ a) = keyIDPrefix +:+ a.
Proof.
  intros (_ & _ & Hc)%validateAlias_Ok. assert (PathEscape a = a) as Ha.
  { induction a as [|c a IH]; [done|]. cbn [all_chars] in Hc. apply andb_true_iff in Hc as [Hc Ha].
    cbn [PathEscape]. rewrite IH by done. assert (path_unescaped c = true) as ->; [|done].
    unfold path_unescaped. unfold alias_char in Hc. destruct (alnum c); [done|]. cbn [orb] in *.
    apply orb_true_iff in Hc as [Hc|Hc]; apply Ascii.eqb_eq in Hc as ->; reflexivity. }
  change (PathEscape (keyIDPrefix +:+ a)) with (keyIDPrefix +:+ PathEscape a). by rewrite Ha.
Qed.

(** The name of the backend key of an alias of a tenant. *)
Definition tenant_key (clientID a : string) : string := tenantNamespace clientID +:+ "_" +:+ a.

Lemma scopedBackendKey_valid clientID a : validateAlias a = Ok tt -> scopedBackendKey clientID a = Ok (tenant_key clientID a).
Proof. intros Ha. unfold scopedBackendKey. by rewrite canonicalAlias_id. Qed.

Lemma tenant_key_safe clientID a : validateAlias a = Ok tt -> safe_segment (tenant_key clientID a) = true.
Proof. intros Ha. by eapply scopedBackendKey_safe, scopedBackendKey_valid. Qed.

Lemma tenant_key_not_empty clientID a : tenant_key clientID a <> "".
Proof. unfold tenant_key. by rewrite tenantNamespace_eq. Qed.

Lemma tenant_key_inj c1 a1 c2 a2 : tenant_key c1 a1 = tenant_key c2 a2 ->
  tenantNamespace c1 = tenantNamespace c2 /\ a1 = a2.
Proof.
  unfold tenant_key. intros Heq.
  apply append_inj_same_len in Heq as [-> Heq]; [|by rewrite !length_tenantNamespace].
  by apply append_inj_l in Heq.
Qed.

(** ** The resources of one alias of a tenant *)

Definition metadata_segments (c : openBaoClient) (clientID a : string) : list string :=
  ["v1"; kvMount c; "data"; "kms"; "metadata"; tenantNamespace clientID; keyIDPrefix +:+ a].

Lemma metadataPath_segments c clientID a : validateAlias a = Ok tt ->
  metadataPath c clientID (keyIDPrefix +:+ a) = joinPath c (metadata_segments c clientID a).
Proof. intros Ha. unfold metadataPath, kvPath, metadata_segments. by rewrite PathEscape_keyID. Qed.

Inductive engine_segments (c : openBaoClient) (k : string) : list string -> Prop :=
| seg_keys : engine_segments c k ["v1"; transitMount c; "keys"; k]
| seg_encrypt : engine_segments c k ["v1"; transitMount c; "encrypt"; k]
| seg_decrypt : engine_segments c k ["v1"; transitMount c; "decrypt"; k]
| seg_sign alg : safe_segment alg = true -> engine_segments c k ["v1"; transitMount c; "sign"; k; alg]
| seg_datakey : engine_segments c k ["v1"; transitMount c; "datakey"; "plaintext"; k]
| seg_rotate : engine_segments c k ["v1"; transitMount c; "keys"; k; "rotate"]
| seg_eth_keys : engine_segments c k ["v1"; ethereumMount c; "keys"; k]
| seg_eth_sign : engine_segments c k ["v1"; ethereumMount c; "sign"; k]
| seg_mldsa_keys : engine_segments c k ["v1"; pqcMount c; "mldsa"; "keys"; k]
| seg_mldsa_sign : engine_segments c k ["v1"; pqcMount c; "mldsa"; "sign"; k]
| seg_mlkem_keys : engine_segments c k ["v1"; pqcMount c; "mlkem"; "keys"; k]
| seg_mlkem_decap : engine_segments c k ["v1"; pqcMount c; "mlkem"; "decapsulate"; k].

Definition tenant_segments (c : openBaoClient) (clientID a : string) (l : list string) : Prop :=
  l = metadata_segments c clientID a \/ engine_segments c (tenant_key clientID a) l.

(** A request about one alias of one tenant. *)
Definition tenant_request (c : openBaoClient) (clientID a : string) (r : request) : Prop :=
  exists l, tenant_segments c clientID a l /\ target r = joinPath c l.

Lemma metadata_segments_safe c clientID a : client_ok c -> validateAlias a = Ok tt ->
  Forall (fun s => safe_segment s = true) (metadata_segments c clientID a).
Proof.
  intros [_ Hm] Ha. apply Forall_cons in Hm as [Hkv _]. unfold metadata_segments.
  repeat constructor; [exact Hkv|apply tenantNamespace_safe|by apply keyID_safe].
Qed.

Lemma engine_segments_safe c k l : client_ok c -> safe_segment k = true -> engine_segments c k l ->
  Forall (fun s => safe_segment s = true) l.
Proof.
  intros [_ Hm] Hk Hl. do 4 (apply Forall_cons in Hm as [? Hm]).
  destruct Hl; repeat (apply Forall_cons; split; [done|]); constructor.
Qed.

Lemma tenant_segments_safe c clientID a l : client_ok c -> validateAlias a = Ok tt ->
  tenant_segments c clientID a l -> l <> [] /\ Forall (fun s => safe_segment s = true) l.
Proof.
  intros Hc Ha [->|Hl]; [split; [done|by apply metadata_segments_safe]|].
  split; [by destruct Hl|]. eapply engine_segments_safe; [done|by apply tenant_key_safe|done].
Qed.

Lemma engine_segments_key c k1 k2 l : engine_segments c k1 l -> engine_segments c k2 l -> k1 = k2.
Proof. intros H1 H2. destruct H1; by inversion H2. Qed.

Lemma tenant_segments_inj c c1 a1 c2 a2 l : tenant_segments c c1 a1 l -> tenant_segments c c2 a2 l ->
  tenantNamespace c1 = tenantNamespace c2 /\ a1 = a2.
Proof.
  intros [->|H1] [H2|H2].
  - apply (f_equal (fun l => (nth 5 l "", nth 6 l ""))) in H2. cbn [nth metadata_segments] in H2.
    apply pair_equal_spec in H2 as [-> H2]. by apply append_inj_l in H2.
  - unfold metadata_segments in H2. inversion H2.
  - subst. unfold metadata_segments in H1. inversion H1.
  - apply tenant_key_inj. by eapply engine_segments_key.
Qed.

(** ** A Hoare logic for computations against the server

    [triple I P m Q]: from a server state that satisfies [I], [m] only sends
    requests that satisfy [P], ends in a state that satisfies [I], and a value it
    returns satisfies [Q]. *)
Section Hoare.
Context {W : Type} `{Backend W}.

Definition triple {A} (I : W -> Prop) (P : request -> Prop) (m : M W A) (Q : A -> Prop) : Prop :=
  forall w, I (backend w) -> exists l, sent (m w).1 = sent w ++ l /\ Forall P l /\ I (backend (m w).1) /\
    match (m w).2 with Returned (Ok a) => Q a | _ => True end.

Lemma triple_ret {A} I P (a : A) (Q : A -> Prop) : Q a -> triple I P (mret a) Q.
Proof. intros Ha w Hw. exists []. by rewrite app_nil_r. Qed.

Lemma triple_lift {A} I P (r : result A) (Q : A -> Prop) : (forall a, r = Ok a -> Q a) -> triple I P (lift r) Q.
Proof. intros Ha w Hw. exists []. rewrite app_nil_r. split_and!; [done..|]. destruct r; cbn; auto. Qed.

Lemma triple_throw {A} I P e (Q : A -> Prop) : triple I P (throw e) Q.
Proof. intros w Hw. exists []. by rewrite app_nil_r. Qed.

Lemma triple_panic {A} I P (Q : A -> Prop) : triple I P panic Q.
Proof. intros w Hw. exists []. by rewrite app_nil_r. Qed.

Lemma triple_bind {A B} I P (m : M W A) (f : A -> M W B) (R : A -> Prop) (Q : B -> Prop) :
  triple I P m R -> (forall a, R a -> triple I P (f a) Q) -> triple I P (m ≫= f) Q.
Proof.
  intros Hm Hf w Hw. destruct (Hm w Hw) as (l1 & H1 & F1 & I1 & Q1). unfold mbind, Prog_bind.
  destruct (m w) as [w' [[a|e]| |]]; cbn [fst snd] in *; try (by exists l1).
  destruct (Hf a Q1 w' I1) as (l2 & H2 & F2 & I2 & Q2). exists (l1 ++ l2). rewrite H2, H1, app_assoc.
  split_and!; [done|by apply Forall_app_2|done|done].
Qed.

Lemma triple_on_err {A} I P f (m : M W A) Q : triple I P m Q -> triple I P (on_err f m) Q.
Proof.
  intros Hm w Hw. destruct (Hm w Hw) as (l & H1 & F1 & I1 & Q1). exists l. unfold on_err.
  by destruct (m w) as [w' [[]| |]].
Qed.

Lemma triple_attempt {A} I P (m : M W A) Q : triple I P m Q ->
  triple I P (attempt m) (fun r => match r with Ok a => Q a | Err _ => True end).
Proof.
  intros Hm w Hw. destruct (Hm w Hw) as (l & H1 & F1 & I1 & Q1). exists l. unfold attempt.
  by destruct (m w) as [w' [[]| |]].
Qed.

Lemma triple_weaken {A} I P (m : M W A) (Q R : A -> Prop) : triple I P m Q -> (forall a, Q a -> R a) -> triple I P m R.
Proof.
  intros Hm HQ w Hw. destruct (Hm w Hw) as (l & H1 & F1 & I1 & Q1). exists l. split_and!; [done..|].
  destruct (m w) as [w' [[]| |]]; cbn in *; auto.
Qed.

(** A request that keeps the invariant. *)
Lemma triple_exchange (I : W -> Prop) (P : request -> Prop) req (Q : string -> Prop) : P req ->
  (forall st, I st -> I (serve st req).1) ->
  (forall st code status body, I st -> (serve st req).2 = Response code status body -> code < 400 -> Q body) ->
  triple I P (exchange req) Q.
Proof.
  intros HP HI HQ w Hw. unfold exchange. specialize (HI _ Hw).
  destruct (serve (backend w) req) as [st rep] eqn:E. exists [req]. cbn.
  split_and!; [done|by constructor|done|]. destruct rep as [| |code status body]; try done.
  destruct (Z.leb_spec 400 code); [done|]. apply (HQ (backend w) code status body); [done|by rewrite E|done].
Qed.

Lemma triple_do_nil (I : W -> Prop) (P : request -> Prop) req : P req -> (forall st, I st -> I (serve st req).1) ->
  triple I P (do_nil req) (fun _ => True).
Proof.
  intros HP HI. eapply triple_bind; [eapply (triple_exchange _ _ _ (fun _ => True)); eauto|].
  intros. by apply triple_ret.
Qed.

Lemma triple_do_into {R} (I : W -> Prop) (P : request -> Prop) req (d : decoder R) z : P req ->
  (forall st, I st -> I (serve st req).1) -> triple I P (do_into req d z) (fun _ => True).
Proof.
  intros HP HI. eapply triple_bind; [eapply (triple_exchange _ _ _ (fun _ => True)); eauto|].
  intros. by apply triple_lift.
Qed.

End Hoare.

(** ** The interface to the kv engine *)

(** The response to a read carries the stored value under [data.data]. *)
Definition carries (text : string) (v : json) : Prop :=
  forall R (d : decoder R) zero, Unmarshal (data_of (data_of d)) text zero = d v zero.

(** What the plugin relies on of a KV version 2 engine mounted at [kvMount]: a
    read that succeeds returns the value stored at its path; a write stores the
    value under [data] at its own path or fails; reads and the requests to other
    mounts change nothing. *)
Class KvV2 (W : Type) `{Backend W} (c : openBaoClient) := {
  kv_lookup : W -> string -> option json;
  kv_read : forall st clientID a code status body, validateAlias a = Ok tt ->
    let p := metadataPath c clientID (keyIDPrefix +:+ a) in
    (serve st (mkRequest "GET" p None)).2 = Response code status body -> code < 400 ->
    exists v, kv_lookup st p = Some v /\ carries body v;
  kv_write : forall st clientID a text v q, validateAlias a = Ok tt ->
    let p := metadataPath c clientID (keyIDPrefix +:+ a) in
    parse text = Some (JObj [("data", v)]) ->
    kv_lookup (serve st (mkRequest "POST" p (Some text))).1 q = kv_lookup st q \/
    q = p /\ kv_lookup (serve st (mkRequest "POST" p (Some text))).1 q = Some v;
  kv_get_frame : forall st p q, kv_lookup (serve st (mkRequest "GET" p None)).1 q = kv_lookup st q;
  kv_mount_frame : forall st r l q, target r = joinPath c l ->
    Forall (fun s => safe_segment s = true) l -> l !! 1%nat <> Some (kvMount c) ->
    kv_lookup (serve st r).1 q = kv_lookup st q;
}.

Section Tenant.
Context {W : Type} {HB : Backend W} {HCr : Crypto} {HCe : Cedar} (c : openBaoClient) {HKv : KvV2 W c}.
Context (Hc : client_ok c).
Context (Hmounts : kvMount c <> transitMount c /\ kvMount c <> ethereumMount c /\ kvMount c <> pqcMount c).

(** A record that belongs to alias [a] of a tenant. *)
Definition owned (clientID a : string) (m : keyMetadataRecord) : Prop :=
  m_KeyID m = keyIDPrefix +:+ a /\ meta_backendKey m = tenant_key clientID a /\ is_u32 (m_PrimaryVersion m).

(** Every stored record belongs to the alias and tenant it is stored under. *)
Definition store_ok (st : W) : Prop := forall clientID a v m,
  validateAlias a = Ok tt -> kv_lookup st (metadataPath c clientID (keyIDPrefix +:+ a)) = Some v ->
  dec_struct keyMetadataRecord_fields v empty_meta = Ok m -> owned clientID a m.

Lemma store_ok_same st st' : (forall q, kv_lookup st' q = kv_lookup st q) -> store_ok st -> store_ok st'.
Proof. intros Hq Hst clientID a v m. rewrite Hq. apply Hst. Qed.

Lemma engine_frame clientID a l r st : validateAlias a = Ok tt -> engine_segments c (tenant_key clientID a) l ->
  target r = joinPath c l -> store_ok st -> store_ok (serve st r).1.
Proof.
  intros Ha Hl Ht. apply store_ok_same. intros q. eapply kv_mount_frame; [exact Ht| |].
  - eapply engine_segments_safe; [done|by apply tenant_key_safe|done].
  - destruct Hmounts as (? & ? & ?). destruct Hl; cbn; congruence.
Qed.

Lemma engine_request clientID a l r : engine_segments c (tenant_key clientID a) l -> target r = joinPath c l ->
  tenant_request c clientID a r.
Proof. intros Hl Ht. exists l. split; [by right|done]. Qed.

Abbreviation own clientID a := (triple store_ok (tenant_request c clientID a)).

(** A call to an engine about the tenant's backend key. *)
Lemma own_do_nil clientID a l r : validateAlias a = Ok tt -> engine_segments c (tenant_key clientID a) l ->
  target r = joinPath c l -> own clientID a (do_nil r) (fun _ => True).
Proof. intros Ha Hl Ht. apply triple_do_nil; [by eapply engine_request|]. intros st. by eapply engine_frame. Qed.

Lemma own_do_into {R} clientID a l r (d : decoder R) z : validateAlias a = Ok tt ->
  engine_segments c (tenant_key clientID a) l ->
  target r = joinPath c l -> own clientID a (do_into r d z) (fun _ => True).
Proof. intros Ha Hl Ht. apply triple_do_into; [by eapply engine_request|]. intros st. by eapply engine_frame. Qed.

(** Fields decode to values in range. *)
Lemma dec_members_inv {R} (fs : list (field R)) (Inv : R -> Prop) l : forall r r',
  Forall (fun f => forall v r r', field_dec f v r = Ok r' -> Inv r -> Inv r') fs ->
  Inv r -> dec_members fs l r = Ok r' -> Inv r'.
Proof.
  induction l as [|[k v] l IH]; intros r r' Hf Hr H3; cbn in H3; [by inv_ok|].
  destruct (find_field fs k) as [f|] eqn:E; [|by eapply IH].
  destruct (field_dec f v r) as [r1|] eqn:Ed; [|done]. cbn in H3. eapply IH; [done| |exact H3].
  assert (f ∈ fs) as Hin.
  { unfold find_field in E. apply list_elem_of_In. destruct (find _ fs) as [g|] eqn:Eg.
    - apply find_some in Eg as [? _]. by simplify_eq.
    - by apply find_some in E as [? _]. }
  rewrite Forall_forall in Hf. by eapply (Hf f Hin).
Qed.

Lemma dec_uint32_range v z z' : dec_uint32 v z = Ok z' -> is_u32 z -> is_u32 z'.
Proof.
  unfold dec_uint32. destruct v; try done; [by intros [= <-]|]. unfold parse_nat.
  destruct (String.eqb lit ""); [done|]. destruct (digits_val 0 lit) as [x|] eqn:E; [|done].
  destruct (Z.ltb_spec x (2 ^ 32)); [|done]. intros [= <-] _. split; [|done].
  assert (forall s acc y, 0 <= acc -> digits_val acc s = Some y -> 0 <= y) as Hpos; [|by eapply (Hpos lit 0)].
  clear. induction s as [|ch s IH]; intros acc y Ha; cbn; [congruence|]. destruct (is_digit ch) eqn:Ed; [|done].
  apply IH. unfold is_digit, in_range in Ed. apply andb_true_iff in Ed as [E1%Z.leb_le _].
  change (byte_of "0") with 48 in E1. unfold digit_val. lia.
Qed.

Ltac fields_inv := repeat (apply Forall_cons; split;
  [intros v r r'; cbn; intros H' ?;
   match type of H' with context [?d v ?x] => destruct (d v x) eqn:?; [|done] end; cbn in H'; inv_ok; cbn;
   eauto using dec_uint32_range|]); constructor.

(** Decoders that keep a property of the value they write over. *)
Definition keeps {R} (Inv : R -> Prop) (d : decoder R) : Prop := forall v r r', d v r = Ok r' -> Inv r -> Inv r'.

Lemma dec_struct_keeps {R} (fs : list (field R)) (Inv : R -> Prop) :
  Forall (fun f => forall v r r', field_dec f v r = Ok r' -> Inv r -> Inv r') fs -> keeps Inv (dec_struct fs).
Proof.
  intros Hf v r r' Hd Hr. destruct v as [| | | | |l]; cbn in Hd; try done; [by inv_ok|].
  by eapply dec_members_inv.
Qed.

Lemma data_of_keeps {R} Inv (d : decoder R) : keeps Inv d -> keeps Inv (data_of d).
Proof.
  intros Hd. apply dec_struct_keeps. apply Forall_cons; split; [|constructor].
  intros v r r' H' Hr. cbn in H'. apply bind_Ok in H' as (x & Hx & H'). inv_ok. by eapply Hd.
Qed.

Lemma meta_keeps : keeps (fun m => is_u32 (m_PrimaryVersion m)) (dec_struct keyMetadataRecord_fields).
Proof. apply dec_struct_keeps. unfold keyMetadataRecord_fields. fields_inv. Qed.

Lemma transit_keeps : keeps (fun t => is_u32 (t_LatestVersion t)) (dec_struct transitKeyInfo_fields).
Proof. apply dec_struct_keeps. unfold transitKeyInfo_fields. fields_inv. Qed.

Lemma pqc_keeps : keeps (fun k => is_u32 (pk_Version k)) (dec_struct pqcKeyInfo_fields).
Proof. apply dec_struct_keeps. unfold pqcKeyInfo_fields. fields_inv. Qed.

Lemma own_do_keeps {R} clientID a l r (d : decoder R) z (Inv : R -> Prop) : validateAlias a = Ok tt ->
  engine_segments c (tenant_key clientID a) l -> target r = joinPath c l -> keeps Inv d -> Inv z ->
  own clientID a (do_into r d z) Inv.
Proof.
  intros Ha Hl Ht Hd Hz. eapply triple_bind.
  - apply (triple_exchange _ _ _ (fun _ => True)); [by eapply engine_request| |done]. intros st. by eapply engine_frame.
  - intros text _. apply triple_lift. intros x Hx. apply map_err_Ok in Hx. unfold Unmarshal in Hx.
    destruct (parse text); [|done]. by eapply Hd.
Qed.

(** ** The client's calls *)

Lemma own_getMetadata clientID a : validateAlias a = Ok tt ->
  own clientID a (getMetadata c clientID (keyIDPrefix +:+ a))
    (fun m => owned clientID a m /\ m_ProviderKey m <> "").
Proof.
  intros Ha. unfold getMetadata, Get, do_into. eapply (triple_bind _ _ _ _ (owned clientID a)).
  - eapply (triple_bind _ _ _ _ (fun body => forall m,
      Unmarshal (data_of (data_of (dec_struct keyMetadataRecord_fields))) body empty_meta = Ok m -> owned clientID a m)).
    + apply triple_exchange.
      * exists (metadata_segments c clientID a). split; [by left|]. cbn [target]. by apply metadataPath_segments.
      * intros st. apply store_ok_same. intros q. apply kv_get_frame.
      * intros st code status body Hst Hr Hcode m Hm. destruct (kv_read _ _ _ _ _ _ Ha Hr Hcode) as (v & Hv & Hbody).
        rewrite Hbody in Hm. by eapply Hst.
    + intros body Hbody. apply triple_lift. intros m Hm. apply map_err_Ok in Hm. by apply Hbody.
  - intros m (Hk & Hb & Hv). cbv zeta. destruct (_ && _); [apply triple_throw|]. apply triple_ret.
    assert (m_ProviderKey (meta_normalize m) = tenant_key clientID a) as Hp by (by rewrite <- Hb).
    assert (m_ProviderKey (meta_normalize m) <> "") as Hne by (rewrite Hp; apply tenant_key_not_empty).
    split; [|done]. split_and!; [done| |done]. unfold meta_backendKey. apply String.eqb_neq in Hne. by rewrite Hne.
Qed.

Lemma keyID_utf8 a : validateAlias a = Ok tt -> valid_utf8 (keyIDPrefix +:+ a) = true.
Proof.
  intros Ha. apply valid_utf8_ascii. eapply all_chars_impl; [|by apply keyID_visible].
  intros ch. unfold visible. rewrite andb_true_iff, Z.leb_le, Z.leb_le, Z.ltb_lt. lia.
Qed.

Lemma keyID_ascii a : validateAlias a = Ok tt -> sanitize (keyIDPrefix +:+ a) = keyIDPrefix +:+ a.
Proof. intros. by apply sanitize_valid, keyID_utf8. Qed.

Lemma tenant_key_utf8 clientID a : validateAlias a = Ok tt -> valid_utf8 (tenant_key clientID a) = true.
Proof.
  intros (_ & _ & Hal)%validateAlias_Ok. apply valid_utf8_ascii. unfold tenant_key.
  rewrite !all_chars_append, !andb_true_iff. split_and!; [|done|].
  - eapply all_chars_impl; [|apply tenantNamespace_chars].
    intros ch. destruct ch as [[] [] [] [] [] [] [] []]; first [reflexivity|discriminate].
  - eapply all_chars_impl; [|exact Hal].
    intros ch. destruct ch as [[] [] [] [] [] [] [] []]; first [reflexivity|discriminate].
Qed.

Lemma tenant_key_ascii clientID a : validateAlias a = Ok tt -> sanitize (tenant_key clientID a) = tenant_key clientID a.
Proof. intros. by apply sanitize_valid, tenant_key_utf8. Qed.

(** A record as the store gives it back is still owned. *)
Lemma owned_clean clientID a m : validateAlias a = Ok tt -> owned clientID a m -> m_ProviderKey m <> "" ->
  owned clientID a (meta_clean m).
Proof.
  intros Ha (Hk & Hb & Hv) Hp. unfold owned, meta_clean; cbn. split; [by rewrite Hk, keyID_ascii|].
  split; [|done]. unfold meta_backendKey in *; cbn. apply String.eqb_neq in Hp as Hp'. rewrite Hp' in Hb.
  rewrite Hb, tenant_key_ascii by done. unfold tenant_key. by rewrite tenantNamespace_eq.
Qed.

Lemma owned_ns c1 c2 a m : tenantNamespace c1 = tenantNamespace c2 -> owned c1 a m -> owned c2 a m.
Proof. intros Hns (H1 & H2 & H3). split_and!; [done| |done]. rewrite H2. unfold tenant_key. by rewrite Hns. Qed.

Lemma metadataPath_inj c1 a1 c2 a2 : validateAlias a1 = Ok tt -> validateAlias a2 = Ok tt ->
  metadataPath c c1 (keyIDPrefix +:+ a1) = metadataPath c c2 (keyIDPrefix +:+ a2) ->
  tenantNamespace c1 = tenantNamespace c2 /\ a1 = a2.
Proof.
  intros H1 H2. rewrite !metadataPath_segments by done. intros Heq.
  apply joinPath_inj in Heq; try done; try by apply metadata_segments_safe.
  apply (tenant_segments_inj c c1 a1 c2 a2 (metadata_segments c c1 a1)); [by left|]. left. exact Heq.
Qed.

Lemma own_putMetadata clientID a m : validateAlias a = Ok tt -> owned clientID a m -> m_ProviderKey m <> "" ->
  own clientID a (putMetadata c clientID (keyIDPrefix +:+ a) m) (fun _ => True).
Proof.
  intros Ha Hm Hp. unfold putMetadata, Post_nil. apply triple_do_nil.
  - exists (metadata_segments c clientID a). split; [by left|]. by apply metadataPath_segments.
  - intros st Hst c2 a2 v m2 Ha2 Hv Hd. pose proof Hm as (_ & _ & Hver).
    pose proof (parse_metadata m Hver) as Hparse.
    destruct (kv_write st clientID a _ _ (metadataPath c c2 (keyIDPrefix +:+ a2)) Ha Hparse)
      as [Hsame|[Hq Hnew]].
    + rewrite Hsame in Hv. by eapply Hst.
    + apply metadataPath_inj in Hq as [Hns <-]; [|done|done]. rewrite Hnew in Hv.
      assert (v = clean (meta_json m)) as -> by congruence.
      rewrite meta_json_decode in Hd by done. assert (m2 = meta_clean m) as -> by congruence.
      eapply owned_ns; [by symmetry|]. by apply owned_clean.
Qed.

(** ** The providers *)

Ltac own_step :=
  match goal with
  | |- triple _ _ (as_status _ _) _ => apply triple_on_err
  | |- triple _ _ (on_err _ _) _ => apply triple_on_err
  | |- triple _ _ (guard_err _ _) _ => apply triple_lift; intros ? ?
  | |- triple _ _ (lift _) _ => apply triple_lift; intros ? ?
  | |- triple _ _ (throw _) _ => apply triple_throw
  | |- triple _ _ panic _ => apply triple_panic
  | |- triple _ _ (mret _) _ => apply triple_ret
  | |- triple _ _ (_ ≫= _) _ => eapply (triple_bind _ _ _ _ (fun _ => True)); [|intros ? _]
  | |- triple _ _ (let '(_, _) := ?x in _) _ => destruct x
  | |- triple _ _ (if ?b then _ else _) _ => destruct b
  | |- triple _ _ (internal _ _ _ _) _ => unfold internal
  | |- True => exact I
  end.

(** A call to an engine: the target is one of [engine_segments]. *)
Ltac own_call := first [eapply own_do_nil|eapply own_do_into]; [eassumption| |reflexivity]; by constructor.
Ltac own_auto := repeat (cbv zeta; own_step); try own_call.

Section OneKey.
Context (clientID a : string) (Ha : validateAlias a = Ok tt).

Lemma own_read_transit : own clientID a (readTransitKey c (tenant_key clientID a)) (fun t => is_u32 (t_LatestVersion t)).
Proof.
  eapply own_do_keeps; [done|apply seg_keys|reflexivity|apply data_of_keeps, transit_keeps|cbn; mlia].
Qed.

Lemma own_createTransitKey keyType :
  own clientID a (createTransitKey c (tenant_key clientID a) keyType) (fun t => is_u32 (t_LatestVersion t)).
Proof.
  eapply triple_bind; [eapply own_do_nil; [done|apply seg_keys|reflexivity]|]. intros _ _. apply own_read_transit.
Qed.

Lemma own_rotateTransitKey :
  own clientID a (rotateTransitKey c (tenant_key clientID a)) (fun t => is_u32 (t_LatestVersion t)).
Proof.
  eapply triple_bind; [eapply own_do_nil; [done|apply seg_rotate|reflexivity]|]. intros _ _. apply own_read_transit.
Qed.

(** What a provider's operations keep, for the record of this alias. *)
Record provider_owns (p : kmsProvider W) : Prop := {
  owns_create req now : ck_ClientId req = clientID -> ck_Alias req = a ->
    own clientID a (CreateKey p req (keyIDPrefix +:+ a) now)
      (fun m => owned clientID a m /\ m_ProviderKey m <> "");
  owns_encrypt t m req : as_cipher p = Some t -> owned clientID a m -> own clientID a (Encrypt t m req) (fun _ => True);
  owns_decrypt t b req : as_cipher p = Some t -> blob_backendKey b = tenant_key clientID a ->
    own clientID a (Decrypt t b req) (fun _ => True);
  owns_sign t m req : as_sign p = Some t -> owned clientID a m -> own clientID a (t m req) (fun _ => True);
  owns_public t m v : as_publicKey p = Some t -> owned clientID a m -> own clientID a (t m v) (fun _ => True);
  owns_encap t m req : as_keyAgreement p = Some t -> owned clientID a m ->
    own clientID a (Encapsulate t m req) (fun _ => True);
  owns_decap t m req : as_keyAgreement p = Some t -> owned clientID a m ->
    own clientID a (Decapsulate t m req) (fun _ => True);
  owns_datakey t m req : as_dataKey p = Some t -> owned clientID a m -> own clientID a (t m req) (fun _ => True);
  owns_rotate t m : as_rotate p = Some t -> owned clientID a m -> m_ProviderKey m <> "" ->
    own clientID a (t m) (fun m => owned clientID a m /\ m_ProviderKey m <> "");
}.

Lemma signingConfig_safe alg mt m : signingConfig alg mt = Ok m -> safe_segment (pathAlgorithm m) = true.
Proof.
  unfold signingConfig. intros H'. repeat (match type of H' with (if ?b then _ else _) = _ => destruct b end); by inv_ok.
Qed.

Lemma transit_owns : provider_owns (newTransitProvider c).
Proof.
  split; cbn [newTransitProvider CreateKey as_cipher as_sign as_publicKey as_keyAgreement as_dataKey as_rotate].
  - intros req now Hcl Hal. unfold transit_CreateKey. do 3 (own_step; [own_auto|]).
    eapply (triple_bind _ _ _ _ (fun k => k = tenant_key clientID a)).
    { own_step. apply triple_lift. intros k Hk. rewrite Hcl, Hal, scopedBackendKey_valid in Hk by done. by inv_ok. }
    intros k ->. eapply triple_bind; [own_step; apply own_createTransitKey|]. intros t Ht. apply triple_ret.
    split; [|apply tenant_key_not_empty]. split_and!; [done| |done]. unfold meta_backendKey; cbn.
    pose proof (tenant_key_not_empty clientID a) as Hne. apply String.eqb_neq in Hne. by rewrite Hne.
  - intros t m req [= <-] (Hk & Hb & Hv). cbn [Encrypt]. unfold transit_Encrypt. rewrite Hb. own_auto.
  - intros t b req [= <-] Hb. cbn [Decrypt]. unfold transit_Decrypt. rewrite Hb. own_auto.
  - intros t m req [= <-] (Hk & Hb & Hv). unfold transit_Sign. rewrite Hb.
    eapply (triple_bind _ _ _ _ (fun mp => safe_segment (pathAlgorithm mp) = true)).
    { own_step. apply triple_lift. intros mp. apply signingConfig_safe. }
    intros mp Hmp. own_auto.
  - intros t m v [= <-] (Hk & Hb & Hv). unfold transit_GetPublicKey. rewrite Hb. own_auto.
  - done.
  - done.
  - intros t m req [= <-] (Hk & Hb & Hv). unfold transit_GenerateDataKey. rewrite Hb. own_auto.
  - intros t m [= <-] (Hk & Hb & Hv) Hp. unfold transit_RotateKey. rewrite Hb.
    eapply triple_bind; [own_step; apply own_rotateTransitKey|]. intros i Hi. apply triple_ret. by split_and!.
Qed.

Lemma ethereum_owns : provider_owns (newEthereumProvider c).
Proof.
  split; cbn [newEthereumProvider CreateKey as_cipher as_sign as_publicKey as_keyAgreement as_dataKey as_rotate]; try done.
  - intros req now Hcl Hal. unfold ethereum_CreateKey. own_step; [own_auto|].
    eapply (triple_bind _ _ _ _ (fun k => k = tenant_key clientID a)).
    { own_step. apply triple_lift. intros k Hk. rewrite Hcl, Hal, scopedBackendKey_valid in Hk by done. by inv_ok. }
    intros k ->. own_step; [own_auto|]. cbv zeta. apply triple_ret.
    split; [|apply tenant_key_not_empty]. split_and!; [done| |cbn; mlia]. unfold meta_backendKey; cbn.
    pose proof (tenant_key_not_empty clientID a) as Hne. apply String.eqb_neq in Hne. by rewrite Hne.
  - intros t m req [= <-] (Hk & Hb & Hv). unfold ethereum_Sign, ethereum_sign_call. rewrite Hb. own_auto.
  - intros t m v [= <-] Hm. unfold ethereum_GetPublicKey, publicKeyFromMetadata. own_auto.
Qed.

Lemma pqc_owns : provider_owns (newPQCProvider c).
Proof.
  split; cbn [newPQCProvider CreateKey as_cipher as_sign as_publicKey as_keyAgreement as_dataKey as_rotate]; try done.
  - intros req now Hcl Hal. unfold pqc_CreateKey. own_step; [own_auto|].
    eapply (triple_bind _ _ _ _ (fun k => k = tenant_key clientID a)).
    { own_step. apply triple_lift. intros k Hk. rewrite Hcl, Hal, scopedBackendKey_valid in Hk by done. by inv_ok. }
    intros k ->. eapply (triple_bind _ _ _ _ (fun iv => is_u32 (pk_Version iv.1))).
    { unfold createPQCKeyFor. destruct (isPQCSigningKey _); [|destruct (isPQCKEMKey _); [|own_auto]].
      all: own_step; [own_auto|]. all: eapply (triple_bind _ _ _ _ (fun i => is_u32 (pk_Version i)));
        [|intros i Hi; by apply triple_ret].
      all: own_step; eapply own_do_keeps; [done|by constructor|reflexivity|apply data_of_keeps, pqc_keeps|cbn; mlia]. }
    intros [info variant] Hi. own_step. own_step; [apply triple_throw|]. cbv zeta. apply triple_ret.
    split; [|apply tenant_key_not_empty]. split_and!; [done| |].
    + unfold meta_backendKey; cbn. pose proof (tenant_key_not_empty clientID a) as Hne. apply String.eqb_neq in Hne. by rewrite Hne.
    + cbn in *. destruct (_ =? 0); [mlia|done].
  - intros t m req [= <-] (Hk & Hb & Hv). unfold pqc_Sign. rewrite Hb. own_auto.
  - intros t m v [= <-] Hm. unfold pqc_GetPublicKey, publicKeyFromMetadata. own_auto.
  - intros t m req [= <-] (Hk & Hb & Hv). cbn [Encapsulate]. unfold pqc_Encapsulate, requireKEM. own_auto.
  - intros t m req [= <-] (Hk & Hb & Hv). cbn [Decapsulate]. unfold pqc_Decapsulate, requireKEM. rewrite Hb. own_auto.
Qed.

End OneKey.

(** ** The handlers *)

(** The gRPC calls about keys. *)
Inductive kms_call :=
| CallEncrypt (req : EncryptRequest)
| CallDecrypt (req : DecryptRequest)
| CallSign (req : SignRequest)
| CallEncapsulate (req : EncapsulateRequest)
| CallDecapsulate (req : DecapsulateRequest)
| CallCreateKey (now : Z) (req : CreateKeyRequest)
| CallGetKeyMetadata (req : KeyRequest)
| CallGetPublicKey (req : GetPublicKeyRequest)
| CallGenerateDataKey (req : GenerateDataKeyRequest)
| CallRotateKey (req : KeyRequest).

Definition ignore {A} (m : M W A) : M W unit := _ ← m; mret tt.

Definition run_call (p : Plugin (W := W)) (call : kms_call) : M W unit :=
  match call with
  | CallEncrypt req => ignore (Plugin_Encrypt p req)
  | CallDecrypt req => ignore (Plugin_Decrypt p req)
  | CallSign req => ignore (Plugin_Sign p req)
  | CallEncapsulate req => ignore (Plugin_Encapsulate p req)
  | CallDecapsulate req => ignore (Plugin_Decapsulate p req)
  | CallCreateKey now req => ignore (Plugin_CreateKey p now req)
  | CallGetKeyMetadata req => ignore (Plugin_GetKeyMetadata p req)
  | CallGetPublicKey req => ignore (Plugin_GetPublicKey p req)
  | CallGenerateDataKey req => ignore (Plugin_GenerateDataKey p req)
  | CallRotateKey req => ignore (Plugin_RotateKey p req)
  end.

Definition call_client (call : kms_call) : string :=
  match call with
  | CallEncrypt req => enc_ClientId req
  | CallDecrypt req => dec_ClientId req
  | CallSign req => sig_ClientId req
  | CallEncapsulate req => encap_ClientId req
  | CallDecapsulate req => decap_ClientId req
  | CallCreateKey _ req => ck_ClientId req
  | CallGetKeyMetadata req | CallRotateKey req => kr_ClientId req
  | CallGetPublicKey req => gpk_ClientId req
  | CallGenerateDataKey req => gdk_ClientId req
  end.

(** The alias a call is about (any alias when the reference is invalid). *)
Definition ref_alias (keyRef : string) : string :=
  match resolveKeyRef keyRef with Ok (_, a) => a | Err _ => "" end.

Definition call_alias (call : kms_call) : string :=
  match call with
  | CallEncrypt req => ref_alias (enc_KeyId req)
  | CallDecrypt req => match decodeCiphertextBlob (dec_CiphertextBlob req) with
                       | Ok blob => ref_alias (blob_KeyID blob)
                       | Err _ => ""
                       end
  | CallSign req => ref_alias (sig_KeyId req)
  | CallEncapsulate req => ref_alias (encap_KeyId req)
  | CallDecapsulate req => ref_alias (decap_KeyId req)
  | CallCreateKey _ req => TrimSpace (ck_Alias req)
  | CallGetKeyMetadata req | CallRotateKey req => ref_alias (kr_KeyId req)
  | CallGetPublicKey req => ref_alias (gpk_KeyId req)
  | CallGenerateDataKey req => ref_alias (gdk_KeyId req)
  end.

Section Handlers.
Context (p : Plugin (W := W)) (readFile : string -> result string) (cfg : option kmsConfig).
Context (Hp : newPluginWithConfig readFile cfg c = Ok p).

Lemma plugin_client : client p = c.
Proof. unfold newPluginWithConfig in Hp. apply bind_Ok in Hp as (x & _ & Hx). by inv_ok. Qed.

Lemma providerForScheme_owns clientID a scheme pr : validateAlias a = Ok tt ->
  providerForScheme p scheme = Ok pr -> provider_owns clientID a pr.
Proof.
  intros Ha Hs. unfold newPluginWithConfig in Hp. apply bind_Ok in Hp as (x & _ & Hx). inv_ok.
  unfold providerForScheme, normalizeScheme in Hs. cbn [providers] in Hs.
  destruct (_ || _); [cbn in Hs; inv_ok; by apply transit_owns|].
  destruct (String.eqb scheme schemeEthereum); [cbn in Hs; inv_ok; by apply ethereum_owns|].
  destruct (String.eqb scheme schemePQC); [cbn in Hs; inv_ok; by apply pqc_owns|done].
Qed.

(** What the handlers get to work with. *)
Definition resolved (clientID a : string) (mp : keyMetadataRecord * kmsProvider W) : Prop :=
  validateAlias a = Ok tt /\ owned clientID a mp.1 /\ m_ProviderKey mp.1 <> "" /\ provider_owns clientID a mp.2.

Lemma own_metadataProvider clientID keyRef :
  own clientID (ref_alias keyRef) (metadataProvider p clientID keyRef) (resolved clientID (ref_alias keyRef)).
Proof.
  unfold metadataProvider, resolveKeyID, ref_alias. rewrite plugin_client.
  destruct (resolveKeyRef keyRef) as [[id a]|e] eqn:Er.
  - apply resolveKeyRef_Ok in Er as [-> Ha]. cbn [fmap result_fmap fst].
    eapply (triple_bind _ _ _ _ (fun id => id = keyIDPrefix +:+ a)); [own_step; apply triple_lift; by intros ? [= <-]|].
    intros ? ->. eapply triple_bind; [own_step; by apply own_getMetadata|]. intros m [Hm Hne].
    eapply (triple_bind _ _ _ _ (provider_owns clientID a)).
    + apply triple_lift. intros pr. by apply providerForScheme_owns.
    + intros pr Hpr. apply triple_ret. by split_and!.
  - eapply (triple_bind _ _ _ _ (fun _ => False)); [own_step; by apply triple_lift|done].
Qed.

Lemma own_require {A B} clientID a (r : option A) co fmt args (k : A -> M W B) Q :
  (forall t, r = Some t -> own clientID a (k t) Q) -> own clientID a (lift (require r co fmt args) ≫= k) Q.
Proof.
  intros Hk. destruct r as [t|]; cbn [require].
  - eapply (triple_bind _ _ _ _ (fun x => x = t)); [apply triple_lift; by intros ? [= <-]|]. intros ? ->. by apply Hk.
  - eapply (triple_bind _ _ _ _ (fun _ => False)); [by apply triple_lift|done].
Qed.

Lemma own_ignore {A} clientID a (m : M W A) : own clientID a m (fun _ => True) -> own clientID a (ignore m) (fun _ => True).
Proof. intros Hm. eapply triple_bind; [exact Hm|]. intros. by apply triple_ret. Qed.

(** The common shape: check the client, resolve the key, use a capability. *)
Lemma own_keyed {A} clientID keyRef (k : keyMetadataRecord * kmsProvider W -> M W A) :
  (forall mp, resolved clientID (ref_alias keyRef) mp -> own clientID (ref_alias keyRef) (k mp) (fun _ => True)) ->
  own clientID (ref_alias keyRef)
    (_ ← lift (requireClientID clientID); metadataProvider p clientID keyRef ≫= k) (fun _ => True).
Proof.
  intros Hk. own_step; [by own_step|]. eapply triple_bind; [apply own_metadataProvider|exact Hk].
Qed.

Lemma own_Decrypt req : own (dec_ClientId req) (call_alias (CallDecrypt req)) (Plugin_Decrypt p req) (fun _ => True).
Proof.
  unfold Plugin_Decrypt, call_alias. own_step; [by own_step|].
  destruct (decodeCiphertextBlob _) as [blob|e].
  2: { eapply (triple_bind _ _ _ _ (fun _ => False)); [own_step; by apply triple_lift|done]. }
  eapply (triple_bind _ _ _ _ (fun b => b = blob)); [own_step; apply triple_lift; by intros ? [= <-]|]. intros ? ->.
  own_step; [destruct (dec_KeyId req); own_auto|].
  eapply triple_bind; [apply own_metadataProvider|]. intros [m pr] (Ha & Hm & _ & Hpr). cbn [fst snd] in *.
  eapply (triple_bind _ _ _ _ (fun _ => blob_backendKey blob = tenant_key (dec_ClientId req) (ref_alias (blob_KeyID blob)))).
  - apply triple_lift. intros ? Hg. apply reject_Ok, orb_false_iff in Hg as [_ Hg].
    apply negb_false_iff, String.eqb_eq in Hg. rewrite <- Hg. by destruct Hm as (_ & ? & _).
  - intros _ Hb. apply own_require. intros t Ht. by eapply owns_decrypt.
Qed.

Lemma own_or_panic {A} clientID a (o : option A) : own clientID a (or_panic o) (fun _ => True).
Proof. destruct o; [by apply triple_ret|apply triple_panic]. Qed.

Lemma owned_normalize clientID a m : owned clientID a m -> m_ProviderKey m <> "" ->
  owned clientID a (meta_normalize m) /\ m_ProviderKey (meta_normalize m) <> "".
Proof.
  intros (H1 & H2 & H3) Hne. apply String.eqb_neq in Hne as Hne'. unfold owned, meta_backendKey, meta_normalize in *; cbn.
  rewrite Hne' in *. by rewrite Hne'.
Qed.

Lemma own_RotateKey req : own (kr_ClientId req) (ref_alias (kr_KeyId req)) (Plugin_RotateKey p req) (fun _ => True).
Proof.
  unfold Plugin_RotateKey. apply own_keyed. intros [m pr] (Ha & Hm & Hne & Hpr). cbn [fst snd] in *.
  apply own_require. intros t Ht. eapply triple_bind; [by eapply owns_rotate|]. intros m' [Hm' Hne'].
  destruct (owned_normalize _ _ _ Hm' Hne') as [Hn Hnn]. cbv zeta. own_step; [|apply own_or_panic]. own_step.
  rewrite plugin_client. pose proof Hn as (-> & _). by apply own_putMetadata.
Qed.

Lemma own_CreateKey now req : own (ck_ClientId req) (TrimSpace (ck_Alias req)) (Plugin_CreateKey p now req) (fun _ => True).
Proof.
  unfold Plugin_CreateKey. rewrite plugin_client. own_step; [by own_step|].
  own_step; [own_auto|]. cbv zeta. set (al := TrimSpace (ck_Alias req)).
  eapply (triple_bind _ _ _ _ (fun _ => validateAlias al = Ok tt)); [own_step; apply triple_lift; by intros []|].
  intros _ Ha. eapply (triple_bind _ _ _ _ (fun id => id = keyIDPrefix +:+ al)).
  { own_step. apply triple_lift. unfold canonicalKeyID. rewrite canonicalAlias_id by done. by intros ? [= <-]. }
  intros ? ->. eapply triple_bind; [by apply triple_attempt, own_getMetadata|]. intros existing _.
  own_step; [destruct existing; own_auto|].
  eapply (triple_bind _ _ _ _ (provider_owns (ck_ClientId req) al)); [apply triple_lift; intros pr; by apply providerForScheme_owns|].
  intros pr Hpr. eapply triple_bind; [by apply (owns_create _ _ _ Hpr)|]. intros m [Hm Hne].
  destruct (owned_normalize _ _ _ Hm Hne) as [Hn Hnn]. own_step; [|apply own_or_panic]. own_step. by apply own_putMetadata.
Qed.

Lemma own_call_any call : own (call_client call) (call_alias call) (run_call p call) (fun _ => True).
Proof.
  destruct call as [req|req|req|req|req|now req|req|req|req|req]; cbn [run_call call_client]; apply own_ignore.
  - apply own_keyed. intros [m pr] (Ha & Hm & _ & Hpr). apply own_require. intros t Ht. by eapply owns_encrypt.
  - apply own_Decrypt.
  - apply own_keyed. intros [m pr] (Ha & Hm & _ & Hpr). apply own_require. intros t Ht.
    own_step; [by eapply owns_sign|by own_step].
  - apply own_keyed. intros [m pr] (Ha & Hm & _ & Hpr). apply own_require. intros t Ht. by eapply owns_encap.
  - apply own_keyed. intros [m pr] (Ha & Hm & _ & Hpr). apply own_require. intros t Ht. by eapply owns_decap.
  - apply own_CreateKey.
  - apply own_keyed. intros [m pr] _. apply own_or_panic.
  - unfold Plugin_GetPublicKey. own_step; [by own_step|]. cbv zeta. own_step; [by own_step|].
    eapply triple_bind; [apply own_metadataProvider|]. intros [m pr] (Ha & Hm & _ & Hpr).
    apply own_require. intros t Ht. own_step; [by eapply owns_public|by own_step].
  - apply own_keyed. intros [m pr] (Ha & Hm & _ & Hpr). apply own_require. intros t Ht. by eapply owns_datakey.
  - apply own_RotateKey.
Qed.

(** C1: tenant isolation. Whatever a client asks the KMS plugin for, and whatever
    OpenBao answers, every request that is sent is about the one alias the call
    names in the namespace of the calling client (its metadata entry, or its
    backend key in one of the engines), and the store keeps holding only records
    that belong to the tenant they are stored under. *)
Theorem tenant_isolation call w : store_ok (backend w) ->
  exists l, sent (run_call p call w).1 = sent w ++ l /\
    Forall (tenant_request c (call_client call) (call_alias call)) l /\
    store_ok (backend (run_call p call w).1).
Proof.
  intros Hst. destruct (own_call_any call w Hst) as (l & Hl & Hf & Hst' & _). eauto.
Qed.

End Handlers.

End Tenant.

(** The resources of two tenants, or of two aliases of a tenant, never
    coincide: two requests with one target are about the same namespace and the
    same alias. *)
Theorem tenant_targets_disjoint c c1 a1 r1 c2 a2 r2 : client_ok c ->
  validateAlias a1 = Ok tt -> validateAlias a2 = Ok tt ->
  tenant_request c c1 a1 r1 -> tenant_request c c2 a2 r2 -> target r1 = target r2 ->
  tenantNamespace c1 = tenantNamespace c2 /\ a1 = a2.
Proof.
  intros Hc H1 H2 (l1 & Hl1 & Ht1) (l2 & Hl2 & Ht2) Heq. rewrite Ht1, Ht2 in Heq.
  destruct (tenant_segments_safe c c1 a1 l1 Hc H1 Hl1) as [N1 S1].
  destruct (tenant_segments_safe c c2 a2 l2 Hc H2 Hl2) as [N2 S2].
  apply joinPath_inj in Heq; try done. subst l2. by eapply tenant_segments_inj.
Qed.
