(* ===== verification/KmsRoundtrip.v ===== *)
(** * What a client encrypts it can decrypt

    End to end: the answer of [Encrypt], given back to [Decrypt] by the same
    client, returns the plaintext. The transit engine's promise is the interface
    [TransitEngine]; the kv engine's is [KvV2] with [KvUp] for its availability. *)

From S2P Require Import Prelude GoStrings Errors Codec Sha2 Json OpenBao GoTime KmsMapping KmsAuthorizer KmsClient KmsProviders KmsPlugin KmsTenant.

(** A stored value can be read. *)
Class KvUp (W : Type) `{KvV2 W c} := kv_up : forall st clientID a v, validateAlias a = Ok tt ->
  let p := metadataPath c clientID (keyIDPrefix +:+ a) in
  kv_lookup st p = Some v ->
  exists st' status body, serve st (mkRequest "GET" p None) = (st', Response 200 status body) /\ carries body v.

Definition encrypt_request (c : openBaoClient) (k pt : string) : request :=
  mkRequest "POST" (transitPath c ["encrypt"; k]) (Some (print (JObj [("plaintext", JStr pt)]))).
Definition decrypt_request (c : openBaoClient) (k ct : string) : request :=
  mkRequest "POST" (transitPath c ["decrypt"; k]) (Some (print (JObj [("ciphertext", JStr ct)]))).

(** The transit engine: a ciphertext it made opens to its plaintext from then
    on, under the same key; reads do not change that. (Requests are JSON, so only
    a plaintext that is UTF-8 reaches it unchanged.) *)
Class TransitEngine (W : Type) `{Backend W} (c : openBaoClient) := {
  opens : W -> string -> string -> string -> Prop;
  transit_encrypts : forall st k pt st' code status body, safe_segment k = true -> valid_utf8 pt = true ->
    serve st (encrypt_request c k pt) = (st', Response code status body) -> code < 400 ->
    exists ct, ct <> "" /\ valid_utf8 ct = true /\ opens st' k ct pt /\
      Unmarshal (data_of (one_string "ciphertext")) body "" = Ok ct;
  transit_decrypts : forall st k ct pt, safe_segment k = true -> opens st k ct pt ->
    exists st' status body, serve st (decrypt_request c k ct) = (st', Response 200 status body) /\
      Unmarshal (data_of (one_string "plaintext")) body "" = Ok pt;
  transit_get_frame : forall st p k ct pt, opens st k ct pt -> opens (serve st (mkRequest "GET" p None)).1 k ct pt;
}.

Section Roundtrip.
Context {W : Type} {HB : Backend W} {HCr : Crypto} {HCe : Cedar} (c : openBaoClient) {HKv : KvV2 W c}.
Context {HUp : KvUp W (c := c)} {HTr : TransitEngine W c}.
Context (Hc : client_ok c).
Context (Hmounts : kvMount c <> transitMount c /\ kvMount c <> ethereumMount c /\ kvMount c <> pqcMount c).
Context (p : Plugin (W := W)) (readFile : string -> result string) (cfg : option kmsConfig).
Context (Hp : newPluginWithConfig readFile cfg c = Ok p).

(** What a successful look-up of a key read. *)
Lemma metadataProvider_inv clientID keyRef w w' m pr : store_ok c (backend w) ->
  metadataProvider p clientID keyRef w = (w', Returned (Ok (m, pr))) ->
  exists a v, resolveKeyRef keyRef = Ok (keyIDPrefix +:+ a, a) /\ validateAlias a = Ok tt /\
    kv_lookup (backend w) (metadataPath c clientID (keyIDPrefix +:+ a)) = Some v /\
    owned clientID a m /\ providerForScheme p (m_Scheme m) = Ok pr /\
    backend w' = (serve (backend w) (mkRequest "GET" (metadataPath c clientID (keyIDPrefix +:+ a)) None)).1 /\
    (forall w2, kv_lookup (backend w2) (metadataPath c clientID (keyIDPrefix +:+ a)) = Some v ->
      exists w3, metadataProvider p clientID (keyIDPrefix +:+ a) w2 = (w3, Returned (Ok (m, pr))) /\
        backend w3 = (serve (backend w2) (mkRequest "GET" (metadataPath c clientID (keyIDPrefix +:+ a)) None)).1).
Proof.
  intros Hst Hrun. pose proof (own_metadataProvider c Hc Hmounts p readFile cfg Hp clientID keyRef w Hst) as Hown.
  rewrite Hrun in Hown. destruct Hown as (_ & _ & _ & _ & (Ha & Hm & _ & _)). cbn [fst snd] in *.
  unfold metadataProvider in Hrun. rewrite (plugin_client c p readFile cfg Hp) in Hrun.
  apply run_bind_inv in Hrun as (w1 & id & Hid & Hrun). apply run_on_err_inv, run_lift_inv in Hid as [-> Hid].
  unfold resolveKeyID in Hid. destruct (resolveKeyRef keyRef) as [[id' a]|] eqn:Er; [|done]. cbn in Hid. inv_ok.
  unfold ref_alias in *. rewrite Er in *. apply resolveKeyRef_Ok in Er as Er'. destruct Er' as [-> _].
  apply run_bind_inv in Hrun as (w2 & m' & Hget & Hrun). apply run_on_err_inv in Hget.
  apply run_bind_inv in Hrun as (w3 & pr' & Hpr & Hret). apply run_lift_inv in Hpr as [-> Hpr].
  assert (w' = w2 /\ m' = m /\ pr' = pr) as (-> & -> & ->) by (unfold mret, Prog_ret in Hret; by simplify_eq).
  unfold getMetadata in Hget. apply run_bind_inv in Hget as (w4 & rec & Hdo & Hown).
  apply run_do_into_inv in Hdo as (st & code & status & body & Hs & Hcode & -> & Hu).
  destruct (kv_read (backend w) clientID a code status body Ha) as (v & Hv & Hcar); [by rewrite Hs|done|].
  rewrite Hcar in Hu. cbv zeta in Hown. destruct (_ && _) eqn:Eo; [done|].
  assert (w2 = mkWorld st (sent w ++ [mkRequest "GET" (metadataPath c clientID (keyIDPrefix +:+ a)) None]) /\
    m = meta_normalize rec) as [-> ->] by (unfold mret, Prog_ret in Hown; by simplify_eq).
  exists a, v. split_and!; try done; [by rewrite Hs|].
  intros w5 Hv5. destruct (kv_up (backend w5) clientID a v Ha Hv5) as (st5 & status5 & body5 & Hs5 & Hcar5).
  exists (mkWorld st5 (sent w5 ++ [mkRequest "GET" (metadataPath c clientID (keyIDPrefix +:+ a)) None])).
  split; [|by rewrite Hs5]. unfold metadataProvider. rewrite (plugin_client c p readFile cfg Hp).
  unfold resolveKeyID. rewrite resolveKeyRef_keyID by done.
  erewrite run_bind; [|by apply run_on_err]. erewrite run_bind; [|apply run_on_err].
  2: { unfold getMetadata. erewrite run_bind; [|by eapply run_do_into; [exact Hs5|rewrite Hcar5; exact Hu]].
       cbv zeta. rewrite Eo. reflexivity. }
  erewrite run_bind; [reflexivity|]. unfold lift. by rewrite Hpr.
Qed.

Lemma cipher_is_transit scheme pr t : providerForScheme p scheme = Ok pr -> as_cipher pr = Some t ->
  (scheme = "" \/ scheme = schemeTransit) /\ t = mkCipherProvider W (transit_Encrypt c) (transit_Decrypt c).
Proof.
  intros Hs Ht. unfold newPluginWithConfig in Hp. apply bind_Ok in Hp as (x & _ & Hx). inv_ok.
  unfold providerForScheme, normalizeScheme in Hs. cbn [providers] in Hs.
  destruct (String.eqb_spec scheme "") as [->|]; [cbn in Hs; inv_ok; cbn in Ht; simplify_eq; auto|].
  destruct (String.eqb_spec scheme schemeTransit) as [->|]; [cbn in Hs; inv_ok; cbn in Ht; simplify_eq; auto|].
  cbn [orb] in Hs.
  destruct (String.eqb scheme schemeEthereum); [cbn in Hs; by inv_ok|].
  destruct (String.eqb scheme schemePQC); [cbn in Hs; by inv_ok|done].
Qed.

Lemma require_inv {A} (t : option A) co fmt args x : require t co fmt args = Ok x -> t = Some x.
Proof. destruct t; cbn; intros; by inv_ok. Qed.

(** What a successful run of the provider's [Encrypt] did. *)
Lemma transit_Encrypt_inv m req w w' resp : transit_Encrypt c m req w = (w', Returned (Ok resp)) ->
  exists code status body ct alg,
    serve (backend w) (encrypt_request c (meta_backendKey m) (enc_Plaintext req)) = (backend w', Response code status body) /\
    code < 400 /\ Unmarshal (data_of (one_string "ciphertext")) body "" = Ok ct /\ alg = encryptionAlgorithmAES256GCM96 /\
    encodeCiphertextBlob (m_Scheme m) (m_KeyID m) (meta_backendKey m) ct alg = Ok (encr_CiphertextBlob resp) /\
    encr_KeyId resp = m_KeyID m /\ encr_EncryptionAlgorithm resp = alg.
Proof.
  unfold transit_Encrypt. intros Hr. apply run_bind_inv in Hr as (w1 & alg & Halg & Hr).
  apply run_on_err_inv, run_lift_inv in Halg as [-> Halg].
  apply run_bind_inv in Hr as (w2 & u & Hg & Hr). apply run_lift_inv in Hg as [-> _].
  apply run_bind_inv in Hr as (w3 & ct & He & Hr). apply run_on_err_inv, run_do_into_inv in He as (st & code & status & body & Hs & Hcode & -> & Hu).
  apply run_bind_inv in Hr as (w4 & blob & Hb & Hr). apply run_on_err_inv, run_lift_inv in Hb as [-> Hb].
  unfold mret, Prog_ret in Hr. simplify_eq. exists code, status, body, ct, alg. split_and!; try done.
  unfold normalizeEncryptionAlgorithm in Halg. destruct (_ || _); by inv_ok.
Qed.

(** A run of [Plugin_Decrypt] on a transit key, when every check passes. *)
Lemma Plugin_Decrypt_run clientID text keyId alg w w3 blob m pr pt st status body :
  requireClientID clientID = Ok tt -> decodeCiphertextBlob text = Ok blob ->
  match keyId with None => True | Some r => resolveKeyID r = Ok (blob_KeyID blob) end ->
  metadataProvider p clientID (blob_KeyID blob) w = (w3, Returned (Ok (m, pr))) ->
  m_KeyID m = blob_KeyID blob -> meta_backendKey m = blob_backendKey blob ->
  as_cipher pr = Some (mkCipherProvider W (transit_Encrypt c) (transit_Decrypt c)) ->
  serve (backend w3) (decrypt_request c (blob_backendKey blob) (blob_Ciphertext blob)) = (st, Response 200 status body) ->
  Unmarshal (data_of (one_string "plaintext")) body "" = Ok pt ->
  exists w2, Plugin_Decrypt p (mkDecryptRequest text keyId alg clientID) w =
    (w2, Returned (Ok (mkDecryptResponse pt (blob_KeyID blob) (blob_Algorithm blob)))).
Proof.
  intros Hcl Hdec Href Hmp Hk Hb Ht Hs Hu. eexists. unfold Plugin_Decrypt. cbn [dec_ClientId dec_CiphertextBlob dec_KeyId].
  erewrite run_bind; [|unfold lift; by rewrite Hcl]. rewrite Hdec. erewrite run_bind; [|by apply run_on_err].
  erewrite (run_bind _ _ w w tt).
  2: { destruct keyId as [r|]; [|done]. rewrite Href. erewrite run_bind; [|by apply run_on_err]. unfold guard_err, lift.
       by rewrite String.eqb_refl. }
  erewrite run_bind; [|exact Hmp]. cbv beta iota. erewrite (run_bind _ _ w3 w3 tt).
  2: { unfold guard_err, lift. by rewrite Hk, Hb, !String.eqb_refl. }
  erewrite run_bind; [|unfold lift, requireCipherProvider; rewrite Ht; reflexivity]. cbn [Decrypt]. unfold transit_Decrypt.
  erewrite run_bind; [|apply run_on_err; eapply run_do_into; [exact Hs|exact Hu]]. reflexivity.
Qed.

(** C5: encryption round trip. A blob that [Encrypt] returned to a client is
    decrypted for that client to the plaintext of the request, with the key id and
    the algorithm of the answer, whether or not the request repeats the key
    reference. (Protobuf strings are UTF-8.) *)
Theorem Encrypt_Decrypt_roundtrip req w w1 resp keyId alg :
  store_ok c (backend w) -> valid_utf8 (enc_Plaintext req) = true ->
  Plugin_Encrypt p req w = (w1, Returned (Ok resp)) ->
  match keyId with None => True | Some r => resolveKeyRef r = resolveKeyRef (enc_KeyId req) end ->
  exists w2, Plugin_Decrypt p (mkDecryptRequest (encr_CiphertextBlob resp) keyId alg (enc_ClientId req)) w1 =
    (w2, Returned (Ok (mkDecryptResponse (enc_Plaintext req) (encr_KeyId resp) (encr_EncryptionAlgorithm resp)))).
Proof.
  intros Hst Hpt Henc Href. unfold Plugin_Encrypt in Henc.
  apply run_bind_inv in Henc as (w0 & [] & Hcl & Henc). apply run_lift_inv in Hcl as [-> Hcl].
  apply run_bind_inv in Henc as (wm & [m pr] & Hmp & Henc).
  apply run_bind_inv in Henc as (wc & t & Hreq & Henc). apply run_lift_inv in Hreq as [-> Hreq].
  apply require_inv in Hreq as Ht.
  destruct (metadataProvider_inv _ _ _ _ _ _ Hst Hmp) as (a & v & Hres & Ha & Hv & (Hk & Hb & _) & Hsch & Hwm & Hagain).
  destruct (cipher_is_transit _ _ _ Hsch Ht) as [Hscheme ->]. cbn [Encrypt] in Henc.
  apply transit_Encrypt_inv in Henc as (code & status & body & ct & al & Hs & Hcode & Hu & -> & Hblob & Hkid & Halg).
  assert (safe_segment (meta_backendKey m) = true) as Hsafe by (rewrite Hb; by apply tenant_key_safe).
  destruct (transit_encrypts _ _ _ _ _ _ _ Hsafe Hpt Hs Hcode) as (ct' & Hne & Hutf & Hopen & Hu').
  assert (ct' = ct) as -> by congruence.
  assert (decodeCiphertextBlob (encr_CiphertextBlob resp) =
    Ok (mkBlob 1 (or_default (m_Scheme m) schemeTransit) (m_KeyID m) (meta_backendKey m) "" ct encryptionAlgorithmAES256GCM96)) as Hdec.
  { rewrite Hk, Hb in *. eapply blob_roundtrip; [done|apply tenant_key_not_empty|done|done| |exact Hblob].
    unfold blob_utf8; cbn [blob_Scheme blob_KeyID blob_ProviderKey blob_TransitKey blob_Ciphertext blob_Algorithm].
    split_and!; [by destruct Hscheme as [-> | ->]|by apply keyID_utf8|by apply tenant_key_utf8|done|done|done]. }
  assert (kv_lookup (backend w1) (metadataPath c (enc_ClientId req) (keyIDPrefix +:+ a)) = Some v) as Hv1.
  { replace (backend w1) with (serve (backend wm) (encrypt_request c (meta_backendKey m) (enc_Plaintext req))).1 by (by rewrite Hs).
    rewrite (kv_mount_frame _ _ ["v1"; transitMount c; "encrypt"; tenant_key (enc_ClientId req) a]).
    - rewrite Hwm, kv_get_frame. done.
    - by rewrite Hb.
    - eapply engine_segments_safe; [done|by apply tenant_key_safe|apply seg_encrypt].
    - cbn. destruct Hmounts. congruence. }
  destruct (Hagain w1 Hv1) as (w3 & Hmp3 & Hw3).
  assert (opens (backend w3) (meta_backendKey m) ct (enc_Plaintext req)) as Hopen3 by (rewrite Hw3; by apply transit_get_frame).
  destruct (transit_decrypts _ _ _ _ Hsafe Hopen3) as (st & status' & body' & Hs' & Hu2).
  assert (forall s0, blob_backendKey (mkBlob 1 s0 (keyIDPrefix +:+ a) (meta_backendKey m) "" ct encryptionAlgorithmAES256GCM96) = meta_backendKey m) as Hkey.
  { intros s0. unfold blob_backendKey. cbn. pose proof (tenant_key_not_empty (enc_ClientId req) a) as Hn. rewrite <- Hb in Hn.
    apply String.eqb_neq in Hn. by rewrite Hn. }
  rewrite Hk in Hdec. destruct (Plugin_Decrypt_run (enc_ClientId req) (encr_CiphertextBlob resp) keyId alg w1 w3
    (mkBlob 1 (or_default (m_Scheme m) schemeTransit) (keyIDPrefix +:+ a) (meta_backendKey m) "" ct encryptionAlgorithmAES256GCM96)
    m pr (enc_Plaintext req) st status' body') as [w2 Hw2]; try done.
  - destruct keyId as [r|]; [|done]. unfold resolveKeyID. by rewrite Href, Hres.
  - by rewrite Hkey.
  - exists w2. rewrite Hw2. by rewrite Hkid, Halg, Hk.
Qed.

End Roundtrip.
