(* ===== verification/KmsHandlers.v ===== *)
(** * Error paths and guarantees of single KMS handlers *)

From S2P Require Import Prelude GoStrings Errors Codec Sha2 Json OpenBao GoTime KmsMapping KmsAuthorizer KmsClient KmsProviders KmsPlugin KmsTenant KmsRoundtrip.

(** ** Runs that fail *)

Section Failing.
Context {W : Type} `{Backend W}.

(** An error of one exchange is a 404 exactly when the server answered 404. *)
Lemma reply_not_found rep e : reply_error rep = Some e ->
  isOpenBaoStatus e http_StatusNotFound = true <-> exists status body, rep = Response 404 status body.
Proof.
  unfold isOpenBaoStatus, reply_error. intros He. destruct rep as [msg|msg|code status body].
  - injection He as <-. split; [done|]. by intros (? & ? & ?).
  - injection He as <-. split; [done|]. by intros (? & ? & ?).
  - destruct (Z.leb_spec 400 code); [|done]. injection He as <-. cbn. rewrite Z.eqb_eq. unfold http_StatusNotFound.
    split; [intros ->; eauto|]. by intros (? & ? & [= ->]).
Qed.

End Failing.

Section Handlers.
Context {W : Type} {HB : Backend W} {HCr : Crypto} {HCe : Cedar}.

Definition metadata_get (c : openBaoClient) (clientID keyID : string) : request :=
  mkRequest "GET" (metadataPath c clientID keyID) None.

(** The error of a key look-up: an invalid reference is InvalidArgument and
    sends nothing; when the one metadata read fails, a 404 of OpenBao becomes
    PermissionDenied, so that a client cannot tell a missing key from another
    tenant's, and any other failure becomes Internal. *)
Theorem metadataProvider_errors (p : Plugin (W := W)) clientID keyRef w :
  match resolveKeyRef keyRef with
  | Err e => metadataProvider p clientID keyRef w = (w, Returned (Err (StatusErr InvalidArgument e)))
  | Ok (id, _) =>
      let '(st, rep) := serve (backend w) (metadata_get (client p) clientID id) in
      match reply_error rep with
      | None => True
      | Some e =>
          metadataProvider p clientID keyRef w =
            (mkWorld st (sent w ++ [metadata_get (client p) clientID id]),
             Returned (Err (match rep with
                            | Response 404 _ _ => StatusErr PermissionDenied
                                (Errorf "key does not belong to the authenticated client" [])
                            | _ => StatusErr Internal e
                            end)))
      end
  end.
Proof.
  unfold metadataProvider, resolveKeyID. destruct (resolveKeyRef keyRef) as [[id a]|e] eqn:Er.
  - destruct (serve _ _) as [st rep] eqn:Es. destruct (reply_error rep) as [e|] eqn:Ee; [|done].
    erewrite run_bind; [|by apply run_on_err].
    erewrite run_bind_err; [|eapply run_on_err_err; unfold getMetadata; eapply run_bind_err, run_do_into_err; [exact Es|exact Ee]].
    do 3 f_equal. pose proof (reply_not_found rep e Ee) as Hnf.
    destruct (isOpenBaoStatus e http_StatusNotFound).
    + destruct Hnf as [Hnf _]. destruct (Hnf eq_refl) as (status & body & ->). done.
    + destruct Hnf as [_ Hnf]. destruct rep as [| |code status body]; try done.
      destruct (decide (code = 404)) as [->|Hne]; [by discriminate Hnf; eauto|].
      destruct code as [|q|q]; try done. do 9 (destruct q as [q|q|]; try done).
  - by apply run_bind_err, run_on_err_err.
Qed.

(** ** CreateKey *)

(** Decoding errors carry no HTTP status. *)
Definition plain {R} (d : decoder R) : Prop := forall v r e, d v r = Err e -> as_StatusError e = None.

Lemma plain_string : plain dec_string.
Proof. intros [] r e; cbn; congruence || by intros [= <-]. Qed.
Lemma plain_bool : plain dec_bool.
Proof. intros [] r e; cbn; congruence || by intros [= <-]. Qed.
Lemma plain_uint32 : plain dec_uint32.
Proof.
  intros [] r e; cbn; try (congruence || by intros [= <-]).
  destruct (parse_nat lit); [|by intros [= <-]]. destruct (_ <? _); [done|]. by intros [= <-].
Qed.

Lemma plain_members {R} (fs : list (field R)) l : Forall (fun f => plain (field_dec f)) fs -> forall r e,
  dec_members fs l r = Err e -> as_StatusError e = None.
Proof.
  intros Hf. induction l as [|[k v] l IH]; intros r e Hd; cbn in Hd; [done|].
  destruct (find_field fs k) as [f|] eqn:Ef; [|by eapply IH].
  destruct (field_dec f v r) as [r'|e'] eqn:Ed; cbn in Hd; [by eapply IH|].
  assert (f ∈ fs) as Hin.
  { unfold find_field in Ef. apply list_elem_of_In. destruct (find _ fs) as [g|] eqn:Eg.
    - apply find_some in Eg as [? _]. by simplify_eq.
    - by apply find_some in Ef as [? _]. }
  injection Hd as ->. rewrite Forall_forall in Hf. by eapply (Hf f Hin).
Qed.

Lemma plain_struct {R} (fs : list (field R)) : Forall (fun f => plain (field_dec f)) fs -> plain (dec_struct fs).
Proof. intros Hf [] r e; cbn; try (congruence || by intros [= <-]). by apply plain_members. Qed.

Lemma plain_fld {R A} name get set (d : decoder A) : plain d -> plain (field_dec (fld (R := R) name get set d)).
Proof. intros Hd v r e. cbn. destruct (d v (get r)) eqn:E; cbn; [done|]. intros [= <-]. by eapply Hd. Qed.

Lemma plain_tags : plain dec_tags.
Proof.
  assert (plain (dec_ptr (mkTag "" "") (dec_struct pluginTag_fields))) as Hp.
  { intros v r e. unfold dec_ptr.
    assert (plain (dec_struct pluginTag_fields)) as Hs
      by (apply plain_struct; repeat (apply Forall_cons; split; [apply plain_fld, plain_string|]); constructor).
    destruct v; [done|..]; destruct (dec_struct pluginTag_fields _ _) as [x|e'] eqn:E; cbn; try done;
      intros [= <-]; by eapply Hs. }
  intros [] r e; cbn; try (congruence || by intros [= <-]). induction l as [|x l IH]; cbn; [done|].
  destruct (dec_ptr _ _ x None) as [y|e'] eqn:E; cbn; [|intros [= <-]; by eapply Hp].
  destruct (all_ok _ l) as [ys|e'']; cbn; [done|]. intros [= <-]. by apply IH.
Qed.

Lemma plain_metadata : plain (data_of (data_of (dec_struct keyMetadataRecord_fields))).
Proof.
  do 2 (apply plain_struct; apply Forall_cons; split; [apply plain_fld|constructor]). apply plain_struct.
  repeat (apply Forall_cons; split;
    [apply plain_fld; first [apply plain_string|apply plain_bool|apply plain_uint32|apply plain_tags]|]).
  constructor.
Qed.

(** A metadata read fails with a 404 only when OpenBao answers 404. *)
Lemma getMetadata_run c clientID keyID w :
  let req := metadata_get c clientID keyID in
  let '(st, rep) := serve (backend w) req in
  exists r, getMetadata c clientID keyID w = (mkWorld st (sent w ++ [req]), Returned r) /\
    (forall e, r = Err e -> isOpenBaoStatus e http_StatusNotFound = true -> exists status body, rep = Response 404 status body).
Proof.
  cbv zeta. destruct (serve _ _) as [st rep] eqn:Es. destruct (reply_error rep) as [e|] eqn:Ee.
  - exists (Err e). split.
    + unfold getMetadata. by eapply run_bind_err, run_do_into_err.
    + intros e' [= <-] Hnf. by eapply reply_not_found.
  - destruct rep as [| |code status body]; try done. cbn in Ee. destruct (400 <=? code) eqn:Ec; [done|].
    unfold getMetadata, Get, do_into, exchange, mbind, Prog_bind, lift, metadata_get in *. rewrite Es, Ec.
    destruct (Unmarshal _ body empty_meta) as [r|e] eqn:Eu; cbn [map_err].
    + cbv zeta. destruct (_ && _); eexists; (split; [reflexivity|]); [|done]. intros e [= <-]. done.
    + eexists. split; [reflexivity|]. intros e' [= <-] Hnf. exfalso. revert Hnf. unfold isOpenBaoStatus. cbn.
      unfold Unmarshal in Eu. destruct (parse body) as [v|]; [|by injection Eu as <-].
      by rewrite (plain_metadata _ _ _ Eu).
Qed.

(** C34: CreateKey never touches an alias that may be taken. Malformed requests are
    rejected with InvalidArgument before anything is sent; otherwise the only
    request made is the read of the alias' metadata, and unless OpenBao answers
    it with a 404 the call ends there, with AlreadyExists when a record was read
    and Internal when the read failed. *)
Theorem CreateKey_guarded (p : Plugin (W := W)) now req w :
  let get := metadata_get (client p) (ck_ClientId req) (keyIDPrefix +:+ TrimSpace (ck_Alias req)) in
  let '(st, rep) := serve (backend w) get in
  let run := Plugin_CreateKey p now req w in
  if is_ok (requireClientID (ck_ClientId req)) && is_ok (normalizeScheme (optionalString (ck_Scheme req)))
     && is_ok (validateAlias (TrimSpace (ck_Alias req)))
  then (exists status body, rep = Response 404 status body) \/
       exists e, run = (mkWorld st (sent w ++ [get]), Returned (Err e)) /\
         status_code e = match getMetadata (client p) (ck_ClientId req) (keyIDPrefix +:+ TrimSpace (ck_Alias req)) w with
                         | (_, Returned (Ok _)) => AlreadyExists
                         | _ => Internal
                         end
  else exists e, run = (w, Returned (Err e)) /\ status_code e = InvalidArgument.
Proof.
  cbv zeta. destruct (serve _ _) as [st rep] eqn:Es. unfold Plugin_CreateKey.
  destruct (requireClientID (ck_ClientId req)) as [[]|e] eqn:Ecl; cbn [is_ok andb].
  2: { exists e. split; [by apply run_bind_err|]. unfold requireClientID, reject in Ecl. destruct (String.eqb _ _); by simplify_eq. }
  erewrite run_bind by reflexivity.
  destruct (normalizeScheme _) as [s|e]; cbn [is_ok andb].
  2: { eexists. split; [by apply run_bind_err, run_on_err_err|done]. }
  erewrite run_bind by (by apply run_on_err). cbv zeta.
  destruct (validateAlias _) as [[]|e] eqn:Ea; cbn [is_ok andb].
  2: { eexists. split; [by apply run_bind_err, run_on_err_err|done]. }
  erewrite run_bind by (by apply run_on_err).
  unfold canonicalKeyID. rewrite canonicalAlias_id by done.
  erewrite run_bind by (by apply run_on_err).
  pose proof (getMetadata_run (client p) (ck_ClientId req) (keyIDPrefix +:+ TrimSpace (ck_Alias req)) w) as Hg.
  cbv zeta in Hg. rewrite Es in Hg. destruct Hg as (r & Hr & Hnf). rewrite Hr.
  erewrite run_bind by (unfold attempt; by rewrite Hr). destruct r as [m|e].
  - right. eexists. split; [by apply run_bind_err|done].
  - destruct (isOpenBaoStatus e http_StatusNotFound) eqn:E4; [left; by eapply Hnf|].
    right. eexists. split; [apply run_bind_err; unfold guard_err, lift, reject; cbn [negb]; reflexivity|done].
Qed.

End Handlers.

(** ** Guarantees that rest on the stored metadata *)

Section Stored.
Context {W : Type} {HB : Backend W} {HCr : Crypto} {HCe : Cedar} (c : openBaoClient) {HKv : KvV2 W c}.
Context (Hc : client_ok c).
Context (Hmounts : kvMount c <> transitMount c /\ kvMount c <> ethereumMount c /\ kvMount c <> pqcMount c).
Context (p : Plugin (W := W)) (readFile : string -> result string) (cfg : option kmsConfig).
Context (Hp : newPluginWithConfig readFile cfg c = Ok p).

(** A look-up returns, having sent at most the one read. *)
Lemma metadataProvider_run clientID keyRef w : exists w' r,
  metadataProvider p clientID keyRef w = (w', Returned r) /\
  (sent w' = sent w \/ sent w' = sent w ++ [metadata_get c clientID (keyIDPrefix +:+ ref_alias keyRef)]).
Proof.
  unfold metadataProvider, resolveKeyID, ref_alias. rewrite (plugin_client c p readFile cfg Hp).
  destruct (resolveKeyRef keyRef) as [[id a]|e] eqn:Er.
  - apply resolveKeyRef_Ok in Er as [-> _]. erewrite run_bind by (by apply run_on_err). cbn [fst].
    pose proof (getMetadata_run c clientID (keyIDPrefix +:+ a) w) as Hg. cbv zeta in Hg.
    destruct (serve _ _) as [st rep]. destruct Hg as ([m|e] & Hr & _).
    + erewrite run_bind by (by apply run_on_err). unfold mbind, Prog_bind, lift.
      destruct (providerForScheme p (m_Scheme m)); eexists _, _; (split; [reflexivity|by right]).
    + eexists _, _. split; [by apply run_bind_err, run_on_err_err|by right].
  - eexists _, _. split; [by apply run_bind_err, run_on_err_err|by left].
Qed.

(** A ciphertext is only ever decrypted under the calling tenant's own key. A
    blob that names any other backend key than the one of its alias in the
    caller's namespace is rejected with an error, and no more than the caller's
    own metadata entry is read. *)
Theorem Decrypt_rejects_foreign req blob w : store_ok c (backend w) ->
  decodeCiphertextBlob (dec_CiphertextBlob req) = Ok blob ->
  blob_backendKey blob <> tenant_key (dec_ClientId req) (ref_alias (blob_KeyID blob)) ->
  exists w' e, Plugin_Decrypt p req w = (w', Returned (Err e)) /\
    (sent w' = sent w \/ sent w' = sent w ++ [metadata_get c (dec_ClientId req) (keyIDPrefix +:+ ref_alias (blob_KeyID blob))]).
Proof.
  intros Hst Hdec Hne. unfold Plugin_Decrypt.
  destruct (requireClientID (dec_ClientId req)) as [[]|e]; [|eexists _, _; split; [by apply run_bind_err|by left]].
  erewrite run_bind by reflexivity. rewrite Hdec. erewrite run_bind by (by apply run_on_err).
  match goal with |- context [(?m ≫= ?k) w] => assert (exists r, m w = (w, Returned r)) as (r & Hr) end.
  { destruct (dec_KeyId req) as [k|]; [|by eexists]. unfold mbind, Prog_bind, as_status, on_err, lift, guard_err.
    destruct (resolveKeyID k); by eexists. }
  destruct r as [[]|e]; [|eexists _, _; split; [by apply run_bind_err|by left]].
  erewrite run_bind by exact Hr.
  destruct (metadataProvider_run (dec_ClientId req) (blob_KeyID blob) w) as (w' & r & Hm & Hs).
  pose proof (own_metadataProvider c Hc Hmounts p readFile cfg Hp (dec_ClientId req) (blob_KeyID blob) w Hst) as Ho.
  rewrite Hm in Ho. destruct Ho as (l & _ & _ & _ & Ho).
  destruct r as [[m pr]|e]; [|eexists _, _; split; [by apply run_bind_err|done]].
  destruct Ho as (_ & (_ & Hb & _) & _). cbn [fst snd] in *. erewrite run_bind by exact Hm. cbv beta iota.
  exists w'. eexists. split; [|exact Hs]. apply run_bind_err. unfold guard_err, lift, reject. rewrite Hb.
  apply not_eq_sym, String.eqb_neq in Hne. by rewrite Hne, orb_true_r.
Qed.

Lemma metadataProvider_scheme clientID keyRef w w' m pr :
  metadataProvider p clientID keyRef w = (w', Returned (Ok (m, pr))) -> providerForScheme p (m_Scheme m) = Ok pr.
Proof. unfold metadataProvider. intros Hr. by inv_run. Qed.

(** The provider of a scheme. *)
Lemma providerForScheme_inv scheme pr : providerForScheme p scheme = Ok pr ->
  (scheme = "" \/ scheme = schemeTransit) /\ pr = newTransitProvider c \/
  scheme = schemeEthereum /\ pr = newEthereumProvider c \/ scheme = schemePQC /\ pr = newPQCProvider c.
Proof.
  intros Hs. unfold newPluginWithConfig in Hp. apply bind_Ok in Hp as (x & _ & Hx). inv_ok.
  unfold providerForScheme, normalizeScheme in Hs. cbn [providers] in Hs.
  destruct (String.eqb_spec scheme "") as [->|]; [cbn in Hs; inv_ok; auto|].
  destruct (String.eqb_spec scheme schemeTransit) as [->|]; [cbn in Hs; inv_ok; auto|]. cbn [orb] in Hs.
  destruct (String.eqb_spec scheme schemeEthereum) as [->|]; [cbn in Hs; inv_ok; auto|].
  destruct (String.eqb_spec scheme schemePQC) as [->|]; [cbn in Hs; inv_ok; auto|done].
Qed.

(** The request with which a message is signed by the transit engine. *)
Definition sign_request (m : keyMetadataRecord) (req : SignRequest) (mapping : signMapping) (version : Z) : request :=
  mkRequest "POST" (transitPath c ["sign"; meta_backendKey m; pathAlgorithm mapping])
    (Some (print (sign_body (sig_Message req) mapping version))).

(** The key version a signature is reported with is the version it was made
    with: a successful Sign answers with the key id and the primary version of
    the metadata it read, and a transit key was asked to sign with exactly that
    version, however often it has been rotated since. *)
Theorem Sign_version req w w' resp : Plugin_Sign p req w = (w', Returned (Ok resp)) ->
  exists w1 m pr, metadataProvider p (sig_ClientId req) (sig_KeyId req) w = (w1, Returned (Ok (m, pr))) /\
    sigr_KeyVersion resp = m_PrimaryVersion m /\ sigr_KeyId resp = m_KeyID m /\
    sigr_SigningAlgorithm resp = sig_SigningAlgorithm req /\
    (m_Scheme m = schemeTransit -> exists mapping,
      signingConfig (sig_SigningAlgorithm req) (optionalString (sig_MessageType req)) = Ok mapping /\
      sent w' = sent w1 ++ [sign_request m req mapping (sigr_KeyVersion resp)]).
Proof.
  unfold Plugin_Sign. intros Hr. apply run_bind_inv in Hr as (w0 & [] & Hcl & Hr). apply run_lift_inv in Hcl as [-> _].
  apply run_bind_inv in Hr as (w1 & [m pr] & Hm & Hr). pose proof (metadataProvider_scheme _ _ _ _ _ _ Hm) as Hpr.
  apply run_bind_inv in Hr as (w2 & s & Hs & Hr). apply run_lift_inv in Hs as [-> Hs]. apply require_inv in Hs.
  apply run_bind_inv in Hr as (w3 & r & Hsign & Hr). inv_run. exists w1, m, pr. split; [done|].
  cbn [sigr_KeyVersion sigr_KeyId sigr_SigningAlgorithm].
  destruct (providerForScheme_inv _ _ Hpr) as [[Hsc ->]|[[Hsc ->]|[Hsc ->]]]; cbn in Hs; injection Hs as <-.
  - unfold transit_Sign in Hsign. inv_run. split_and!; [done..|]. intros _. eexists. split; [done|].
    match goal with H : sign _ _ _ _ _ _ = _ |- _ => apply run_do_into_inv in H as (?&?&?&?&_&_&->&_) end. done.
  - unfold ethereum_Sign in Hsign. apply run_bind_inv in Hsign as (w5 & _ & _ & Hsign).
    apply run_bind_inv in Hsign as (w6 & _ & _ & Hsign). apply run_bind_inv in Hsign as (w7 & [si h] & _ & Hsign).
    inv_run. split_and!; [done..|]. by rewrite Hsc.
  - unfold pqc_Sign, internal in Hsign. inv_run.
    repeat match goal with H : (if ?b then _ else _) _ = _ |- _ => destruct b; inv_run end.
    split_and!; [done..|]. by rewrite Hsc.
Qed.

(** ** A key that was created can be described *)

(** A write that is acknowledged is stored. *)
Class KvWrites := kv_written : forall st clientID a text v st' code status body, validateAlias a = Ok tt ->
  let q := metadataPath c clientID (keyIDPrefix +:+ a) in
  parse text = Some (JObj [("data", v)]) ->
  serve st (mkRequest "POST" q (Some text)) = (st', Response code status body) -> code < 400 ->
  kv_lookup st' q = Some v.

Definition proto_clean (k : KeyMetadata) : KeyMetadata :=
  mkKeyMetadata (sanitize (KeyId k)) (sanitize (Description k)) (sanitize (KeySpec k)) (sanitize (KeyUsage k))
    (Enabled k) (PrimaryVersion k) (sanitize (CreationDate k))
    (map (fun t => mkProtoTag (sanitize (TagKey t)) (sanitize (TagValue t))) (Tags k)) (sanitize (Scheme k))
    (sanitize <$> PublicKey k) (sanitize <$> Address k) (sanitize (Alias k)).

Lemma sanitize_empty s : String.eqb (sanitize s) "" = String.eqb s "".
Proof.
  destruct s as [|ch s]; [done|]. unfold sanitize. cbn [sanitize_from].
  destruct (rune_len (String ch s)); done.
Qed.

Lemma normalize_clean m : meta_normalize (meta_clean m) = meta_clean (meta_normalize m).
Proof.
  unfold meta_normalize, meta_clean; cbn. rewrite !sanitize_empty.
  by destruct (String.eqb (m_Scheme m) ""), (String.eqb (m_ProviderKey m) "").
Qed.

Lemma normalize_idem m : meta_normalize (meta_normalize m) = meta_normalize m.
Proof.
  unfold meta_normalize; cbn. f_equal.
  - by destruct (String.eqb (m_Scheme m) "") eqn:E; [|rewrite E].
  - destruct (String.eqb (m_ProviderKey m) "") eqn:E; [by destruct (String.eqb (m_TransitKey m) "")|by rewrite E].
Qed.

Lemma toProtoTags_clean l : toProtoTags (map tag_clean l) =
  map (fun t => mkProtoTag (sanitize (TagKey t)) (sanitize (TagValue t))) <$> toProtoTags l.
Proof.
  induction l as [|[t|] l IH]; cbn; [done| |done]. rewrite IH. by destruct (toProtoTags l).
Qed.

Lemma toProtoMetadata_clean m : toProtoMetadata (meta_clean m) = proto_clean <$> toProtoMetadata m.
Proof.
  unfold toProtoMetadata. rewrite normalize_clean. cbn [meta_clean m_Tags]. rewrite toProtoTags_clean.
  destruct (toProtoTags (m_Tags (meta_normalize m))) as [tags|]; [|done]. cbn. unfold proto_clean; cbn.
  unfold opt_string. rewrite !sanitize_empty.
  by destruct (String.eqb (m_PublicKey m) ""), (String.eqb (m_Address m) "").
Qed.

(** What the providers record of the request. *)
Lemma created_record scheme pr req keyID now w w' m : providerForScheme p scheme = Ok pr ->
  CreateKey pr req keyID now w = (w', Returned (Ok m)) ->
  m_ClientID m = ck_ClientId req /\
  (m_Scheme m = schemeTransit \/ m_Scheme m = schemeEthereum \/ m_Scheme m = schemePQC).
Proof.
  intros Hpr Hr. destruct (providerForScheme_inv _ _ Hpr) as [[_ ->]|[[_ ->]|[_ ->]]]; cbn in Hr.
  - unfold transit_CreateKey in Hr. inv_run. auto.
  - unfold ethereum_CreateKey in Hr. inv_run. auto.
  - unfold pqc_CreateKey, internal in Hr. apply run_bind_inv in Hr as (w5 & _ & _ & Hr).
    apply run_bind_inv in Hr as (w6 & k & _ & Hr). apply run_bind_inv in Hr as (w7 & [ki va] & _ & Hr).
    destruct (_ && _); inv_run. auto.
Qed.

(** Reading a record that is stored in a readable form. *)
Lemma GetKeyMetadata_stored `{!KvUp W (c := c)} clientID a m pr w : validateAlias a = Ok tt ->
  requireClientID clientID = Ok tt -> valid_utf8 clientID = true -> is_u32 (m_PrimaryVersion m) ->
  m_ClientID m = clientID -> meta_normalize m = m ->
  providerForScheme p (m_Scheme m) = Ok pr ->
  kv_lookup (backend w) (metadataPath c clientID (keyIDPrefix +:+ a)) = Some (clean (meta_json m)) ->
  exists w', Plugin_GetKeyMetadata p (mkKeyRequest (keyIDPrefix +:+ a) clientID) w =
    or_panic (proto_clean <$> toProtoMetadata m) w'.
Proof.
  intros Ha Hcl Hutf Hv Hcm Hn Hpr Hst.
  destruct (kv_up (backend w) clientID a _ Ha Hst) as (st & status & body & Hs & Hcar).
  eexists. unfold Plugin_GetKeyMetadata. cbn [kr_ClientId kr_KeyId].
  erewrite run_bind; [|unfold lift; by rewrite Hcl].
  erewrite (run_bind _ _ _ _ (meta_clean m, pr)); [by rewrite <- toProtoMetadata_clean|].
  unfold metadataProvider, resolveKeyID. rewrite (plugin_client c p readFile cfg Hp), resolveKeyRef_keyID by done.
  erewrite run_bind by (by apply run_on_err). cbn [fst].
  erewrite run_bind; [|apply run_on_err; unfold getMetadata; erewrite run_bind;
    [|eapply run_do_into; [exact Hs|rewrite Hcar; by apply meta_json_decode]]].
  - erewrite run_bind; [reflexivity|]. unfold lift. cbn [meta_clean m_Scheme].
    assert (sanitize (m_Scheme m) = m_Scheme m) as ->; [|by rewrite Hpr].
    destruct (providerForScheme_inv _ _ Hpr) as [[[-> | ->] _]|[[-> _]|[-> _]]]; done.
  - cbv zeta. rewrite normalize_clean, Hn. cbn [meta_clean m_ClientID].
    rewrite sanitize_valid, Hcm, String.eqb_refl by (by rewrite Hcm). by rewrite andb_false_r.
Qed.

(** What a successful CreateKey wrote. *)
Lemma CreateKey_inv now req w w1 md : store_ok c (backend w) ->
  Plugin_CreateKey p now req w = (w1, Returned (Ok md)) ->
  exists a m pr st code status body, validateAlias a = Ok tt /\ requireClientID (ck_ClientId req) = Ok tt /\
    meta_normalize m = m /\ is_u32 (m_PrimaryVersion m) /\ m_KeyID m = keyIDPrefix +:+ a /\
    m_ClientID m = ck_ClientId req /\ providerForScheme p (m_Scheme m) = Ok pr /\
    serve st (mkRequest "POST" (metadataPath c (ck_ClientId req) (keyIDPrefix +:+ a))
      (Some (print (JObj [("data", meta_json m)])))) = (backend w1, Response code status body) /\ code < 400 /\
    toProtoMetadata m = Some md.
Proof.
  intros Hst Hr. unfold Plugin_CreateKey in Hr. rewrite (plugin_client c p readFile cfg Hp) in Hr.
  apply run_bind_inv in Hr as (? & [] & Hcl & Hr). apply run_lift_inv in Hcl as [-> Hcl].
  apply run_bind_inv in Hr as (? & s & Hs & Hr). apply run_on_err_inv, run_lift_inv in Hs as [-> Hs]. cbv zeta in Hr.
  apply run_bind_inv in Hr as (? & [] & Ha & Hr). apply run_on_err_inv, run_lift_inv in Ha as [-> Ha].
  set (a := TrimSpace (ck_Alias req)) in *. unfold canonicalKeyID in Hr. rewrite canonicalAlias_id in Hr by done.
  apply run_bind_inv in Hr as (? & id & Hid & Hr). apply run_on_err_inv, run_lift_inv in Hid as [-> Hid]. cbn in Hid. inv_ok.
  pose proof (triple_attempt _ _ _ _ (own_getMetadata c (ck_ClientId req) a Ha) w Hst) as (_ & _ & _ & Hst1 & _).
  apply run_bind_inv in Hr as (w2 & ex & Hex & Hr). rewrite Hex in Hst1. cbn [fst] in Hst1.
  apply run_bind_inv in Hr as (w3 & [] & Hg & Hr).
  assert (w3 = w2) as -> by (destruct ex; [done|apply run_lift_inv in Hg as [? _]; done]).
  apply run_bind_inv in Hr as (w4 & pr & Hpr & Hr). apply run_lift_inv in Hpr as [-> Hpr].
  apply run_bind_inv in Hr as (w5 & rec & Hcr & Hr).
  destruct (created_record _ _ _ _ _ _ _ _ Hpr Hcr) as [Hcm Hsch].
  pose proof (providerForScheme_owns c Hc Hmounts p readFile cfg Hp (ck_ClientId req) a s pr Ha Hpr) as Hown.
  pose proof (owns_create _ _ _ _ Hown (with_alias req a) now eq_refl eq_refl w2 Hst1) as (_ & _ & _ & _ & Hrec).
  rewrite Hcr in Hrec. cbn [snd] in Hrec. destruct Hrec as [(Hk & _ & Hv) _].
  apply run_bind_inv in Hr as (w6 & [] & Hput & Hr). apply run_on_err_inv in Hput.
  unfold putMetadata, Post_nil, do_nil in Hput. apply run_bind_inv in Hput as (w7 & text & Hexch & Hret).
  unfold exchange in Hexch. destruct (serve _ _) as [st [| |code status reply]] eqn:Eser; try done.
  destruct (Z.leb_spec 400 code); [done|]. inv_run. simplify_eq.
  destruct (toProtoMetadata (meta_normalize rec)) as [md'|] eqn:Emd; [|done]. cbn in Hr. inv_run.
  assert (exists pr', providerForScheme p (m_Scheme (meta_normalize rec)) = Ok pr') as (pr' & Hpr').
  { pose proof Hp as Hp'. unfold newPluginWithConfig in Hp'. apply bind_Ok in Hp' as (x & _ & Hx). inv_ok.
    cbn. destruct Hsch as [-> |[-> | ->]]; by eexists. }
  exists a, (meta_normalize rec), pr', (backend w5), code, status, text. split_and!; try done. apply normalize_idem.
Qed.

(** Describing a created key. After a successful CreateKey, GetKeyMetadata by
    the same client returns the metadata CreateKey returned (texts that are not
    UTF-8, which protobuf does not admit, would come back with the replacement
    character). *)
Theorem CreateKey_GetKeyMetadata `{!KvUp W (c := c)} `{!KvWrites} now req w w1 md :
  store_ok c (backend w) -> valid_utf8 (ck_ClientId req) = true ->
  Plugin_CreateKey p now req w = (w1, Returned (Ok md)) ->
  exists w2, Plugin_GetKeyMetadata p (mkKeyRequest (KeyId md) (ck_ClientId req)) w1 =
    (w2, Returned (Ok (proto_clean md))).
Proof.
  intros Hst Hutf Hr. destruct (CreateKey_inv now req w w1 md Hst Hr)
    as (a & m & pr & st & code & status & body & Ha & Hcl & Hn & Hv & Hk & Hcm & Hpr & Hs & Hcode & Hmd).
  assert (kv_lookup (backend w1) (metadataPath c (ck_ClientId req) (keyIDPrefix +:+ a)) = Some (clean (meta_json m))) as Hlk.
  { eapply kv_written; [done|by apply parse_metadata|exact Hs|done]. }
  destruct (GetKeyMetadata_stored (ck_ClientId req) a m pr w1) as (w2 & Hget); try done.
  exists w2. assert (KeyId md = keyIDPrefix +:+ a) as ->.
  { unfold toProtoMetadata in Hmd. rewrite Hn in Hmd. destruct (toProtoTags _); [|done]. cbn in Hmd. by simplify_eq. }
  by rewrite Hget, Hmd.
Qed.

End Stored.
