(* ===== verification/KeyStore.v ===== *)
(** * The key store of the KMS plugin (pkg/plugin/kms: key_store.go, key_store_openbao.go)

    Clients keep JSON secrets by name in a kv engine of their own. The clock
    ([p.now]) is an argument of [KeyStorePut]; logging is left out. *)

From S2P Require Import Prelude GoStrings Errors Codec Sha2 Json OpenBao GoTime KmsMapping KmsAuthorizer KmsClient KmsProviders KmsPlugin KmsTenant KmsRoundtrip KmsHandlers.

(** ** Messages (proto/plugins/kms.proto) *)

Record KeyStorePutRequest := mkPutRequest { put_Name : string; put_SecretJson : string; put_ClientId : string }.
Record KeyStorePutResponse := mkPutResponse { putr_Name : string; putr_Version : Z }.
Record KeyStoreGetRequest := mkGetRequest { get_Name : string; get_ClientId : string }.
Record KeyStoreGetResponse := mkGetResponse { getr_Name : string; getr_SecretJson : string }.
Record KeyStoreListRequest := mkListRequest { list_Prefix : option string; list_ClientId : string }.
Record KeyStoreDeleteRequest := mkDeleteRequest { del_Name : string; del_ClientId : string }.

Definition maxKeyStoreNameLen : nat := 256.
Definition keyStoreActionPut := "kms_keystore.Put".
Definition keyStoreActionGet := "kms_keystore.Get".
Definition keyStoreActionList := "kms_keystore.List".
Definition keyStoreActionDelete := "kms_keystore.Delete".

(** ** Names *)

(** [keyStoreSegmentRe]: [^[A-Za-z0-9._-]+$] *)
Definition segment_char (c : ascii) : bool :=
  alnum c || Ascii.eqb c "." || Ascii.eqb c "_" || Ascii.eqb c "-".

Definition keyStoreSegmentRe (s : string) : bool := negb (String.eqb s "") && all_chars segment_char s.

Definition validateKeyStoreSegment (fieldName segment : string) : result unit :=
  _ ← reject (String.eqb segment "" || String.eqb segment "." || String.eqb segment "..")
        (Errorf "%s contains an invalid path segment" [fieldName]);
  reject (negb (keyStoreSegmentRe segment)) (Errorf "%s contains unsupported characters" [fieldName]).

(** The loop over the segments: the first error is returned. *)
Fixpoint validateSegments (fieldName : string) (segments : list string) : result unit :=
  match segments with
  | [] => Ok tt
  | s :: rest => _ ← validateKeyStoreSegment fieldName s; validateSegments fieldName rest
  end.

Definition normalizeKeyStoreName (value : string) : result string :=
  let name := TrimSpace value in
  _ ← reject (String.eqb name "") (Errorf "name is required" []);
  _ ← reject (maxKeyStoreNameLen <? String.length name)%nat
        (Errorf "name must be at most %d characters" [pretty maxKeyStoreNameLen]);
  _ ← reject (HasPrefix name "/" || HasSuffix name "/") (Errorf "name must not start or end with /" []);
  _ ← validateSegments "name" (Split slash name);
  Ok name.

Definition normalizeKeyStorePrefix (value : string) : result string :=
  let prefix := TrimChar slash (TrimSpace value) in
  if String.eqb prefix "" then Ok ""
  else
    _ ← reject (maxKeyStoreNameLen <? String.length prefix)%nat
          (Errorf "prefix must be at most %d characters" [pretty maxKeyStoreNameLen]);
    _ ← validateSegments "prefix" (Split slash prefix);
    Ok prefix.

(** ** Secrets *)

Definition isKeyStoreJSONObject (value : string) : bool :=
  let trimmed := TrimSpace value in
  match trimmed with
  | "" => false
  | String c _ => Ascii.eqb c "{" && Valid trimmed
  end.

(** The text of the first JSON value of [s], and what follows it: the
    [json.RawMessage] of [decoder.Decode]. *)
Definition raw_value (s : string) : option (string * string) :=
  '(_, rest) ← parse_prefix s;
  let t := skip_ws s in
  Some (take_chars (String.length t - String.length rest) t, rest).

(** The second [Decode] answers [io.EOF] when only white space is left. *)
Definition decodeKeyStoreSecretJSON (value : string) : result string :=
  match raw_value value with
  | None => Err (Wrapf "secret must be a JSON object: %w" [] SyntaxError)
  | Some (secret, rest) =>
      _ ← reject (negb (isKeyStoreJSONObject secret)) (Errorf "secret must be a JSON object" []);
      _ ← reject (negb (String.eqb (skip_ws rest) "")) (Errorf "secret must contain exactly one JSON object" []);
      Ok secret
  end.

(** ** Records *)

Record keyStoreRecord := mkRecord {
  rec_Name : string;
  rec_Owner : string;
  rec_SecretJSON : string;
  rec_UpdatedAt : string;
}.

Definition keyStoreRecord_fields : list (field keyStoreRecord) :=
  [fld "name" rec_Name (fun x r => mkRecord x (rec_Owner r) (rec_SecretJSON r) (rec_UpdatedAt r)) dec_string;
   fld "owner" rec_Owner (fun x r => mkRecord (rec_Name r) x (rec_SecretJSON r) (rec_UpdatedAt r)) dec_string;
   fld "secret_json" rec_SecretJSON (fun x r => mkRecord (rec_Name r) (rec_Owner r) x (rec_UpdatedAt r)) dec_string;
   fld "updated_at" rec_UpdatedAt (fun x r => mkRecord (rec_Name r) (rec_Owner r) (rec_SecretJSON r) x) dec_string].

Definition empty_record : keyStoreRecord := mkRecord "" "" "" "".

Definition record_json (r : keyStoreRecord) : json :=
  JObj ([("name", JStr (rec_Name r)); ("owner", JStr (rec_Owner r))] ++
    omitempty "secret_json" (rec_SecretJSON r) ++ [("updated_at", JStr (rec_UpdatedAt r))]).

(** [None] is the nil record. *)
Definition keyStoreRecordSecretJSON (record : option keyStoreRecord) : string * bool :=
  match record with
  | None => ("", false)
  | Some r => if negb (String.eqb (TrimSpace (rec_SecretJSON r)) "")
              then (rec_SecretJSON r, isKeyStoreJSONObject (rec_SecretJSON r))
              else ("", false)
  end.

Definition isValidKeyStoreRecord (record : option keyStoreRecord) (clientID name : string) : bool :=
  let '(_, hasValidSecret) := keyStoreRecordSecretJSON record in
  match record with
  | None => false
  | Some r => String.eqb (rec_Owner r) (tenantNamespace clientID) && String.eqb (rec_Name r) name && hasValidSecret
  end.

Definition encodeKeyStoreSecretJSON (record : option keyStoreRecord) : result string :=
  let '(secretJSON, ok) := keyStoreRecordSecretJSON record in
  if ok then Ok secretJSON else Err (Errorf "stored key-store secret must be a JSON object" []).

(** ** Paths *)

Definition keyStorePathParts (value : string) : result (list string) :=
  let value := TrimChar slash value in
  if String.eqb value "" then Ok []
  else
    let segments := Split slash value in
    _ ← map_err (Wrapf "unsafe key-store path: %w" []) (validateSegments "path" segments);
    Ok segments.

Definition joinKeyStoreName (prefix name : string) : string :=
  let prefix := TrimChar slash prefix in
  let name := TrimChar slash name in
  if String.eqb prefix "" then name
  else if String.eqb name "" then prefix
  else prefix +:+ "/" +:+ name.

Definition keyStoreDataPath (c : openBaoClient) (clientID name : string) : result string :=
  nameParts ← keyStorePathParts name;
  Ok (joinPath c (["v1"; keyStoreMount c; "data"; "owners"; tenantNamespace clientID] ++ nameParts)).

Definition keyStoreMetadataPath (c : openBaoClient) (clientID prefix : string) : result string :=
  prefixParts ← keyStorePathParts prefix;
  Ok (joinPath c (["v1"; keyStoreMount c; "metadata"; "owners"; tenantNamespace clientID] ++ prefixParts)).

Definition sort_Strings : list string -> list string := isort String.leb.

(** The loop over the keys OpenBao lists. *)
Definition list_entry (prefix key : string) : list string :=
  let isFolder := HasSuffix key "/" in
  let segment := TrimSuffix key "/" in
  if negb (is_ok (validateKeyStoreSegment "path" segment)) then []
  else
    let name := joinKeyStoreName prefix segment in
    if (maxKeyStoreNameLen <? String.length name)%nat then []
    else if isFolder then [name +:+ "/"] else [name].

Definition keyStoreBackendStatus (operation : string) (err : error) : error :=
  StatusErr Internal (Errorf "key-store backend error" []).

Definition keyStoreNotFoundOrBackendStatus (operation : string) (err : error) (notFoundMessage : string) : error :=
  if isOpenBaoStatus err http_StatusNotFound then StatusErr NotFound (Errorf notFoundMessage [])
  else keyStoreBackendStatus operation err.

(** ** Calls *)

Section Calls.
Context {W : Type} `{Backend W} (c : openBaoClient).

Definition putKeyStoreSecret (clientID name secret : string) (updatedAt : Z) : M W Z :=
  let record := mkRecord name (tenantNamespace clientID) secret (FormatRFC3339 updatedAt) in
  target ← lift (keyStoreDataPath c clientID name);
  Post target (JObj [("data", record_json record)])
    (data_of (dec_struct [fld "version" id (fun x _ => x) dec_uint32])) 0.

Definition getKeyStoreSecret (clientID name : string) : M W keyStoreRecord :=
  target ← lift (keyStoreDataPath c clientID name);
  Get target (data_of (data_of (dec_struct keyStoreRecord_fields))) empty_record.

Definition ensureKeyStoreSecretExists (clientID name : string) : M W unit :=
  target ← lift (keyStoreMetadataPath c clientID name);
  Get_nil target.

Definition listKeyStoreSecrets (clientID prefix : string) : M W (list string) :=
  target ← lift (keyStoreMetadataPath c clientID prefix);
  keys ← List_ target (data_of (dec_struct [fld "keys" id (fun x _ => x) (dec_list "" dec_string)])) [];
  mret (sort_Strings (keys ≫= list_entry prefix)).

Definition deleteKeyStoreSecret (clientID name : string) : M W unit :=
  target ← lift (keyStoreMetadataPath c clientID name);
  Delete_nil target.

End Calls.

(** ** The handlers *)

Section Handlers.
Context {W : Type} {HB : Backend W} {HCr : Crypto} {HCe : Cedar} (p : Plugin (W := W)).

Definition KeyStorePut (now : Z) (req : KeyStorePutRequest) : M W KeyStorePutResponse :=
  _ ← lift (requireClientID (put_ClientId req));
  name ← as_status InvalidArgument (lift (normalizeKeyStoreName (put_Name req)));
  secret ← as_status InvalidArgument (lift (decodeKeyStoreSecretJSON (put_SecretJson req)));
  _ ← lift (authorize (authorizer p) (put_ClientId req) keyStoreActionPut keyStoreKeyType name "");
  version ← on_err (keyStoreBackendStatus "put")
    (putKeyStoreSecret (client p) (put_ClientId req) name secret now);
  mret (mkPutResponse name version).

Definition KeyStoreGet (req : KeyStoreGetRequest) : M W KeyStoreGetResponse :=
  _ ← lift (requireClientID (get_ClientId req));
  name ← as_status InvalidArgument (lift (normalizeKeyStoreName (get_Name req)));
  _ ← lift (authorize (authorizer p) (get_ClientId req) keyStoreActionGet keyStoreKeyType name "");
  record ← on_err (fun err => keyStoreNotFoundOrBackendStatus "get" err "key-store entry not found")
    (getKeyStoreSecret (client p) (get_ClientId req) name);
  _ ← guard_err (negb (isValidKeyStoreRecord (Some record) (get_ClientId req) name))
        (StatusErr PermissionDenied (Errorf "key-store entry does not belong to the requested key" []));
  secretJSON ← as_status Internal (lift (encodeKeyStoreSecretJSON (Some record)));
  mret (mkGetResponse name secretJSON).

Definition KeyStoreList (req : KeyStoreListRequest) : M W (list string) :=
  _ ← lift (requireClientID (list_ClientId req));
  prefix ← as_status InvalidArgument (lift (normalizeKeyStorePrefix (optionalString (list_Prefix req))));
  _ ← lift (authorize (authorizer p) (list_ClientId req) keyStoreActionList keyStoreNamespaceType "" prefix);
  names ← attempt (listKeyStoreSecrets (client p) (list_ClientId req) prefix);
  match names with
  | Ok names => mret names
  | Err err => if isOpenBaoStatus err http_StatusNotFound then mret []
               else throw (keyStoreBackendStatus "list" err)
  end.

Definition KeyStoreDelete (req : KeyStoreDeleteRequest) : M W string :=
  _ ← lift (requireClientID (del_ClientId req));
  name ← as_status InvalidArgument (lift (normalizeKeyStoreName (del_Name req)));
  _ ← lift (authorize (authorizer p) (del_ClientId req) keyStoreActionDelete keyStoreKeyType name "");
  _ ← on_err (fun err => keyStoreNotFoundOrBackendStatus "delete" err "key-store entry not found")
        (ensureKeyStoreSecretExists (client p) (del_ClientId req) name);
  _ ← on_err (keyStoreBackendStatus "delete") (deleteKeyStoreSecret (client p) (del_ClientId req) name);
  mret name.

End Handlers.

(** ** Names are safe paths *)

Definition seg_ok (s : string) : Prop := safe_segment s = true /\ all_chars segment_char s = true.

Lemma segment_char_not_slash c : segment_char c = true -> negb (Ascii.eqb c slash) = true.
Proof. intros Hc. destruct (Ascii.eqb_spec c slash) as [->|]; [discriminate Hc|done]. Qed.

Lemma validateKeyStoreSegment_Ok f s : validateKeyStoreSegment f s = Ok tt <-> seg_ok s.
Proof.
  unfold validateKeyStoreSegment, seg_ok, safe_segment, keyStoreSegmentRe. split.
  - intros H. apply bind_Ok in H as ([] & H1%reject_Ok & H2%reject_Ok). rewrite !orb_false_iff in H1.
    destruct H1 as [[E1 E2] E3]. apply negb_false_iff, andb_true_iff in H2 as [_ H2]. split; [|done]. rewrite !andb_true_iff, !negb_true_iff. split_and!; try done.
    eapply all_chars_impl; [|exact H2]. apply segment_char_not_slash.
  - rewrite !andb_true_iff, !negb_true_iff. intros ((((-> & ->) & ->) & _) & ->). done.
Qed.

Lemma validateSegments_Ok f l : validateSegments f l = Ok tt <-> Forall seg_ok l.
Proof.
  induction l as [|s l IH]; cbn; [split; [constructor|done]|]. rewrite Forall_cons, <- IH, <- (validateKeyStoreSegment_Ok f).
  destruct (validateKeyStoreSegment f s) as [[]|]; cbn; [tauto|]. by split; [|intros []].
Qed.

Lemma seg_ok_safe l : Forall seg_ok l -> Forall (fun s => safe_segment s = true) l.
Proof. intros Hl. eapply Forall_impl; [exact Hl|]. by intros s []. Qed.

Lemma segment_char_visible c : segment_char c = true -> visible c = true.
Proof. destruct c as [[] [] [] [] [] [] [] []]; first [reflexivity|discriminate]. Qed.

(** The characters of a name: slash-separated segments are visible ASCII. *)
Lemma Join_visible l : Forall seg_ok l -> all_chars visible (Join "/" l) = true.
Proof.
  induction 1 as [|s l [_ Hs] _ IH]; [done|].
  assert (all_chars visible s = true) by (eapply all_chars_impl; [|exact Hs]; apply segment_char_visible).
  destruct l; [done|]. rewrite Join_cons, !all_chars_append. by rewrite andb_true_iff.
Qed.

(** A normalized name or prefix: its segments. *)
Definition name_ok (l : list string) : Prop :=
  l <> [] /\ Forall seg_ok l /\ (String.length (Join "/" l) <= maxKeyStoreNameLen)%nat.

Lemma Split_name l : name_ok l -> Split slash (Join "/" l) = l.
Proof. intros (Hn & Hl & _). apply Split_Join; [done|]. by apply safe_segments_free, seg_ok_safe. Qed.

Lemma name_not_empty l : name_ok l -> String.eqb (Join "/" l) "" = false.
Proof.
  intros (Hn & Hl & _). destruct l as [|s l]; [done|]. apply Forall_cons in Hl as [[Hs _] _].
  destruct s; [done|]. by destruct l.
Qed.

Lemma normalizeKeyStoreName_join l : name_ok l -> normalizeKeyStoreName (Join "/" l) = Ok (Join "/" l).
Proof.
  intros Hok. pose proof Hok as (Hn & Hl & Hlen). unfold normalizeKeyStoreName.
  rewrite TrimSpace_visible by (by apply Join_visible). cbv zeta. rewrite name_not_empty by done. cbn [reject mbind result_bind].
  destruct (Nat.ltb_spec maxKeyStoreNameLen (String.length (Join "/" l))); [lia|]. cbn [reject mbind result_bind].
  rewrite HasPrefix_slash_safe, HasSuffix_slash_safe by (done || by apply seg_ok_safe). cbn [orb reject mbind result_bind].
  rewrite Split_name by done. apply (validateSegments_Ok "name") in Hl. by rewrite Hl.
Qed.

Lemma normalizeKeyStoreName_inv v n : normalizeKeyStoreName v = Ok n ->
  n = TrimSpace v /\ name_ok (Split slash n) /\ n = Join "/" (Split slash n).
Proof.
  unfold normalizeKeyStoreName. cbv zeta. intros H. inv_ok.
  match goal with H : validateSegments _ _ = Ok ?u |- _ => destruct u; apply validateSegments_Ok in H end.
  assert (Join "/" (Split slash (TrimSpace v)) = TrimSpace v) as E by apply (Join_Split slash).
  split_and!; [done| |by rewrite E]. split_and!; [apply Split_not_nil|done|]. rewrite E.
  by apply Nat.ltb_ge.
Qed.

Lemma normalizeKeyStorePrefix_inv v n : normalizeKeyStorePrefix v = Ok n ->
  n = "" \/ name_ok (Split slash n) /\ n = Join "/" (Split slash n).
Proof.
  unfold normalizeKeyStorePrefix. cbv zeta. destruct (String.eqb _ "") eqn:E; intros H; [left; by inv_ok|]. right. inv_ok.
  match goal with H : validateSegments _ _ = Ok ?u |- _ => destruct u; apply validateSegments_Ok in H end.
  set (t := TrimChar slash (TrimSpace v)) in *.
  assert (Join "/" (Split slash t) = t) as Ej by apply (Join_Split slash).
  split; [|done]. split_and!; [apply Split_not_nil|done|]. rewrite Ej. by apply Nat.ltb_ge.
Qed.

Lemma keyStorePathParts_name l : name_ok l -> keyStorePathParts (Join "/" l) = Ok l.
Proof.
  intros Hok. pose proof Hok as (Hn & Hl & _). unfold keyStorePathParts.
  rewrite TrimChar_Join by (done || by apply seg_ok_safe). cbv zeta. rewrite name_not_empty, Split_name by done.
  apply (validateSegments_Ok "path") in Hl. by rewrite Hl.
Qed.

(** The names of the key store. A name is accepted when, with the white space
    around it removed, it is a path of at most 256 bytes whose segments are
    non-empty words over letters, digits, dot, underscore and dash other than
    "." and ".."; it is then returned unchanged, and names no path but its own. *)
Theorem normalizeKeyStoreName_spec v n :
  (normalizeKeyStoreName v = Ok n <->
    n = TrimSpace v /\ (String.length n <= maxKeyStoreNameLen)%nat /\
    Forall (fun s => s <> "" /\ s <> "." /\ s <> ".." /\ all_chars segment_char s = true) (Split slash n)) /\
  (is_ok (normalizeKeyStoreName v) = true -> normalizeKeyStoreName (TrimSpace v) = Ok (TrimSpace v) /\
    keyStorePathParts (TrimSpace v) = Ok (Split slash (TrimSpace v))).
Proof.
  split; [split|].
  - intros H. apply normalizeKeyStoreName_inv in H as (Ht & Hok & Ej). pose proof Hok as (_ & Hl & Hlen).
    rewrite <- Ej in Hlen. split_and!; try done.
    eapply Forall_impl; [exact Hl|]. intros s [Hs Hc]. unfold safe_segment in Hs.
    rewrite !andb_true_iff, !negb_true_iff, !String.eqb_neq in Hs. by destruct_and!.
  - intros (Ht & Hlen & Hl). assert (Join "/" (Split slash n) = n) as Ej by apply (Join_Split slash).
    assert (name_ok (Split slash n)) as Hok.
    { split_and!; [apply Split_not_nil| |by rewrite Ej]. eapply Forall_impl; [exact Hl|].
      intros s (H1 & H2 & H3 & Hc). apply (validateKeyStoreSegment_Ok "name").
      apply String.eqb_neq in H1, H2, H3. unfold validateKeyStoreSegment, keyStoreSegmentRe. by rewrite H1, H2, H3, Hc. }
    pose proof (normalizeKeyStoreName_join _ Hok) as Hn. rewrite Ej in Hn.
    unfold normalizeKeyStoreName in *. rewrite TrimSpace_visible in Hn; [by rewrite <- Ht|].
    rewrite <- Ej. by apply Join_visible, Hok.
  - destruct (normalizeKeyStoreName v) as [m|] eqn:E; [|done]. intros _.
    apply normalizeKeyStoreName_inv in E as (-> & Hok & Ej).
    split; [rewrite Ej; by apply normalizeKeyStoreName_join|]. rewrite Ej at 1. by apply keyStorePathParts_name.
Qed.

(** ** Isolation of owners *)

Inductive ks_call :=
| CallPut (now : Z) (req : KeyStorePutRequest)
| CallGet (req : KeyStoreGetRequest)
| CallList (req : KeyStoreListRequest)
| CallDelete (req : KeyStoreDeleteRequest).

Definition ks_client (call : ks_call) : string :=
  match call with
  | CallPut _ req => put_ClientId req
  | CallGet req => get_ClientId req
  | CallList req => list_ClientId req
  | CallDelete req => del_ClientId req
  end.

(** The name, or the prefix, a call is about. *)
Definition ks_name (call : ks_call) : result string :=
  match call with
  | CallPut _ req => normalizeKeyStoreName (put_Name req)
  | CallGet req => normalizeKeyStoreName (get_Name req)
  | CallList req => normalizeKeyStorePrefix (optionalString (list_Prefix req))
  | CallDelete req => normalizeKeyStoreName (del_Name req)
  end.

Definition ks_action (call : ks_call) : string :=
  match call with
  | CallPut _ _ => keyStoreActionPut
  | CallGet _ => keyStoreActionGet
  | CallList _ => keyStoreActionList
  | CallDelete _ => keyStoreActionDelete
  end.

(** A request under the path of one name of one owner. *)
Definition owner_segments (c : openBaoClient) (clientID area name : string) : list string :=
  ["v1"; keyStoreMount c; area; "owners"; tenantNamespace clientID] ++ (if String.eqb name "" then [] else Split slash name).

Definition owner_request (c : openBaoClient) (clientID name : string) (r : request) : Prop :=
  exists area, (area = "data" \/ area = "metadata") /\ target r = joinPath c (owner_segments c clientID area name).

(** The names the handlers work with. *)
Definition normalized (name : string) : Prop := name = "" \/ name_ok (Split slash name) /\ name = Join "/" (Split slash name).

Lemma name_normalized v n : normalizeKeyStoreName v = Ok n -> normalized n.
Proof. intros (_ & H1 & H2)%normalizeKeyStoreName_inv. by right. Qed.

Lemma keyStorePathParts_normalized n : normalized n ->
  keyStorePathParts n = Ok (if String.eqb n "" then [] else Split slash n).
Proof.
  intros [->|[Hok Ej]]; [done|]. pose proof (name_not_empty _ Hok) as He. rewrite <- Ej in He. rewrite He.
  rewrite Ej at 1. by apply keyStorePathParts_name.
Qed.

Lemma keyStoreDataPath_eq c clientID n : normalized n ->
  keyStoreDataPath c clientID n = Ok (joinPath c (owner_segments c clientID "data" n)).
Proof. intros Hn. unfold keyStoreDataPath. by rewrite keyStorePathParts_normalized. Qed.

Lemma keyStoreMetadataPath_eq c clientID n : normalized n ->
  keyStoreMetadataPath c clientID n = Ok (joinPath c (owner_segments c clientID "metadata" n)).
Proof. intros Hn. unfold keyStoreMetadataPath. by rewrite keyStorePathParts_normalized. Qed.

Section Isolation.
Context {W : Type} {HB : Backend W} {HCr : Crypto} {HCe : Cedar} (p : Plugin (W := W)).

Definition run_ks (call : ks_call) : M W unit :=
  match call with
  | CallPut now req => _ ← KeyStorePut p now req; mret tt
  | CallGet req => _ ← KeyStoreGet p req; mret tt
  | CallList req => _ ← KeyStoreList p req; mret tt
  | CallDelete req => _ ← KeyStoreDelete p req; mret tt
  end.

(** The decision of the policy on a call about [name]. *)
Definition ks_decision (call : ks_call) (name : string) : result unit :=
  match call with
  | CallList _ => authorize (authorizer p) (ks_client call) (ks_action call) keyStoreNamespaceType "" name
  | _ => authorize (authorizer p) (ks_client call) (ks_action call) keyStoreKeyType name ""
  end.

(** [gated D P m]: [m] sends requests of [P] only, and none at all unless [D]. *)
Definition gated {A} (D : Prop) (P : request -> Prop) (m : M W A) : Prop := forall w,
  exists l, sent (m w).1 = sent w ++ l /\ Forall P l /\ (m w).2 <> Blocked /\ (l = [] \/ D).

Lemma gated_lift {A B} (D : Prop) P (r : result A) (k : A -> M W B) :
  (forall a, r = Ok a -> gated D P (k a)) -> gated D P (lift r ≫= k).
Proof.
  intros Hk w. unfold mbind, Prog_bind, lift. destruct r as [a|e]; [by apply Hk|]. exists [].
  rewrite app_nil_r. split_and!; [done..|by left].
Qed.

Lemma gated_status {A B} (D : Prop) P c (r : result A) (k : A -> M W B) :
  (forall a, r = Ok a -> gated D P (k a)) -> gated D P (as_status c (lift r) ≫= k).
Proof.
  intros Hk w. unfold mbind, Prog_bind, as_status, on_err, lift. destruct r as [a|e]; [by apply Hk|]. exists [].
  rewrite app_nil_r. split_and!; [done..|by left].
Qed.

Lemma gated_sends {A} (D : Prop) P (m : M W A) : D -> sends P m -> gated D P m.
Proof. intros HD Hs w. destruct (Hs w) as (l & H1 & H2 & H3). exists l. eauto. Qed.

Lemma gated_ignore {A} (D : Prop) P (m : M W A) : gated D P m -> gated D P (_ ← m; mret tt).
Proof.
  intros Hm w. destruct (Hm w) as (l & H1 & H2 & H3 & H4). exists l. unfold mbind, Prog_bind.
  destruct (m w) as [w' [[]| |]]; done.
Qed.

Lemma sends_target {A} clientID area n (k : string -> M W A) path :
  normalized n -> (area = "data" \/ area = "metadata") ->
  path = Ok (joinPath (client p) (owner_segments (client p) clientID area n)) ->
  (forall t, t = joinPath (client p) (owner_segments (client p) clientID area n) ->
    sends (owner_request (client p) clientID n) (k t)) ->
  sends (owner_request (client p) clientID n) (lift path ≫= k).
Proof.
  intros Hn Ha -> Hk. apply sends_bind_dep; [apply sends_lift|]. intros w w' t Ht.
  apply run_lift_inv in Ht as [_ [= <-]]. by apply Hk.
Qed.

Ltac ks_target area eqn := eapply (sends_target _ area); [done|auto|by apply eqn|intros t ->].
Ltac ks_request := first [apply sends_do_into | apply sends_do_nil]; eexists; split; [|reflexivity]; auto.

Lemma ks_sends_put clientID n secret now : normalized n ->
  sends (owner_request (client p) clientID n) (putKeyStoreSecret (client p) clientID n secret now).
Proof. intros Hn. unfold putKeyStoreSecret. cbv zeta. ks_target "data" keyStoreDataPath_eq. ks_request. Qed.

Lemma ks_sends_get clientID n : normalized n ->
  sends (owner_request (client p) clientID n) (getKeyStoreSecret (client p) clientID n).
Proof. intros Hn. unfold getKeyStoreSecret. ks_target "data" keyStoreDataPath_eq. ks_request. Qed.

Lemma ks_sends_list clientID n : normalized n ->
  sends (owner_request (client p) clientID n) (listKeyStoreSecrets (client p) clientID n).
Proof.
  intros Hn. unfold listKeyStoreSecrets. ks_target "metadata" keyStoreMetadataPath_eq. apply sends_bind; [ks_request|]. intros. apply sends_ret.
Qed.

Lemma ks_sends_delete clientID n : normalized n ->
  sends (owner_request (client p) clientID n) (ensureKeyStoreSecretExists (client p) clientID n) /\
  sends (owner_request (client p) clientID n) (deleteKeyStoreSecret (client p) clientID n).
Proof.
  intros Hn. unfold ensureKeyStoreSecretExists, deleteKeyStoreSecret. split; ks_target "metadata" keyStoreMetadataPath_eq; ks_request.
Qed.

(** C11: isolation in the key store. Whatever a client asks for and whatever
    OpenBao answers, a call only sends requests for the one normalized name (or
    prefix) it is about, under the namespace of the calling client, and sends
    nothing at all unless the name is valid and the policy allows the action on
    it. *)
Theorem keystore_isolation call w :
  exists l, sent (run_ks call w).1 = sent w ++ l /\ (run_ks call w).2 <> Blocked /\
    (l = [] \/ exists name, ks_name call = Ok name /\ ks_decision call name = Ok tt /\
      Forall (owner_request (client p) (ks_client call) name) l).
Proof.
  assert (forall name, ks_name call = Ok name -> normalized name) as Hnorm.
  { intros name Hn. destruct call; cbn in Hn; try (by eapply name_normalized). by eapply normalizeKeyStorePrefix_inv. }
  set (D := exists name, ks_name call = Ok name /\ ks_decision call name = Ok tt).
  set (P := fun r => forall name, ks_name call = Ok name -> owner_request (client p) (ks_client call) name r).
  enough (gated D P (run_ks call)) as Hg.
  { destruct (Hg w) as (l & H1 & H2 & H3 & H4). exists l. split_and!; [done..|].
    destruct H4 as [->|(name & Hn & Hd)]; [by left|]. right. exists name. split_and!; [done..|].
    eapply Forall_impl; [exact H2|]. intros r Hr. by apply Hr. }
  assert (forall name A (m : M W A), ks_name call = Ok name ->
    sends (owner_request (client p) (ks_client call) name) m -> sends P m) as Hmono.
  { intros name A m Hn. apply sends_mono. intros r Hr name2 Hn2. rewrite Hn in Hn2. by injection Hn2 as <-. }
  destruct call as [now req|req|req|req]; cbn [run_ks]; apply gated_ignore; apply gated_lift; intros _ _;
    apply gated_status; intros name Hn.
  - apply gated_status. intros secret _. apply gated_lift. intros [] Hd. apply gated_sends; [by exists name|].
    eapply Hmono; [exact Hn|]. apply sends_bind; [apply sends_on_err, ks_sends_put; eauto|]. intros. apply sends_ret.
  - apply gated_lift. intros [] Hd. apply gated_sends; [by exists name|].
    eapply Hmono; [exact Hn|]. apply sends_bind; [apply sends_on_err, ks_sends_get; eauto|]. intros rec.
    apply sends_bind; [apply sends_lift|intros _]. apply sends_bind; [apply sends_on_err, sends_lift|]. intros. apply sends_ret.
  - apply gated_lift. intros [] Hd. apply gated_sends; [by exists name|].
    eapply Hmono; [exact Hn|]. apply sends_bind; [apply sends_attempt, ks_sends_list; eauto|].
    intros [names|e]; [apply sends_ret|]. destruct (isOpenBaoStatus e _); [apply sends_ret|apply sends_throw].
  - apply gated_lift. intros [] Hd. apply gated_sends; [by exists name|].
    eapply Hmono; [exact Hn|]. destruct (ks_sends_delete (del_ClientId req) name) as [H1 H2]; [eauto|].
    apply sends_bind; [by apply sends_on_err|]. intros _. apply sends_bind; [by apply sends_on_err|]. intros. apply sends_ret.
Qed.

End Isolation.

Lemma owner_segments_safe c clientID area n : client_ok c -> area = "data" \/ area = "metadata" -> normalized n ->
  owner_segments c clientID area n <> [] /\ Forall (fun s => safe_segment s = true) (owner_segments c clientID area n).
Proof.
  intros [_ Hm] Ha Hn. split; [done|]. do 4 (apply Forall_cons in Hm as [? Hm]). apply Forall_cons in Hm as [Hks _].
  unfold owner_segments. apply Forall_app_2.
  - repeat (apply Forall_cons; split; [first [done|apply tenantNamespace_safe|destruct Ha as [-> | ->]; done]|]). constructor.
  - destruct (String.eqb_spec n "") as [|Hne]; [constructor|]. destruct Hn as [->|[(_ & Hl & _) _]]; [done|]. by apply seg_ok_safe.
Qed.

(** No two entries of the key store share a path: requests with one target
    are about the same owner's namespace and the same name. *)
Theorem keystore_targets_disjoint c c1 n1 r1 c2 n2 r2 : client_ok c -> normalized n1 -> normalized n2 ->
  owner_request c c1 n1 r1 -> owner_request c c2 n2 r2 -> target r1 = target r2 ->
  tenantNamespace c1 = tenantNamespace c2 /\ n1 = n2.
Proof.
  intros Hc Hn1 Hn2 (a1 & Ha1 & Ht1) (a2 & Ha2 & Ht2) Heq. rewrite Ht1, Ht2 in Heq.
  destruct (owner_segments_safe c c1 a1 n1 Hc Ha1 Hn1) as [N1 S1].
  destruct (owner_segments_safe c c2 a2 n2 Hc Ha2 Hn2) as [N2 S2].
  apply joinPath_inj in Heq; try done. unfold owner_segments in Heq.
  pose proof (f_equal (drop 5) Heq) as Hparts. pose proof (f_equal (fun l => nth 4 l "") Heq) as Hns.
  cbn [app nth drop] in Hns, Hparts. rewrite !drop_0 in Hparts. split; [done|].
  destruct (String.eqb_spec n1 "") as [E1|E1], (String.eqb_spec n2 "") as [E2|E2]; [congruence|..].
  - symmetry in Hparts. by apply Split_not_nil in Hparts.
  - by apply Split_not_nil in Hparts.
  - destruct Hn1 as [?|[_ J1]]; [done|]. destruct Hn2 as [?|[_ J2]]; [done|]. rewrite J1, J2. by rewrite Hparts.
Qed.

(** ** Reading and writing *)

Section ReadWrite.
Context {W : Type} {HB : Backend W} {HCr : Crypto} {HCe : Cedar} (p : Plugin (W := W)).

(** What KeyStoreGet returns was stored for the caller under the name it
    asked for, and is a JSON object: an entry whose recorded owner or name differ,
    or whose secret is not an object, is never returned. *)
Theorem KeyStoreGet_verified req w w' resp : KeyStoreGet p req w = (w', Returned (Ok resp)) ->
  exists name r, normalizeKeyStoreName (get_Name req) = Ok name /\ getr_Name resp = name /\
    getKeyStoreSecret (client p) (get_ClientId req) name w = (w', Returned (Ok r)) /\
    rec_Owner r = tenantNamespace (get_ClientId req) /\ rec_Name r = name /\ getr_SecretJson resp = rec_SecretJSON r /\
    isKeyStoreJSONObject (getr_SecretJson resp) = true.
Proof.
  unfold KeyStoreGet. intros Hr. inv_run. eexists _, _. split_and!; try done.
  all: match goal with H : negb (isValidKeyStoreRecord _ _ _) = false |- _ => apply negb_false_iff in H; rename H into Hv end.
  all: unfold isValidKeyStoreRecord, encodeKeyStoreSecretJSON, keyStoreRecordSecretJSON in *.
  all: destruct (negb (String.eqb (TrimSpace _) "")); [|by rewrite andb_false_r in Hv].
  all: rewrite !andb_true_iff, !String.eqb_eq in Hv; destruct Hv as [[Ho Hn] Hobj]; rewrite Hobj in *; inv_ok; done.
Qed.

(** Deleting checks first. For an authorized call with a valid name, the
    entry's metadata is read; only if OpenBao has it is the delete sent, to the
    same path, and a failed read ends the call with NotFound (a 404) or Internal. *)
Theorem KeyStoreDelete_checked req name w :
  requireClientID (del_ClientId req) = Ok tt -> normalizeKeyStoreName (del_Name req) = Ok name ->
  authorize (authorizer p) (del_ClientId req) keyStoreActionDelete keyStoreKeyType name "" = Ok tt ->
  let path := joinPath (client p) (owner_segments (client p) (del_ClientId req) "metadata" name) in
  let get := mkRequest "GET" path None in
  let '(st, rep) := serve (backend w) get in
  match reply_error rep with
  | Some e => KeyStoreDelete p req w = (mkWorld st (sent w ++ [get]),
      Returned (Err (keyStoreNotFoundOrBackendStatus "delete" e "key-store entry not found")))
  | None => sent (KeyStoreDelete p req w).1 = sent w ++ [get; mkRequest "DELETE" path None]
  end.
Proof.
  intros Hcl Hn Hau. cbv zeta. pose proof (name_normalized _ _ Hn) as Hnorm.
  set (path := joinPath _ _). destruct (serve _ _) as [st rep] eqn:Es. unfold KeyStoreDelete.
  erewrite run_bind; [|unfold lift; by rewrite Hcl].
  erewrite run_bind; [|unfold lift; rewrite Hn; by apply run_on_err].
  erewrite run_bind; [|unfold lift; by rewrite Hau].
  unfold ensureKeyStoreSecretExists. rewrite keyStoreMetadataPath_eq by done. fold path.
  destruct (reply_error rep) as [e|] eqn:Ee.
  - erewrite run_bind_err; [reflexivity|].
    eapply (run_on_err_err (fun err => keyStoreNotFoundOrBackendStatus "delete" err _)).
    erewrite run_bind by reflexivity. unfold Get_nil, do_nil. apply run_bind_err. unfold exchange. rewrite Es.
    destruct rep as [| |code status body]; cbn in *; [congruence..|]. destruct (400 <=? code); congruence.
  - destruct rep as [| |code status body]; try done. cbn in Ee. destruct (400 <=? code) eqn:Ec; [done|].
    erewrite (run_bind _ _ _ (mkWorld st (sent w ++ [mkRequest "GET" path None])) tt).
    2: { apply run_on_err. erewrite run_bind by reflexivity. unfold Get_nil, do_nil.
         erewrite run_bind; [reflexivity|]. unfold exchange. rewrite Es, Ec. reflexivity. }
    unfold deleteKeyStoreSecret. rewrite keyStoreMetadataPath_eq by done. fold path.
    unfold Delete_nil, do_nil, exchange, mbind, Prog_bind, on_err, lift. cbn [backend sent].
    destruct (serve st _) as [st2 [| |c2 s2 b2]]; cbn; rewrite <- app_assoc; try done. by destruct (400 <=? c2).
Qed.

End ReadWrite.

(** ** Listing *)

Lemma TrimRightChar_last x a : TrimRightChar x (a +:+ String x "") = TrimRightChar x a.
Proof.
  induction a as [|c a IH].
  - change ("" +:+ String x "") with (String x ""). cbn. by rewrite Ascii.eqb_refl.
  - rewrite append_cons. cbn [TrimRightChar]. by rewrite IH.
Qed.

Lemma normalizeKeyStorePrefix_folder l : name_ok l -> normalizeKeyStorePrefix (Join "/" l +:+ "/") = Ok (Join "/" l).
Proof.
  intros Hok. pose proof Hok as (Hn & Hl & Hlen). unfold normalizeKeyStorePrefix.
  rewrite TrimSpace_visible by (by rewrite all_chars_append, Join_visible). cbv zeta.
  assert (TrimChar slash (Join "/" l +:+ "/") = Join "/" l) as ->.
  { pose proof (TrimChar_Join l Hn (seg_ok_safe _ Hl)) as Ht. pose proof (TrimLeftChar_Join l Hn (seg_ok_safe _ Hl)) as Hleft.
    unfold TrimChar in *. rewrite Hleft in Ht. pose proof (name_not_empty _ Hok) as He.
    assert (TrimLeftChar slash (Join "/" l +:+ "/") = Join "/" l +:+ "/") as ->.
    { destruct (Join "/" l) as [|c t]; [done|]. rewrite append_cons. cbn [TrimLeftChar] in *.
      destruct (Ascii.eqb_spec c slash) as [->|]; [|done]. exfalso. pose proof (HasPrefix_slash_safe l Hn (seg_ok_safe _ Hl)) as Hp.
      apply (f_equal String.length) in Hleft. assert (forall s, (String.length (TrimLeftChar slash s) <= String.length s)%nat) as Hle
        by (induction s as [|d s IH]; cbn; [lia|destruct (Ascii.eqb d slash); cbn; lia]).
      specialize (Hle t). cbn in Hleft. lia. }
    by rewrite TrimRightChar_last. }
  rewrite name_not_empty by done. destruct (Nat.ltb_spec maxKeyStoreNameLen (String.length (Join "/" l))); [lia|].
  rewrite Split_name by done. apply (validateSegments_Ok "prefix") in Hl. by rewrite Hl.
Qed.

(** The full name of a listed key. *)
Lemma joinKeyStoreName_ok prefix seg : normalized prefix -> seg_ok seg ->
  exists l, joinKeyStoreName prefix seg = Join "/" l /\ l <> [] /\ Forall seg_ok l /\
    (prefix = "" \/ HasPrefix (Join "/" l) (prefix +:+ "/") = true).
Proof.
  intros Hp Hs. pose proof Hs as [Hsafe _]. unfold joinKeyStoreName.
  rewrite (TrimChar_free slash seg) by (by apply safe_segment_free).
  assert (String.eqb seg "" = false) as -> by (by destruct seg).
  destruct Hp as [->|[Hok Ej]]; cbv zeta.
  - exists [seg]. split_and!; [done|done|by constructor|by left].
  - pose proof Hok as (Hn & Hl & _). pose proof (name_not_empty _ Hok) as He.
    pose proof (TrimChar_Join _ Hn (seg_ok_safe _ Hl)) as Ht. rewrite <- Ej in He, Ht. rewrite Ht, He.
    exists (Split slash prefix ++ [seg]). rewrite Join_append by done. rewrite <- Ej.
    split_and!; [done|by destruct (Split slash prefix)|by apply Forall_app_2, Forall_singleton|].
    right. apply HasPrefix_true. exists seg. by rewrite append_assoc.
Qed.

(** A name that is listed: it is stored under the prefix, and the calls accept
    it, a folder as the prefix of another listing. *)
Definition usable (prefix n : string) : Prop := exists full,
  normalizeKeyStoreName full = Ok full /\ (prefix = "" \/ HasPrefix full (prefix +:+ "/") = true) /\
  (n = full \/ n = full +:+ "/" /\ normalizeKeyStorePrefix n = Ok full).

Lemma list_entry_usable prefix key : normalized prefix -> Forall (usable prefix) (list_entry prefix key).
Proof.
  intros Hp. unfold list_entry. cbv zeta. destruct (validateKeyStoreSegment "path" (TrimSuffix key "/")) as [[]|] eqn:Ev; [|constructor].
  apply validateKeyStoreSegment_Ok in Ev. cbn [is_ok negb].
  destruct (joinKeyStoreName_ok prefix _ Hp Ev) as (l & Ej & Hn & Hl & Hpre). rewrite Ej.
  destruct (Nat.ltb_spec maxKeyStoreNameLen (String.length (Join "/" l))) as [|Hlen]; [constructor|].
  assert (name_ok l) as Hok by done.
  destruct (HasSuffix key "/"); apply Forall_singleton; exists (Join "/" l).
  - split_and!; [by apply normalizeKeyStoreName_join|done|]. right. split; [done|]. by apply normalizeKeyStorePrefix_folder.
  - split_and!; [by apply normalizeKeyStoreName_join|done|by left].
Qed.

(** A listing is in byte order and only holds names under the requested
    prefix that the other calls accept as they are, whatever keys OpenBao
    returned. *)
Theorem KeyStoreList_usable {W} {HB : Backend W} {HCr : Crypto} {HCe : Cedar} (p : Plugin (W := W)) req w w' names :
  KeyStoreList p req w = (w', Returned (Ok names)) ->
  exists prefix, normalizeKeyStorePrefix (optionalString (list_Prefix req)) = Ok prefix /\
    StronglySorted (fun a b => String.leb a b = true) names /\ Forall (usable prefix) names.
Proof.
  unfold KeyStoreList. intros Hr. apply run_bind_inv in Hr as (w1 & [] & H1 & Hr). apply run_lift_inv in H1 as [-> _].
  apply run_bind_inv in Hr as (w2 & prefix & H2 & Hr). apply run_on_err_inv, run_lift_inv in H2 as [-> H2].
  apply run_bind_inv in Hr as (w3 & [] & H3 & Hr). apply run_lift_inv in H3 as [-> _].
  apply run_bind_inv in Hr as (w4 & r & H4 & Hr). exists prefix. split; [done|].
  apply normalizeKeyStorePrefix_inv in H2 as Hp. destruct r as [ns|e].
  - inv_run. unfold attempt in H4. destruct (listKeyStoreSecrets _ _ _ _) as [w5 [r| |]] eqn:El; [|done..].
    injection H4 as -> ->. unfold listKeyStoreSecrets in El. inv_run. split.
    { apply isort_sorted; [apply string_leb_trans|apply String.leb_total]. }
    unfold sort_Strings. rewrite isort_perm. apply Forall_bind. apply Forall_true. intros key. by apply list_entry_usable.
  - destruct (isOpenBaoStatus _ _); inv_run. split; constructor.
Qed.

(** ** A secret that was put is what is got *)

Lemma record_json_decode r : dec_struct keyStoreRecord_fields (clean (record_json r)) empty_record =
  Ok (mkRecord (sanitize (rec_Name r)) (sanitize (rec_Owner r)) (sanitize (rec_SecretJSON r)) (sanitize (rec_UpdatedAt r))).
Proof.
  destruct r as [a b d e]. unfold record_json. cbn [clean dec_struct].
  change (fun kv : string * json => (sanitize kv.1, clean kv.2)) with clean_member.
  cbn [rec_Name rec_Owner rec_SecretJSON rec_UpdatedAt app]. dec_walk. done.
Qed.

Lemma parse_record r : parse (print (JObj [("data", record_json r)])) = Some (JObj [("data", clean (record_json r))]).
Proof.
  unfold record_json. rewrite parse_print; [done| |].
  - cbn. repeat constructor. unfold omitempty. destruct (String.eqb _ _); repeat constructor.
  - cbn. unfold omitempty, maxNestingDepth. destruct (String.eqb (rec_SecretJSON r) ""); cbn; lia.
Qed.

(** The kv engine under the key store's mount: a value whose write was
    acknowledged is what the next read returns. *)
Class KeyStoreKv (W : Type) `{Backend W} (c : openBaoClient) :=
  ks_written : forall st clientID n text v st' code status body, normalized n -> n <> "" ->
    let q := joinPath c (owner_segments c clientID "data" n) in
    parse text = Some (JObj [("data", v)]) ->
    serve st (mkRequest "POST" q (Some text)) = (st', Response code status body) -> code < 400 ->
    exists st2 status2 body2, serve st' (mkRequest "GET" q None) = (st2, Response 200 status2 body2) /\ carries body2 v.

Lemma visible_utf8 s : all_chars visible s = true -> valid_utf8 s = true.
Proof.
  intros Hs. apply valid_utf8_ascii. eapply all_chars_impl; [|exact Hs]. intros c. unfold visible.
  rewrite andb_true_iff, !Z.leb_le, Z.ltb_lt. lia.
Qed.

Lemma normalized_utf8 n : normalized n -> valid_utf8 n = true.
Proof. intros [->|[(_ & Hl & _) ->]]; [done|]. by apply visible_utf8, Join_visible. Qed.

Lemma tenantNamespace_utf8 clientID : valid_utf8 (tenantNamespace clientID) = true.
Proof.
  apply valid_utf8_ascii. eapply all_chars_impl; [|apply tenantNamespace_chars]. intros c.
  destruct c as [[] [] [] [] [] [] [] []]; first [reflexivity|discriminate].
Qed.

Lemma object_not_blank s : isKeyStoreJSONObject s = true -> String.eqb (TrimSpace s) "" = false.
Proof. unfold isKeyStoreJSONObject. by destruct (TrimSpace s). Qed.

Lemma decodeKeyStoreSecretJSON_object v s : decodeKeyStoreSecretJSON v = Ok s -> isKeyStoreJSONObject s = true.
Proof.
  unfold decodeKeyStoreSecretJSON. destruct (raw_value v) as [[t rest]|]; [|done]. intros H.
  apply bind_Ok in H as (? & H1%reject_Ok & H). inv_ok. by apply negb_false_iff in H1.
Qed.

(** C33: key-store round trip. After a successful KeyStorePut, a KeyStoreGet of
    that name by the same client, if the policy allows it, returns the stored
    secret byte for byte. *)
Theorem KeyStorePut_Get {W} {HB : Backend W} {HCr : Crypto} {HCe : Cedar} (p : Plugin (W := W))
  {HKs : KeyStoreKv W (client p)} now putReq getReq w w1 presp secret :
  KeyStorePut p now putReq w = (w1, Returned (Ok presp)) ->
  decodeKeyStoreSecretJSON (put_SecretJson putReq) = Ok secret -> valid_utf8 secret = true ->
  get_ClientId getReq = put_ClientId putReq -> normalizeKeyStoreName (get_Name getReq) = Ok (putr_Name presp) ->
  authorize (authorizer p) (get_ClientId getReq) keyStoreActionGet keyStoreKeyType (putr_Name presp) "" = Ok tt ->
  exists w2, KeyStoreGet p getReq w1 = (w2, Returned (Ok (mkGetResponse (putr_Name presp) secret))).
Proof.
  intros Hput Hdec Hutf Hcl Hname Hau. unfold KeyStorePut in Hput.
  apply run_bind_inv in Hput as (? & [] & Hreq & Hput). apply run_lift_inv in Hreq as [-> Hreq].
  apply run_bind_inv in Hput as (? & n & Hn & Hput). apply run_on_err_inv, run_lift_inv in Hn as [-> Hn].
  apply run_bind_inv in Hput as (? & s & Hd & Hput). apply run_on_err_inv, run_lift_inv in Hd as [-> Hd].
  apply run_bind_inv in Hput as (? & [] & Ha & Hput). apply run_lift_inv in Ha as [-> _].
  apply run_bind_inv in Hput as (w0 & v & Hp & Hput). apply run_on_err_inv in Hp. inv_run. cbn [putr_Name] in *.
  rewrite Hdec in Hd. injection Hd as <-.
  pose proof (name_normalized _ _ Hname) as Hnorm. unfold putKeyStoreSecret in Hp.
  assert (n <> "") as Hne.
  { intros ->. apply normalizeKeyStoreName_inv in Hname as (_ & (_ & Hl & _) & _). by apply Forall_cons in Hl as [[? _] _]. }
  rewrite keyStoreDataPath_eq in Hp by done. cbv zeta in Hp.
  apply run_bind_inv in Hp as (w3 & t & Ht & Hp). apply run_lift_inv in Ht as [-> [= <-]].
  apply run_do_into_inv in Hp as (st & code & status & body & Hs & Hcode & -> & _).
  destruct (ks_written _ _ _ _ _ _ _ _ _ Hnorm Hne (parse_record _) Hs Hcode)
    as (st2 & status2 & body2 & Hs2 & Hcar).
  eexists. unfold KeyStoreGet. rewrite Hcl in *. erewrite run_bind; [|unfold lift; by rewrite Hreq].
  erewrite run_bind; [|unfold lift; rewrite Hname; by apply run_on_err].
  erewrite run_bind; [|unfold lift; by rewrite Hau].
  erewrite run_bind; [|apply run_on_err; unfold getKeyStoreSecret; rewrite keyStoreDataPath_eq by done;
    erewrite run_bind by reflexivity; eapply run_do_into; [exact Hs2|rewrite Hcar; apply record_json_decode]].
  cbn [rec_Name rec_Owner rec_SecretJSON rec_UpdatedAt].
  rewrite (sanitize_valid n), (sanitize_valid (tenantNamespace _)), (sanitize_valid secret)
    by (done || apply tenantNamespace_utf8 || by apply normalized_utf8).
  pose proof (decodeKeyStoreSecretJSON_object _ _ Hdec) as Hobj. pose proof (object_not_blank _ Hobj) as Hnb.
  erewrite run_bind.
  2: { unfold guard_err, lift, isValidKeyStoreRecord, keyStoreRecordSecretJSON. cbn [rec_Name rec_Owner rec_SecretJSON].
       by rewrite Hnb, Hobj, !String.eqb_refl. }
  erewrite run_bind; [reflexivity|]. apply run_on_err. unfold lift, encodeKeyStoreSecretJSON, keyStoreRecordSecretJSON.
  cbn [rec_SecretJSON]. by rewrite Hnb, Hobj.
Qed.
