(* ===== verification/MemBao.v ===== *)
(** * An OpenBao in memory

    A concrete server with kv and transit engines, at which the hypotheses on
    [Backend] hold: it shows that the interfaces the KMS theorems rest on can be
    implemented, and the theorems are run against it. It is not a model of
    OpenBao: its transit engine does not encrypt. *)

From S2P Require Import Prelude GoStrings Errors Codec Sha2 Json OpenBao GoTime KmsMapping KmsAuthorizer KmsClient KmsProviders KmsPlugin KmsTenant KmsRoundtrip KmsHandlers KeyStore.

(** ** Equality of JSON trees *)

Fixpoint json_eqb (a b : json) : bool :=
  match a, b with
  | JNull, JNull => true
  | JBool x, JBool y => Bool.eqb x y
  | JNum x, JNum y => String.eqb x y
  | JStr x, JStr y => String.eqb x y
  | JArr l, JArr m =>
      (fix go l m := match l, m with
                     | [], [] => true
                     | x :: l, y :: m => json_eqb x y && go l m
                     | _, _ => false
                     end) l m
  | JObj l, JObj m =>
      (fix go l m := match l, m with
                     | [], [] => true
                     | (k, x) :: l, (j, y) :: m => String.eqb k j && json_eqb x y && go l m
                     | _, _ => false
                     end) l m
  | _, _ => false
  end.

Lemma json_eqb_eq a : forall b, json_eqb a b = true -> a = b.
Proof.
  induction a as [|x|x|x|l IH|l IH] using json_tree_ind; intros [|y|y|y|m|m]; cbn; try done.
  - by intros ->%Bool.eqb_prop.
  - by intros ->%String.eqb_eq.
  - by intros ->%String.eqb_eq.
  - intros H. f_equal. revert m H. induction IH as [|x l Hx _ IH]; intros [|y m]; try done.
    intros [H1 H2]%andb_true_iff. by rewrite (Hx _ H1), (IH _ H2).
  - intros H. f_equal. revert m H. induction IH as [|[k x] l Hx _ IH]; intros [|[j y] m]; try done.
    intros [[->%String.eqb_eq H1]%andb_true_iff H2]%andb_true_iff. cbn in Hx. by rewrite (Hx _ H1), (IH _ H2).
Qed.

(** ** The server *)

(** What is stored, by the path it was written to. *)
Definition store : Type := list (string * json).

Definition ok_reply (v : json) : reply := Response 200 "200 OK" (print v).
Definition not_found : reply := Response 404 "404 Not Found" "".

Definition answer (v : json) : json := JObj [("data", JObj [("data", v)])].

(** Values that are read back as they were written. *)
Definition storable (v : json) : bool :=
  match parse (print (answer v)) with Some a => json_eqb a (answer v) | None => false end.

Definition kv_value (st : store) (path : string) : option json :=
  v ← assoc_lookup path st; if storable v then Some v else None.

Definition kv_get (st : store) (path : string) : reply :=
  match kv_value st path with None => not_found | Some v => ok_reply (answer v) end.

Definition kv_post (st : store) (path : string) (text : string) : store * reply :=
  match parse text with
  | Some (JObj [("data", v)]) =>
      if storable v then (assoc_insert path v st, ok_reply (JObj [("data", JObj [("version", JNum "1")])]))
      else (st, Response 400 "400 Bad Request" "")
  | _ => (st, Response 400 "400 Bad Request" "")
  end.

Definition kv_serve (st : store) (r : request) : store * reply :=
  match body r with
  | Some text => if String.eqb (method r) "POST" then kv_post st (target r) text else (st, not_found)
  | None => (st, if String.eqb (method r) "GET" then kv_get st (target r) else not_found)
  end.

Definition transit_reply (field value : string) : reply := ok_reply (JObj [("data", JObj [(field, JStr value)])]).

Definition transit_serve (parts : list string) (r : request) : reply :=
  match parts, body r with
  | ["encrypt"; _], Some text =>
      match parse text with
      | Some (JObj [(_, JStr pt)]) => transit_reply "ciphertext" ("vault:v1:" +:+ pt)
      | _ => not_found
      end
  | ["decrypt"; _], Some text =>
      match parse text with
      | Some (JObj [(_, JStr ct)]) => transit_reply "plaintext" (TrimPrefix ct "vault:v1:")
      | _ => not_found
      end
  | ["sign"; _; _], Some _ => transit_reply "signature" "vault:v1:c2ln"
  | ["keys"; _], None => ok_reply (JObj [("data", JObj [("latest_version", JNum "1"); ("type", JStr "aes256-gcm96")])])
  | ["keys"; _], Some _ => Response 204 "204 No Content" ""
  | _, _ => not_found
  end.

(** A listing: the next segment of what is stored below a path. *)
Fixpoint strip_prefix (pre l : list string) : option (list string) :=
  match pre, l with
  | [], _ => Some l
  | x :: pre, y :: l => if String.eqb x y then strip_prefix pre l else None
  | _, [] => None
  end.

Definition kv_list (st : store) (parts : list string) : reply :=
  match parts with
  | "metadata" :: rest =>
      ok_reply (JObj [("data", JObj [("keys", JArr (flat_map (fun kv =>
        match strip_prefix (["" ; "v1"; "key-store"; "data"] ++ rest) (Split slash kv.1) with
        | Some [x] => [JStr x]
        | Some (x :: _) => [JStr (x +:+ "/")]
        | _ => []
        end) st))])])
  | _ => not_found
  end.

(** The metadata of the keys, and the secrets of the key store. *)
Definition mem_state : Type := store * store.

Definition mem_serve (st : mem_state) (r : request) : mem_state * reply :=
  match Split slash (target r) with
  | "" :: "v1" :: mount :: parts =>
      if String.eqb mount "secret" then let '(st1, rep) := kv_serve st.1 r in ((st1, st.2), rep)
      else if String.eqb mount "key-store" then
        if String.eqb (method r) "LIST" then (st, kv_list st.2 parts)
        else let '(st2, rep) := kv_serve st.2 r in ((st.1, st2), rep)
      else if String.eqb mount "transit" then (st, transit_serve parts r)
      else (st, not_found)
  | _ => (st, not_found)
  end.

#[export] Instance mem_backend : Backend mem_state := mem_serve.

(** A hash that is none, and a policy engine that allows what it is asked. *)
#[export] Instance mem_crypto : Crypto := {|
  keccak256 := fun _ => repeat 0 32;
  encapsulate768 := fun _ => Err (Errorf "invalid encapsulation key" []);
  encapsulate1024 := fun _ => Err (Errorf "invalid encapsulation key" []) |}.

#[export] Instance allow_all : Cedar := {|
  Policy := unit;
  NewPolicySetFromBytes := fun _ _ => Ok [("policy0", tt)];
  Authorize := fun _ _ _ => (true, []) |}.

Definition mem_config : option kmsConfig := Some (mkKmsConfig "http://bao:8200/" "" "" "" "" "" "" 0).
Definition mem_client : openBaoClient := newOpenBaoClient mem_config.

Lemma mem_client_ok : client_ok mem_client.
Proof. split; [by left|]. repeat constructor. Qed.

Lemma mem_mounts : kvMount mem_client <> transitMount mem_client /\ kvMount mem_client <> ethereumMount mem_client /\
  kvMount mem_client <> pqcMount mem_client.
Proof. done. Qed.

Lemma mem_target l : l <> [] -> Forall (fun s => safe_segment s = true) l ->
  Split slash (joinPath mem_client l) = "" :: l.
Proof.
  intros Hn Hl. rewrite joinPath_safe by (done || apply mem_client_ok).
  change (Split slash (url_Path (baseURL mem_client) +:+ "/" +:+ Join "/" l)) with ("" :: Split slash (Join "/" l)).
  by rewrite Split_Join by (done || by apply safe_segments_free).
Qed.

(** ** It keeps the promises *)

Lemma answer_carries text v : parse text = Some (JObj [("data", JObj [("data", v)])]) -> carries text v.
Proof. intros Hp R d z. unfold Unmarshal. rewrite Hp. cbn. by destruct (d v z). Qed.

Lemma storable_carries v : storable v = true -> carries (print (answer v)) v.
Proof.
  unfold storable. destruct (parse _) as [a|] eqn:Ep; [|done]. intros ->%json_eqb_eq. by apply answer_carries.
Qed.

Lemma kv_value_storable st path v : kv_value st path = Some v -> storable v = true.
Proof. unfold kv_value. destruct (assoc_lookup path st) as [u|]; cbn; [|done]. destruct (storable u) eqn:E; congruence. Qed.

Lemma kv_get_inv st path code status text : kv_get st path = Response code status text -> code < 400 ->
  exists v, kv_value st path = Some v /\ carries text v.
Proof.
  unfold kv_get. destruct (kv_value st path) as [v|] eqn:Ev; [|by intros [= <- _ _]].
  intros [= <- <- <-] _. exists v. split; [done|]. by eapply storable_carries, kv_value_storable.
Qed.

Lemma kv_post_spec st path text v : parse text = Some (JObj [("data", v)]) ->
  kv_post st path text = (st, Response 400 "400 Bad Request" "") \/
  (kv_post st path text).1 = assoc_insert path v st /\ kv_value (assoc_insert path v st) path = Some v.
Proof.
  intros Hp. unfold kv_post. rewrite Hp. cbn -[storable]. destruct (storable v) eqn:E; [right|by left].
  split; [done|]. unfold kv_value. rewrite assoc_lookup_insert. cbn. by rewrite E.
Qed.

Lemma kv_serve_get st p : (kv_serve st (mkRequest "GET" p None)).1 = st.
Proof. done. Qed.

Lemma mem_metadata st m t clientID a : validateAlias a = Ok tt ->
  let r := mkRequest m (metadataPath mem_client clientID (keyIDPrefix +:+ a)) t in
  serve st r = (let '(st1, rep) := kv_serve st.1 r in ((st1, st.2), rep)).
Proof.
  intros Ha. pose proof (metadata_segments_safe mem_client clientID a mem_client_ok Ha) as Hs.
  cbv zeta. unfold serve, mem_backend, mem_serve. cbn [target]. rewrite metadataPath_segments, mem_target by done. done.
Qed.

Lemma mem_entry st m t clientID n : normalized n -> String.eqb m "LIST" = false ->
  let r := mkRequest m (joinPath mem_client (owner_segments mem_client clientID "data" n)) t in
  serve st r = (let '(st2, rep) := kv_serve st.2 r in ((st.1, st2), rep)).
Proof.
  intros Hn Hm. destruct (owner_segments_safe mem_client clientID "data" n mem_client_ok (or_introl eq_refl) Hn) as [H1 H2].
  cbv zeta. unfold serve, mem_backend, mem_serve. cbn [target method]. rewrite mem_target by done. cbn -[kv_serve String.eqb].
  change (String.eqb "key-store" "secret") with false. change (String.eqb "key-store" "key-store") with true.
  cbv iota. by rewrite Hm.
Qed.

(** Requests to the other engines, and reads, leave the metadata alone. *)
Lemma mem_other st r l : target r = joinPath mem_client l -> Forall (fun s => safe_segment s = true) l ->
  l !! 1%nat <> Some (kvMount mem_client) -> (serve st r).1.1 = st.1.
Proof.
  intros Ht Hs Hm. unfold serve, mem_backend, mem_serve. rewrite Ht. destruct l as [|s l]; [done|].
  rewrite mem_target by done. destruct l as [|m l]; [by repeat case_match|]. cbn in Hm.
  assert (String.eqb m "secret" = false) as -> by (apply String.eqb_neq; congruence).
  destruct (kv_serve st.2 r). repeat case_match; done.
Qed.

Lemma mem_get st p : (serve st (mkRequest "GET" p None)).1 = st.
Proof.
  unfold serve, mem_backend, mem_serve. cbn [target]. destruct st as [st1 st2]. cbn [fst snd].
  pose proof (kv_serve_get st1 p) as H1. pose proof (kv_serve_get st2 p) as H2.
  destruct (kv_serve st1 _), (kv_serve st2 _). cbn in *. subst. repeat case_match; done.
Qed.

#[export, refine] Instance mem_kv : KvV2 mem_state mem_client := {| kv_lookup := fun st q => kv_value st.1 q |}.
Proof.
  - intros st clientID a code status text Ha. cbv zeta. rewrite mem_metadata by done. intros Hs Hc. by eapply kv_get_inv.
  - intros st clientID a text v q Ha. cbv zeta. rewrite mem_metadata by done. intros Hp.
    set (path := metadataPath _ _ _) in *. unfold kv_serve. cbn [body method target].
    change (String.eqb "POST" "POST") with true. cbv iota.
    destruct (kv_post_spec st.1 path text v Hp) as [->|[Hst Hv]]; [by left|].
    destruct (kv_post st.1 path text) as [st1 rep]; cbn in *. subst st1.
    destruct (decide (path = q)) as [<-|Hne]; [by right|left]. unfold kv_value. by rewrite assoc_lookup_insert_ne.
  - intros st p q. by rewrite mem_get.
  - intros st r l q Ht Hs Hm. by rewrite (mem_other st r l).
Defined.

#[export] Instance mem_kv_up : KvUp mem_state (c := mem_client).
Proof.
  intros st clientID a v Ha. cbv zeta. cbn [kv_lookup mem_kv]. intros Hv. rewrite mem_metadata by done.
  eexists _, _, _. unfold kv_serve, kv_get. cbn [body method target]. rewrite Hv. split; [reflexivity|].
  by eapply storable_carries, kv_value_storable.
Qed.

#[export] Instance mem_kv_writes : KvWrites mem_client.
Proof.
  intros st clientID a text v st' code status rep Ha. cbv zeta. rewrite mem_metadata by done.
  intros Hp. unfold kv_serve. cbn [body method target]. change (String.eqb "POST" "POST") with true. cbv iota.
  set (path := metadataPath _ _ _). destruct (kv_post_spec st.1 path text v Hp) as [->|[Hst Hv]].
  - by intros [= _ <- _ _].
  - destruct (kv_post st.1 path text) as [st1 r]; cbn in *. by intros [= <- _] _; subst.
Qed.

#[export] Instance mem_key_store : KeyStoreKv mem_state mem_client.
Proof.
  intros st clientID n text v st' code status rep Hn Hne. cbv zeta. rewrite mem_entry by done.
  intros Hp. unfold kv_serve. cbn [body method target]. change (String.eqb "POST" "POST") with true. cbv iota.
  set (path := joinPath _ _). destruct (kv_post_spec st.2 path text v Hp) as [->|[Hst Hv]].
  - by intros [= _ <- _ _].
  - destruct (kv_post st.2 path text) as [st2 r]; cbn in Hst. intros [= <- _] _. subst. unfold path.
    rewrite mem_entry by done. eexists _, _, _. unfold kv_serve, kv_get. cbn [body method target snd]. fold path. rewrite Hv.
    split; [reflexivity|]. by eapply storable_carries, kv_value_storable.
Qed.

Lemma engine_target k op : safe_segment k = true -> safe_segment op = true ->
  Split slash (transitPath mem_client [op; k]) = [""; "v1"; "transit"; op; k].
Proof. intros Hk Ho. unfold transitPath. rewrite mem_target; [done|done|]. by repeat constructor. Qed.

Lemma dec_one_string name value r : one_string name (JObj [(name, JStr value)]) r = Ok value.
Proof.
  unfold one_string, dec_struct, dec_members, find_field. cbn [find field_name fld]. by rewrite String.eqb_refl.
Qed.

Lemma Unmarshal_transit name value : sanitize name = name -> sanitize value = value ->
  Unmarshal (data_of (one_string name)) (print (JObj [("data", JObj [(name, JStr value)])])) "" = Ok value.
Proof.
  intros Hn Hv. rewrite Unmarshal_print; [|by repeat constructor|done]. cbn [clean map fst snd].
  rewrite Hn, Hv. change (sanitize "data") with "data". unfold data_of. cbn -[one_string]. by rewrite dec_one_string.
Qed.

Definition mem_opens (st : mem_state) (k ct pt : string) : Prop := ct = "vault:v1:" +:+ pt /\ valid_utf8 pt = true.

#[export, refine] Instance mem_transit : TransitEngine mem_state mem_client := {| opens := mem_opens |}.
Proof.
  - intros st k pt st' code status rep Hk Hpt. unfold serve, mem_backend, mem_serve, encrypt_request. cbn [target].
    rewrite engine_target by done. cbn -[parse print sanitize]. unfold transit_serve. cbn [body].
    rewrite parse_print; [|by repeat constructor|done]. cbn [clean map fst snd]. rewrite (sanitize_valid pt) by done.
    intros [= <- <- <- <-] _. exists ("vault:v1:" +:+ pt). split_and!; [done|exact Hpt|done|].
    by apply Unmarshal_transit; [|apply sanitize_valid].
  - intros st k ct pt Hk [-> Hpt]. eexists st, "200 OK", _. unfold serve, mem_backend, mem_serve, decrypt_request. cbn [target].
    rewrite engine_target by done. cbn -[parse print sanitize TrimPrefix String.app]. unfold transit_serve. cbn [body].
    rewrite parse_print; [|by repeat constructor|done]. cbn [clean map fst snd].
    rewrite (sanitize_valid ("vault:v1:" +:+ pt)) by exact Hpt. rewrite TrimPrefix_append. split; [reflexivity|].
    by apply Unmarshal_transit; [|apply sanitize_valid].
  - intros st p k ct pt H. exact H.
Defined.

(** ** The plugin over it *)

Definition no_file (path : string) : result string := Err (Errorf "open %s: no such file or directory" [path]).

Definition mem_plugin : Plugin (W := mem_state) :=
  match newPluginWithConfig no_file mem_config mem_client with
  | Ok p => p
  | Err _ => mkPlugin mem_client [] None
  end.

Lemma mem_plugin_made : newPluginWithConfig no_file mem_config mem_client = Ok mem_plugin.
Proof. reflexivity. Qed.

Definition boot : world mem_state := mkWorld ([], []) [].

Lemma boot_ok : store_ok mem_client (backend boot).
Proof. intros clientID a v m _ Hv. done. Qed.
