(* ===== verification/KmsRuns.v ===== *)
(** * The KMS theorems on concrete runs

    Each theorem with hypotheses, applied to a run of the plugin against the
    server of [MemBao], in which the hypotheses hold. *)

From S2P Require Import Prelude GoStrings Errors Codec Sha2 Json OpenBao GoTime KmsMapping KmsAuthorizer KmsClient KmsProviders KmsPlugin KmsTenant KmsRoundtrip KmsHandlers KeyStore MemBao.

(** ** The runs *)

Definition create_key : CreateKeyRequest :=
  mkCreateKeyRequest "card data" keySpecAES256GCM96 encryptDecryptUsage [mkProtoTag "env" "prod"] None "alice" "payments".
Definition create_signer : CreateKeyRequest :=
  mkCreateKeyRequest "" keySpecED25519 signVerifyUsage [] (Some schemeTransit) "alice" "signer".

Definition created := Plugin_CreateKey mem_plugin 1700000000 create_key boot.
Definition created_world : world mem_state := Eval vm_compute in created.1.
Definition created_key : KeyMetadata :=
  Eval vm_compute in match created.2 with Returned (Ok k) => k | _ => mkKeyMetadata "" "" "" "" false 0 "" [] "" None None "" end.

Lemma created_run : Plugin_CreateKey mem_plugin 1700000000 create_key boot = (created_world, Returned (Ok created_key)).
Proof. vm_compute. reflexivity. Qed.

Lemma created_ok : store_ok mem_client (backend created_world).
Proof.
  destruct (own_CreateKey mem_client mem_client_ok mem_mounts mem_plugin no_file mem_config mem_plugin_made
    1700000000 create_key boot boot_ok) as (_ & _ & _ & Hst & _). by rewrite created_run in Hst.
Qed.

Definition encrypt_card : EncryptRequest := mkEncryptRequest "payments" "NDI0Mg==" None "alice".
Definition encrypted := Plugin_Encrypt mem_plugin encrypt_card created_world.
Definition encrypted_world : world mem_state := Eval vm_compute in encrypted.1.
Definition encrypted_resp : EncryptResponse :=
  Eval vm_compute in match encrypted.2 with Returned (Ok r) => r | _ => mkEncryptResponse "" "" "" end.

Lemma encrypted_run : Plugin_Encrypt mem_plugin encrypt_card created_world = (encrypted_world, Returned (Ok encrypted_resp)).
Proof. vm_compute. reflexivity. Qed.

Definition signer_world : world mem_state := Eval vm_compute in (Plugin_CreateKey mem_plugin 1700000000 create_signer boot).1.
Definition sign_req : SignRequest := mkSignRequest "kms:signer" "aGVsbG8=" "ED25519" None "alice".
Definition signed := Plugin_Sign mem_plugin sign_req signer_world.
Definition signed_world : world mem_state := Eval vm_compute in signed.1.
Definition signed_resp : SignResponse :=
  Eval vm_compute in match signed.2 with Returned (Ok r) => r | _ => mkSignResponse "" "" "" 0 end.

(** Bob asks for the plaintext of Alice's blob. *)
Definition stolen : DecryptRequest := mkDecryptRequest (encr_CiphertextBlob encrypted_resp) None None "bob".
Definition stolen_blob : ciphertextBlob :=
  Eval vm_compute in match decodeCiphertextBlob (dec_CiphertextBlob stolen) with Ok b => b | Err _ => mkBlob 0 "" "" "" "" "" "" end.

Definition secret_text : string := print (JObj [("user", JStr "app")]).
Definition put_req : KeyStorePutRequest := mkPutRequest " db/main " (" " +:+ secret_text +:+ " ") "alice".
Definition put_world : world mem_state := Eval vm_compute in (KeyStorePut mem_plugin 1700000000 put_req boot).1.

Lemma put_run : KeyStorePut mem_plugin 1700000000 put_req boot = (put_world, Returned (Ok (mkPutResponse "db/main" 1))).
Proof. vm_compute. reflexivity. Qed.

Definition list_world : world mem_state :=
  Eval vm_compute in (KeyStorePut mem_plugin 1700000000 (mkPutRequest "root" secret_text "alice") put_world).1.

(** ** The theorems at these runs *)

Lemma tenant_isolation_witness : exists l,
  sent (run_call mem_plugin (CallEncrypt encrypt_card) created_world).1 = sent created_world ++ l /\
  Forall (tenant_request mem_client "alice" "payments") l /\
  store_ok mem_client (backend (run_call mem_plugin (CallEncrypt encrypt_card) created_world).1).
Proof.
  exact (tenant_isolation mem_client mem_client_ok mem_mounts mem_plugin no_file mem_config mem_plugin_made
    (CallEncrypt encrypt_card) created_world created_ok).
Defined.

Lemma tenant_targets_disjoint_witness : tenantNamespace "alice" = tenantNamespace "alice" /\ "payments" = "payments".
Proof.
  apply (tenant_targets_disjoint mem_client "alice" "payments" (metadata_get mem_client "alice" "kms:payments")
    "alice" "payments" (mkRequest "POST" (metadataPath mem_client "alice" "kms:payments") (Some ""))).
  - apply mem_client_ok.
  - reflexivity.
  - reflexivity.
  - exists (metadata_segments mem_client "alice" "payments"). split; [by left|vm_compute; reflexivity].
  - exists (metadata_segments mem_client "alice" "payments"). split; [by left|vm_compute; reflexivity].
  - vm_compute. reflexivity.
Defined.

Lemma Encrypt_Decrypt_roundtrip_witness : exists w2,
  Plugin_Decrypt mem_plugin (mkDecryptRequest (encr_CiphertextBlob encrypted_resp) (Some "kms:payments") None "alice") encrypted_world =
    (w2, Returned (Ok (mkDecryptResponse "NDI0Mg==" "kms:payments" encryptionAlgorithmAES256GCM96))).
Proof.
  apply (Encrypt_Decrypt_roundtrip mem_client mem_client_ok mem_mounts mem_plugin no_file mem_config mem_plugin_made
    encrypt_card created_world encrypted_world encrypted_resp (Some "kms:payments") None).
  - apply created_ok.
  - reflexivity.
  - apply encrypted_run.
  - reflexivity.
Defined.

Lemma Decrypt_rejects_foreign_witness : exists w' e,
  Plugin_Decrypt mem_plugin stolen encrypted_world = (w', Returned (Err e)) /\
    (sent w' = sent encrypted_world \/
     sent w' = sent encrypted_world ++ [metadata_get mem_client "bob" "kms:payments"]).
Proof.
  apply (Decrypt_rejects_foreign mem_client mem_client_ok mem_mounts mem_plugin no_file mem_config mem_plugin_made
    stolen stolen_blob encrypted_world).
  - apply created_ok.
  - vm_compute. reflexivity.
  - vm_compute. discriminate.
Defined.

Lemma Sign_version_witness : exists w1 m pr,
  metadataProvider mem_plugin "alice" "kms:signer" signer_world = (w1, Returned (Ok (m, pr))) /\
    sigr_KeyVersion signed_resp = m_PrimaryVersion m /\ sigr_KeyId signed_resp = m_KeyID m /\
    sigr_SigningAlgorithm signed_resp = sig_SigningAlgorithm sign_req /\
    (m_Scheme m = schemeTransit -> exists mapping,
      signingConfig (sig_SigningAlgorithm sign_req) (optionalString (sig_MessageType sign_req)) = Ok mapping /\
      sent signed_world = sent w1 ++ [sign_request mem_client m sign_req mapping (sigr_KeyVersion signed_resp)]).
Proof.
  apply (Sign_version mem_client mem_plugin no_file mem_config mem_plugin_made sign_req signer_world).
  vm_compute. reflexivity.
Defined.

Lemma CreateKey_GetKeyMetadata_witness : exists w2,
  Plugin_GetKeyMetadata mem_plugin (mkKeyRequest (KeyId created_key) "alice") created_world =
    (w2, Returned (Ok (proto_clean created_key))).
Proof.
  apply (CreateKey_GetKeyMetadata mem_client mem_client_ok mem_mounts mem_plugin no_file mem_config mem_plugin_made
    1700000000 create_key boot).
  - apply boot_ok.
  - reflexivity.
  - apply created_run.
Defined.

Lemma keystore_targets_disjoint_witness : tenantNamespace "alice" = tenantNamespace "alice" /\ "db/main" = "db/main".
Proof.
  assert (normalized "db/main") as Hn by (by eapply (name_normalized " db/main ")).
  pose (path := joinPath mem_client (owner_segments mem_client "alice" "data" "db/main")).
  apply (keystore_targets_disjoint mem_client "alice" "db/main" (mkRequest "GET" path None)
    "alice" "db/main" (mkRequest "POST" path (Some ""))); [apply mem_client_ok|exact Hn|exact Hn|..].
  - exists "data". split; [by left|vm_compute; reflexivity].
  - exists "data". split; [by left|vm_compute; reflexivity].
  - reflexivity.
Defined.

Lemma KeyStoreGet_verified_witness : exists name r, normalizeKeyStoreName "db/main" = Ok name /\ "db/main" = name /\
    getKeyStoreSecret mem_client "alice" name put_world =
      ((KeyStoreGet mem_plugin (mkGetRequest "db/main" "alice") put_world).1, Returned (Ok r)) /\
    rec_Owner r = tenantNamespace "alice" /\ rec_Name r = name /\ secret_text = rec_SecretJSON r /\
    isKeyStoreJSONObject secret_text = true.
Proof.
  apply (KeyStoreGet_verified mem_plugin (mkGetRequest "db/main" "alice") put_world _ (mkGetResponse "db/main" secret_text)).
  vm_compute. reflexivity.
Defined.

Lemma KeyStoreDelete_checked_witness :
  let path := joinPath mem_client (owner_segments mem_client "alice" "metadata" "db/other") in
  let get := mkRequest "GET" path None in
  KeyStoreDelete mem_plugin (mkDeleteRequest "db/other" "alice") put_world =
    (mkWorld (backend put_world) (sent put_world ++ [get]),
     Returned (Err (StatusErr NotFound (Errorf "key-store entry not found" [])))).
Proof.
  exact (KeyStoreDelete_checked mem_plugin (mkDeleteRequest "db/other" "alice") "db/other" put_world
    eq_refl eq_refl eq_refl).
Defined.

Lemma KeyStoreList_usable_witness : exists prefix, normalizeKeyStorePrefix "" = Ok prefix /\
    StronglySorted (fun a b => String.leb a b = true) ["db/"; "root"] /\ Forall (usable prefix) ["db/"; "root"].
Proof.
  apply (KeyStoreList_usable mem_plugin (mkListRequest None "alice") list_world
    (KeyStoreList mem_plugin (mkListRequest None "alice") list_world).1 ["db/"; "root"]).
  vm_compute. reflexivity.
Defined.

Lemma KeyStorePut_Get_witness : exists w2,
  KeyStoreGet mem_plugin (mkGetRequest "db/main" "alice") put_world =
    (w2, Returned (Ok (mkGetResponse "db/main" secret_text))).
Proof.
  apply (KeyStorePut_Get mem_plugin (HKs := mem_key_store) 1700000000 put_req (mkGetRequest "db/main" "alice") boot put_world
    (mkPutResponse "db/main" 1) secret_text put_run); vm_compute; reflexivity.
Defined.
