(* ===== verification/Threshold.v ===== *)
(** * The threshold plugin (pkg/plugin/threshold)

    The coordinator of a distributed key generation: it derives the bootstrap
    seeds and relays four rounds of messages between the participants' OpenBao
    servers. The servers are the parameter [Backend], the timer between retries
    and the cancellation of the context are the parameter [Timer]; a request's
    [target] is the whole URL here. Iteration over a Go map is a parameter,
    [map_order], that may permute the entries. *)

From S2P Require Import Prelude GoStrings Errors Codec Sha2 Json OpenBao KmsClient.

(** ** config.go *)

Record thresholdConfig := mkThresholdConfig {
  cfg_TimeoutSecs : Z;
  cfg_SessionSecret : string;
  cfg_RetryAttempts : Z;
  cfg_RetryBackoffMillis : Z;
}.

(** [env_string] and [env_int] are the values viper finds in the environment. *)
Definition readFromEnv (env_string : string -> option string) (env_int : string -> option Z) : thresholdConfig :=
  mkThresholdConfig (default 30 (env_int "THRESHOLD_TIMEOUT_SECS"))
    (default "" (env_string "THRESHOLD_SESSION_SECRET"))
    (default 3 (env_int "THRESHOLD_RETRY_ATTEMPTS"))
    (default 100 (env_int "THRESHOLD_RETRY_BACKOFF_MILLIS")).

(** ** types.go *)

Definition defaultMount := "threshold".
Definition defaultSeedBytes : Z := 32.
Definition keyStatusCompleted := "dkg_completed".

(** A participant's client. *)
Record OpenBaoClient := mkOpenBaoClient { oc_baseURL : string; oc_mount : string }.

Record DKGParticipant := mkParticipant { NodeID : string; PartyIndex : Z; Client : OpenBaoClient }.

Record DKGRequest := mkDKGRequest {
  KeyName : string;
  GroupName : string;
  SessionID : string;
  Threshold : Z;
  Participants : list DKGParticipant;
}.

Record StartDKGRequest := mkStart {
  start_KeyName : string;
  start_GroupName : string;
  start_SessionID : string;
  start_CommonSeed : string;
  start_PairwiseSeeds : option (list (string * string));     (* a map; [None] is nil *)
  start_Algorithm : string;
  start_Curve : string;
  start_KeyEpoch : Z;
}.

Record DeliverDKGRequest := mkDeliver { dl_Round : Z; dl_From : string; dl_Broadcast : string; dl_Unicast : string }.

Record DKGStatus := mkStatus {
  st_Name : string; st_Group : string; st_SessionID : string; st_NodeID : string; st_Status : string;
  st_Round : Z; st_Broadcast : string; st_Unicasts : list (string * string);
  st_PendingFrom : list string; st_PublicKey : string;
}.

Record DKGResult := mkResult {
  res_KeyName : string; res_GroupName : string; res_SessionID : string; res_PublicKey : string;
  res_Nodes : list (string * DKGStatus);
}.

(** [map[string]string]: members are added to the map that is there. *)
Definition dec_string_map : decoder (list (string * string)) := fun v r =>
  match v with
  | JObj l => fold_left (fun m kv => m ← m; x ← dec_string kv.2 ""; Ok (assoc_insert kv.1 x m)) l (Ok r)
  | JNull => Ok []
  | _ => Err UnmarshalTypeError
  end.

Definition DKGStatus_fields : list (field DKGStatus) :=
  [fld "name" st_Name (fun x r => mkStatus x (st_Group r) (st_SessionID r) (st_NodeID r) (st_Status r) (st_Round r)
     (st_Broadcast r) (st_Unicasts r) (st_PendingFrom r) (st_PublicKey r)) dec_string;
   fld "group" st_Group (fun x r => mkStatus (st_Name r) x (st_SessionID r) (st_NodeID r) (st_Status r) (st_Round r)
     (st_Broadcast r) (st_Unicasts r) (st_PendingFrom r) (st_PublicKey r)) dec_string;
   fld "session_id" st_SessionID (fun x r => mkStatus (st_Name r) (st_Group r) x (st_NodeID r) (st_Status r) (st_Round r)
     (st_Broadcast r) (st_Unicasts r) (st_PendingFrom r) (st_PublicKey r)) dec_string;
   fld "node_id" st_NodeID (fun x r => mkStatus (st_Name r) (st_Group r) (st_SessionID r) x (st_Status r) (st_Round r)
     (st_Broadcast r) (st_Unicasts r) (st_PendingFrom r) (st_PublicKey r)) dec_string;
   fld "status" st_Status (fun x r => mkStatus (st_Name r) (st_Group r) (st_SessionID r) (st_NodeID r) x (st_Round r)
     (st_Broadcast r) (st_Unicasts r) (st_PendingFrom r) (st_PublicKey r)) dec_string;
   fld "round" st_Round (fun x r => mkStatus (st_Name r) (st_Group r) (st_SessionID r) (st_NodeID r) (st_Status r) x
     (st_Broadcast r) (st_Unicasts r) (st_PendingFrom r) (st_PublicKey r)) dec_int;
   fld "broadcast" st_Broadcast (fun x r => mkStatus (st_Name r) (st_Group r) (st_SessionID r) (st_NodeID r) (st_Status r)
     (st_Round r) x (st_Unicasts r) (st_PendingFrom r) (st_PublicKey r)) dec_string;
   fld "unicasts" st_Unicasts (fun x r => mkStatus (st_Name r) (st_Group r) (st_SessionID r) (st_NodeID r) (st_Status r)
     (st_Round r) (st_Broadcast r) x (st_PendingFrom r) (st_PublicKey r)) dec_string_map;
   fld "pending_from" st_PendingFrom (fun x r => mkStatus (st_Name r) (st_Group r) (st_SessionID r) (st_NodeID r)
     (st_Status r) (st_Round r) (st_Broadcast r) (st_Unicasts r) x (st_PublicKey r)) (dec_list "" dec_string);
   fld "public_key" st_PublicKey (fun x r => mkStatus (st_Name r) (st_Group r) (st_SessionID r) (st_NodeID r) (st_Status r)
     (st_Round r) (st_Broadcast r) (st_Unicasts r) (st_PendingFrom r) x) dec_string].

Definition empty_status : DKGStatus := mkStatus "" "" "" "" "" 0 "" [] [] "".

(** ** openbao.go *)

Definition NewOpenBaoClient (BaseURL Mount : string) : OpenBaoClient :=
  let mount := TrimChar slash Mount in
  mkOpenBaoClient (TrimRightChar slash BaseURL) (if String.eqb mount "" then defaultMount else mount).

(** *** [url.JoinPath] *)

(** The scheme and authority of a base URL, its path, and the query and fragment
    after it. *)
Definition url_Origin (u : string) : string :=
  take_chars (String.length u - String.length (match after_scheme u with Some rest => from_slash rest | None => u end)) u.

(** [url.JoinPath(base, elem...)] for a base [scheme://authority/path] with no
    query or fragment. A joined path with an invalid escape leaves the base as it
    is. *)
Definition url_JoinPath (base : string) (elem : list string) : string :=
  let joined := path_Join (("/" +:+ TrimLeftChar slash (url_Path base)) :: elem) in
  let joined := if HasSuffix (List.last elem "") "/" && negb (HasSuffix joined "/") then joined +:+ "/" else joined in
  match unescape joined with
  | None => base
  | Some path => url_Origin base +:+ (if valid_encoded joined then joined else escape_path path)
  end.

Definition thresholdPath (c : OpenBaoClient) (parts : list string) : string :=
  url_JoinPath (oc_baseURL c) (["v1"; oc_mount c] ++ parts).

(** A Go map is marshalled with its keys in order. *)
Definition map_json (m : option (list (string * string))) : json :=
  match m with
  | None => JNull
  | Some m => JObj (map (fun kv => (kv.1, JStr kv.2)) (isort (fun a b => String.leb a.1 b.1) m))
  end.

Definition start_json (req : StartDKGRequest) : json :=
  JObj (omitempty "algorithm" (start_Algorithm req) ++ [("common_seed", JStr (start_CommonSeed req))] ++
    omitempty "curve" (start_Curve req) ++ [("group", JStr (start_GroupName req))] ++
    (if start_KeyEpoch req =? 0 then [] else [("key_epoch", JNum (pretty (start_KeyEpoch req)))]) ++
    [("pairwise_seeds", JStr (print (map_json (start_PairwiseSeeds req)))); ("session_id", JStr (start_SessionID req))]).

Definition deliver_json (req : DeliverDKGRequest) : json :=
  JObj [("broadcast", JStr (dl_Broadcast req)); ("from", JStr (dl_From req));
        ("round", JNum (pretty (dl_Round req))); ("unicast", JStr (dl_Unicast req))].

Definition proceed_json (round : Z) : json := JObj [("round", JNum (pretty round))].

Definition dkg_decoder : decoder DKGStatus := data_of (dec_struct DKGStatus_fields).

Section Calls.
Context {W : Type} `{Backend W}.

Definition StartDKG (c : OpenBaoClient) (req : StartDKGRequest) : M W DKGStatus :=
  Post (thresholdPath c ["keys"; start_KeyName req; "dkg"; "start"]) (start_json req) dkg_decoder empty_status.

Definition DeliverDKG (c : OpenBaoClient) (keyName : string) (req : DeliverDKGRequest) : M W DKGStatus :=
  Post (thresholdPath c ["keys"; keyName; "dkg"; "deliver"]) (deliver_json req) dkg_decoder empty_status.

Definition ProceedDKG (c : OpenBaoClient) (keyName : string) (round : Z) : M W DKGStatus :=
  Post (thresholdPath c ["keys"; keyName; "dkg"; "proceed"]) (proceed_json round) dkg_decoder empty_status.

Definition ReadDKGStatus (c : OpenBaoClient) (keyName : string) : M W DKGStatus :=
  Get (thresholdPath c ["keys"; keyName; "dkg"; "status"]) dkg_decoder empty_status.

End Calls.

(** ** coordinator.go *)

Definition defaultRetryAttempts : Z := 3.
Definition millisecond : Z := 1000000.
Definition defaultRetryBackoff : Z := 100 * millisecond.

Record Coordinator := mkCoordinator {
  seedBytes : Z;
  sessionSecret : list Z;
  retryAttempts : Z;
  retryBackoff : Z;            (* a [time.Duration], in nanoseconds *)
}.

Definition CoordinatorOption := Coordinator -> Coordinator.

Definition NewCoordinator (options : list CoordinatorOption) : Coordinator :=
  fold_left (fun c option => option c) options (mkCoordinator defaultSeedBytes [] defaultRetryAttempts defaultRetryBackoff).

Definition WithRetryPolicy (attempts backoff : Z) : CoordinatorOption := fun c =>
  mkCoordinator (seedBytes c) (sessionSecret c) (if 0 <? attempts then attempts else retryAttempts c) backoff.

Definition WithSessionSecret (secret : list Z) : CoordinatorOption := fun c =>
  mkCoordinator (seedBytes c) (if (length secret =? 0)%nat then sessionSecret c else secret) (retryAttempts c) (retryBackoff c).

(** *** Seeds *)

Record dkgBootstrap := mkBootstrap {
  commonSeed : string;
  pairwiseSeedsByNode : list (string * list (string * string));
}.

Definition seed_input (sessionID keyName label : string) : list Z :=
  bytes_of_string "orbitport-threshold-bootstrap" ++ [0] ++ bytes_of_string sessionID ++ [0] ++
  bytes_of_string keyName ++ [0] ++ bytes_of_string label.

Definition deriveSeed (c : Coordinator) (sessionID keyName label : string) : string :=
  Base64.EncodeToString (take (Z.to_nat (seedBytes c)) (hmac_sha512 (sessionSecret c) (seed_input sessionID keyName label))).

(** [m[a][b] = x] where [m[a]] exists. *)
Definition set2 (a b x : string) (m : list (string * list (string * string))) : list (string * list (string * string)) :=
  assoc_insert a (assoc_insert b x (default [] (assoc_lookup a m))) m.

Definition pair_label (l r : DKGParticipant) : string := "pairwise:" +:+ NodeID l +:+ ":" +:+ NodeID r.

(** The inner and the outer loop over the pairs. *)
Definition pair_step (c : Coordinator) (req : DKGRequest) (l : DKGParticipant)
  (m : list (string * list (string * string))) (r : DKGParticipant) : list (string * list (string * string)) :=
  let seed := deriveSeed c (SessionID req) (KeyName req) (pair_label l r) in
  set2 (NodeID r) (NodeID l) seed (set2 (NodeID l) (NodeID r) seed m).

Fixpoint pair_loop (c : Coordinator) (req : DKGRequest) (ps : list DKGParticipant)
  (m : list (string * list (string * string))) : list (string * list (string * string)) :=
  match ps with
  | [] => m
  | l :: rest => pair_loop c req rest (fold_left (pair_step c req l) rest m)
  end.

Definition newDKGBootstrap (c : Coordinator) (req : DKGRequest) : result dkgBootstrap :=
  if (length (sessionSecret c) =? 0)%nat then Err (Errorf "threshold session secret is required" [])
  else
    let commonSeed := deriveSeed c (SessionID req) (KeyName req) "common" in
    let m := fold_left (fun m p => assoc_insert (NodeID p) [] m) (Participants req) [] in
    Ok (mkBootstrap commonSeed (pair_loop c req (Participants req) m)).

(** *** Calls with retries *)

Definition context_Canceled : error := Errorf "context canceled" [].
Definition context_DeadlineExceeded : error := Errorf "context deadline exceeded" [].

Definition isRetryableOpenBaoError (err : error) : bool :=
  if errors_Is err context_Canceled || errors_Is err context_DeadlineExceeded then false
  else match as_StatusError err with
       | Some (code, _, _) => (code =? 408) || (code =? 429) || (500 <=? code)
       | None => true
       end.

(** Waiting for a timer of [delay] nanoseconds under a context: [Some e] when the
    context ends first. *)
Class Timer (W : Type) := await : W -> Z -> W * option error.

Definition requireRoundOutput (nodeID : string) (status : DKGStatus) (round : Z) : result unit :=
  _ ← reject (negb (st_Round status =? round))
        (Errorf "node %q returned round %d, expected %d" [nodeID; pretty (st_Round status); pretty round]);
  _ ← reject (String.eqb (st_Broadcast status) "")
        (Errorf "node %q returned empty round %d broadcast" [nodeID; pretty round]);
  reject ((round =? 2) && (length (st_Unicasts status) =? 0)%nat)
    (Errorf "node %q returned no round 2 unicasts" [nodeID]).

(** The check of the last round, in the order of the map's iteration. *)
Fixpoint completed_key (publicKey : string) (nodes : list (string * DKGStatus)) : result string :=
  match nodes with
  | [] => Ok publicKey
  | (nodeID, status) :: rest =>
      _ ← reject (negb (String.eqb (st_Status status) keyStatusCompleted))
            (Errorf "node %q completed round 4 with status %q" [nodeID; st_Status status]);
      _ ← reject (String.eqb (st_PublicKey status) "")
            (Errorf "node %q completed DKG without a public key" [nodeID]);
      if String.eqb publicKey "" then completed_key (st_PublicKey status) rest
      else
        _ ← reject (negb (String.eqb (st_PublicKey status) publicKey))
              (Errorf "node %q derived a different group public key than its peers" [nodeID]);
        completed_key publicKey rest
  end.

Section Coordinate.
Context {W : Type} `{Backend W} `{Timer W}.
Context (map_order : list (string * DKGStatus) -> list (string * DKGStatus)).
Context (c : Coordinator).

Definition wait (delay : Z) : M W unit := fun w =>
  if 0 <? delay then
    let '(st, r) := await (backend w) delay in
    (mkWorld st (sent w), Returned (match r with
                                    | None => Ok tt
                                    | Some e => Err (Wrapf "retry canceled: %w" [] e)
                                    end))
  else (w, Returned (Ok tt)).

(** The loop at attempt number [i], with [more] attempts left after it. *)
Fixpoint retry_loop (more : nat) (i : Z) (call : M W DKGStatus) : M W DKGStatus :=
  r ← attempt call;
  match r with
  | Ok status => mret status
  | Err err =>
      match more with
      | S k =>
          if isRetryableOpenBaoError err then
            _ ← wait (i64 (retryBackoff c * i));
            retry_loop k (i + 1) call
          else throw err
      | O => throw err
      end
  end.

Definition attempts : Z := if retryAttempts c <? 1 then 1 else retryAttempts c.

Definition callWithRetry (call : M W DKGStatus) : M W DKGStatus := retry_loop (Z.to_nat (attempts - 1)) 1 call.

(** *** The rounds *)

Definition start_of (req : DKGRequest) (bootstrap : dkgBootstrap) (p : DKGParticipant) : StartDKGRequest :=
  mkStart (KeyName req) (GroupName req) (SessionID req) (commonSeed bootstrap)
    (assoc_lookup (NodeID p) (pairwiseSeedsByNode bootstrap)) "" "" 0.

Fixpoint startDKG (req : DKGRequest) (participants : list DKGParticipant) (bootstrap : dkgBootstrap)
  (outputs : list (string * DKGStatus)) : M W (list (string * DKGStatus)) :=
  match participants with
  | [] => mret outputs
  | p :: rest =>
      status ← on_err (Wrapf "start dkg on %q: %w" [NodeID p])
                 (callWithRetry (StartDKG (Client p) (start_of req bootstrap p)));
      _ ← lift (requireRoundOutput (NodeID p) status 1);
      startDKG req rest bootstrap (assoc_insert (NodeID p) status outputs)
  end.

Fixpoint proceedRound (keyName : string) (participants : list DKGParticipant) (round : Z)
  (outputs : list (string * DKGStatus)) : M W (list (string * DKGStatus)) :=
  match participants with
  | [] => mret outputs
  | p :: rest =>
      status ← on_err (Wrapf "proceed dkg round %d on %q: %w" [pretty round; NodeID p])
                 (callWithRetry (ProceedDKG (Client p) keyName round));
      _ ← (if round <? 4 then lift (requireRoundOutput (NodeID p) status round) else mret tt);
      proceedRound keyName rest round (assoc_insert (NodeID p) status outputs)
  end.

(** One message from a sender to a receiver. *)
Definition deliver_one (keyName : string) (outputs : list (string * DKGStatus)) (round : Z)
  (receiver sender : DKGParticipant) : M W unit :=
  if String.eqb (NodeID sender) (NodeID receiver) then mret tt
  else match assoc_lookup (NodeID sender) outputs with
       | None => throw (Errorf "missing round %d output for %q" [pretty round; NodeID sender])
       | Some output =>
           let unicast := if round =? 2 then default "" (assoc_lookup (NodeID receiver) (st_Unicasts output)) else "" in
           _ ← guard_err ((round =? 2) && String.eqb unicast "")
                 (Errorf "missing round 2 unicast from %q to %q" [NodeID sender; NodeID receiver]);
           _ ← on_err (Wrapf "deliver round %d from %q to %q: %w" [pretty round; NodeID sender; NodeID receiver])
                 (callWithRetry (DeliverDKG (Client receiver) keyName
                    (mkDeliver round (NodeID sender) (st_Broadcast output) unicast)));
           mret tt
       end.

(** The inner and the outer loop. *)
Fixpoint deliver_to (keyName : string) (outputs : list (string * DKGStatus)) (round : Z)
  (receiver : DKGParticipant) (senders : list DKGParticipant) : M W unit :=
  match senders with
  | [] => mret tt
  | s :: rest => _ ← deliver_one keyName outputs round receiver s; deliver_to keyName outputs round receiver rest
  end.

Fixpoint deliver_all (keyName : string) (outputs : list (string * DKGStatus)) (round : Z)
  (senders receivers : list DKGParticipant) : M W unit :=
  match receivers with
  | [] => mret tt
  | r :: rest => _ ← deliver_to keyName outputs round r senders; deliver_all keyName outputs round senders rest
  end.

Definition deliverRound (keyName : string) (participants : list DKGParticipant) (outputs : list (string * DKGStatus))
  (round : Z) : M W unit :=
  deliver_all keyName outputs round participants participants.

Definition CoordinateDKG (req : DKGRequest) : M W DKGResult :=
  bootstrap ← lift (newDKGBootstrap c req);
  let ps := Participants req in
  round1 ← startDKG req ps bootstrap [];
  _ ← deliverRound (KeyName req) ps round1 1;
  round2 ← proceedRound (KeyName req) ps 2 [];
  _ ← deliverRound (KeyName req) ps round2 2;
  round3 ← proceedRound (KeyName req) ps 3 [];
  _ ← deliverRound (KeyName req) ps round3 3;
  completed ← proceedRound (KeyName req) ps 4 [];
  publicKey ← lift (completed_key "" (map_order completed));
  mret (mkResult (KeyName req) (GroupName req) (SessionID req) publicKey completed).

End Coordinate.

(** ** plugin.go *)

Record GroupMember := mkGroupMember { gm_NodeId : string; gm_PartyIndex : Z; gm_OpenbaoUrl : string; gm_Mount : string }.

(** [threshold] is an int32; a participant may be nil. *)
Record DkgRequest := mkDkgRequest {
  dr_KeyName : string; dr_GroupName : string; dr_SessionId : string; dr_Threshold : Z;
  dr_Participants : list (option GroupMember);
}.

Record DkgNodeStatus := mkNodeStatus { ns_NodeId : string; ns_Status : string; ns_Round : Z; ns_PendingFrom : list string }.
Record DkgResponse := mkDkgResponse {
  dresp_KeyName : string; dresp_GroupName : string; dresp_SessionId : string; dresp_PublicKey : string;
  dresp_Nodes : list DkgNodeStatus;
}.

Record Plugin := mkThresholdPlugin { plugin_timeout : Z; coordinator : Coordinator }.

Definition newPlugin (cfg : thresholdConfig) (c : Coordinator) : Plugin :=
  mkThresholdPlugin (i64 (cfg_TimeoutSecs cfg * 1000000000)) c.

Definition NewPlugin (env_string : string -> option string) (env_int : string -> option Z) : result Plugin :=
  let cfg := readFromEnv env_string env_int in
  let secret := TrimSpace (cfg_SessionSecret cfg) in
  if String.eqb secret "" then Err (Errorf "ORBITPORT_THRESHOLD_SESSION_SECRET is required" [])
  else
    let backoff := i64 (cfg_RetryBackoffMillis cfg * millisecond) in
    Ok (newPlugin cfg (NewCoordinator [WithSessionSecret (bytes_of_string secret);
                                       WithRetryPolicy (cfg_RetryAttempts cfg) backoff])).

(** The loop over the participants. *)
Fixpoint members_loop (n : Z) (seenNodeIDs : list string) (seenPartyIndexes : list Z) (l : list (option GroupMember))
  : result (list DKGParticipant) :=
  match l with
  | [] => Ok []
  | None :: _ => Err (Errorf "participant is required" [])
  | Some participant :: rest =>
      let nodeID := TrimSpace (gm_NodeId participant) in
      let openBaoURL := TrimSpace (gm_OpenbaoUrl participant) in
      let idx := gm_PartyIndex participant in
      _ ← reject (String.eqb nodeID "") (Errorf "participant node_id is required" []);
      _ ← reject (String.eqb openBaoURL "") (Errorf "participant %q openbao_url is required" [nodeID]);
      _ ← reject (bool_decide (nodeID ∈ seenNodeIDs)) (Errorf "duplicate participant node_id %q" [nodeID]);
      _ ← reject ((idx <? 0) || (n <=? idx))
            (Errorf "participant %q party_index %d out of range" [nodeID; pretty idx]);
      _ ← reject (bool_decide (idx ∈ seenPartyIndexes)) (Errorf "duplicate participant party_index %d" [pretty idx]);
      ps ← members_loop n (nodeID :: seenNodeIDs) (idx :: seenPartyIndexes) rest;
      Ok (mkParticipant nodeID idx (NewOpenBaoClient openBaoURL (TrimSpace (gm_Mount participant))) :: ps)
  end.

Definition by_index (a b : DKGParticipant) : bool := PartyIndex a <=? PartyIndex b.

Definition dkgRequestFromProto (req : option DkgRequest) : result DKGRequest :=
  match req with
  | None => Err (Errorf "request is required" [])
  | Some req =>
      let keyName := TrimSpace (dr_KeyName req) in
      let groupName := TrimSpace (dr_GroupName req) in
      let sessionID := TrimSpace (dr_SessionId req) in
      let n := Z.of_nat (length (dr_Participants req)) in
      _ ← reject (String.eqb keyName "") (Errorf "key_name is required" []);
      _ ← reject (String.eqb groupName "") (Errorf "group_name is required" []);
      _ ← reject (String.eqb sessionID "") (Errorf "session_id is required" []);
      _ ← reject (n <? 2) (Errorf "dkg requires at least two participants" []);
      _ ← reject ((dr_Threshold req <? 2) || (n <? dr_Threshold req))
            (Errorf "threshold must be between 2 and participant count" []);
      ps ← members_loop n [] [] (dr_Participants req);
      Ok (mkDKGRequest keyName groupName sessionID (dr_Threshold req) (isort by_index ps))
  end.

Definition node_status (kv : string * DKGStatus) : DkgNodeStatus :=
  mkNodeStatus kv.1 (st_Status kv.2) (swrap 32 (st_Round kv.2)) (st_PendingFrom kv.2).

(** The context with the plugin's timeout is part of the environment. *)
Definition CoordinateDkg {W} `{Backend W} `{Timer W} (map_order : list (string * DKGStatus) -> list (string * DKGStatus))
  (p : Plugin) (req : option DkgRequest) : M W DkgResponse :=
  dkgRequest ← as_status InvalidArgument (lift (dkgRequestFromProto req));
  res ← as_status Internal (CoordinateDKG map_order (coordinator p) dkgRequest);
  let nodes := map node_status (map_order (res_Nodes res)) in
  mret (mkDkgResponse (res_KeyName res) (res_GroupName res) (res_SessionID res) (res_PublicKey res)
    (isort (fun a b => String.leb (ns_NodeId a) (ns_NodeId b)) nodes)).
