(* ===== verification/ThresholdRetry.v ===== *)
(** * Calls to a node and their retries (threshold/coordinator.go)

    What the nodes and the timer did is a history of events; which replies are
    answers, which are worth another attempt and which are not is stated here on
    the replies themselves. *)

From S2P Require Import Prelude GoStrings Errors Json OpenBao KmsClient Threshold.

(** ** Histories *)

(** A request with the reply it got, or a wait with the context's error where it
    ended first. *)
Inductive event :=
| Exchanged (req : request) (rep : reply)
| Waited (delay : Z) (stop : option error).

(** Servers and a timer that keep the history of what they did. *)
Class Recording (W : Type) `{Backend W} `{Timer W} := {
  history : W -> list event;
  history_serve : forall st req, history (serve st req).1 = history st ++ [Exchanged req (serve st req).2];
  history_await : forall st d, history (await st d).1 = history st ++ [Waited d (await st d).2];
}.

(** Any servers and timer, made to keep it. *)
Section Recorder.
Context {W : Type} `{Backend W} `{Timer W}.

Definition recorder_backend : Backend (W * list event) := fun st req =>
  let '(st', rep) := serve st.1 req in ((st', st.2 ++ [Exchanged req rep]), rep).

Definition recorder_timer : Timer (W * list event) := fun st d =>
  let '(st', stop) := await st.1 d in ((st', st.2 ++ [Waited d stop]), stop).

Definition recorder : @Recording (W * list event) recorder_backend recorder_timer.
Proof.
  refine {| history := snd |}.
  - intros [st l] req. cbv [serve recorder_backend fst snd]. by destruct (H st req).
  - intros [st l] d. cbv [await recorder_timer fst snd]. by destruct (H0 st d).
Defined.

End Recorder.

(** ** Replies *)

Inductive verdict :=
| Answer (s : DKGStatus)
| Transient (e : error)
| Final (e : error).

(** The texts of the errors of a context that ended. *)
Definition ended (msg : string) : bool := String.eqb msg "context canceled" || String.eqb msg "context deadline exceeded".

(** Transient are the failures of the transport, but not the end of the context,
    the statuses 408, 429 and from 500 on, and bodies that do not decode. *)
Definition verdict_of (rep : reply) : verdict :=
  match rep with
  | TransportFailed msg => (if ended msg then Final else Transient) (Wrapf "openbao request failed: %w" [] (Errorf msg []))
  | BodyFailed msg => (if ended msg then Final else Transient) (Wrapf "read openbao response: %w" [] (Errorf msg []))
  | Response code status body =>
      if code <? 400 then
        match Unmarshal dkg_decoder body empty_status with
        | Ok s => Answer s
        | Err e => Transient (Wrapf "decode openbao response: %w" [] e)
        end
      else (if (code =? 408) || (code =? 429) || (500 <=? code) then Transient else Final)
             (StatusError code status (TrimSpace body))
  end.

Definition transient (rep : reply) : Prop := exists e, verdict_of rep = Transient e.

Lemma dec_string_map_err : type_errors dec_string_map.
Proof.
  intros v r e. destruct v as [| | | | |l]; cbn; try congruence.
  assert (forall (l : list (string * json)) (a : result (list (string * string))) e, (forall e, a = Err e -> e = UnmarshalTypeError) ->
    fold_left (fun m kv => m ← m; x ← dec_string kv.2 ""; Ok (assoc_insert kv.1 x m)) l a = Err e -> e = UnmarshalTypeError) as Hf.
  { clear. induction l as [|[k v] l IH]; intros a e Ha; cbn [fold_left]; [apply Ha|]. apply IH. intros e'.
    destruct a as [m|e2]; cbn; [|intros [= <-]; by apply Ha]. destruct (dec_string v "") eqn:Ed; cbn; [done|]. intros [= <-]. by eapply dec_string_err. }
  by apply Hf.
Qed.

#[export] Hint Resolve dec_string_map_err : type_errors.

Lemma dkg_decode_err text e : Unmarshal dkg_decoder text empty_status = Err e -> e = SyntaxError \/ e = UnmarshalTypeError.
Proof.
  unfold Unmarshal. destruct (parse text) as [v|]; [right|left; congruence].
  assert (type_errors dkg_decoder) as Hd; [|by eapply Hd].
  apply dec_struct_err. constructor; [|constructor]. apply fld_err, dec_struct_err. repeat (constructor; [eauto with type_errors|]). constructor.
Qed.

Section Calls.
Context {W : Type} `{Backend W}.

(** What [do_into] makes of a reply. *)
Lemma run_dkg_call req (w : world W) : do_into req dkg_decoder empty_status w =
  (mkWorld (serve (backend w) req).1 (sent w ++ [req]),
   Returned (match verdict_of (serve (backend w) req).2 with Answer s => Ok s | Transient e | Final e => Err e end)).
Proof.
  unfold do_into, exchange, mbind, Prog_bind, lift, verdict_of. destruct (serve (backend w) req) as [st [msg|msg|code status body]]; cbn [fst snd].
  - by destruct (ended msg).
  - by destruct (ended msg).
  - destruct (Z.leb_spec 400 code), (Z.ltb_spec code 400); try lia; [by destruct (_ || _)|]. by destruct (Unmarshal _ _ _).
Qed.

Lemma retryable_msg f msg : isRetryableOpenBaoError (Wrapf f [] (Errorf msg [])) = negb (ended msg).
Proof.
  unfold isRetryableOpenBaoError, ended, context_Canceled, context_DeadlineExceeded. cbn [errors_Is as_StatusError].
  rewrite !(bool_decide_eq_false_2 (Wrapf _ _ _ = _)) by done. rewrite !orb_false_r. cbn [orb].
  assert (forall x, bool_decide (Errorf msg [] = Errorf x []) = String.eqb msg x) as Hx.
  { intros x. destruct (String.eqb_spec msg x) as [->|Hne]; [by apply bool_decide_eq_true_2|]. apply bool_decide_eq_false_2. congruence. }
  rewrite !Hx. by destruct (_ || _).
Qed.

(** The code's test of an error agrees with the verdict on the reply. *)
Lemma verdict_retryable rep : match verdict_of rep with
  | Answer _ => True
  | Transient e => isRetryableOpenBaoError e = true
  | Final e => isRetryableOpenBaoError e = false
  end.
Proof.
  destruct rep as [msg|msg|code status body]; cbn [verdict_of].
  1, 2: destruct (ended msg) eqn:Em; by rewrite retryable_msg, Em.
  destruct (code <? 400).
  - destruct (Unmarshal _ body _) as [s|e] eqn:Eu; [done|]. apply dkg_decode_err in Eu as [-> | ->]; reflexivity.
  - assert (isRetryableOpenBaoError (StatusError code status (TrimSpace body)) = (code =? 408) || (code =? 429) || (500 <=? code)) as Hr by reflexivity.
    destruct (_ || _); by rewrite Hr.
Qed.

End Calls.

(** ** The retries *)

Section Retries.
Context {W : Type} `{Backend W} `{Timer W} (c : Coordinator).

(** The wait after attempt number [i]. *)
Definition backoff (i : Z) : Z := i64 (retryBackoff c * i).

(** Attempts from number [i] on that were each followed by another one. *)
Fixpoint failed_events (req : request) (i : Z) (reps : list reply) : list event :=
  match reps with
  | [] => []
  | rep :: reps => Exchanged req rep :: (if 0 <? backoff i then [Waited (backoff i) None] else []) ++ failed_events req (i + 1) reps
  end.

Lemma run_wait delay (w : world W) : wait delay w =
  if 0 <? delay then (mkWorld (await (backend w) delay).1 (sent w),
                      Returned (match (await (backend w) delay).2 with None => Ok tt | Some e => Err (Wrapf "retry canceled: %w" [] e) end))
  else (w, Returned (Ok tt)).
Proof. unfold wait. destruct (0 <? delay); [|done]. by destruct (await (backend w) delay). Qed.

Context `{!Recording W}.

(** How a call of at most [n] attempts ended after attempts that failed, with the
    last reply [rep]. *)
Definition call_end (req : request) (n : Z) (i : Z) (reps : list reply) (rep : reply) (l : list event) (r : result DKGStatus) : Prop :=
  let all := failed_events req i reps ++ [Exchanged req rep] in
  let k := Z.of_nat (S (length reps)) in
  match verdict_of rep with
  | Answer s => r = Ok s /\ l = all
  | Final e => r = Err e /\ l = all
  | Transient e =>
      (k = n /\ r = Err e /\ l = all) \/
      (k < n /\ exists stop, let d := backoff (i + Z.of_nat (length reps)) in
         0 < d /\ r = Err (Wrapf "retry canceled: %w" [] stop) /\ l = all ++ [Waited d (Some stop)])
  end.

Lemma call_end_cons req n i rep reps rep' l r : call_end req n (i + 1) reps rep' l r ->
  call_end req (n + 1) i (rep :: reps) rep'
    (Exchanged req rep :: (if 0 <? backoff i then [Waited (backoff i) None] else []) ++ l) r.
Proof.
  unfold call_end. cbn [failed_events length]. replace (i + Z.of_nat (S (length reps))) with (i + 1 + Z.of_nat (length reps)) by lia.
  destruct (verdict_of rep') as [s|e|e].
  - intros [-> ->]. split; [done|]. by rewrite <- !app_comm_cons, <- !app_assoc.
  - intros [(He & -> & ->)|(He & stop & Hd & -> & ->)]; [left|right].
    + split; [lia|]. split; [done|]. by rewrite <- !app_comm_cons, <- !app_assoc.
    + split; [lia|]. exists stop. cbv zeta. split; [done|]. split; [done|]. by rewrite <- !app_comm_cons, <- !app_assoc.
  - intros [-> ->]. split; [done|]. by rewrite <- !app_comm_cons, <- !app_assoc.
Qed.

Lemma run_retry_loop req more : forall i w, exists w' r l reps rep,
  retry_loop c more i (do_into req dkg_decoder empty_status) w = (w', Returned r) /\
  sent w' = sent w ++ replicate (S (length reps)) req /\ history (backend w') = history (backend w) ++ l /\
  Forall transient reps /\ (length reps <= more)%nat /\ call_end req (Z.of_nat (S more)) i reps rep l r.
Proof.
  induction more as [|k IH]; intros i w; pose proof (verdict_retryable (serve (backend w) req).2) as Hv;
    pose proof (history_serve (backend w) req) as Hh; cbn [retry_loop]; (erewrite run_bind by (apply run_attempt, run_dkg_call)).
  - unfold call_end. cbn [failed_events app length]. destruct (verdict_of _) eqn:Ev;
      eexists _, _, [Exchanged req _], [], _; (split; [reflexivity|]); (split; [done|]); (split; [exact Hh|]);
      (split; [constructor|]); (split; [done|]); rewrite Ev; auto.
  - set (rep := (serve (backend w) req).2) in *. destruct (verdict_of rep) as [s|e|e] eqn:Ev.
    1, 3: try rewrite Hv; eexists _, _, [Exchanged req rep], [], rep; unfold call_end; rewrite Ev;
      (split; [reflexivity|]); (split; [done|]); (split; [exact Hh|]); (split; [constructor|]); (split; [cbn; lia|]); auto.
    rewrite Hv. set (w1 := mkWorld (serve (backend w) req).1 (sent w ++ [req])). fold (backoff i).
    assert (transient rep) as Ht by (by exists e).
    assert (forall w2 waited, wait (backoff i) w1 = (w2, Returned (Ok tt)) -> sent w2 = sent w1 ->
      history (backend w2) = history (backend w1) ++ waited -> waited = (if 0 <? backoff i then [Waited (backoff i) None] else []) ->
      exists w' r l reps rep', (_ ← wait (backoff i); retry_loop c k (i + 1) (do_into req dkg_decoder empty_status)) w1 = (w', Returned r) /\
        sent w' = sent w ++ replicate (S (length reps)) req /\ history (backend w') = history (backend w) ++ l /\
        Forall transient reps /\ (length reps <= S k)%nat /\ call_end req (Z.of_nat (S (S k))) i reps rep' l r) as Hgo.
    { intros w2 waited Hw Hs Hw2 Hwt. erewrite run_bind by exact Hw.
      destruct (IH (i + 1) w2) as (w' & r & l & reps & rep' & El & S1 & H1 & Hf & Hn & He). exists w', r, (Exchanged req rep :: waited ++ l), (rep :: reps), rep'.
      split; [exact El|]. split; [rewrite S1, Hs; cbn [sent w1 length replicate]; by rewrite <- app_assoc|].
      split; [rewrite H1, Hw2; cbn [backend w1]; rewrite Hh, <- !app_assoc; done|]. split; [by constructor|]. split; [cbn; lia|].
      rewrite Hwt. replace (Z.of_nat (S (S k))) with (Z.of_nat (S k) + 1) by lia. by apply call_end_cons. }
    pose proof (run_wait (backoff i) w1) as Hw. pose proof (history_await (backend w1) (backoff i)) as Ha.
    destruct (Z.ltb_spec 0 (backoff i)) as [Hpos|Hneg]; [|by apply (Hgo w1 []); [done|done|by rewrite app_nil_r|]].
    destruct (await (backend w1) (backoff i)).2 as [stop|] eqn:Es; [|by eapply Hgo; [exact Hw|..]].
    erewrite run_bind_err by exact Hw. eexists _, _, [Exchanged req rep; Waited (backoff i) (Some stop)], [], rep.
    split; [reflexivity|]. split; [done|]. split.
    { etrans; [exact Ha|]. cbn [backend w1]. by rewrite Hh, <- app_assoc. }
    split; [constructor|]. split; [cbn; lia|]. unfold call_end. rewrite Ev. right. cbn [length failed_events app]. split; [lia|]. exists stop.
    cbv zeta. rewrite Z.add_0_r. done.
Qed.

Lemma attempts_max : attempts c = Z.max 1 (retryAttempts c).
Proof. unfold attempts. destruct (Z.ltb_spec (retryAttempts c) 1); lia. Qed.

Lemma run_callWithRetry req w : exists w' r l reps rep,
  callWithRetry c (do_into req dkg_decoder empty_status) w = (w', Returned r) /\
  sent w' = sent w ++ replicate (S (length reps)) req /\ history (backend w') = history (backend w) ++ l /\
  Forall transient reps /\ Z.of_nat (S (length reps)) <= Z.max 1 (retryAttempts c) /\
  call_end req (Z.max 1 (retryAttempts c)) 1 reps rep l r.
Proof.
  destruct (run_retry_loop req (Z.to_nat (attempts c - 1)) 1 w) as (w' & r & l & reps & rep & E & S1 & H1 & Hf & Hn & He).
  rewrite attempts_max in Hn. replace (Z.of_nat (S (Z.to_nat (attempts c - 1)))) with (Z.max 1 (retryAttempts c)) in He by (rewrite attempts_max; lia).
  exists w', r, l, reps, rep. split; [exact E|]. split; [done|]. split; [done|]. split; [done|]. split; [lia|done].
Qed.

(** C36: the retry policy. A call to a node always returns. It sends one request,
    once and again after each transient reply, waiting a backoff that grows with
    the attempts, and at most the configured number of times (once if that is
    below 1). An answer, or a reply that is not transient, whichever attempt gets
    it, ends the call with that answer or error; a transient one ends it only on
    the last attempt, with its own error, or when the context ends during the
    wait. *)
Theorem callWithRetry_policy req w : exists w' r l reps rep,
  callWithRetry c (do_into req dkg_decoder empty_status) w = (w', Returned r) /\
  sent w' = sent w ++ replicate (S (length reps)) req /\ history (backend w') = history (backend w) ++ l /\
  Forall transient reps /\
  let all := failed_events req 1 reps ++ [Exchanged req rep] in
  let n := Z.of_nat (S (length reps)) in
  n <= Z.max 1 (retryAttempts c) /\
  match verdict_of rep with
  | Answer s => r = Ok s /\ l = all
  | Final e => r = Err e /\ l = all
  | Transient e =>
      (n = Z.max 1 (retryAttempts c) /\ r = Err e /\ l = all) \/
      (n < Z.max 1 (retryAttempts c) /\ exists stop, 0 < backoff n /\ r = Err (Wrapf "retry canceled: %w" [] stop) /\
         l = all ++ [Waited (backoff n) (Some stop)])
  end.
Proof.
  destruct (run_callWithRetry req w) as (w' & r & l & reps & rep & E & S1 & H1 & Hf & Hn & He). exists w', r, l, reps, rep.
  unfold call_end in He. replace (1 + Z.of_nat (length reps)) with (Z.of_nat (S (length reps))) in He by lia. done.
Qed.

End Retries.
