(* ===== verification/ThresholdProtocol.v ===== *)
(** * What the threshold coordinator guarantees

    Theorems about [Threshold]: the validation of requests, the derived seeds, and
    the protocol that a successful run has carried out. *)

From stdpp Require Import sorting.
From S2P Require Import Prelude GoStrings Errors Codec Sha2 Json OpenBao KmsClient Threshold ThresholdRetry.

(** ** The validated request *)

Definition participant_of (m : GroupMember) : DKGParticipant :=
  mkParticipant (TrimSpace (gm_NodeId m)) (gm_PartyIndex m)
    (NewOpenBaoClient (TrimSpace (gm_OpenbaoUrl m)) (TrimSpace (gm_Mount m))).

Definition member_ok (n : Z) (m : GroupMember) : Prop :=
  TrimSpace (gm_NodeId m) <> "" /\ TrimSpace (gm_OpenbaoUrl m) <> "" /\ 0 <= gm_PartyIndex m < n.

Definition node_id (m : GroupMember) : string := TrimSpace (gm_NodeId m).

(** The loop accepts exactly the lists of sound members with distinct ids and
    indices. *)
Lemma members_loop_spec n l : forall ids idxs ps, members_loop n ids idxs l = Ok ps <->
  exists ms, l = map Some ms /\ ps = map participant_of ms /\ Forall (member_ok n) ms /\
    NoDup (map node_id ms) /\ NoDup (map gm_PartyIndex ms) /\
    (forall m, m ∈ ms -> (node_id m ∉ ids) /\ (gm_PartyIndex m ∉ idxs)).
Proof.
  induction l as [|[m|] l IH]; intros ids idxs ps; cbn [members_loop].
  - split.
    + intros [= <-]. exists []. split_and!; [done..| | | |]; [constructor..|]. intros m Hm. by apply elem_of_nil in Hm.
    + intros ([|m ms] & Hl & -> & _); done.
  - rewrite bind_Ok. setoid_rewrite reject_Ok. split.
    + intros (_ & E1 & H). apply bind_Ok in H as (_ & E2%reject_Ok & H). apply bind_Ok in H as (_ & E3%reject_Ok & H).
      apply bind_Ok in H as (_ & E4%reject_Ok & H). apply bind_Ok in H as (_ & E5%reject_Ok & H).
      apply bind_Ok in H as (qs & Hq & [= <-]). apply IH in Hq as (ms & -> & -> & Hok & Hn1 & Hn2 & Hfresh).
      apply String.eqb_neq in E1, E2. apply bool_decide_eq_false in E3, E5. apply orb_false_iff in E4 as [E4 E4'].
      exists (m :: ms). split_and!; [done|done|constructor; [split_and!; [done|done|lia..]|done]|..].
      * constructor; [|done]. intros (m' & Hm' & Hin)%list_elem_of_fmap. destruct (Hfresh m' Hin) as [Hf _].
        apply Hf. rewrite <- Hm'. constructor.
      * constructor; [|done]. intros (m' & Hm' & Hin)%list_elem_of_fmap. destruct (Hfresh m' Hin) as [_ Hf].
        apply Hf. rewrite <- Hm'. constructor.
      * intros m' [->|Hin]%elem_of_cons; [done|]. destruct (Hfresh m' Hin) as [H1 H2]. split; set_solver.
    + intros ([|m' ms] & Hl & -> & Hok & Hn1 & Hn2 & Hfresh); [done|]. injection Hl as <- ->.
      apply Forall_cons in Hok as [(O1 & O2 & O3) Hok]. apply NoDup_cons in Hn1 as [N1 Hn1]. apply NoDup_cons in Hn2 as [N2 Hn2].
      destruct (Hfresh m) as [F1 F2]; [constructor|]. exists tt. split; [by apply String.eqb_neq|].
      apply String.eqb_neq in O2. rewrite O2. cbn [reject mbind result_bind].
      rewrite bool_decide_eq_false_2 by done. cbn [reject mbind result_bind].
      assert ((gm_PartyIndex m <? 0) || (n <=? gm_PartyIndex m) = false) as -> by (apply orb_false_iff; lia).
      cbn [reject mbind result_bind]. rewrite bool_decide_eq_false_2 by done. cbn [reject mbind result_bind].
      assert (members_loop n (TrimSpace (gm_NodeId m) :: ids) (gm_PartyIndex m :: idxs) (map Some ms) = Ok (map participant_of ms)) as ->; [|done].
      apply IH. exists ms. split_and!; try done. intros m' Hin. destruct (Hfresh m') as [G1 G2]; [by right|].
      split; apply not_elem_of_cons; (split; [|done]); intros E.
      * apply N1. apply list_elem_of_fmap. exists m'. split; [|done]. by symmetry.
      * apply N2. apply list_elem_of_fmap. exists m'. split; [|done]. by symmetry.
  - split; [done|]. intros ([|m ms] & Hl & _); done.
Qed.

Lemma by_index_sorted l : StronglySorted Z.le (map PartyIndex (isort by_index l)).
Proof.
  assert (StronglySorted (fun a b => by_index a b = true) (isort by_index l)) as Hs.
  { apply isort_sorted; unfold by_index; [intros a b d; rewrite !Z.leb_le; lia|]. intros a b. rewrite !Z.leb_le. lia. }
  induction Hs as [|p k _ IH Hp]; cbn [map]; constructor; [done|]. apply Forall_map. eapply Forall_impl; [exact Hp|].
  intros q. apply Z.leb_le.
Qed.

(** Sorting by index is canonical when the indices are distinct. *)
Lemma isort_index_unique l l' : l ≡ₚ l' -> NoDup (map PartyIndex l) -> isort by_index l = isort by_index l'.
Proof.
  intros Hp Hn. set (R := fun a b => by_index a b = true).
  assert (forall l, StronglySorted R (isort by_index l)) as Hs.
  { intros k. apply isort_sorted; unfold by_index; [intros a b d; rewrite !Z.leb_le; lia|].
    intros a b. rewrite !Z.leb_le. lia. }
  apply (StronglySorted_unique_strong R); [|apply Hs|apply Hs|by rewrite !isort_perm].
  intros a b Ha Hb Hab Hba. unfold R, by_index in Hab, Hba. assert (PartyIndex a = PartyIndex b) as E by lia.
  rewrite isort_perm in Ha, Hb. rewrite <- Hp in Hb. by eapply NoDup_map_inj.
Qed.

Lemma sorted_indices n (l : list Z) : NoDup l -> Forall (fun i => 0 <= i < Z.of_nat n) l -> length l = n ->
  StronglySorted Z.le l -> l = seqZ 0 (Z.of_nat n).
Proof.
  intros Hn Hf Hlen Hs. apply (StronglySorted_unique Z.le); [done| |].
  - apply Sorted_StronglySorted; [intros ?????; lia|]. clear. generalize 0. intros s. induction n as [|n IH] in s |- *; [constructor|].
    rewrite seqZ_cons by lia. replace (Z.pred (Z.of_nat (S n))) with (Z.of_nat n) by lia. constructor; [apply IH|].
    destruct n; [constructor|]. rewrite seqZ_cons by lia. constructor. lia.
  - apply submseteq_length_Permutation; [|rewrite length_seqZ; lia]. apply NoDup_submseteq; [done|].
    intros i Hi. rewrite Forall_forall in Hf. specialize (Hf i Hi). apply elem_of_seqZ. lia.
Qed.

Lemma dkgRequestFromProto_sound req r : dkgRequestFromProto (Some req) = Ok r ->
  NoDup (map NodeID (Participants r)) /\ Participants r <> [].
Proof.
  unfold dkgRequestFromProto. cbv zeta. intros Hr. do 3 (apply bind_Ok in Hr as (_ & _ & Hr)).
  apply bind_Ok in Hr as (_ & E4%reject_Ok & Hr). apply bind_Ok in Hr as (_ & _ & Hr).
  apply bind_Ok in Hr as (ps & Hps & [= <-]). cbn [Participants].
  apply members_loop_spec in Hps as (ms & Hms & -> & _ & Hn1 & _). split; [rewrite isort_perm, map_map; exact Hn1|].
  intros E. apply (f_equal length) in E. rewrite isort_perm, length_map in E. rewrite Hms, length_map in E4. cbn in E. lia.
Qed.

(** A DKG request that is accepted is sound: names and session are not blank,
    the threshold is between 2 and the number of participants, node ids are
    distinct, and the participants are in the order of their party indices, which
    are exactly 0 to n-1. The order in which the caller lists the participants
    does not matter. *)
Theorem dkgRequestFromProto_valid req r : dkgRequestFromProto (Some req) = Ok r ->
  let n := Z.of_nat (length (dr_Participants req)) in
  KeyName r = TrimSpace (dr_KeyName req) /\ KeyName r <> "" /\ GroupName r <> "" /\ SessionID r <> "" /\
  2 <= Threshold r <= n /\
  NoDup (map NodeID (Participants r)) /\ map PartyIndex (Participants r) = seqZ 0 n /\
  (exists ms, dr_Participants req = map Some ms /\ Participants r ≡ₚ map participant_of ms) /\
  (forall l, l ≡ₚ dr_Participants req -> dkgRequestFromProto (Some (mkDkgRequest (dr_KeyName req) (dr_GroupName req)
    (dr_SessionId req) (dr_Threshold req) l)) = Ok r).
Proof.
  cbv zeta. unfold dkgRequestFromProto. cbv zeta. intros Hr.
  apply bind_Ok in Hr as (_ & E1%reject_Ok & Hr). apply bind_Ok in Hr as (_ & E2%reject_Ok & Hr).
  apply bind_Ok in Hr as (_ & E3%reject_Ok & Hr). apply bind_Ok in Hr as (_ & E4%reject_Ok & Hr).
  apply bind_Ok in Hr as (_ & E5%reject_Ok & Hr). apply bind_Ok in Hr as (ps & Hps & [= <-]).
  cbn [KeyName GroupName SessionID Threshold Participants dr_KeyName dr_GroupName dr_SessionId dr_Threshold dr_Participants].
  apply members_loop_spec in Hps as (ms & Hms & -> & Hok & Hn1 & Hn2 & _).
  set (n := length (dr_Participants req)) in *.
  assert (length ms = n) as Hlen by (unfold n; rewrite Hms; by rewrite length_map).
  assert (map PartyIndex (map participant_of ms) = map gm_PartyIndex ms) as Hidx by (rewrite map_map; done).
  assert (map NodeID (map participant_of ms) = map node_id ms) as Hids by (rewrite map_map; done).
  split_and!; [done|by apply String.eqb_neq..|lia|lia|by rewrite isort_perm, Hids| |exists ms; by rewrite isort_perm|].
  - apply sorted_indices.
    + by rewrite isort_perm, Hidx.
    + rewrite isort_perm, Hidx. apply Forall_map. eapply Forall_impl; [exact Hok|]. by intros m (_ & _ & ?).
    + by rewrite isort_perm, Hidx, length_map.
    + apply by_index_sorted.
  - intros l Hl. rewrite E1, E2, E3. assert (length l = n) as -> by (unfold n; by rewrite Hl).
    fold n in E4, E5 |- *. rewrite E4, E5. cbn [reject mbind result_bind].
    rewrite Hms in Hl. apply Permutation_map_inv in Hl as (ms' & -> & Hp).
    assert (members_loop (Z.of_nat n) [] [] (map Some ms') = Ok (map participant_of ms')) as ->.
    { apply members_loop_spec. exists ms'. split_and!; try done; [by rewrite <- Hp..|]. intros m _. split; apply not_elem_of_nil. }
    cbn. do 2 f_equal. apply isort_index_unique; [by rewrite Hp|]. rewrite map_map. by rewrite <- Hp.
Qed.

(** ** Seeds *)

Definition lookup2 (m : list (string * list (string * string))) (a b : string) : option string :=
  assoc_lookup a m ≫= assoc_lookup b.

Lemma lookup2_set2 a b x m a' b' : lookup2 (set2 a b x m) a' b' =
  if decide (a' = a /\ b' = b) then Some x else lookup2 m a' b'.
Proof.
  unfold lookup2, set2. destruct (decide (a = a')) as [<-|Hne].
  - rewrite assoc_lookup_insert. cbn. destruct (decide (b = b')) as [<-|Hb].
    + rewrite assoc_lookup_insert. by rewrite decide_True.
    + rewrite assoc_lookup_insert_ne by done. rewrite decide_False by naive_solver. by destruct (assoc_lookup a m).
  - rewrite assoc_lookup_insert_ne by done. by rewrite decide_False by naive_solver.
Qed.

Section Seeds.
Context (c : Coordinator) (req : DKGRequest).

Definition pair_seed (p q : DKGParticipant) : string := deriveSeed c (SessionID req) (KeyName req) (pair_label p q).

(** The assignments the two loops make, in order. *)
Definition writes_of (l r : DKGParticipant) : list (string * string * string) :=
  [(NodeID l, NodeID r, pair_seed l r); (NodeID r, NodeID l, pair_seed l r)].
Fixpoint writes (ps : list DKGParticipant) : list (string * string * string) :=
  match ps with
  | [] => []
  | l :: rest => flat_map (writes_of l) rest ++ writes rest
  end.
Definition write (m : list (string * list (string * string))) (e : string * string * string) := set2 e.1.1 e.1.2 e.2 m.

Lemma pair_loop_writes ps : forall m, pair_loop c req ps m = fold_left write (writes ps) m.
Proof.
  induction ps as [|l rest IH]; intros m; [done|]. cbn [pair_loop writes]. rewrite fold_left_app, IH. f_equal.
  clear IH. revert m. induction rest as [|r rest IH]; intros m; [done|]. cbn [fold_left flat_map]. rewrite fold_left_app. apply IH.
Qed.

Lemma lookup2_writes l a b : forall m,
  (exists x, lookup2 (fold_left write l m) a b = Some x /\ (a, b, x) ∈ l) \/
  lookup2 (fold_left write l m) a b = lookup2 m a b /\ (forall x, (a, b, x) ∉ l).
Proof.
  induction l as [|[[a' b'] x'] l IH]; intros m; cbn [fold_left]; [right; split; [done|]; intros; apply not_elem_of_nil|].
  destruct (IH (write m (a', b', x'))) as [(x & Hx & Hin)|[Hx Hnot]]; [left; exists x; split; [done|by right]|].
  rewrite Hx. unfold write. cbn. rewrite lookup2_set2. destruct (decide _) as [[-> ->]|Hne].
  - left. exists x'. split; [done|left].
  - right. split; [done|]. intros x. apply not_elem_of_cons. split; [naive_solver|apply Hnot].
Qed.

(** [p] comes before [q]. *)
Inductive earlier : list DKGParticipant -> DKGParticipant -> DKGParticipant -> Prop :=
| earlier_here p q rest : q ∈ rest -> earlier (p :: rest) p q
| earlier_there x rest p q : earlier rest p q -> earlier (x :: rest) p q.

Lemma elem_of_writes ps a b x : (a, b, x) ∈ writes ps <->
  exists p q, earlier ps p q /\ x = pair_seed p q /\ (a = NodeID p /\ b = NodeID q \/ a = NodeID q /\ b = NodeID p).
Proof.
  induction ps as [|l rest IH]; cbn [writes]; [split; [by intros ?%elem_of_nil|]; intros (p & q & He & _); inversion He|].
  rewrite elem_of_app, IH, list_elem_of_In, in_flat_map. split.
  - intros [(r & Hr & Hw)|(p & q & He & Hx)]; [|exists p, q; split; [by constructor|done]].
    apply list_elem_of_In in Hr. exists l, r. split; [by constructor|]. cbn in Hw. naive_solver.
  - intros (p & q & He & -> & Hab). inversion He; subst.
    + left. exists q. split; [by apply list_elem_of_In|]. cbn. naive_solver.
    + right. exists p, q. done.
Qed.

Lemma earlier_elem ps p q : earlier ps p q -> p ∈ ps /\ q ∈ ps.
Proof. induction 1 as [p q rest Hq|x rest p q _ [H1 H2]]; split; by (left || right). Qed.

Lemma earlier_total ps p q : p ∈ ps -> q ∈ ps -> p <> q -> earlier ps p q \/ earlier ps q p.
Proof.
  induction ps as [|x ps IH]; [by intros ?%elem_of_nil|].
  intros [->|Hp]%elem_of_cons [->|Hq]%elem_of_cons Hne; [done|left; by constructor|right; by constructor|].
  destruct (IH Hp Hq Hne); [left|right]; by constructor.
Qed.

Lemma earlier_irrefl ps p q : NoDup (map NodeID ps) -> earlier ps p q -> NodeID p <> NodeID q.
Proof.
  intros Hn He. induction He as [p q rest Hq|x rest p q He IH]; apply NoDup_cons in Hn as [Hx Hn]; [|by apply IH].
  intros E. apply Hx. apply list_elem_of_fmap. exists q. done.
Qed.

Lemma earlier_asym ps p q : NoDup (map NodeID ps) -> earlier ps p q -> ~ earlier ps q p.
Proof.
  intros Hn He. induction He as [p q rest Hq|x rest p q He IH]; apply NoDup_cons in Hn as [Hx Hn]; intros Hs.
  - apply Hx, list_elem_of_fmap. inversion Hs as [? ? ? Hin|? ? ? ? Hin]; subst.
    + eexists. by split; [|exact Hin].
    + destruct (earlier_elem _ _ _ Hin) as [_ Hp]. eexists. by split; [|exact Hp].
  - inversion Hs as [? ? ? Hin|? ? ? ? Hin]; subst; [|by apply IH].
    apply Hx, list_elem_of_fmap. destruct (earlier_elem _ _ _ He) as [_ Hq]. eexists. by split; [|exact Hq].
Qed.

Lemma lookup2_pairs ps m p q : NoDup (map NodeID ps) -> earlier ps p q ->
  lookup2 (pair_loop c req ps m) (NodeID p) (NodeID q) = Some (pair_seed p q) /\
  lookup2 (pair_loop c req ps m) (NodeID q) (NodeID p) = Some (pair_seed p q).
Proof.
  intros Hn He. rewrite pair_loop_writes. destruct (earlier_elem _ _ _ He) as [Hp Hq].
  assert (forall p' q' x, earlier ps p' q' -> (NodeID p = NodeID p' /\ NodeID q = NodeID q' \/ NodeID p = NodeID q' /\ NodeID q = NodeID p') ->
    x = pair_seed p' q' -> x = pair_seed p q) as Huniq.
  { intros p' q' x He' Hids ->. destruct (earlier_elem _ _ _ He') as [Hp' Hq']. destruct Hids as [[E1 E2]|[E1 E2]].
    - apply NoDup_map_inj with (l := ps) in E1, E2; try done. by subst.
    - apply NoDup_map_inj with (l := ps) in E1, E2; try done. subst. by destruct (earlier_asym ps p' q'). }
  split.
  - destruct (lookup2_writes (writes ps) (NodeID p) (NodeID q) m) as [(x & -> & Hx)|[_ Hnot]].
    + apply elem_of_writes in Hx as (p' & q' & He' & Hx & Hids). f_equal. eapply Huniq; [exact He'| |exact Hx]. naive_solver.
    + destruct (Hnot (pair_seed p q)). apply elem_of_writes. exists p, q. naive_solver.
  - destruct (lookup2_writes (writes ps) (NodeID q) (NodeID p) m) as [(x & -> & Hx)|[_ Hnot]].
    + apply elem_of_writes in Hx as (p' & q' & He' & Hx & Hids). f_equal. eapply Huniq; [exact He'| |exact Hx]. naive_solver.
    + destruct (Hnot (pair_seed p q)). apply elem_of_writes. exists p, q. naive_solver.
Qed.

Lemma lookup2_self ps m a : NoDup (map NodeID ps) -> lookup2 (pair_loop c req ps m) a a = lookup2 m a a.
Proof.
  intros Hn. rewrite pair_loop_writes. destruct (lookup2_writes (writes ps) a a m) as [(x & _ & Hx)|[? _]]; [|done].
  apply elem_of_writes in Hx as (p & q & He & _ & Hids). destruct (earlier_irrefl ps p q Hn He). naive_solver.
Qed.

(** [seeds p] are those of [p]: one with each other participant, that both derive
    from the same label, and none with itself. *)
Definition pairwise_seeds (seeds : DKGParticipant -> list (string * string)) : Prop :=
  (forall p q, earlier (Participants req) p q ->
    assoc_lookup (NodeID q) (seeds p) = Some (pair_seed p q) /\ assoc_lookup (NodeID p) (seeds q) = Some (pair_seed p q)) /\
  (forall p, p ∈ Participants req -> assoc_lookup (NodeID p) (seeds p) = None).

Lemma present_insert {A} k j (x : A) m : is_Some (assoc_lookup k m) -> is_Some (assoc_lookup k (assoc_insert j x m)).
Proof. intros Hs. destruct (decide (j = k)) as [->|]; [by rewrite assoc_lookup_insert|by rewrite assoc_lookup_insert_ne]. Qed.

Lemma present_writes k l : forall m, is_Some (assoc_lookup k m) -> is_Some (assoc_lookup k (fold_left write l m)).
Proof. induction l as [|e l IH]; intros m Hm; [done|]. by apply IH, present_insert. Qed.

Lemma empty_maps k l : forall m : list (string * list (string * string)), (forall x y, lookup2 m x y = None) ->
  is_Some (assoc_lookup k m) \/ k ∈ map NodeID l ->
  let m' := fold_left (fun m p => assoc_insert (NodeID p) [] m) l m in (forall x y, lookup2 m' x y = None) /\ is_Some (assoc_lookup k m').
Proof.
  induction l as [|p l IH]; intros m Hm Hk; cbn [fold_left map] in *; [destruct Hk as [?|Hk]; [done|by apply elem_of_nil in Hk]|].
  apply IH.
  - intros x y. unfold lookup2. destruct (decide (NodeID p = x)) as [<-|]; [by rewrite assoc_lookup_insert|].
    rewrite assoc_lookup_insert_ne by done. apply Hm.
  - destruct Hk as [Hk|[->|Hk]%elem_of_cons]; [left; by apply present_insert|left; by rewrite assoc_lookup_insert|by right].
Qed.

Lemma bootstrap_seeds b : newDKGBootstrap c req = Ok b -> NoDup (map NodeID (Participants req)) ->
  exists seeds, pairwise_seeds seeds /\ commonSeed b = deriveSeed c (SessionID req) (KeyName req) "common" /\
    forall p, p ∈ Participants req -> assoc_lookup (NodeID p) (pairwiseSeedsByNode b) = Some (seeds p).
Proof.
  unfold newDKGBootstrap. destruct (_ =? 0)%nat; [done|]. cbv zeta. intros [= <-] Hn. cbn [commonSeed pairwiseSeedsByNode].
  set (m0 := fold_left _ _ _). set (m := pair_loop c req (Participants req) m0).
  assert (forall p, p ∈ Participants req -> (forall x y, lookup2 m0 x y = None) /\ is_Some (assoc_lookup (NodeID p) m)) as Hp.
  { intros p Hin. destruct (empty_maps (NodeID p) (Participants req) []) as [Hz Hs]; [done|right; by apply list_elem_of_fmap_2|].
    split; [exact Hz|]. unfold m. rewrite pair_loop_writes. by apply present_writes. }
  assert (forall p, p ∈ Participants req -> assoc_lookup (NodeID p) m = Some (default [] (assoc_lookup (NodeID p) m))) as Hd.
  { intros p Hin. destruct (Hp p Hin) as [_ [x Hx]]. by rewrite Hx. }
  assert (forall p a, p ∈ Participants req -> assoc_lookup a (default [] (assoc_lookup (NodeID p) m)) = lookup2 m (NodeID p) a) as Ha.
  { intros p a Hin. unfold lookup2. by rewrite (Hd p Hin). }
  exists (fun p => default [] (assoc_lookup (NodeID p) m)). split; [split|by split].
  - intros p q He. destruct (earlier_elem _ _ _ He) as [H1 H2]. rewrite !Ha by done. by apply lookup2_pairs.
  - intros p Hin. rewrite Ha by done. unfold m. rewrite lookup2_self by done. by apply (Hp p Hin).
Qed.

(** The bootstrap seeds. Every two participants get one and the same seed for
    each other, derived from the session secret, the session, the key and their
    node ids in party order; no participant gets a seed for itself. *)
Theorem pairwise_seeds_agree b : newDKGBootstrap c req = Ok b -> NoDup (map NodeID (Participants req)) ->
  commonSeed b = deriveSeed c (SessionID req) (KeyName req) "common" /\
  forall p q, p ∈ Participants req -> q ∈ Participants req ->
    if decide (NodeID p = NodeID q) then lookup2 (pairwiseSeedsByNode b) (NodeID p) (NodeID q) = None
    else exists s, lookup2 (pairwiseSeedsByNode b) (NodeID p) (NodeID q) = Some s /\
      lookup2 (pairwiseSeedsByNode b) (NodeID q) (NodeID p) = Some s /\ (s = pair_seed p q \/ s = pair_seed q p).
Proof.
  unfold newDKGBootstrap. destruct (_ =? 0)%nat; [done|]. cbv zeta. intros [= <-] Hn. cbn [commonSeed pairwiseSeedsByNode].
  split; [done|]. intros p q Hp Hq. destruct (decide (NodeID p = NodeID q)) as [<-|Hne].
  - rewrite lookup2_self by done. set (m0 := fold_left _ _ _).
    assert (forall l m, (forall x y, lookup2 m x y = None) ->
      forall x y, lookup2 (fold_left (fun m p => assoc_insert (NodeID p) [] m) l m) x y = None) as Hz; [|by apply Hz].
    intros l. induction l as [|r l IH]; intros m Hm; [done|]. cbn [fold_left]. apply IH. intros x y. unfold lookup2.
    destruct (decide (NodeID r = x)) as [<-|]; [by rewrite assoc_lookup_insert|rewrite assoc_lookup_insert_ne by done; apply Hm].
  - destruct (earlier_total _ _ _ Hp Hq) as [He|He]; [congruence|..]; eapply (lookup2_pairs _ _ _ _ Hn) in He as [H1 H2]; eauto.
Qed.

End Seeds.

(** Four nodes whose ids hold the separator of the labels. *)
Definition colliding : DkgRequest := mkDkgRequest "k" "g" "s" 2
  [Some (mkGroupMember "a" 0 "http://n0:8200" ""); Some (mkGroupMember "a:b" 1 "http://n1:8200" "");
   Some (mkGroupMember "b:c" 2 "http://n2:8200" ""); Some (mkGroupMember "c" 3 "http://n3:8200" "")].

Definition node (id : string) (i : Z) (url : string) : DKGParticipant := mkParticipant id i (NewOpenBaoClient url "").
Definition colliding_dkg : DKGRequest := mkDKGRequest "k" "g" "s" 2
  [node "a" 0 "http://n0:8200"; node "a:b" 1 "http://n1:8200"; node "b:c" 2 "http://n2:8200"; node "c" 3 "http://n3:8200"].

(** The labels of pairs are ambiguous: node ids may hold the separator, so an
    accepted request can give two different pairs of nodes one pairwise seed. *)
Theorem pairwise_seed_collision : dkgRequestFromProto (Some colliding) = Ok colliding_dkg /\
  forall c, match newDKGBootstrap c colliding_dkg with
            | Ok b => exists s, lookup2 (pairwiseSeedsByNode b) "a" "b:c" = Some s /\
                        lookup2 (pairwiseSeedsByNode b) "a:b" "c" = Some s
            | Err _ => sessionSecret c = []
            end.
Proof.
  split; [reflexivity|]. intros c. unfold newDKGBootstrap. destruct (sessionSecret c) as [|z l]; [done|].
  cbn [length Nat.eqb]. cbv zeta. cbn [pairwiseSeedsByNode].
  assert (NoDup (map NodeID (Participants colliding_dkg))) as Hn by (apply (bool_decide_unpack _); reflexivity).
  destruct (lookup2_pairs c colliding_dkg _
    (fold_left (fun m p => assoc_insert (NodeID p) [] m) (Participants colliding_dkg) [])
    (node "a" 0 "http://n0:8200") (node "b:c" 2 "http://n2:8200") Hn) as [H1 _]; [apply earlier_here; right; left|].
  destruct (lookup2_pairs c colliding_dkg _
    (fold_left (fun m p => assoc_insert (NodeID p) [] m) (Participants colliding_dkg) [])
    (node "a:b" 1 "http://n1:8200") (node "c" 3 "http://n3:8200") Hn) as [H2 _]; [apply earlier_there, earlier_here; right; left|].
  eexists. split; [exact H1|exact H2].
Qed.

(** ** The protocol that is run *)

Section Protocol.
Context {W : Type} `{Backend W} `{Timer W} `{!Recording W}.
Context (map_order : list (string * DKGStatus) -> list (string * DKGStatus)).
Context (c : Coordinator).

(** The events of a call of [req] that was answered by [s], with its retries. *)
Definition called (req : request) (s : DKGStatus) (l : list event) : Prop := exists reps rep,
  l = failed_events c req 1 reps ++ [Exchanged req rep] /\ Forall transient reps /\
  Z.of_nat (S (length reps)) <= Z.max 1 (retryAttempts c) /\ verdict_of rep = Answer s.

(** The calls of [reqs], one after the other, and what answered each. *)
Definition transcript (l : list event) (reqs : list request) (answers : list DKGStatus) : Prop :=
  exists blocks, l = concat blocks /\ Forall3 called reqs answers blocks.

Lemma transcript_nil : transcript [] [] [].
Proof. exists []. split; [done|constructor]. Qed.

Lemma transcript_app l1 r1 a1 l2 r2 a2 : transcript l1 r1 a1 -> transcript l2 r2 a2 -> transcript (l1 ++ l2) (r1 ++ r2) (a1 ++ a2).
Proof. intros (b1 & -> & H1) (b2 & -> & H2). exists (b1 ++ b2). split; [by rewrite concat_app|by apply Forall3_app]. Qed.

Lemma transcript_one l req s : called req s l -> transcript l [req] [s].
Proof. intros Hc. exists [l]. split; [by cbn; rewrite app_nil_r|]. by repeat constructor. Qed.

Lemma transcript_length l reqs answers : transcript l reqs answers -> length answers = length reqs.
Proof. intros (bs & _ & Hf). by apply Forall3_length_lm in Hf. Qed.

(** [traced m Q]: a run of [m] that returns [a] added events [l] with [Q a l]. *)
Definition traced {A} (m : M W A) (Q : A -> list event -> Prop) : Prop := forall w w' a,
  m w = (w', Returned (Ok a)) -> exists l, history (backend w') = history (backend w) ++ l /\ Q a l.

Lemma traced_bind {A B} (m : M W A) (f : A -> M W B) P Q : traced m P ->
  (forall a l, P a l -> traced (f a) (fun b l' => Q b (l ++ l'))) -> traced (m ≫= f) Q.
Proof.
  intros Hm Hf w w' b Hr. apply run_bind_inv in Hr as (w1 & a & H1 & H2).
  destruct (Hm _ _ _ H1) as (l1 & S1 & P1). destruct (Hf _ _ P1 _ _ _ H2) as (l2 & S2 & Q2).
  exists (l1 ++ l2). by rewrite S2, S1, app_assoc.
Qed.

Lemma traced_lift {A} (r : result A) (Q : A -> list event -> Prop) : (forall a, r = Ok a -> Q a []) -> traced (lift r) Q.
Proof. intros HQ w w' a Hr. apply run_lift_inv in Hr as [-> ->]. exists []. rewrite app_nil_r. split; [done|by apply HQ]. Qed.

Lemma traced_ret {A} (a : A) (Q : A -> list event -> Prop) : Q a [] -> traced (mret a) Q.
Proof. intros HQ. apply (traced_lift (Ok a)). by intros ? [= <-]. Qed.

Lemma traced_weaken {A} (m : M W A) (P Q : A -> list event -> Prop) : traced m P -> (forall a l, P a l -> Q a l) -> traced m Q.
Proof. intros Hm HPQ w w' a Hr. destruct (Hm _ _ _ Hr) as (l & ? & ?). exists l. auto. Qed.

Lemma traced_call f req :
  traced (on_err f (callWithRetry c (do_into req dkg_decoder empty_status))) (fun s l => called req s l).
Proof.
  intros w w' s Hr. apply run_on_err_inv in Hr. destruct (run_callWithRetry c req w) as (w1 & r & l & reps & rep & E & _ & Hh & Hf & Hn & He).
  rewrite E in Hr. injection Hr as -> ->. exists l. split; [done|]. exists reps, rep. unfold call_end in He.
  destruct (verdict_of rep) as [s'|e|e].
  - destruct He as [[= ->] ->]. done.
  - by destruct He as [(_ & ? & _)|(_ & ? & _ & ? & _)].
  - by destruct He.
Qed.

(** *** The expected requests *)

(** The start of a participant, with the seeds it shares with the others. *)
Definition start_request (req : DKGRequest) (seeds : list (string * string)) (p : DKGParticipant) : request :=
  mkRequest "POST" (thresholdPath (Client p) ["keys"; KeyName req; "dkg"; "start"])
    (Some (print (start_json (mkStart (KeyName req) (GroupName req) (SessionID req)
       (deriveSeed c (SessionID req) (KeyName req) "common") (Some seeds) "" "" 0)))).

Definition proceed_request (keyName : string) (round : Z) (p : DKGParticipant) : request :=
  mkRequest "POST" (thresholdPath (Client p) ["keys"; keyName; "dkg"; "proceed"]) (Some (print (proceed_json round))).

(** The unicast of a status for [r]; empty where there is none. *)
Definition unicast (s : DKGStatus) (r : DKGParticipant) : string := default "" (assoc_lookup (NodeID r) (st_Unicasts s)).

(** What [r] is sent of the output [s] of [p]: its broadcast, and in round 2 its
    unicast. *)
Definition message (keyName : string) (round : Z) (r : DKGParticipant) (sender : DKGParticipant * DKGStatus) : list request :=
  let '(p, s) := sender in
  if String.eqb (NodeID p) (NodeID r) then []
  else [mkRequest "POST" (thresholdPath (Client r) ["keys"; keyName; "dkg"; "deliver"])
          (Some (print (deliver_json (mkDeliver round (NodeID p) (st_Broadcast s) (if round =? 2 then unicast s r else "")))))].

Definition deliver_requests (keyName : string) (round : Z) (outputs : list (DKGParticipant * DKGStatus)) : list request :=
  flat_map (fun r => flat_map (message keyName round r) outputs) (map fst outputs).

(** All outputs were delivered; in round 2 there is a unicast for everyone. *)
Definition delivered (l : list event) (keyName : string) (round : Z) (outputs : list (DKGParticipant * DKGStatus)) : Prop :=
  (exists answers, transcript l (deliver_requests keyName round outputs) answers) /\
  (round = 2 -> forall r p s, r ∈ map fst outputs -> (p, s) ∈ outputs -> NodeID p <> NodeID r -> unicast s r <> "").

(** An output of a round that another one follows. *)
Definition output_of (round : Z) (s : DKGStatus) : Prop := st_Round s = round /\ st_Broadcast s <> "".

Lemma requireRoundOutput_Ok nodeID s round u : requireRoundOutput nodeID s round = Ok u -> output_of round s.
Proof.
  unfold requireRoundOutput. intros Hr. apply bind_Ok in Hr as (_ & E1%reject_Ok & Hr). apply bind_Ok in Hr as (_ & E2%reject_Ok & _).
  split; [by apply negb_false_iff, Z.eqb_eq in E1|by apply String.eqb_neq].
Qed.

(** *** The rounds *)

(** The outputs as the loops collect them. *)
Definition collect (ps : list DKGParticipant) (ss : list DKGStatus) (outs : list (string * DKGStatus)) : list (string * DKGStatus) :=
  fold_left (fun m x => assoc_insert (NodeID x.1) x.2 m) (zip ps ss) outs.

Lemma assoc_insert_fresh {A} k (x : A) l : k ∉ map fst l -> assoc_insert k x l = l ++ [(k, x)].
Proof.
  induction l as [|[j y] l IH]; cbn; [done|]. intros [Hk Hl]%not_elem_of_cons. apply String.eqb_neq in Hk as ->. by rewrite IH.
Qed.

Lemma collect_distinct ps : forall ss outs, length ss = length ps -> NoDup (map fst outs ++ map NodeID ps) ->
  collect ps ss outs = outs ++ zip (map NodeID ps) ss.
Proof.
  unfold collect. induction ps as [|p ps IH]; intros [|s ss] outs Hl Hn; try done; cbn [zip_with fold_left map]; [by rewrite app_nil_r|].
  cbn [map] in Hn. rewrite assoc_insert_fresh.
  - rewrite IH; [by rewrite <- app_assoc|cbn in Hl; lia|]. rewrite map_app, <- app_assoc. exact Hn.
  - apply NoDup_app in Hn as (_ & Hn & _). intros Hin. apply (Hn _ Hin). left.
Qed.

Lemma assoc_lookup_zip ps (ss : list DKGStatus) p s : NoDup (map NodeID ps) -> (p, s) ∈ zip ps ss ->
  assoc_lookup (NodeID p) (zip (map NodeID ps) ss) = Some s.
Proof.
  revert ss. induction ps as [|q ps IH]; intros [|t ss] Hn Hin; cbn in *; try by apply elem_of_nil in Hin.
  apply NoDup_cons in Hn as [Hq Hn]. apply elem_of_cons in Hin as [[= -> ->]|Hin]; [by rewrite String.eqb_refl|].
  assert (NodeID p <> NodeID q) as Hne.
  { intros E. apply Hq. rewrite <- E. apply list_elem_of_fmap. exists p. split; [done|]. by apply elem_of_zip_l in Hin. }
  apply String.eqb_neq in Hne as ->. by apply IH.
Qed.

Lemma traced_start req b ps : forall outs,
  traced (startDKG c req ps b outs) (fun o l => exists ss,
    transcript l (map (fun p => mkRequest "POST" (thresholdPath (Client p) ["keys"; KeyName req; "dkg"; "start"])
                                  (Some (print (start_json (start_of req b p))))) ps) ss /\
    Forall (output_of 1) ss /\ o = collect ps ss outs).
Proof.
  induction ps as [|p ps IH]; intros outs; cbn [startDKG].
  - apply traced_ret. exists []. split; [apply transcript_nil|]. by split; [constructor|].
  - eapply traced_bind; [apply traced_call|]. intros s l1 H1.
    eapply (traced_bind _ _ (fun _ l => l = [] /\ output_of 1 s)).
    { apply traced_lift. intros u Hu. split; [done|]. by eapply requireRoundOutput_Ok. }
    intros _ l [-> Hs]. eapply traced_weaken; [apply IH|]. cbn beta. intros o l2 (ss & H2 & Hf & ->). exists (s :: ss).
    split; [exact (transcript_app _ _ _ _ _ _ (transcript_one _ _ _ H1) H2)|]. split; [by constructor|done].
Qed.

Lemma traced_proceed keyName ps round : forall outs,
  traced (proceedRound c keyName ps round outs) (fun o l => exists ss,
    transcript l (map (proceed_request keyName round) ps) ss /\ (round < 4 -> Forall (output_of round) ss) /\ o = collect ps ss outs).
Proof.
  induction ps as [|p ps IH]; intros outs; cbn [proceedRound].
  - apply traced_ret. exists []. split; [apply transcript_nil|]. by split; [constructor|].
  - eapply traced_bind; [apply traced_call|]. intros s l1 H1.
    eapply (traced_bind _ _ (fun _ l => l = [] /\ (round < 4 -> output_of round s))).
    { destruct (Z.ltb_spec round 4); [|apply traced_ret; split; [done|lia]]. apply traced_lift. intros u Hu. split; [done|]. intros _.
      by eapply requireRoundOutput_Ok. }
    intros _ l [-> Hs]. eapply traced_weaken; [apply IH|]. cbn beta. intros o l2 (ss & H2 & Hf & ->). exists (s :: ss).
    split; [exact (transcript_app _ _ _ _ _ _ (transcript_one _ _ _ H1) H2)|]. split; [|done]. intros Hr. constructor; auto.
Qed.

Lemma traced_one keyName outputs round r p s : assoc_lookup (NodeID p) outputs = Some s ->
  traced (deliver_one c keyName outputs round r p) (fun _ l =>
    (exists d, transcript l (message keyName round r (p, s)) d) /\ (round = 2 -> NodeID p <> NodeID r -> unicast s r <> "")).
Proof.
  intros Hl. unfold deliver_one, message. destruct (String.eqb_spec (NodeID p) (NodeID r)) as [|Hne].
  { apply traced_ret. split; [exists []; apply transcript_nil|done]. }
  rewrite Hl. cbv zeta.
  eapply (traced_bind _ _ (fun _ l => l = [] /\ (round = 2 -> unicast s r <> ""))).
  { apply traced_lift. intros u Hu%reject_Ok. split; [done|]. intros ->. by apply String.eqb_neq. }
  intros _ l [-> Hu]. eapply traced_bind; [apply traced_call|]. intros d l Hc. apply traced_ret. split; [|auto].
  exists [d]. rewrite app_nil_r. by apply transcript_one.
Qed.

(** Loops whose steps each send their own messages. *)
Lemma transcripts_app l1 r1 l2 r2 : (exists d, transcript l1 r1 d) -> (exists d, transcript l2 r2 d) -> exists d, transcript (l1 ++ l2) (r1 ++ r2) d.
Proof. intros [d1 H1] [d2 H2]. exists (d1 ++ d2). by apply transcript_app. Qed.

Lemma traced_deliver_to keyName outputs round r : forall l, (forall p s, (p, s) ∈ l -> assoc_lookup (NodeID p) outputs = Some s) ->
  traced (deliver_to c keyName outputs round r (map fst l)) (fun _ ev =>
    (exists d, transcript ev (flat_map (message keyName round r) l) d) /\
    (round = 2 -> forall p s, (p, s) ∈ l -> NodeID p <> NodeID r -> unicast s r <> "")).
Proof.
  induction l as [|[p s] l IH]; intros Hl; cbn [map fst deliver_to flat_map].
  { apply traced_ret. split; [exists []; apply transcript_nil|]. by intros _ p s ?%elem_of_nil. }
  eapply traced_bind; [apply (traced_one _ _ _ _ _ s); apply Hl; left|]. intros _ l1 [H1 U1].
  eapply traced_weaken; [apply IH; intros; apply Hl; by right|]. intros _ l2 [H2 U2]. split; [by apply transcripts_app|].
  intros Hr p' s' [[= -> ->]|Hin]%elem_of_cons; eauto.
Qed.

Lemma traced_deliver keyName outputs round l : (forall p s, (p, s) ∈ l -> assoc_lookup (NodeID p) outputs = Some s) ->
  traced (deliverRound c keyName (map fst l) outputs round) (fun _ ev => delivered ev keyName round l).
Proof.
  intros Hl. unfold deliverRound, delivered, deliver_requests.
  assert (forall rs, traced (deliver_all c keyName outputs round (map fst l) rs) (fun _ ev =>
    (exists d, transcript ev (flat_map (fun r => flat_map (message keyName round r) l) rs) d) /\
    (round = 2 -> forall r p s, r ∈ rs -> (p, s) ∈ l -> NodeID p <> NodeID r -> unicast s r <> ""))) as Hall; [|apply Hall].
  induction rs as [|r rs IH]; cbn [deliver_all flat_map].
  { apply traced_ret. split; [exists []; apply transcript_nil|]. by intros _ r p s ?%elem_of_nil. }
  eapply traced_bind; [by apply traced_deliver_to|]. intros _ l1 [H1 U1]. eapply traced_weaken; [apply IH|].
  intros _ l2 [H2 U2]. split; [by apply transcripts_app|]. intros Hr r' p s [->|Hin]%elem_of_cons; eauto.
Qed.

(** *** The run *)

(** A round that is started for each participant and whose outputs are then
    delivered, for distinct participants. *)
Lemma traced_delivered keyName round ps ss l1 reqs : NoDup (map NodeID ps) -> transcript l1 reqs ss -> length reqs = length ps ->
  traced (deliverRound c keyName ps (collect ps ss []) round) (fun _ ev => delivered ev keyName round (zip ps ss)).
Proof.
  intros Hn Ht Hl. apply transcript_length in Ht. assert (length ss = length ps) as Hs by lia.
  rewrite (collect_distinct ps ss []) by done. cbn [app].
  pose proof (traced_deliver keyName (zip (map NodeID ps) ss) round (zip ps ss)) as Hd.
  rewrite fst_zip in Hd by lia. apply Hd. intros p s. by apply assoc_lookup_zip.
Qed.

(** C6: the protocol. A successful key generation consists of the four rounds, in
    order, and of nothing else. Each participant is started with the common seed
    and its own pairwise seeds; what it answers to a round is the output that is
    then sent, under its name, to every other participant (in round 2 with the
    unicast for the receiver) before anyone is asked for the next round; the
    answers to the last round are the result. Each call is answered once, after
    replies that allow another attempt, and as often as the policy allows. *)
Theorem CoordinateDKG_transcript req w w' res : NoDup (map NodeID (Participants req)) ->
  CoordinateDKG map_order c req w = (w', Returned (Ok res)) ->
  let ps := Participants req in let key := KeyName req in
  exists seeds s1 s2 s3 s4 l1 l2 l3 l4 l5 l6 l7,
    history (backend w') = history (backend w) ++ l1 ++ l2 ++ l3 ++ l4 ++ l5 ++ l6 ++ l7 /\
    pairwise_seeds c req seeds /\
    transcript l1 (map (fun p => start_request req (seeds p) p) ps) s1 /\ Forall (output_of 1) s1 /\ delivered l2 key 1 (zip ps s1) /\
    transcript l3 (map (proceed_request key 2) ps) s2 /\ Forall (output_of 2) s2 /\ delivered l4 key 2 (zip ps s2) /\
    transcript l5 (map (proceed_request key 3) ps) s3 /\ Forall (output_of 3) s3 /\ delivered l6 key 3 (zip ps s3) /\
    transcript l7 (map (proceed_request key 4) ps) s4 /\ res_Nodes res = zip (map NodeID ps) s4.
Proof.
  intros Hn Hr. cbv zeta. unfold CoordinateDKG in Hr. apply run_bind_inv in Hr as (w0 & b & Hb & Hr). apply run_lift_inv in Hb as [-> Hb].
  destruct (bootstrap_seeds c req b Hb Hn) as (seeds & Hseeds & Hcommon & Hown). cbv zeta in Hr. set (ps := Participants req) in *.
  assert (forall round, length (map (proceed_request (KeyName req) round) ps) = length ps) as Hlen by (intros; apply length_map).
  apply run_bind_inv in Hr as (w1 & o1 & H1 & Hr). destruct (traced_start req b ps [] _ _ _ H1) as (l1 & E1 & s1 & T1 & O1 & ->).
  apply run_bind_inv in Hr as (w2 & u1 & H2 & Hr). destruct (traced_delivered _ _ _ _ _ _ Hn T1 ltac:(by rewrite length_map) _ _ _ H2) as (l2 & E2 & D2).
  apply run_bind_inv in Hr as (w3 & o2 & H3 & Hr). destruct (traced_proceed _ ps 2 [] _ _ _ H3) as (l3 & E3 & s2 & T3 & O3 & ->).
  apply run_bind_inv in Hr as (w4 & u2 & H4 & Hr). destruct (traced_delivered _ _ _ _ _ _ Hn T3 (Hlen 2) _ _ _ H4) as (l4 & E4 & D4).
  apply run_bind_inv in Hr as (w5 & o3 & H5 & Hr). destruct (traced_proceed _ ps 3 [] _ _ _ H5) as (l5 & E5 & s3 & T5 & O5 & ->).
  apply run_bind_inv in Hr as (w6 & u3 & H6 & Hr). destruct (traced_delivered _ _ _ _ _ _ Hn T5 (Hlen 3) _ _ _ H6) as (l6 & E6 & D6).
  apply run_bind_inv in Hr as (w7 & o4 & H7 & Hr). destruct (traced_proceed _ ps 4 [] _ _ _ H7) as (l7 & E7 & s4 & T7 & _ & ->).
  apply run_bind_inv in Hr as (w8 & pk & H8 & Hr). apply run_lift_inv in H8 as [-> H8]. inv_run. cbn [res_Nodes].
  exists seeds, s1, s2, s3, s4, l1, l2, l3, l4, l5, l6, l7. split_and!; try done; [..|by apply O3|by apply O5|].
  - rewrite E7, E6, E5, E4, E3, E2, E1. by rewrite !app_assoc.
  - rewrite (map_ext_in (fun p => start_request req (seeds p) p)
      (fun p => mkRequest "POST" (thresholdPath (Client p) ["keys"; KeyName req; "dkg"; "start"]) (Some (print (start_json (start_of req b p)))))); [done|].
    intros p Hp%list_elem_of_In. unfold start_request, start_of. by rewrite (Hown p Hp), Hcommon.
  - pose proof (transcript_length _ _ _ T7) as H4l. rewrite Hlen in H4l. by rewrite (collect_distinct ps s4 []) by done.
Qed.

End Protocol.

(** ** The result *)

Section Result.
Context {W : Type} `{Backend W} `{Timer W}.
Context (map_order : list (string * DKGStatus) -> list (string * DKGStatus)).
Context (c : Coordinator).

Lemma completed_key_spec l : forall pk k, completed_key pk l = Ok k ->
  (pk = "" \/ k = pk) /\
  Forall (fun kv => st_Status kv.2 = keyStatusCompleted /\ st_PublicKey kv.2 = k) l /\ (l <> [] -> k <> "") /\ (l = [] -> k = pk).
Proof.
  induction l as [|[n s] l IH]; intros pk k Hk; cbn [completed_key] in Hk.
  - injection Hk as <-. split_and!; [by right|constructor|done|done].
  - apply bind_Ok in Hk as (_ & E1%reject_Ok & Hk). apply bind_Ok in Hk as (_ & E2%reject_Ok & Hk).
    apply negb_false_iff, String.eqb_eq in E1. apply String.eqb_neq in E2.
    destruct (String.eqb_spec pk "") as [->|Hne].
    + apply IH in Hk as ([Hd|Hd] & Hf & _ & _); [done|]. subst k. split_and!; [by left|by constructor|done|done].
    + apply bind_Ok in Hk as (_ & E3%reject_Ok & Hk). apply negb_false_iff, String.eqb_eq in E3.
      apply IH in Hk as ([Hd|Hd] & Hf & _ & _); [done|]. subst k. split_and!; [by right|constructor; [by cbn; rewrite E3|done]|done|done].
Qed.

Lemma proceedRound_keys keyName round ps : forall outs w w' o,
  proceedRound c keyName ps round outs w = (w', Returned (Ok o)) ->
  NoDup (map fst outs ++ map NodeID ps) -> map fst o = map fst outs ++ map NodeID ps.
Proof.
  induction ps as [|p ps IH]; intros outs w w' o Hr Hn; cbn [proceedRound map] in *.
  - inv_run. by rewrite app_nil_r.
  - apply run_bind_inv in Hr as (w1 & s & _ & Hr). apply run_bind_inv in Hr as (w2 & u & _ & Hr).
    assert (map fst (assoc_insert (NodeID p) s outs) = map fst outs ++ [NodeID p]) as E.
    { apply NoDup_app in Hn as (_ & Hn & _). assert (NodeID p ∉ map fst outs) as Hp by (intros Hin; apply (Hn _ Hin); left).
      clear -Hp. induction outs as [|[k v] outs IH]; cbn in *; [done|]. apply not_elem_of_cons in Hp as [Hk Hp].
      apply String.eqb_neq in Hk as ->. cbn. by rewrite IH. }
    apply IH in Hr; rewrite E, <- app_assoc in *; done.
Qed.

Lemma CoordinateDKG_result req w w' res : (forall l, map_order l ≡ₚ l) ->
  CoordinateDKG map_order c req w = (w', Returned (Ok res)) ->
  NoDup (map NodeID (Participants req)) -> Participants req <> [] ->
  res_PublicKey res <> "" /\ map fst (res_Nodes res) = map NodeID (Participants req) /\
  Forall (fun kv => st_Status kv.2 = keyStatusCompleted /\ st_PublicKey kv.2 = res_PublicKey res) (res_Nodes res) /\
  res_KeyName res = KeyName req /\ res_GroupName res = GroupName req /\ res_SessionID res = SessionID req.
Proof.
  intros Hord Hr Hn Hne. unfold CoordinateDKG in Hr. cbv zeta in Hr.
  do 7 (apply run_bind_inv in Hr as (? & ? & _ & Hr)).
  apply run_bind_inv in Hr as (w7 & o4 & H4 & Hr). apply run_bind_inv in Hr as (w8 & pk & Hpk & Hr).
  apply run_lift_inv in Hpk as [-> Hpk]. inv_run. cbn [res_PublicKey res_Nodes res_KeyName res_GroupName res_SessionID].
  apply proceedRound_keys in H4; [|done]. cbn [map app] in H4. apply completed_key_spec in Hpk as (_ & Hf & Hk & _).
  rewrite Hord in Hf. split_and!; try done. apply Hk. intros E. apply (f_equal length) in E. rewrite Hord in E.
  apply (f_equal length) in H4. rewrite !length_map in H4. by destruct (Participants req), o4.
Qed.

(** C17: agreement. A successful key generation reports one group key, not empty,
    that every participant derived; every participant has completed, each is
    reported once, and the names of the request come back. This holds for
    whatever order the runtime iterates over maps in. *)
Theorem CoordinateDKG_agreement req w w' res : (forall l, map_order l ≡ₚ l) ->
  CoordinateDKG map_order c req w = (w', Returned (Ok res)) ->
  NoDup (map NodeID (Participants req)) -> Participants req <> [] ->
  res_PublicKey res <> "" /\ map fst (res_Nodes res) = map NodeID (Participants req) /\
  Forall (fun kv => st_Status kv.2 = keyStatusCompleted /\ st_PublicKey kv.2 = res_PublicKey res) (res_Nodes res) /\
  res_KeyName res = KeyName req /\ res_GroupName res = GroupName req /\ res_SessionID res = SessionID req.
Proof. apply CoordinateDKG_result. Qed.

(** ** Every run returns *)

Definition returns {A} (m : M W A) : Prop := forall w, exists w' r, m w = (w', Returned r).

Lemma returns_lift {A} (r : result A) : returns (lift r).
Proof. intros w. by eexists _, _. Qed.
Lemma returns_bind {A B} (m : M W A) (f : A -> M W B) : returns m -> (forall a, returns (f a)) -> returns (m ≫= f).
Proof. intros Hm Hf w. unfold mbind, Prog_bind. destruct (Hm w) as (w1 & [a|e] & ->); [apply Hf|]. by eexists _, _. Qed.
Lemma returns_on_err {A} f (m : M W A) : returns m -> returns (on_err f m).
Proof. intros Hm w. unfold on_err. destruct (Hm w) as (w1 & r & ->). by eexists _, _. Qed.
Lemma returns_do {R} req (d : decoder R) z : returns (do_into req d z).
Proof.
  apply returns_bind; [|intros; apply returns_lift]. intros w. unfold exchange. destruct (serve (backend w) req) as [st [| |code status body]]; eauto.
Qed.
Lemma returns_wait delay : returns (wait delay).
Proof. intros w. unfold wait. destruct (0 <? delay); [|eauto]. destruct (await (backend w) delay). eauto. Qed.
Lemma returns_call req d z : returns (callWithRetry c (do_into req d z)).
Proof.
  assert (forall k i, returns (retry_loop c k i (do_into req d z))) as Hl; [|apply Hl].
  induction k as [|k IH]; intros i; cbn [retry_loop].
  all: apply returns_bind; [intros w; destruct (returns_do req d z w) as (w' & r & Hr); eexists _, _; apply run_attempt; exact Hr|].
  - intros [s|e]; [apply (returns_lift (Ok s))|apply (returns_lift (Err e))].
  - intros [s|e]; [apply (returns_lift (Ok s))|]. destruct (isRetryableOpenBaoError e); [|apply (returns_lift (Err e))].
    apply returns_bind; [apply returns_wait|intros _; apply IH].
Qed.

Lemma returns_start req b ps : forall outs, returns (startDKG c req ps b outs).
Proof.
  induction ps as [|p ps IH]; intros outs; [apply (returns_lift (Ok outs))|]. apply returns_bind; [apply returns_on_err, returns_call|].
  intros s. apply returns_bind; [apply returns_lift|]. intros _. apply IH.
Qed.

Lemma returns_proceed keyName ps round : forall outs, returns (proceedRound c keyName ps round outs).
Proof.
  induction ps as [|p ps IH]; intros outs; [apply (returns_lift (Ok outs))|]. apply returns_bind; [apply returns_on_err, returns_call|].
  intros s. apply returns_bind; [|intros _; apply IH]. destruct (round <? 4); [apply returns_lift|apply (returns_lift (Ok tt))].
Qed.

Lemma returns_deliver keyName outs round ps : returns (deliverRound c keyName ps outs round).
Proof.
  unfold deliverRound. generalize ps at 1 as senders. intros senders.
  assert (forall r s, returns (deliver_one c keyName outs round r s)) as H1.
  { intros r s. unfold deliver_one. destruct (String.eqb _ _); [apply (returns_lift (Ok tt))|].
    destruct (assoc_lookup _ outs) as [o|]; [|apply (returns_lift (Err _))]. cbv zeta.
    apply returns_bind; [apply returns_lift|intros _]. apply returns_bind; [apply returns_on_err, returns_call|].
    intros _. apply (returns_lift (Ok tt)). }
  assert (forall r l, returns (deliver_to c keyName outs round r l)) as H2.
  { intros r l. induction l as [|s l IH]; [apply (returns_lift (Ok tt))|]. apply returns_bind; [apply H1|intros _; apply IH]. }
  induction ps as [|r ps IH]; [apply (returns_lift (Ok tt))|]. apply returns_bind; [apply H2|intros _; apply IH].
Qed.

Lemma returns_coordinate req : returns (CoordinateDKG map_order c req).
Proof.
  unfold CoordinateDKG. apply returns_bind; [apply returns_lift|]. intros b. cbv zeta.
  repeat first [apply returns_bind; [first [apply returns_start|apply returns_deliver|apply returns_proceed|apply returns_lift]|intros ?]
               |apply (returns_lift (Ok _))].
Qed.

End Result.

(** The gRPC method. CoordinateDkg always returns. An invalid request is
    answered with InvalidArgument before anything is sent, any failure of the
    protocol with Internal; a success lists exactly the participants, in the order
    of their ids, all of them completed. *)
Theorem CoordinateDkg_outcome {W} `{Backend W} `{Timer W} map_order p req w : (forall l, map_order l ≡ₚ l) ->
  match CoordinateDkg map_order p req w with
  | (w', Returned (Err e)) =>
      (status_code e = InvalidArgument /\ w' = w /\ is_ok (dkgRequestFromProto req) = false) \/
      (status_code e = Internal /\ is_ok (dkgRequestFromProto req) = true)
  | (w', Returned (Ok resp)) => exists r, dkgRequestFromProto req = Ok r /\ dresp_PublicKey resp <> "" /\
      dresp_KeyName resp = KeyName r /\
      map ns_NodeId (dresp_Nodes resp) ≡ₚ map NodeID (Participants r) /\
      StronglySorted (fun a b => String.leb a b = true) (map ns_NodeId (dresp_Nodes resp)) /\
      Forall (fun n => ns_Status n = keyStatusCompleted) (dresp_Nodes resp)
  | _ => False
  end.
Proof.
  intros Hord. unfold CoordinateDkg. destruct (dkgRequestFromProto req) as [r|e] eqn:Er.
  2: { erewrite run_bind_err; [|by apply run_on_err_err]. left. done. }
  erewrite run_bind; [|by apply run_on_err].
  destruct (returns_coordinate map_order (coordinator p) r w) as (w' & [res|e] & Hr).
  2: { erewrite run_bind_err; [|by apply run_on_err_err]. right. done. }
  erewrite run_bind; [|by apply run_on_err]. cbv zeta. unfold mret, Prog_ret. cbn [dresp_PublicKey dresp_KeyName dresp_Nodes].
  destruct req as [req|]; [|done]. pose proof (dkgRequestFromProto_sound _ _ Er) as (Hn & Hne).
  destruct (CoordinateDKG_result map_order (coordinator p) r w w' res Hord Hr Hn Hne) as (Hpk & Hids & Hf & Hk & _).
  exists r. split_and!; [done|done|done|..].
  - rewrite isort_perm, map_map, Hord, <- Hids. reflexivity.
  - apply map_isort_sorted; [apply string_leb_trans|apply String.leb_total].
  - rewrite isort_perm. apply Forall_map. rewrite Hord. eapply Forall_impl; [exact Hf|]. intros kv [E _]. exact E.
Qed.
