(* ===== verification/ThresholdRuns.v ===== *)
(** * The threshold theorems on a concrete run

    Two participants whose servers answer every step of the protocol, the first
    request with a transient failure. *)

From S2P Require Import Prelude GoStrings Errors Codec Sha2 Json OpenBao KmsClient Threshold ThresholdRetry ThresholdProtocol.

(** How many requests are still refused. *)
Definition dkg_state : Type := nat.

(** A node's broadcast names its URL. *)
Definition status_json (url status : string) (round : Z) (more : list (string * json)) : json :=
  JObj [("data", JObj ([("status", JStr status); ("round", JNum (pretty round)); ("broadcast", JStr ("of " +:+ url))] ++ more))].

Definition dkg_answer (url : string) (body : option string) : json :=
  match body ≫= parse with
  | Some (JObj [("round", JNum "2")]) =>
      status_json url "dkg_started" 2 [("unicasts", JObj [("n1", JStr "to n1"); ("n2", JStr "to n2")])]
  | Some (JObj [("round", JNum "3")]) => status_json url "dkg_started" 3 []
  | Some (JObj [("round", JNum "4")]) => status_json url keyStatusCompleted 4 [("public_key", JStr "04ab")]
  | _ => status_json url "dkg_started" 1 []
  end.

#[export] Instance dkg_backend : Backend dkg_state := fun st r =>
  match st with
  | S k => (k, Response 503 "503 Service Unavailable" "")
  | O => (0%nat, Response 200 "200 OK" (print (dkg_answer (target r) (body r))))
  end.

(** A timer that always fires. *)
#[export] Instance dkg_timer : Timer dkg_state := fun st _ => (st, None).

Definition dkg_coordinator : Coordinator := NewCoordinator [WithSessionSecret [1; 2; 3]].

Definition dkg_proto : DkgRequest := mkDkgRequest " wallet " "ops" "s-1" 2
  [Some (mkGroupMember "n2" 1 "http://n2:8200/" ""); Some (mkGroupMember " n1 " 0 "http://n1:8200" "dkg")].

Definition dkg_request : DKGRequest :=
  Eval vm_compute in match dkgRequestFromProto (Some dkg_proto) with Ok r => r | Err _ => mkDKGRequest "" "" "" 0 [] end.

Definition dkg_start : world dkg_state := mkWorld 1%nat [].
Definition dkg_world : world dkg_state := Eval vm_compute in (CoordinateDKG id dkg_coordinator dkg_request dkg_start).1.
Definition dkg_result : DKGResult :=
  Eval vm_compute in match (CoordinateDKG id dkg_coordinator dkg_request dkg_start).2 with
                     | Returned (Ok r) => r
                     | _ => mkResult "" "" "" "" []
                     end.

Lemma dkg_run : CoordinateDKG id dkg_coordinator dkg_request dkg_start = (dkg_world, Returned (Ok dkg_result)).
Proof. vm_compute. reflexivity. Qed.

Lemma dkg_ids : NoDup (map NodeID (Participants dkg_request)).
Proof. apply (bool_decide_unpack _). reflexivity. Qed.

(** ** The theorems at this run *)

Lemma dkgRequestFromProto_valid_witness :
  let n := Z.of_nat (length (dr_Participants dkg_proto)) in
  KeyName dkg_request = TrimSpace (dr_KeyName dkg_proto) /\ KeyName dkg_request <> "" /\ GroupName dkg_request <> "" /\
  SessionID dkg_request <> "" /\ 2 <= Threshold dkg_request <= n /\
  NoDup (map NodeID (Participants dkg_request)) /\ map PartyIndex (Participants dkg_request) = seqZ 0 n /\
  (exists ms, dr_Participants dkg_proto = map Some ms /\ Participants dkg_request ≡ₚ map participant_of ms) /\
  (forall l, l ≡ₚ dr_Participants dkg_proto -> dkgRequestFromProto (Some (mkDkgRequest (dr_KeyName dkg_proto)
    (dr_GroupName dkg_proto) (dr_SessionId dkg_proto) (dr_Threshold dkg_proto) l)) = Ok dkg_request).
Proof. apply (dkgRequestFromProto_valid dkg_proto dkg_request). reflexivity. Defined.

Lemma pairwise_seeds_agree_witness : exists b, newDKGBootstrap dkg_coordinator dkg_request = Ok b /\
  commonSeed b = deriveSeed dkg_coordinator (SessionID dkg_request) (KeyName dkg_request) "common" /\
  forall p q, p ∈ Participants dkg_request -> q ∈ Participants dkg_request ->
    if decide (NodeID p = NodeID q) then lookup2 (pairwiseSeedsByNode b) (NodeID p) (NodeID q) = None
    else exists s, lookup2 (pairwiseSeedsByNode b) (NodeID p) (NodeID q) = Some s /\
      lookup2 (pairwiseSeedsByNode b) (NodeID q) (NodeID p) = Some s /\
      (s = pair_seed dkg_coordinator dkg_request p q \/ s = pair_seed dkg_coordinator dkg_request q p).
Proof.
  eexists. split; [reflexivity|]. apply (pairwise_seeds_agree dkg_coordinator dkg_request); [reflexivity|apply dkg_ids].
Defined.

(** The same run, with a history. *)
#[export] Instance logged_backend : Backend (dkg_state * list event) := recorder_backend.
#[export] Instance logged_timer : Timer (dkg_state * list event) := recorder_timer.
#[export] Instance logged : Recording (dkg_state * list event) := recorder.

Definition logged_start : world (dkg_state * list event) := mkWorld (1%nat, []) [].
Definition logged_world : world (dkg_state * list event) := Eval vm_compute in (CoordinateDKG id dkg_coordinator dkg_request logged_start).1.

Lemma logged_run : CoordinateDKG id dkg_coordinator dkg_request logged_start = (logged_world, Returned (Ok dkg_result)).
Proof. vm_compute. reflexivity. Qed.

Example logged_events : length (history (backend logged_world)) = 16%nat /\ sent logged_world = sent dkg_world.
Proof. vm_compute. done. Qed.

Lemma CoordinateDKG_transcript_witness :
  let ps := Participants dkg_request in let key := KeyName dkg_request in
  exists seeds s1 s2 s3 s4 l1 l2 l3 l4 l5 l6 l7,
    history (backend logged_world) = history (backend logged_start) ++ l1 ++ l2 ++ l3 ++ l4 ++ l5 ++ l6 ++ l7 /\
    pairwise_seeds dkg_coordinator dkg_request seeds /\
    transcript dkg_coordinator l1 (map (fun p => start_request dkg_coordinator dkg_request (seeds p) p) ps) s1 /\
    Forall (output_of 1) s1 /\ delivered dkg_coordinator l2 key 1 (zip ps s1) /\
    transcript dkg_coordinator l3 (map (proceed_request key 2) ps) s2 /\ Forall (output_of 2) s2 /\
    delivered dkg_coordinator l4 key 2 (zip ps s2) /\
    transcript dkg_coordinator l5 (map (proceed_request key 3) ps) s3 /\ Forall (output_of 3) s3 /\
    delivered dkg_coordinator l6 key 3 (zip ps s3) /\
    transcript dkg_coordinator l7 (map (proceed_request key 4) ps) s4 /\ res_Nodes dkg_result = zip (map NodeID ps) s4.
Proof. apply (CoordinateDKG_transcript id dkg_coordinator dkg_request logged_start logged_world); [apply dkg_ids|apply logged_run]. Defined.

(** A call that is answered on its second attempt, after the backoff. *)
Definition a_call : request := mkRequest "POST" "http://n1:8200/v1/dkg/keys/wallet/dkg/proceed" (Some (print (proceed_json 3))).

Example a_call_events :
  history (backend (callWithRetry dkg_coordinator (do_into a_call dkg_decoder empty_status) logged_start).1) =
  [Exchanged a_call (Response 503 "503 Service Unavailable" ""); Waited defaultRetryBackoff None;
   Exchanged a_call (Response 200 "200 OK" (print (dkg_answer (target a_call) (body a_call))))].
Proof. vm_compute. reflexivity. Qed.

Lemma CoordinateDKG_agreement_witness :
  res_PublicKey dkg_result <> "" /\ map fst (res_Nodes dkg_result) = map NodeID (Participants dkg_request) /\
  Forall (fun kv => st_Status kv.2 = keyStatusCompleted /\ st_PublicKey kv.2 = res_PublicKey dkg_result) (res_Nodes dkg_result) /\
  res_KeyName dkg_result = KeyName dkg_request /\ res_GroupName dkg_result = GroupName dkg_request /\
  res_SessionID dkg_result = SessionID dkg_request.
Proof.
  apply (CoordinateDKG_agreement id dkg_coordinator dkg_request dkg_start dkg_world); [done|apply dkg_run|apply dkg_ids|done].
Defined.

Lemma CoordinateDkg_outcome_witness :
  match CoordinateDkg id (mkThresholdPlugin 0 dkg_coordinator) (Some dkg_proto) dkg_start with
  | (w', Returned (Err e)) =>
      (status_code e = InvalidArgument /\ w' = dkg_start /\ is_ok (dkgRequestFromProto (Some dkg_proto)) = false) \/
      (status_code e = Internal /\ is_ok (dkgRequestFromProto (Some dkg_proto)) = true)
  | (w', Returned (Ok resp)) => exists r, dkgRequestFromProto (Some dkg_proto) = Ok r /\ dresp_PublicKey resp <> "" /\
      dresp_KeyName resp = KeyName r /\
      map ns_NodeId (dresp_Nodes resp) ≡ₚ map NodeID (Participants r) /\
      StronglySorted (fun a b => String.leb a b = true) (map ns_NodeId (dresp_Nodes resp)) /\
      Forall (fun n => ns_Status n = keyStatusCompleted) (dresp_Nodes resp)
  | _ => False
  end.
Proof. apply (CoordinateDkg_outcome id (mkThresholdPlugin 0 dkg_coordinator) (Some dkg_proto) dkg_start). done. Defined.
