(* ===== verification/Http.v ===== *)
(** * net/http, net/url and the clock, as the plugins use them

    The servers a plugin talks to and the clock it reads are outside the
    repository: they are the parameter [Net]. A request is sent whole and
    answered by a status and the part of the body that could be read. *)

From S2P Require Import Prelude GoStrings Errors Codec.

Record http_request := mkHttp {
  hr_Method : string;
  hr_URL : string;
  hr_Bearer : option string;           (* the Authorization header *)
  hr_ContentType : option string;
  hr_Body : option string;
}.

Inductive http_reply :=
| HttpFailed (msg : string)
| HttpResponse (StatusCode : Z) (Body : string) (read_err : option string).

(** [http.Client.Do] and [time.Now()], in nanoseconds of Unix time;
    [url_error] is the reason [http.NewRequest] refuses a URL, if it does. *)
Class Net (E : Type) := {
  http_do : E -> http_request -> E * http_reply;
  time_now : E -> E * Z;
  url_error : string -> option string;
}.

Definition second : Z := 1000000000.
Definition minute : Z := 60 * second.

(** ** url.Values.Encode *)

Definition unreserved (c : ascii) : bool :=
  alnum c || Ascii.eqb c "-" || Ascii.eqb c "_" || Ascii.eqb c "." || Ascii.eqb c "~".

Fixpoint QueryEscape (s : string) : string :=
  match s with
  | "" => ""
  | String c s =>
      if unreserved c then String c (QueryEscape s)
      else if Ascii.eqb c " " then String "+" (QueryEscape s)
      else String "%" (String (hex_upper (byte_of c / 16)) (String (hex_upper (byte_of c mod 16)) (QueryEscape s)))
  end.

(** One value per key; the keys are sorted. *)
Definition form_Encode (form : list (string * string)) : string :=
  Join "&" (map (fun kv => QueryEscape kv.1 +:+ "=" +:+ QueryEscape kv.2)
                (isort (fun a b => String.leb a.1 b.1) form)).
