(* ===== verification/Account.v ===== *)
(** * The account plugin (pkg/plugin/account)

    Credits are held, settled and released by calls to the dashboard, under an
    Auth0 machine token that the token manager mints and caches. The dashboard,
    Auth0 and the clock are the parameter [Net]; the state is the token cache
    and the requests sent so far. Logging is left out. *)

From S2P Require Import Prelude GoStrings Errors State Json Http.

(** ** config.go *)

Record accountConfig := mkAccountConfig {
  DashboardURL : string;
  Auth0Domain : string;
  Auth0Audience : string;
  Auth0ClientID : string;
  Auth0ClientSecret : string;
  CreditsPerUnit : Z;
  HTTPTimeoutSecs : Z;
}.

Definition trimValue (value : string) : string := TrimSpace value.

(** [env_string], [env_uint32] and [env_int] are the values viper finds. *)
Definition readFromEnv (env_string : string -> option string) (env_uint32 env_int : string -> option Z) : accountConfig :=
  mkAccountConfig
    (trimValue (default "" (env_string "ACCOUNT_DASHBOARD_URL")))
    (trimValue (default "" (env_string "ACCOUNT_AUTH0_DOMAIN")))
    (trimValue (default "" (env_string "ACCOUNT_AUTH0_AUDIENCE")))
    (trimValue (default "" (env_string "ACCOUNT_AUTH0_CLIENT_ID")))
    (trimValue (default "" (env_string "ACCOUNT_AUTH0_CLIENT_SECRET")))
    (default 1 (env_uint32 "ACCOUNT_CREDITS_PER_UNIT"))
    (default 5 (env_int "ACCOUNT_HTTP_TIMEOUT_SECS")).

Definition missing_vars (c : accountConfig) : list string :=
  (if String.eqb (DashboardURL c) "" then ["ORBITPORT_ACCOUNT_DASHBOARD_URL"] else []) ++
  (if String.eqb (Auth0Domain c) "" then ["ORBITPORT_ACCOUNT_AUTH0_DOMAIN"] else []) ++
  (if String.eqb (Auth0Audience c) "" then ["ORBITPORT_ACCOUNT_AUTH0_AUDIENCE"] else []) ++
  (if String.eqb (Auth0ClientID c) "" then ["ORBITPORT_ACCOUNT_AUTH0_CLIENT_ID"] else []) ++
  (if String.eqb (Auth0ClientSecret c) "" then ["ORBITPORT_ACCOUNT_AUTH0_CLIENT_SECRET"] else []).

(** [allow_insecure] is the value of ORBITPORT_ACCOUNT_ALLOW_INSECURE. *)
Definition validate (allow_insecure : string) (c : accountConfig) : result unit :=
  _ ← reject (match missing_vars c with [] => false | _ => true end)
        (Errorf "FATAL: Account plugin missing required env vars: %s" [Join ", " (missing_vars c)]);
  _ ← reject (negb (HasPrefix (DashboardURL c) "https://") && negb (String.eqb allow_insecure "true"))
        (Errorf "ORBITPORT_ACCOUNT_DASHBOARD_URL must be https; set ORBITPORT_ACCOUNT_ALLOW_INSECURE=true to override (e.g. local dev)" []);
  _ ← reject (CreditsPerUnit c =? 0) (Errorf "ORBITPORT_ACCOUNT_CREDITS_PER_UNIT must be > 0" []);
  reject (HTTPTimeoutSecs c <=? 0) (Errorf "ORBITPORT_ACCOUNT_HTTP_TIMEOUT_SECS must be > 0" []).

(** ** token_manager.go *)

Definition refreshLead : Z := 5 * minute.

Record cachedToken := mkCached { accessToken : string; expiresAt : Z }.

#[export] Instance cachedToken_eq_dec : EqDecision cachedToken.
Proof. solve_decision. Defined.

Definition no_token : cachedToken := mkCached "" 0.

Record tokenResponse := mkTokenResponse { AccessToken : string; ExpiresIn : Z; TokenType : string }.

Definition tokenResponse_fields : list (field tokenResponse) :=
  [fld "access_token" AccessToken (fun x r => mkTokenResponse x (ExpiresIn r) (TokenType r)) dec_string;
   fld "expires_in" ExpiresIn (fun x r => mkTokenResponse (AccessToken r) x (TokenType r)) dec_int;
   fld "token_type" TokenType (fun x r => mkTokenResponse (AccessToken r) (ExpiresIn r) x) dec_string].

Record tokenManager := mkTokenManager { domain : string; audience : string; clientID : string; clientSecret : string }.

Definition newTokenManager (cfg : accountConfig) : tokenManager :=
  mkTokenManager (Auth0Domain cfg) (Auth0Audience cfg) (Auth0ClientID cfg) (Auth0ClientSecret cfg).

(** What [refresh] makes of Auth0's reply. *)
Definition token_of_reply (rep : http_reply) : result tokenResponse :=
  match rep with
  | HttpFailed msg => Err (Wrapf "post token request: %w" [] (Errorf "Post: %s" [msg]))
  | HttpResponse code body _ =>
      _ ← reject (negb (code =? 200)) (Errorf "auth0 token endpoint returned %d: %s" [pretty code; body]);
      parsed ← map_err (Wrapf "decode token response: %w" [])
                 (Decode (dec_struct tokenResponse_fields) body (mkTokenResponse "" 0 ""));
      _ ← reject (String.eqb (AccessToken parsed) "") (Errorf "auth0 token response missing access_token" []);
      _ ← reject (ExpiresIn parsed <=? 0) (Errorf "auth0 token response missing expires_in" []);
      Ok parsed
  end.

(** The cached value for a token minted at [t]; the duration is an [int64] of
    nanoseconds. *)
Definition cached_of (parsed : tokenResponse) (t : Z) : cachedToken :=
  mkCached (AccessToken parsed) (t + i64 (ExpiresIn parsed * second)).

(** Whether the cached token is usable at [t]. *)
Definition fresh_at (c : cachedToken) (t : Z) : bool :=
  negb (String.eqb (accessToken c) "") && negb (expiresAt c - refreshLead <? t).

Record account_state (E : Type) := mkState { net : E; cache : cachedToken; calls : list http_request }.
Arguments mkState {E} net cache calls.
Arguments net {E} a.
Arguments cache {E} a.
Arguments calls {E} a.

Section Account.
Context {E : Type} `{Net E}.

Abbreviation A := (Prog (account_state E)).

Definition Do (req : http_request) : A http_reply := fun s =>
  let '(e, rep) := http_do (net s) req in
  (mkState e (cache s) (calls s ++ [req]), Returned (Ok rep)).

Definition Now : A Z := fun s =>
  let '(e, t) := time_now (net s) in (mkState e (cache s) (calls s), Returned (Ok t)).

Definition cache_Get : A cachedToken := gets cache.
Definition cache_Set (c : cachedToken) : A unit := modify (fun s => mkState (net s) c (calls s)).

Definition fresh (c : cachedToken) : A (option string) :=
  if String.eqb (accessToken c) "" then mret None
  else t ← Now;
       mret (if expiresAt c - refreshLead <? t then None else Some (accessToken c)).

Definition token_form (t : tokenManager) : list (string * string) :=
  [("grant_type", "client_credentials"); ("client_id", clientID t);
   ("client_secret", clientSecret t); ("audience", audience t)].

Definition token_request (t : tokenManager) : http_request :=
  mkHttp "POST" ("https://" +:+ domain t +:+ "/oauth/token") None
    (Some "application/x-www-form-urlencoded") (Some (form_Encode (token_form t))).

Definition new_request (fmt : string) (req : http_request) : A http_request :=
  match url_error (hr_URL req) with
  | Some msg => throw (Wrapf fmt [] (Errorf "parse: %s" [msg]))
  | None => mret req
  end.

Definition refresh (t : tokenManager) : A unit :=
  req ← new_request "build token request: %w" (token_request t);
  rep ← Do req;
  parsed ← lift (token_of_reply rep);
  now ← Now;
  cache_Set (cached_of parsed now).

Definition start (t : tokenManager) : A unit :=
  on_err (Wrapf "initial Auth0 M2M token fetch failed: %w" []) (refresh t).

(** [token] of one goroutine; [refreshMu] is taken between the two checks (the
    interleavings are in AccountRefresh). *)
Definition token (t : tokenManager) : A string :=
  c ← cache_Get;
  tok ← fresh c;
  match tok with
  | Some tok => mret tok
  | None =>
      c ← cache_Get;
      tok ← fresh c;
      match tok with
      | Some tok => mret tok
      | None => _ ← refresh t; c ← cache_Get; mret (accessToken c)
      end
  end.

Definition invalidate : A unit := cache_Set no_token.

(** ** dashboard_client.go *)

Definition ErrInsufficientCredits : error := Errorf "insufficient_credits" [].
Definition ErrUnknownCredential : error := Errorf "unknown_or_revoked_credential" [].
Definition ErrAccountInactive : error := Errorf "account_inactive" [].

Record dashboardClient := mkDashboardClient { baseURL : string; tokens : tokenManager }.

Definition newDashboardClient (cfg : accountConfig) (tokens : tokenManager) : dashboardClient :=
  mkDashboardClient (TrimRightChar "/" (DashboardURL cfg)) tokens.

Record holdRequestBody := mkHoldBody { hb_ClientID : string; hb_Units : Z; hb_Operation : string; hb_Jti : string }.

Definition holdRequestBody_json (b : holdRequestBody) : json :=
  JObj ([("clientId", JStr (hb_ClientID b)); ("units", JNum (pretty (hb_Units b)))] ++
        omitempty "operation" (hb_Operation b) ++ omitempty "jti" (hb_Jti b)).

Record holdResponseBody := mkHoldResponseBody { LedgerID : string; Balance : Z; KmsTenant : string }.

Definition holdResponseBody_fields : list (field holdResponseBody) :=
  [fld "ledgerId" LedgerID (fun x r => mkHoldResponseBody x (Balance r) (KmsTenant r)) dec_string;
   fld "balance" Balance (fun x r => mkHoldResponseBody (LedgerID r) x (KmsTenant r)) dec_int;
   fld "kmsTenant" KmsTenant (fun x r => mkHoldResponseBody (LedgerID r) (Balance r) x) dec_string].

Record settleResponseBody := mkSettleResponseBody { settle_Balance : Z }.
Record releaseResponseBody := mkReleaseResponseBody { release_Balance : Z }.

Definition settleResponseBody_fields : list (field settleResponseBody) :=
  [fld "balance" settle_Balance (fun x _ => mkSettleResponseBody x) dec_int].
Definition releaseResponseBody_fields : list (field releaseResponseBody) :=
  [fld "balance" release_Balance (fun x _ => mkReleaseResponseBody x) dec_int].

Record dashboardErrorBody := mkErrorBody { Code : string; Message : string }.

Definition dashboardErrorBody_fields : list (field dashboardErrorBody) :=
  [fld "code" Code (fun x r => mkErrorBody x (Message r)) dec_string;
   fld "message" Message (fun x r => mkErrorBody (Code r) x) dec_string].

Definition error_code (rawBody : string) : string :=
  Code (Unmarshal_ignored dashboardErrorBody_fields rawBody (mkErrorBody "" "")).

Definition newRequest (d : dashboardClient) (method path : string) (body : option string) : A http_request :=
  req ← new_request "build dashboard request: %w" (mkHttp method (baseURL d +:+ path) None None body);
  tok ← on_err (Wrapf "attach M2M token: %w" []) (token (tokens d));
  mret (mkHttp (hr_Method req) (hr_URL req) (Some ("Bearer " +:+ tok))
          (match body with Some _ => Some "application/json" | None => None end) (hr_Body req)).

Definition send (d : dashboardClient) (method path : string) (body : option string) : A (Z * string) :=
  req ← newRequest d method path body;
  rep ← Do req;
  match rep with
  | HttpFailed msg => throw (Errorf "%s: %s" [method; msg])
  | HttpResponse code rawBody _ => mret (code, rawBody)
  end.

Definition do_ (d : dashboardClient) (method path : string) (body : option string) : A (Z * string) :=
  r ← send d method path body;
  if negb (r.1 =? 401) then mret r
  else _ ← invalidate; send d method path body.

Definition hold_of_reply (status : Z) (rawBody : string) : result holdResponseBody :=
  if (status =? 200) || (status =? 201) then
    parsed ← map_err (Wrapf "decode hold response: %w" [])
               (Unmarshal (dec_struct holdResponseBody_fields) rawBody (mkHoldResponseBody "" 0 ""));
    _ ← reject (String.eqb (LedgerID parsed) "") (Errorf "dashboard hold response missing ledgerId" []);
    Ok parsed
  else if status =? 422 then
    if String.eqb (error_code rawBody) "INSUFFICIENT_CREDITS" then Err ErrInsufficientCredits
    else Err (Errorf "dashboard hold rejected (422): %s" [TrimSpace rawBody])
  else if status =? 403 then
    if String.eqb (error_code rawBody) "ACCOUNT_INACTIVE" then Err ErrAccountInactive
    else Err (Errorf "dashboard hold rejected (403): %s" [TrimSpace rawBody])
  else if status =? 404 then Err ErrUnknownCredential
  else Err (Errorf "dashboard hold returned %d: %s" [pretty status; TrimSpace rawBody]).

Definition client_Hold (d : dashboardClient) (clientID : string) (units : Z) (operation jti : string) : A holdResponseBody :=
  let body := print (holdRequestBody_json (mkHoldBody clientID units operation jti)) in
  r ← on_err (Wrapf "dashboard hold transport error: %w" [])
        (do_ d "POST" "/service/credits/hold" (Some body));
  lift (hold_of_reply r.1 r.2).

Definition client_Settle (d : dashboardClient) (ledgerID : string) : A Z :=
  let path := "/service/credits/hold/" +:+ ledgerID +:+ "/settle" in
  r ← on_err (Wrapf "dashboard settle transport error: %w" []) (do_ d "POST" path None);
  _ ← guard_err (negb (r.1 =? 200) && negb (r.1 =? 201))
        (Errorf "dashboard settle returned %d: %s" [pretty r.1; TrimSpace r.2]);
  parsed ← lift (map_err (Wrapf "decode settle response: %w" [])
                   (Unmarshal (dec_struct settleResponseBody_fields) r.2 (mkSettleResponseBody 0)));
  mret (settle_Balance parsed).

Definition client_Release (d : dashboardClient) (ledgerID : string) : A Z :=
  let path := "/service/credits/hold/" +:+ ledgerID +:+ "/release" in
  r ← on_err (Wrapf "dashboard release transport error: %w" []) (do_ d "POST" path None);
  _ ← guard_err (negb (r.1 =? 200) && negb (r.1 =? 201))
        (Errorf "dashboard release returned %d: %s" [pretty r.1; TrimSpace r.2]);
  parsed ← lift (map_err (Wrapf "decode release response: %w" [])
                   (Unmarshal (dec_struct releaseResponseBody_fields) r.2 (mkReleaseResponseBody 0)));
  mret (release_Balance parsed).

(** ** plugin.go *)

Definition sentinelInsufficient := "insufficient_credits".

Record Plugin := mkPlugin { cfg : accountConfig; client : dashboardClient }.

Record HoldRequest := mkHoldRequest { hq_ClientId : string; hq_Units : Z; hq_Operation : string; hq_Jti : string }.
Record HoldResponse := mkHoldResponse {
  Ok_ : bool; LedgerId : string; BalanceAfter : Z; Error : string; hr_KmsTenant : string }.
Record SettleResponse := mkSettleResponse { settle_Ok : bool; settle_BalanceAfter : Z; settle_Error : string }.
Record ReleaseResponse := mkReleaseResponse { release_Ok : bool; release_BalanceAfter : Z; release_Error : string }.

Definition NewPlugin (allow_insecure : string) (cfg : accountConfig) : A Plugin :=
  _ ← lift (validate allow_insecure cfg);
  let tokens := newTokenManager cfg in
  _ ← on_err (Wrapf "account plugin: %w" []) (start tokens);
  mret (mkPlugin cfg (newDashboardClient cfg tokens)).

(** [units * p.cfg.CreditsPerUnit] on [uint32]. *)
Definition hold_credits (p : Plugin) (units : Z) : Z :=
  u32 ((if units =? 0 then 1 else units) * CreditsPerUnit (cfg p)).

Definition hold_status (err : error) : error :=
  if errors_Is err ErrInsufficientCredits then StatusErr FailedPrecondition (Errorf sentinelInsufficient [])
  else if errors_Is err ErrAccountInactive then StatusErr PermissionDenied ErrAccountInactive
  else if errors_Is err ErrUnknownCredential then StatusErr PermissionDenied ErrUnknownCredential
  else StatusErr Unavailable err.

Definition Hold (p : Plugin) (req : HoldRequest) : A HoldResponse :=
  _ ← guard_err (String.eqb (hq_ClientId req) "") (StatusErr InvalidArgument (Errorf "client_id is required" []));
  held ← on_err hold_status
           (client_Hold (client p) (hq_ClientId req) (hold_credits p (hq_Units req)) (hq_Operation req) (hq_Jti req));
  mret (mkHoldResponse true (LedgerID held) (Balance held) "" (KmsTenant held)).

Definition Settle (p : Plugin) (ledgerID : string) : A SettleResponse :=
  _ ← guard_err (String.eqb ledgerID "") (StatusErr InvalidArgument (Errorf "ledger_id is required" []));
  balance ← as_status Unavailable (client_Settle (client p) ledgerID);
  mret (mkSettleResponse true balance "").

Definition Release (p : Plugin) (ledgerID : string) : A ReleaseResponse :=
  _ ← guard_err (String.eqb ledgerID "") (StatusErr InvalidArgument (Errorf "ledger_id is required" []));
  balance ← as_status Unavailable (client_Release (client p) ledgerID);
  mret (mkReleaseResponse true balance "").

End Account.
