(* ===== verification/AccountSpec.v ===== *)
(** * What the account plugin promises

    Which requests a call sends, which token they carry, and which status each
    answer of the dashboard becomes. *)

From S2P Require Import Prelude GoStrings Errors State Json Http Account.

(** ** Errors

No error of a plugin call but the dashboard's own answers is a sentinel. *)
Definition plain (e : error) : Prop :=
  errors_Is e ErrInsufficientCredits = false /\ errors_Is e ErrAccountInactive = false /\ errors_Is e ErrUnknownCredential = false.

Lemma plain_Wrapf f l e : plain e -> plain (Wrapf f l e).
Proof. unfold plain. cbn. by intros (-> & -> & ->). Qed.

Lemma plain_args f a l : plain (Errorf f (a :: l)).
Proof. split_and!; cbn; rewrite orb_false_r; by apply bool_decide_eq_false_2. Qed.

Definition failed {A} (r : result A) : Prop := exists e, r = Err e /\ plain e.

Lemma plain_json e : e = SyntaxError \/ e = UnmarshalTypeError -> plain e.
Proof. by intros [-> | ->]. Qed.

Lemma Decode_err {R} (fs : list (field R)) text r e :
  Forall (fun f => type_errors (field_dec f)) fs ->
  Decode (dec_struct fs) text r = Err e -> plain e.
Proof.
  intros Hf. unfold Decode. destruct (parse_prefix text) as [[v rest]|]; intros Hd; apply plain_json; [|naive_solver].
  right. by eapply dec_struct_err.
Qed.

Lemma Unmarshal_err {R} (fs : list (field R)) text r e :
  Forall (fun f => type_errors (field_dec f)) fs ->
  Unmarshal (dec_struct fs) text r = Err e -> plain e.
Proof.
  intros Hf. unfold Unmarshal. destruct (parse text) as [v|]; intros Hd; apply plain_json; [|naive_solver].
  right. by eapply dec_struct_err.
Qed.

Create HintDb plain.
#[export] Hint Resolve plain_Wrapf plain_args : plain.

Lemma token_of_reply_err rep : match token_of_reply rep with Ok _ => True | r => failed r end.
Proof.
  unfold token_of_reply. destruct rep as [|code body rd]; [eexists; split; [done|eauto with plain]|].
  destruct (code =? 200); cbn; [|eexists; split; [done|eauto with plain]].
  destruct (Decode _ _ _) as [parsed|e] eqn:Ed; cbn.
  - destruct (String.eqb _ _); cbn; [eexists; split; [done|by split_and!]|]. destruct (_ <=? 0); cbn; [eexists; split; [done|by split_and!]|done].
  - eexists. split; [done|]. apply plain_Wrapf. eapply Decode_err; [|exact Ed].
    repeat constructor; eauto with type_errors.
Qed.

Section Spec.
Context {E : Type} `{Net E}.

Abbreviation A := (Prog (account_state E)).

(** ** The token manager *)

Lemma run_Do req (s : account_state E) :
  Do req s = (mkState (http_do (net s) req).1 (cache s) (calls s ++ [req]), Returned (Ok (http_do (net s) req).2)).
Proof. unfold Do. by destruct (http_do (net s) req). Qed.

Lemma run_Now (s : account_state E) :
  Now s = (mkState (time_now (net s)).1 (cache s) (calls s), Returned (Ok (time_now (net s)).2)).
Proof. unfold Now. by destruct (time_now (net s)). Qed.

(** [fresh] leaves the cache and the trace alone; what it returns was usable at
    the time it read. *)
Lemma run_fresh c (s : account_state E) : exists e r, fresh c s = (mkState e (cache s) (calls s), Returned (Ok r)) /\
  forall tok, r = Some tok -> tok = accessToken c /\ exists e0, fresh_at c (time_now e0).2 = true.
Proof.
  unfold fresh. destruct (String.eqb_spec (accessToken c) "") as [He|Hne].
  - exists (net s), None. split; [by destruct s|done].
  - erewrite run_bind by apply run_Now. unfold mret, Prog_ret. eexists _, _. split; [done|].
    intros tok. destruct (expiresAt c - refreshLead <? (time_now (net s)).2) eqn:El; [done|]. apply Z.ltb_ge in El.
    intros [= <-]. split; [done|]. exists (net s). unfold fresh_at. apply andb_true_iff. split.
    + by apply negb_true_iff, String.eqb_neq.
    + apply negb_true_iff, Z.ltb_ge. lia.
Qed.

Lemma token_of_reply_Ok rep parsed : token_of_reply rep = Ok parsed ->
  AccessToken parsed <> "" /\ 0 < ExpiresIn parsed /\ exists body rd, rep = HttpResponse 200 body rd.
Proof.
  unfold token_of_reply. destruct rep as [|code body rd]; intros Hr; inv_ok; try done.
  repeat match goal with Hx : negb _ = false |- _ => apply negb_false_iff in Hx end.
  apply Z.eqb_eq in H0 as ->. apply String.eqb_neq in H2. apply Z.leb_gt in H3. eauto.
Qed.

(** A refresh sends nothing but its one request, and on success caches the
    token that Auth0 answered. *)
Lemma run_refresh t (s : account_state E) : exists s' r, refresh t s = (s', Returned r) /\
  ((s' = s /\ failed r) \/
   (calls s' = calls s ++ [token_request t] /\
    ((failed r /\ cache s' = cache s) \/
     (r = Ok tt /\ exists e parsed now, token_of_reply (http_do e (token_request t)).2 = Ok parsed /\ cache s' = cached_of parsed now)))).
Proof.
  unfold refresh. destruct (url_error (hr_URL (token_request t))) as [msg|] eqn:Eu.
  { eexists _, _. split; [apply run_bind_err; unfold new_request; rewrite Eu; reflexivity|].
    left. split; [done|]. eexists. split; [done|eauto with plain]. }
  rewrite (run_bind _ _ s s (token_request t)) by (unfold new_request; by rewrite Eu).
  erewrite run_bind by apply run_Do. cbv beta zeta. pose proof (token_of_reply_err (http_do (net s) (token_request t)).2) as Hf.
  destruct (token_of_reply (http_do (net s) (token_request t)).2) as [parsed|err] eqn:Et.
  - erewrite run_bind by done. erewrite run_bind by apply run_Now. cbn.
    eexists _, _. split; [done|]. right. split; [done|]. right. split; [done|]. eauto.
  - eexists _, _. split; [by apply run_bind_err|]. right. cbn. split; [done|]. left. split; [|done].
    destruct Hf as (e & [= ->] & ?). by eexists.
Qed.

(** What one call of [token] does: it answers from the cache, or mints. *)
Definition minted (t : tokenManager) (tok : string) : Prop :=
  exists e parsed, token_of_reply (http_do e (token_request t)).2 = Ok parsed /\ AccessToken parsed = tok.

Lemma run_token t (s : account_state E) : exists s' r, token t s = (s', Returned r) /\
  ((calls s' = calls s /\ cache s' = cache s /\
    (failed r \/ (r = Ok (accessToken (cache s)) /\ exists e, fresh_at (cache s) (time_now e).2 = true))) \/
   (calls s' = calls s ++ [token_request t] /\
    ((failed r /\ cache s' = cache s) \/
     (exists tok, r = Ok tok /\ minted t tok /\ accessToken (cache s') = tok)))).
Proof.
  unfold token. erewrite run_bind by done. cbv beta.
  destruct (run_fresh (cache s) s) as (e1 & r1 & E1 & F1). erewrite run_bind by exact E1. cbv beta.
  destruct r1 as [tok|].
  { eexists _, _. split; [done|]. left. split; [done|]. split; [done|]. right.
    destruct (F1 tok) as [-> Hf]; done. }
  erewrite run_bind by done. cbv beta.
  destruct (run_fresh (cache s) (mkState e1 (cache s) (calls s))) as (e2 & r2 & E2 & F2). erewrite run_bind by exact E2. cbv beta.
  destruct r2 as [tok|].
  { eexists _, _. split; [done|]. left. split; [done|]. split; [done|]. right.
    destruct (F2 tok) as [-> Hf]; done. }
  cbn [cache calls]. destruct (run_refresh t (mkState e2 (cache s) (calls s)))
    as (s' & r & Er & [(-> & err & -> & Hp)|(Hc & [[(err & -> & Hp) Hk]|[-> (e & p & n & Hp & Hk)]])]).
  - eexists _, _. split; [by apply run_bind_err|]. left. split_and!; [done..|]. left. by eexists.
  - eexists _, _. split; [by apply run_bind_err|]. right. split; [done|]. left. split; [by eexists|done].
  - erewrite run_bind by done. eexists _, _. split; [done|]. right. split; [done|]. right.
    exists (accessToken (cache s')). rewrite Hk. split; [done|]. split; [|done]. by exists e, p.
Qed.

(** The calls of one [token] and the token it gave: a cached one that was good
    for five more minutes, or one that Auth0 minted now. *)
Definition token_calls (t : tokenManager) (c : cachedToken) (tok : string) (l : list http_request) : Prop :=
  tok <> "" /\
  ((l = [] /\ tok = accessToken c /\ exists e, (time_now e).2 + refreshLead <= expiresAt c) \/
   (l = [token_request t] /\ minted t tok)).

Lemma token_calls_spec t (s : account_state E) : exists s' r l, token t s = (s', Returned r) /\
  calls s' = calls s ++ l /\ (l = [] \/ l = [token_request t]) /\
  (failed r \/ exists tok, r = Ok tok /\ token_calls t (cache s) tok l).
Proof.
  destruct (run_token t s) as (s' & r & Er & [(H1 & _ & [H3|(H3 & e & Hf)])|(H1 & [[H2 _]|(tok & H2 & H3 & _)])]);
    exists s', r.
  - exists []. rewrite app_nil_r. auto.
  - exists []. rewrite app_nil_r. split_and!; [done|done|by left|]. right. exists (accessToken (cache s)). split; [done|].
    unfold fresh_at in Hf. apply andb_true_iff in Hf as [Hn Hl]. apply negb_true_iff in Hn, Hl.
    apply String.eqb_neq in Hn. apply Z.ltb_ge in Hl. split; [done|]. left. split_and!; [done..|]. exists e. lia.
  - exists [token_request t]. auto.
  - exists [token_request t]. split_and!; [done..|by right|]. right. exists tok. split; [done|]. split; [|by right].
    destruct H3 as (e & p & Hp & <-). by apply token_of_reply_Ok in Hp as [? _].
Qed.

(** ** The dashboard client *)

(** The request a call sends under a token. *)
Definition dashboard_request (d : dashboardClient) (method path : string) (body : option string) (tok : string) : http_request :=
  mkHttp method (baseURL d +:+ path) (Some ("Bearer " +:+ tok))
    (match body with Some _ => Some "application/json" | None => None end) body.

Lemma run_newRequest d method path body (s : account_state E) : exists s' r l,
  newRequest d method path body s = (s', Returned r) /\ calls s' = calls s ++ l /\ (l = [] \/ l = [token_request (tokens d)]) /\
  (failed r \/ exists tok, r = Ok (dashboard_request d method path body tok) /\ token_calls (tokens d) (cache s) tok l).
Proof.
  unfold newRequest. destruct (url_error (baseURL d +:+ path)) as [msg|] eqn:Eu.
  { eexists _, _, []. split; [apply run_bind_err; unfold new_request; cbn [hr_URL]; rewrite Eu; reflexivity|].
    rewrite app_nil_r. split_and!; [done|by left|]. left. eexists. split; [done|eauto with plain]. }
  erewrite (run_bind _ _ s s) by (unfold new_request; cbn [hr_URL]; by rewrite Eu). cbv beta.
  destruct (token_calls_spec (tokens d) s) as (s' & r & l & Er & Hc & Hl & [(e & -> & Hp)|(tok & -> & Ht)]).
  - eexists s', _, l. split; [apply run_bind_err; by apply run_on_err_err|]. split_and!; [done..|].
    left. eexists. split; [done|eauto with plain].
  - erewrite run_bind by (by apply run_on_err). cbv beta. cbn [hr_Method hr_URL hr_Body].
    eexists s', _, l. split; [done|]. split_and!; [done..|]. right. by exists tok.
Qed.

(** The calls of one [send]: a token is obtained and the request sent under it,
    answered by a status and a body, or the send fails. *)
Inductive send_calls (d : dashboardClient) method path body (c : cachedToken) : list http_request -> result (Z * string) -> Prop :=
| send_no_token l r : l = [] \/ l = [token_request (tokens d)] -> failed r -> send_calls d method path body c l r
| send_sent l tok r : token_calls (tokens d) c tok l ->
    match r with
    | Ok (status, text) => exists e rd, (http_do e (dashboard_request d method path body tok)).2 = HttpResponse status text rd
    | Err _ => failed r
    end ->
    send_calls d method path body c (l ++ [dashboard_request d method path body tok]) r.

Lemma run_send d method path body (s : account_state E) : exists s' r l,
  send d method path body s = (s', Returned r) /\ calls s' = calls s ++ l /\ send_calls d method path body (cache s) l r.
Proof.
  unfold send. destruct (run_newRequest d method path body s) as (s1 & r & l & Er & Hc & Hl & [(e & -> & Hp)|(tok & -> & Ht)]).
  { eexists s1, _, l. split; [by apply run_bind_err|]. split; [done|]. apply send_no_token; [done|by eexists]. }
  erewrite run_bind by done. cbv beta. erewrite run_bind by apply run_Do. cbv beta.
  destruct (http_do (net s1) (dashboard_request d method path body tok)).2 as [msg|code text rd] eqn:Eh;
    eexists _, _, (l ++ [_]); (split; [done|]); cbn [calls]; rewrite Hc, app_assoc; (split; [done|]); apply send_sent; try done.
  - eexists. split; [done|eauto with plain].
  - by exists (net s1), rd.
Qed.

(** The calls of one [do]. *)
Inductive do_calls (d : dashboardClient) method path body (c : cachedToken) : list http_request -> result (Z * string) -> Prop :=
| do_once l r : send_calls d method path body c l r -> (forall text, r <> Ok (401, text)) -> do_calls d method path body c l r
| do_retried l1 l2 text r : send_calls d method path body c l1 (Ok (401, text)) ->
    send_calls d method path body no_token l2 r -> do_calls d method path body c (l1 ++ l2) r.

Lemma run_do d method path body (s : account_state E) : exists s' r l,
  do_ d method path body s = (s', Returned r) /\ calls s' = calls s ++ l /\ do_calls d method path body (cache s) l r.
Proof.
  unfold do_. destruct (run_send d method path body s) as (s1 & [[code text]|e] & l & Er & Hc & Hs).
  - erewrite run_bind by done. cbn [fst]. destruct (Z.eqb_spec code 401) as [->|Hne]; cbn [negb].
    + destruct (run_send d method path body (mkState (net s1) no_token (calls s1))) as (s2 & r2 & l2 & Er2 & Hc2 & Hs2).
      erewrite run_bind by done. eexists _, r2, (l ++ l2). rewrite Er2. split; [done|].
      cbn [calls] in Hc2. rewrite Hc2, Hc, app_assoc. split; [done|]. by eapply do_retried.
    + eexists _, _, l. split; [done|]. split; [done|]. apply do_once; [done|]. naive_solver.
  - eexists _, _, l. split; [by apply run_bind_err|]. split; [done|]. by apply do_once.
Qed.

(** C14: one call to the dashboard sends its request at most twice, the second
    time only when the first was answered 401, and then under a token that Auth0
    minted after the rejection; every token sent is non-empty and either minted
    by this call or cached with five minutes of life left. Nothing else is sent,
    and the call always returns. *)
Theorem do_retry d method path body (s : account_state E) :
  let dash := dashboard_request d method path body in
  let mint := token_request (tokens d) in
  exists s' r l, do_ d method path body s = (s', Returned r) /\ calls s' = calls s ++ l /\
  exists l1, (l1 = [] \/ l1 = [mint]) /\
    ((l = l1 /\ failed r) \/
     exists tok1, token_calls (tokens d) (cache s) tok1 l1 /\
       ((l = l1 ++ [dash tok1] /\ forall text, r <> Ok (401, text)) \/
        ((exists e text rd, (http_do e (dash tok1)).2 = HttpResponse 401 text rd) /\
         ((exists l2, (l2 = [] \/ l2 = [mint]) /\ l = l1 ++ [dash tok1] ++ l2 /\ failed r) \/
          (exists tok2, minted (tokens d) tok2 /\ l = l1 ++ [dash tok1; mint; dash tok2]))))).
Proof.
  cbv zeta. destruct (run_do d method path body s) as (s' & r & l & Er & Hc & Hd). exists s', r, l. split; [done|]. split; [done|].
  assert (Hl : forall c tok l0, token_calls (tokens d) c tok l0 -> l0 = [] \/ l0 = [token_request (tokens d)])
    by (intros c tok l0 (_ & [(-> & _)|(-> & _)]); auto).
  destruct Hd as [l r Hs Hr|l1 l2 text r Hs1 Hs2].
  - destruct Hs as [l r Hn Hf|l tok r Ht Hr']; [exists l; eauto|].
    exists l. split; [by eapply Hl|]. right. exists tok. split; [done|]. by left.
  - inversion Hs1 as [? ? ? Hf|l tok1 ? Ht1 Hr1]; subst; [by destruct Hf as (? & ? & _)|].
    exists l. split; [by eapply Hl|]. right. exists tok1. split; [done|]. right. split.
    { destruct Hr1 as (e & rd & He). by exists e, text, rd. }
    destruct Hs2 as [l2 r Hn Hf|l2 tok2 r (Hne & [(_ & -> & _)|(-> & Hm)]) Hr2]; [|done|].
    + left. exists l2. by rewrite <- app_assoc.
    + right. exists tok2. by rewrite <- !app_assoc.
Qed.

(** ** The credits calls *)

Lemma do_failed d method path body (s s' : account_state E) e :
  do_ d method path body s = (s', Returned (Err e)) -> plain e.
Proof.
  intros Hd. destruct (run_do d method path body s) as (s1 & r & l & Er & _ & Hc). rewrite Hd in Er. simplify_eq.
  assert (Hs : forall c l0 e0, send_calls d method path body c l0 (Err e0) -> plain e0).
  { intros c l0 e0 Hs. inversion Hs as [? ? ? Hx|? ? ? ? Hx]; subst; destruct Hx as (x & ? & ?); by simplify_eq. }
  inversion Hc; by eapply Hs.
Qed.

(** The body of the hold that [Hold] posts. *)
Definition hold_body (p : Plugin) (req : HoldRequest) : string :=
  print (holdRequestBody_json (mkHoldBody (hq_ClientId req) (hold_credits p (hq_Units req)) (hq_Operation req) (hq_Jti req))).

Definition post_hold (p : Plugin) (req : HoldRequest) : A (Z * string) :=
  do_ (client p) "POST" "/service/credits/hold" (Some (hold_body p req)).

Definition hold_answer (status : Z) (text : string) : result holdResponseBody + code :=
  if (status =? 200) || (status =? 201) then
    inl (Unmarshal (dec_struct holdResponseBody_fields) text (mkHoldResponseBody "" 0 ""))
  else inr
    (if (status =? 404) || ((status =? 403) && String.eqb (error_code text) "ACCOUNT_INACTIVE") then PermissionDenied
     else if (status =? 422) && String.eqb (error_code text) "INSUFFICIENT_CREDITS" then FailedPrecondition
     else Unavailable).

Lemma hold_of_reply_spec status text :
  match hold_of_reply status text with
  | Ok b => hold_answer status text = inl (Ok b) /\ LedgerID b <> ""
  | Err e =>
      match hold_answer status text with
      | inl (Ok b) => LedgerID b = "" /\ status_code (hold_status e) = Unavailable
      | inl (Err _) => status_code (hold_status e) = Unavailable
      | inr c => status_code (hold_status e) = c
      end
  end.
Proof.
  unfold hold_of_reply, hold_answer. destruct (Z.eqb_spec status 200) as [->|H1]; [|destruct (Z.eqb_spec status 201) as [->|H2]]; cbn [orb].
  1, 2: destruct (Unmarshal _ text _) as [b|e] eqn:Eu; cbn;
    [destruct (String.eqb_spec (LedgerID b) "") as [He|Hne]; cbn; [split; [done|]; reflexivity|done]|
     apply Unmarshal_err in Eu; [|repeat constructor; eauto with type_errors];
     destruct (plain_Wrapf "decode hold response: %w" [] e Eu) as (P1 & P2 & P3); unfold hold_status; by rewrite P1, P2, P3].
  destruct (Z.eqb_spec status 422) as [->|H3]; cbn.
  { destruct (String.eqb _ _); cbn; [done|]. reflexivity. }
  destruct (Z.eqb_spec status 403) as [->|H4]; cbn.
  { destruct (String.eqb _ _); cbn; [done|]. reflexivity. }
  by destruct (Z.eqb_spec status 404) as [->|H5].
Qed.

(** C24: [Hold] always returns, and its status says what the dashboard decided
    about the credits: it succeeds exactly when the dashboard answered 200 or 201
    with a ledger id, which it hands on with the balance and the tenancy;
    [FailedPrecondition] is answered exactly for 422 INSUFFICIENT_CREDITS and
    [PermissionDenied] exactly for 404 and 403 ACCOUNT_INACTIVE; every other
    answer, a second 401 included, and every failure to obtain one is
    [Unavailable]. *)
Theorem Hold_outcome p req (s : account_state E) : exists s' r, Hold p req s = (s', Returned r) /\
  if String.eqb (hq_ClientId req) "" then s' = s /\ r = Err (StatusErr InvalidArgument (Errorf "client_id is required" []))
  else exists a, post_hold p req s = (s', Returned a) /\
    match a with
    | Err _ => exists e, r = Err e /\ status_code e = Unavailable
    | Ok (status, text) =>
        match hold_answer status text with
        | inl (Ok b) =>
            if String.eqb (LedgerID b) "" then exists e, r = Err e /\ status_code e = Unavailable
            else r = Ok (mkHoldResponse true (LedgerID b) (Balance b) "" (KmsTenant b))
        | inl (Err _) => exists e, r = Err e /\ status_code e = Unavailable
        | inr c => exists e, r = Err e /\ status_code e = c
        end
    end.
Proof.
  unfold Hold. destruct (String.eqb_spec (hq_ClientId req) "") as [He|Hne].
  { eexists _, _. split; [by apply run_bind_err|done]. }
  erewrite run_bind by done. cbv beta. unfold client_Hold. fold (hold_body p req). fold (post_hold p req). cbv zeta.
  destruct (run_do (client p) "POST" "/service/credits/hold" (Some (hold_body p req)) s) as (s1 & a & l & Er & _ & _).
  fold (post_hold p req) in Er. destruct a as [[status text]|e].
  - pose proof (hold_of_reply_spec status text) as Ho. destruct (hold_of_reply status text) as [b|e] eqn:Eh.
    + destruct Ho as [Ho Hb]. erewrite run_bind; [|apply run_on_err; erewrite run_bind by (by apply run_on_err); unfold lift; cbn [fst snd]; by rewrite Eh].
      eexists _, _. split; [done|]. exists (Ok (status, text)). split; [done|]. rewrite Ho. by apply String.eqb_neq in Hb as ->.
    + eexists s1, _. split.
      { apply run_bind_err, run_on_err_err. erewrite run_bind by (by apply run_on_err). unfold lift. cbn [fst snd]. by rewrite Eh. }
      exists (Ok (status, text)). split; [done|]. destruct (hold_answer status text) as [[b|e']|c].
      * destruct Ho as [-> Ho]. cbn. by eexists.
      * by eexists.
      * by eexists.
  - eexists s1, _. split.
    { apply run_bind_err, run_on_err_err, run_bind_err. by apply run_on_err_err. }
    exists (Err e). split; [done|]. eexists. split; [done|].
    destruct (plain_Wrapf "dashboard hold transport error: %w" [] e) as (P1 & P2 & P3); [by eapply do_failed|].
    unfold hold_status. by rewrite P1, P2, P3.
Qed.

(** [NewPlugin] fails closed: a plugin only starts from a complete
    configuration, over https unless the override is set, that charges something
    for every unit, and after Auth0 minted a token for it. *)
Theorem NewPlugin_fail_closed allow cfg (s s' : account_state E) p :
  NewPlugin allow cfg s = (s', Returned (Ok p)) ->
  p = mkPlugin cfg (newDashboardClient cfg (newTokenManager cfg)) /\
  DashboardURL cfg <> "" /\ Auth0Domain cfg <> "" /\ Auth0Audience cfg <> "" /\ Auth0ClientID cfg <> "" /\ Auth0ClientSecret cfg <> "" /\
  (HasPrefix (DashboardURL cfg) "https://" = true \/ allow = "true") /\ CreditsPerUnit cfg <> 0 /\ 0 < HTTPTimeoutSecs cfg /\
  calls s' = calls s ++ [token_request (newTokenManager cfg)] /\ accessToken (cache s') <> "".
Proof.
  intros Hn. unfold NewPlugin in Hn. inv_run. unfold start in *. inv_run. unfold validate in *. inv_ok.
  match goal with Hm : match missing_vars cfg with _ => _ end = false |- _ => destruct (missing_vars cfg) eqn:Em; [|done] end.
  unfold missing_vars in Em.
  repeat match goal with
  | Hx : (_ ++ _)%list = [] |- _ => apply app_nil in Hx as [? ?]
  | Hx : (if String.eqb ?a ?b then _ else _) = [] |- _ => destruct (String.eqb_spec a b); [done|clear Hx]
  | Hx : (_ =? _) = false |- _ => apply Z.eqb_neq in Hx
  | Hx : (_ <=? _) = false |- _ => apply Z.leb_gt in Hx
  end.
  match goal with Hx : negb _ && negb _ = false |- _ => apply andb_false_iff in Hx as [Hx|Hx]; apply negb_false_iff in Hx end.
  all: match goal with Hr : refresh _ _ = _ |- _ => rename Hr into Href end;
    match type of Href with refresh ?t ?s0 = _ => destruct (run_refresh t s0) as (s2 & r2 & Er & Hc) end;
    rewrite Href in Er; injection Er; intros; subst;
    destruct Hc as [(_ & ? & ? & _)|(Hc & [((? & ? & _) & _)|(_ & e & parsed & now & Hp & Hk)])]; try done;
    apply token_of_reply_Ok in Hp as [Hp _]; rewrite Hk; split_and!; try done; try (by left); by right; apply String.eqb_eq.
Qed.

End Spec.

(** [hold_credits] is the product, as long as it fits 32 bits. *)
Lemma hold_credits_product p units : is_u32 (units * CreditsPerUnit (cfg p)) -> units <> 0 ->
  hold_credits p units = units * CreditsPerUnit (cfg p).
Proof. intros Hr Hu. unfold hold_credits. apply Z.eqb_neq in Hu as ->. by apply wrap_small. Qed.

(** A configuration that passes validation can charge nothing for a hold of
    many units: the product wraps around. *)
Theorem hold_credits_overflow : exists cfg units, validate "" cfg = Ok tt /\ is_u32 units /\ is_u32 (CreditsPerUnit cfg) /\
  0 < units * CreditsPerUnit cfg /\ forall client, hold_credits (mkPlugin cfg client) units = 0.
Proof.
  exists (mkAccountConfig "https://dash" "d" "a" "i" "s" 65536 5), 65536. by split_and!.
Qed.

(** ** A dashboard and an Auth0 tenant that answer *)

Module Runs.

(** Auth0 grants tokens for an hour; the dashboard rejects the first token it
    sees and accepts holds under later ones. The state counts the requests. *)
Definition server (n : nat) (req : http_request) : nat * http_reply :=
  (S n,
   match hr_Bearer req with
   | None => HttpResponse 200 (print (JObj [("access_token", JStr (String.append "tok" (pretty n))); ("expires_in", JNum "3600")])) None
   | Some tok =>
       if String.eqb tok "Bearer tok0" then HttpResponse 401 "" None
       else HttpResponse 201 (print (JObj [("ledgerId", JStr "L1"); ("balance", JNum "41"); ("kmsTenant", JStr "acme")])) None
   end).

#[export] Instance server_net : Net nat :=
  {| http_do := server; time_now := fun n => (n, 0); url_error := fun _ => None |}.

Definition config : accountConfig := mkAccountConfig "https://dash/" "tenant.auth0.com" "aud" "id" "secret" 2 5.
Definition boot : account_state nat := mkState 0%nat no_token [].
Definition made := Eval vm_compute in NewPlugin "" config boot.
Definition plugin : Plugin := Eval vm_compute in mkPlugin config (newDashboardClient config (newTokenManager config)).

Example made_ok : NewPlugin "" config boot = (made.1, Returned (Ok plugin)).
Proof. vm_compute. reflexivity. Qed.

(** The hold after a rejected token is granted under a new one. *)
Example hold_retried :
  (Hold plugin (mkHoldRequest "client" 3 "kms.Sign" "") made.1).2 = Returned (Ok (mkHoldResponse true "L1" 41 "" "acme")) /\
  length (calls (Hold plugin (mkHoldRequest "client" 3 "kms.Sign" "") made.1).1) = 4%nat.
Proof. split; vm_compute; reflexivity. Qed.

Lemma NewPlugin_fail_closed_witness :
  calls made.1 = [token_request (newTokenManager config)] /\ accessToken (cache made.1) <> "".
Proof.
  destruct (NewPlugin_fail_closed "" config boot made.1 plugin) as (_ & _ & _ & _ & _ & _ & _ & _ & _ & Hc & Ht).
  - vm_compute. reflexivity.
  - split; [exact Hc|exact Ht].
Defined.

End Runs.
