(* ===== verification/SingleFlight.v ===== *)
(** * One refresh for many callers

    The pattern by which the plugins share a value that is fetched when it is
    missing or stale: check the cache, take the refresh lock, check again, fetch
    with the lock held, store. [Flight] is what a component puts into it. A
    goroutine is at one of the points where another may run; the cache and the
    lock are shared, and a step of a goroutine is the code up to its next point.
    Between steps the clock may move, a goroutine may call, and the cache may be
    dropped. *)

From S2P Require Import Prelude GoStrings Errors.

(** [V] is what the cache holds, [A] what a call answers, [R] the reply to a
    fetch. *)
Record Flight (V A R : Type) := mkFlight {
  value : V -> A;
  is_fresh : V -> Z -> bool;           (* usable at this time *)
  receive : R -> Z -> result V;        (* the cached value that a reply at this time becomes *)
  unlocked_check : bool;               (* whether the cache is checked before the lock is taken *)
  rereads : bool;                      (* whether the answer is read back from the cache after a fetch *)
  dropped : V;                         (* what the cache is overwritten with *)
}.
Arguments mkFlight {V A R} value is_fresh receive unlocked_check rereads dropped.
Arguments value {V A R} f v.
Arguments is_fresh {V A R} f v t.
Arguments receive {V A R} f r t.
Arguments unlocked_check {V A R} f.
Arguments rereads {V A R} f.
Arguments dropped {V A R} f.

(** A value does not become usable by waiting, and the dropped one never is. *)
Class FlightLaws {V A R} (F : Flight V A R) := {
  fresh_mono : forall v t t', t <= t' -> is_fresh F v t' = true -> is_fresh F v t = true;
  dropped_stale : forall t, is_fresh F (dropped F) t = false;
}.

(** Where a goroutine is. *)
Inductive point (V A : Type) :=
| Entered                       (* before the first check *)
| Waiting                       (* at the lock *)
| Checking                      (* before the second check, holding the lock *)
| Fetching                      (* waiting for the reply, holding the lock *)
| Fetched (v : V)               (* after the store, holding the lock *)
| Finished (r : result A).
Arguments Entered {V A}.
Arguments Waiting {V A}.
Arguments Checking {V A}.
Arguments Fetching {V A}.
Arguments Fetched {V A} v.
Arguments Finished {V A} r.

Record system (V A : Type) := mkSystem {
  clock : Z;
  shared : V;                          (* the cache *)
  refreshMu : option nat;              (* the goroutine that holds the lock *)
  goroutines : list (point V A);
  fetched : list V;                    (* what the replies became, in order *)
}.
Arguments mkSystem {V A} clock shared refreshMu goroutines fetched.
Arguments clock {V A} s.
Arguments shared {V A} s.
Arguments refreshMu {V A} s.
Arguments goroutines {V A} s.
Arguments fetched {V A} s.

Inductive action (R : Type) :=
| Tick (d : Z)
| Call
| Step (i : nat)
| Reply (i : nat) (rep : R)
| Invalidate.
Arguments Tick {R} d.
Arguments Call {R}.
Arguments Step {R} i.
Arguments Reply {R} i rep.
Arguments Invalidate {R}.

(** [acts] is generic in the actions; those that move a goroutine. *)
Definition moves {R} (a : action R) : bool := match a with Step _ | Reply _ _ => true | _ => false end.

Definition no_invalidate {R} (l : list (action R)) : Prop := Forall (fun a => a <> Invalidate) l.

Section Flight.
Context {V A R : Type} (F : Flight V A R).

Implicit Types (s : system V A) (p : point V A).

Definition check s (miss : point V A) : point V A :=
  if is_fresh F (shared s) (clock s) then Finished (Ok (value F (shared s))) else miss.

Definition at_point (i : nat) p s : system V A :=
  mkSystem (clock s) (shared s) (refreshMu s) (<[i := p]> (goroutines s)) (fetched s).

Definition with_lock (l : option nat) s : system V A :=
  mkSystem (clock s) (shared s) l (goroutines s) (fetched s).

(** A goroutine that leaves the function gives the lock back. *)
Definition settle (i : nat) p s : system V A :=
  match p with Finished _ => with_lock None (at_point i p s) | _ => at_point i p s end.

Definition act (a : action R) s : option (system V A) :=
  match a with
  | Tick d => if 0 <=? d then Some (mkSystem (clock s + d) (shared s) (refreshMu s) (goroutines s) (fetched s)) else None
  | Call => Some (mkSystem (clock s) (shared s) (refreshMu s) (goroutines s ++ [Entered]) (fetched s))
  | Invalidate => Some (mkSystem (clock s) (dropped F) (refreshMu s) (goroutines s) (fetched s))
  | Step i =>
      match goroutines s !! i with
      | Some Entered => Some (at_point i (if unlocked_check F then check s Waiting else Waiting) s)
      | Some Waiting =>
          match refreshMu s with
          | None => Some (with_lock (Some i) (at_point i Checking s))
          | Some _ => None
          end
      | Some Checking => Some (settle i (check s Fetching) s)
      | Some (Fetched v) => Some (settle i (Finished (Ok (value F (if rereads F then shared s else v)))) s)
      | _ => None
      end
  | Reply i rep =>
      match goroutines s !! i with
      | Some Fetching =>
          match receive F rep (clock s) with
          | Err e => Some (settle i (Finished (Err e)) s)
          | Ok v => Some (mkSystem (clock s) v (refreshMu s) (<[i := Fetched v]> (goroutines s)) (fetched s ++ [v]))
          end
      | _ => None
      end
  end.

Fixpoint acts (l : list (action R)) s : option (system V A) :=
  match l with
  | [] => Some s
  | a :: l => s' ← act a s; acts l s'
  end.

(** Nobody has called yet, and the cache holds [v] at time [t]. *)
Definition started (v : V) (t : Z) : system V A := mkSystem t v None [] [].

Definition reachable s : Prop := exists v t l, acts l (started v t) = Some s.

(** ** The lock *)

Definition holds_lock p : bool :=
  match p with Checking | Fetching | Fetched _ => true | _ => false end.

(** The points between which a step of a goroutine goes, by itself. *)
Inductive moved s : point V A -> point V A -> Prop :=
| hit_early : is_fresh F (shared s) (clock s) = true -> moved s Entered (Finished (Ok (value F (shared s))))
| miss_early : moved s Entered Waiting
| take_lock : refreshMu s = None -> moved s Waiting Checking
| hit : is_fresh F (shared s) (clock s) = true -> moved s Checking (Finished (Ok (value F (shared s))))
| miss : is_fresh F (shared s) (clock s) = false -> moved s Checking Fetching
| leave v : moved s (Fetched v) (Finished (Ok (value F (if rereads F then shared s else v)))).

(** The lock after goroutine [i] went from [p] to [q]. *)
Definition lock_after (i : nat) p q s : option nat :=
  if holds_lock q then Some i else if holds_lock p then None else refreshMu s.

Definition went (i : nat) p q s : system V A :=
  mkSystem (clock s) (shared s) (lock_after i p q s) (<[i := q]> (goroutines s)) (fetched s).

(** The goroutines between Lock and Unlock are exactly the lock's owner. *)
Definition locked s : Prop := forall i,
  refreshMu s = Some i <-> exists p, goroutines s !! i = Some p /\ holds_lock p = true.

Lemma locked_owner s i p : locked s -> goroutines s !! i = Some p -> holds_lock p = true -> refreshMu s = Some i.
Proof. intros Hl Hi Hp. apply Hl. eauto. Qed.

(** At most one goroutine is between Lock and Unlock. *)
Lemma locked_unique s i j p q : locked s -> goroutines s !! i = Some p -> goroutines s !! j = Some q ->
  holds_lock p = true -> holds_lock q = true -> i = j.
Proof.
  intros Hl Hi Hj Hp Hq. pose proof (locked_owner s i p Hl Hi Hp). pose proof (locked_owner s j q Hl Hj Hq). congruence.
Qed.

(** What an action does, under the lock's invariant. *)
Lemma act_inv a s s' : locked s -> act a s = Some s' ->
  match a with
  | Tick d => 0 <= d /\ s' = mkSystem (clock s + d) (shared s) (refreshMu s) (goroutines s) (fetched s)
  | Call => s' = mkSystem (clock s) (shared s) (refreshMu s) (goroutines s ++ [Entered]) (fetched s)
  | Invalidate => s' = mkSystem (clock s) (dropped F) (refreshMu s) (goroutines s) (fetched s)
  | Step i => exists p q, goroutines s !! i = Some p /\ moved s p q /\ s' = went i p q s
  | Reply i rep => goroutines s !! i = Some Fetching /\
      match receive F rep (clock s) with
      | Err e => s' = went i Fetching (Finished (Err e)) s
      | Ok v => s' = mkSystem (clock s) v (refreshMu s) (<[i := Fetched v]> (goroutines s)) (fetched s ++ [v])
      end
  end.
Proof.
  intros Hl Ha. destruct a as [d| |i|i rep|]; cbn in Ha; [| by simplify_eq| | |by simplify_eq].
  - destruct (Z.leb_spec 0 d); [|done]. by simplify_eq.
  - destruct (goroutines s !! i) as [p|] eqn:Ei; [|done]. exists p. pose proof (locked_owner s i p Hl Ei) as Ho.
    unfold check, went, lock_after in *.
    destruct p; try done; [destruct (unlocked_check F); [destruct (is_fresh F _ _) eqn:Ef|]|destruct (refreshMu s) eqn:Em; [done|]
      |destruct (is_fresh F _ _) eqn:Ef|]; injection Ha as <-; eexists; (split; [done|]); (split; [by constructor|]); try done.
    cbn. unfold at_point. by rewrite (Ho eq_refl).
  - destruct (goroutines s !! i) as [p|] eqn:Ei; [|done]. destruct p; try done. split; [done|].
    destruct (receive F rep (clock s)); by injection Ha as <-.
Qed.

Lemma locked_at s i p q : locked s -> goroutines s !! i = Some p -> (holds_lock q = true -> holds_lock p = true \/ refreshMu s = None) ->
  forall c m, locked (mkSystem (clock s) c (lock_after i p q s) (<[i := q]> (goroutines s)) m).
Proof.
  intros Hl Hi Hq c m j. cbn [refreshMu goroutines]. unfold lock_after.
  pose proof (locked_owner s i p Hl Hi) as Ho. destruct (decide (j = i)) as [->|Hne].
  - rewrite list_lookup_insert_eq by (by eapply lookup_lt_Some). split.
    + intros Hm. exists q. split; [done|]. destruct (holds_lock q); [done|].
      destruct (holds_lock p) eqn:Ep; [done|]. apply Hl in Hm as (p' & Hp' & ?). simplify_eq. congruence.
    + by intros (p' & [= <-] & ->).
  - rewrite list_lookup_insert_ne by done. split.
    + destruct (holds_lock q) eqn:Eq; [by intros [= ->]|]. destruct (holds_lock p); [done|]. apply Hl.
    + intros Hj. apply Hl in Hj. destruct (holds_lock p) eqn:Ep; [specialize (Ho eq_refl); congruence|].
      destruct (holds_lock q) eqn:Eq; [|done]. destruct (Hq eq_refl) as [|Hn]; [done|]. congruence.
Qed.

Lemma locked_act a s s' : locked s -> act a s = Some s' -> locked s'.
Proof.
  intros Hl Ha. apply act_inv in Ha; [|done]. destruct a as [d| |i|i rep|].
  - by destruct Ha as [_ ->].
  - subst s'. intros i. cbn. rewrite (Hl i). split; intros (p & Hp & Hh); exists p; (split; [|done]).
    + by apply lookup_app_l_Some.
    + apply lookup_app_Some in Hp as [?|(_ & Hp)]; [done|]. by apply list_lookup_singleton_Some in Hp as [_ <-].
  - destruct Ha as (p & q & Hi & Hm & ->). apply locked_at; [done..|]. destruct Hm; cbn; auto.
  - destruct Ha as [Hi Ha]. destruct (receive F rep (clock s)); subst s'; [|by apply locked_at; [..|left]].
    pose proof (locked_at s i Fetching (Fetched a) Hl Hi (fun _ => or_introl eq_refl)) as Hn.
    unfold lock_after in Hn. cbn in Hn. by rewrite (locked_owner s i Fetching).
  - by subst s'.
Qed.

Lemma locked_acts l s s' : locked s -> acts l s = Some s' -> locked s'.
Proof.
  revert s. induction l as [|a l IH]; intros s Hl Ha; cbn in Ha; [by simplify_eq|].
  destruct (act a s) as [s1|] eqn:E1; [|done]. eapply (IH s1); [by eapply locked_act|done].
Qed.

Lemma locked_started v t : locked (started v t).
Proof. intros i. cbn. naive_solver. Qed.

Lemma locked_reachable s : reachable s -> locked s.
Proof. intros (v & t & l & Hr). eapply locked_acts; [|exact Hr]. apply locked_started. Qed.

(** An invariant of the actions holds along every run; it may use the lock's. *)
Lemma acts_ind (P : system V A -> Prop) (ok : action R -> Prop) :
  (forall a s s', locked s -> ok a -> P s -> act a s = Some s' -> P s') ->
  forall l s s', locked s -> Forall ok l -> P s -> acts l s = Some s' -> P s'.
Proof.
  intros Hact l. induction l as [|a l IH]; intros s s' Hl Hn Hp Ha; cbn in Ha; [by simplify_eq|].
  inversion Hn; subst. destruct (act a s) as [s1|] eqn:E1; [|done]. cbn in Ha.
  apply (IH s1); [by eapply locked_act|done| |done]. by eapply Hact.
Qed.

(** ** One fetch for many callers *)

Context `{!FlightLaws F}.

(** Who fetches missed a cache that is still stale. *)
Definition fetching_stale s : Prop := forall i, goroutines s !! i = Some Fetching -> is_fresh F (shared s) (clock s) = false.

Lemma stale_later v t t' : t <= t' -> is_fresh F v t = false -> is_fresh F v t' = false.
Proof. intros Ht Hf. destruct (is_fresh F v t') eqn:E; [|done]. by rewrite (fresh_mono v t t' Ht E) in Hf. Qed.

Lemma fetching_act a s s' : locked s -> fetching_stale s -> act a s = Some s' -> fetching_stale s'.
Proof.
  intros Hl Hs Ha. apply act_inv in Ha; [|done]. intros j Hj. destruct a as [d| |i|i rep|].
  - destruct Ha as [Hd ->]. cbn. apply (stale_later _ (clock s)); [lia|]. by apply (Hs j).
  - subst s'. cbn in *. apply lookup_app_Some in Hj as [Hj|(_ & Hj)]; [by apply (Hs j)|].
    by apply list_lookup_singleton_Some in Hj as [_ ?].
  - destruct Ha as (p & q & Hi & Hm & ->). cbn in *. destruct (decide (j = i)) as [->|Hne].
    + apply list_lookup_insert_Some in Hj as [(_ & -> & _)|[]]; [|done]. by inversion Hm.
    + rewrite list_lookup_insert_ne in Hj by done. by apply (Hs j).
  - destruct Ha as [Hi Ha]. assert (j = i) as ->.
    { destruct (decide (j = i)) as [|Hne]; [done|]. apply (locked_unique s j i Fetching Fetching); try done.
      destruct (receive F rep (clock s)); subst s'; cbn in Hj; by rewrite list_lookup_insert_ne in Hj by done. }
    destruct (receive F rep (clock s)); subst s'; cbn in Hj; by apply list_lookup_insert_Some in Hj as [(_ & ? & _)|[]].
  - subst s'. apply dropped_stale.
Qed.

Lemma fetching_reachable s : reachable s -> fetching_stale s.
Proof.
  intros (v & t & l & Hr). apply (acts_ind fetching_stale (fun _ => True)) with (l := l) (s := started v t); [| | | |done].
  - intros a s1 s2 Hl _. by apply fetching_act.
  - apply locked_started.
  - by apply Forall_true.
  - done.
Qed.

(** Of the fetches from the [n]-th on, each came when the ones before it were
    stale; and but for the cached one all are stale now. *)
Definition spaced (n : nat) s : Prop :=
  (forall k1 k2 v1 v2, (n <= k1 < k2)%nat -> fetched s !! k1 = Some v1 -> fetched s !! k2 = Some v2 ->
     exists rep t, t <= clock s /\ receive F rep t = Ok v2 /\ is_fresh F v1 t = false) /\
  (forall k v, (n <= k)%nat -> fetched s !! k = Some v -> v = shared s \/ is_fresh F v (clock s) = false).

Lemma spaced_act n a s s' : a <> Invalidate -> locked s -> fetching_stale s -> spaced n s -> act a s = Some s' -> spaced n s'.
Proof.
  intros Hni Hl Hst [Hsp Hpa] Ha. apply act_inv in Ha; [|done]. destruct a as [d| |i|i rep|]; [| by subst s'| | |done].
  - destruct Ha as [Hd ->]. split; cbn.
    + intros k1 k2 v1 v2 Hk H1 H2. destruct (Hsp k1 k2 v1 v2 Hk H1 H2) as (rep & t & ? & ? & ?). exists rep, t. split; [lia|done].
    + intros k v Hk Hv. destruct (Hpa k v Hk Hv) as [|Hf]; [by left|right]. apply (stale_later _ (clock s)); [lia|done].
  - by destruct Ha as (p & q & _ & _ & ->).
  - destruct Ha as [Hi Ha]. specialize (Hst i Hi). destruct (receive F rep (clock s)) as [v|] eqn:Er; subst s'; [|done].
    assert (forall k w, (n <= k)%nat -> fetched s !! k = Some w -> is_fresh F w (clock s) = false) as Hold
      by (intros k w Hk Hw; by destruct (Hpa k w Hk Hw) as [->|]).
    split; cbn.
    + intros k1 k2 v1 v2 Hk H1 H2. apply lookup_app_Some in H2 as [H2|[Hge H2]].
      * rewrite lookup_app_l in H1 by (apply lookup_lt_Some in H2; lia). by apply (Hsp k1 k2).
      * apply list_lookup_singleton_Some in H2 as [He <-]. rewrite lookup_app_l in H1 by lia.
        exists rep, (clock s). split; [lia|]. split; [done|]. apply (Hold k1); [lia|done].
    + intros k w Hk Hw. apply lookup_app_Some in Hw as [Hw|[_ Hw]]; [right; by apply (Hold k)|left].
      by apply list_lookup_singleton_Some in Hw as [_ <-].
Qed.

Lemma fetches_spaced l s s' : locked s -> fetching_stale s -> no_invalidate l -> acts l s = Some s' ->
  spaced (length (fetched s)) s'.
Proof.
  intros Hl Hs Hn Ha.
  assert (fetching_stale s' /\ spaced (length (fetched s)) s') as [_ ?]; [|done].
  apply (acts_ind (fun s1 => fetching_stale s1 /\ spaced (length (fetched s)) s1) (fun a => a <> Invalidate)) with (l := l) (s := s); try done.
  - intros a s1 s2 Hl1 Hni [Hf1 Hs1] Ha1. split; [by eapply fetching_act|by eapply spaced_act].
  - split; [done|]. split.
    + intros k1 k2 v1 v2 Hk H1. apply lookup_lt_Some in H1. lia.
    + intros k v Hk Hv. apply lookup_lt_Some in Hv. lia.
Qed.

(** Along any interleaving in which nothing is dropped and what is fetched stays
    fresh, at most one fetch succeeds. *)
Lemma one_fetch l s s' new : reachable s -> no_invalidate l -> acts l s = Some s' ->
  fetched s' = fetched s ++ new -> Forall (fun v => is_fresh F v (clock s') = true) new -> (length new <= 1)%nat.
Proof.
  intros Hr Hn Ha Hm Hf. destruct (fetches_spaced l s s') as [Hsp _]; [by apply locked_reachable|by apply fetching_reachable|done..|].
  destruct new as [|v1 [|v2 new]]; cbn; [lia..|]. exfalso.
  destruct (Hsp (length (fetched s)) (S (length (fetched s))) v1 v2) as (rep & t & Ht & _ & Hs); [lia| | |].
  - rewrite Hm. by apply list_lookup_middle.
  - rewrite Hm. rewrite lookup_app_r by lia. by replace (S _ - _)%nat with 1%nat by lia.
  - inversion Hf as [|? ? Hv _]; subst. by rewrite (fresh_mono v1 t (clock s') Ht Hv) in Hs.
Qed.

(** ** What a call answers *)

(** The value of an answer: it was fetched, or it was there from the start and
    is usable at some time. *)
Definition known (v0 v : V) s : Prop := v ∈ fetched s \/ (v = v0 /\ exists t, is_fresh F v t = true).

Definition answers_known (v0 : V) s : Prop :=
  (shared s = v0 \/ shared s = dropped F \/ shared s ∈ fetched s) /\
  forall i p, goroutines s !! i = Some p ->
    match p with
    | Fetched v => v ∈ fetched s /\ (rereads F = true -> shared s ∈ fetched s)
    | Finished (Ok a) => exists v, known v0 v s /\ a = value F v
    | _ => True
    end.

Lemma fresh_known v0 s : answers_known v0 s -> is_fresh F (shared s) (clock s) = true -> known v0 (shared s) s.
Proof.
  intros [[Hs|[Hs|Hs]] _] Hf; [right; eauto| |by left]. by rewrite Hs, dropped_stale in Hf.
Qed.

Lemma answers_act v0 a s s' : (rereads F = false \/ a <> Invalidate) -> locked s ->
  answers_known v0 s -> act a s = Some s' -> answers_known v0 s'.
Proof.
  intros Hr Hl Hk Ha. pose proof (fresh_known v0 s Hk) as Hf. destruct Hk as [Hs Hp].
  apply act_inv in Ha; [|done]. destruct a as [d| |i|i rep|].
  - by destruct Ha as [_ ->].
  - subst s'. split; [done|]. intros j p Hj. cbn in Hj.
    apply lookup_app_Some in Hj as [Hj|(_ & Hj)]; [by apply (Hp j)|]. by apply list_lookup_singleton_Some in Hj as [_ <-].
  - destruct Ha as (p & q & Hi & Hm & ->). split; [done|]. intros j p' Hj. cbn in Hj.
    destruct (decide (j = i)) as [->|]; [|rewrite list_lookup_insert_ne in Hj by done; by apply (Hp j)].
    apply list_lookup_insert_Some in Hj as [(_ & <- & _)|[]]; [|done]. specialize (Hp i p Hi).
    destruct Hm; try done; eauto. destruct Hp as [Hv Hsh]. eexists. split; [left|reflexivity]. destruct (rereads F); auto.
  - destruct Ha as [Hi Ha]. destruct (receive F rep (clock s)) as [v|e]; subst s'.
    + split; [right; right; cbn; set_solver|]. intros j p Hj. cbn in Hj. destruct (decide (j = i)) as [->|Hne].
      * apply list_lookup_insert_Some in Hj as [(_ & <- & _)|[]]; [|done]. cbn. set_solver.
      * rewrite list_lookup_insert_ne in Hj by done. specialize (Hp j p Hj).
        destruct p as [| | | |w|[]]; try done; cbn; [set_solver|]. destruct Hp as (w & [?|?] & ?); exists w; (split; [|done]); [left; cbn; set_solver|by right].
    + split; [done|]. intros j p Hj. cbn in Hj.
      destruct (decide (j = i)) as [->|]; [|rewrite list_lookup_insert_ne in Hj by done; by apply (Hp j)].
      by apply list_lookup_insert_Some in Hj as [(_ & <- & _)|[]].
  - subst s'. destruct Hr as [Hr|]; [|done]. split; [by right; left|]. intros j p Hj. specialize (Hp j p Hj).
    destruct p as [| | | |w|[]]; try done. split; [apply Hp|by rewrite Hr].
Qed.

(** Every answer is a known value, if the call answers with what it fetched or
    nothing is dropped. *)
Lemma answers_cached v0 t l s i a : (rereads F = false \/ no_invalidate l) -> acts l (started v0 t) = Some s ->
  goroutines s !! i = Some (Finished (Ok a)) -> exists v, known v0 v s /\ a = value F v.
Proof.
  intros Hr Ha. assert (answers_known v0 s) as [_ Hp].
  { apply (acts_ind (answers_known v0) (fun a => rereads F = false \/ a <> Invalidate)) with (l := l) (s := started v0 t).
    - intros b s1 s2 Hl Hb Hk Hact. by apply (answers_act v0 b s1).
    - apply locked_started.
    - destruct Hr as [Hr|Hr]; [by apply Forall_true; left|]. eapply Forall_impl; [exact Hr|]. by right.
    - split; [by left|done].
    - done. }
  intros Hi. apply (Hp i _ Hi).
Qed.

(** What was fetched came with a reply. *)
Lemma fetched_replies l s s' v : locked s -> acts l s = Some s' -> v ∈ fetched s' ->
  v ∈ fetched s \/ exists i rep t, Reply i rep ∈ l /\ receive F rep t = Ok v.
Proof.
  revert s. induction l as [|a l IH]; intros s Hl Ha Hv; cbn in Ha; [left; by simplify_eq|].
  destruct (act a s) as [s1|] eqn:E1; [|done]. cbn in Ha.
  destruct (IH s1 (locked_act a s s1 Hl E1) Ha Hv) as [Hin|(i & rep & t & Hin & Hr)]; [|right; exists i, rep, t; set_solver].
  apply act_inv in E1; [|done]. destruct a as [d| |i|i rep|].
  - left. by destruct E1 as [_ ->].
  - left. by subst s1.
  - left. by destruct E1 as (p & q & _ & _ & ->).
  - destruct E1 as [_ E1]. destruct (receive F rep (clock s)) as [w|] eqn:Er; subst s1; [|by left]. cbn in Hin.
    apply elem_of_app in Hin as [?|Hin]; [by left|]. apply list_elem_of_singleton in Hin as ->. right. exists i, rep, (clock s). set_solver.
  - left. by subst s1.
Qed.

(** ** Every call returns *)

Definition weight p : nat :=
  match p with Entered => 5 | Waiting => 4 | Checking => 3 | Fetching => 2 | Fetched _ => 1 | Finished _ => 0 end%nat.

Definition work s : nat := sum_list (weight <$> goroutines s).

Lemma act_work a s s' : locked s -> act a s = Some s' -> a <> Call ->
  if moves a then (work s' < work s)%nat else work s' = work s.
Proof.
  intros Hl Ha Hc. apply act_inv in Ha; [|done]. unfold work. destruct a as [d| |i|i rep|]; [| done | | |].
  - by destruct Ha as [_ ->].
  - destruct Ha as (p & q & Hi & Hm & ->). pose proof (sum_list_insert weight i p q _ Hi). cbn [moves went goroutines] in *.
    assert (weight q < weight p)%nat by (destruct Hm; cbn; lia). lia.
  - destruct Ha as [Hi Ha]. cbn [moves]. destruct (receive F rep (clock s)) as [v|e]; subst s'; cbn [went goroutines].
    + pose proof (sum_list_insert weight i _ (Fetched v) _ Hi) as Hw. cbn [weight] in Hw. lia.
    + pose proof (sum_list_insert weight i _ (Finished (Err e)) _ Hi) as Hw. cbn [weight] in Hw. lia.
  - by subst s'.
Qed.

Lemma acts_work l s s' : locked s -> acts l s = Some s' -> Forall (fun a => a <> Call) l ->
  (work s' + length (filter moves l) <= work s)%nat.
Proof.
  revert s. induction l as [|a l IH]; intros s Hl Ha Hn; cbn in Ha; [simplify_eq; cbn; lia|].
  inversion Hn as [|? ? Hna Hn']; subst. destruct (act a s) as [s1|] eqn:E1; [|done]. cbn in Ha.
  specialize (IH s1 (locked_act a s s1 Hl E1) Ha Hn'). apply act_work in E1; [|done..].
  rewrite filter_cons. case_decide; destruct (moves a); cbn in *; try done; lia.
Qed.

Lemma work_bound s : (work s <= 5 * length (goroutines s))%nat.
Proof.
  apply sum_list_bound, Forall_forall. intros p _. destruct p; cbn; lia.
Qed.

(** While a call has not returned, some goroutine can go on: the lock's owner
    always can, and without an owner everyone. *)
Lemma owner_enabled s i p : goroutines s !! i = Some p -> holds_lock p = true ->
  is_Some (act (Step i) s) \/ forall rep, is_Some (act (Reply i rep) s).
Proof.
  intros Hi Hp. destruct p; try done; cbn; rewrite Hi; eauto.
  right. intros rep. destruct (receive F rep (clock s)); eauto.
Qed.

Lemma some_enabled s i p : locked s -> goroutines s !! i = Some p -> (forall r, p <> Finished r) ->
  exists j, is_Some (act (Step j) s) \/ forall rep, is_Some (act (Reply j rep) s).
Proof.
  intros Hl Hi Hp. destruct (holds_lock p) eqn:Eh; [exists i; by eapply owner_enabled|].
  destruct p; try done; [|destruct (refreshMu s) as [j|] eqn:Em|by destruct (Hp r)].
  - exists i. left. cbn. rewrite Hi. eauto.
  - apply Hl in Em as (q & Hq & Hh). exists j. by eapply owner_enabled.
  - exists i. left. cbn. rewrite Hi, Em. eauto.
Qed.

End Flight.
