(* ===== verification/ThreadControl.v ===== *)
(** * Groups of goroutines (pkg/utils/thread_control.go)

    [Go] and [GoCtx] start goroutines that [Close] tells to stop and waits for. A
    group is a step system: one action is the code of one goroutine up to its
    next point, and the functions that run in the group are arbitrary. A context
    is the list of the cancel functions that end it, its own first; cancelling is
    immediate for every context derived, as it is in package context. *)

From S2P Require Import Prelude.

Definition context : Type := list nat.

(** [context.Background()]. *)
Definition Background : context := [].

Inductive phase :=
| Starting        (* counted by the WaitGroup, not running yet *)
| Running         (* in [fn] *)
| Leaving         (* after the deferred cancel *)
| Gone.           (* after the deferred Done *)

#[export] Instance phase_eq_dec : EqDecision phase.
Proof. solve_decision. Defined.

(** [own] is the context of [fn], once it was made; [watching], that the
    goroutine of [CtxCancel] has not ended. *)
Record thread := mkThread { parent : context; own : context; now : phase; watching : bool }.

Record threadControl := mkControl {
  stopped : bool;                      (* [stop] is closed *)
  threadsWG : Z;
  threads : list thread;
  cancelled : gset nat;
  next_cancel : nat;                   (* cancel functions made so far *)
  joined : bool;                       (* [Close] has returned *)
  crashed : bool;                      (* [stop] was closed twice *)
}.

Definition NewThreadControl : threadControl := mkControl false 0 [] ∅ 0 false false.

(** [ctx.Err() != nil] *)
Definition is_done (s : threadControl) (ctx : context) : bool := existsb (fun c => bool_decide (c ∈ cancelled s)) ctx.

Definition set_threads (l : list thread) (s : threadControl) : threadControl :=
  mkControl (stopped s) (threadsWG s) l (cancelled s) (next_cancel s) (joined s) (crashed s).

(** [threadsWG.Add] *)
Definition wg_Add (n : Z) (s : threadControl) : threadControl :=
  mkControl (stopped s) (threadsWG s + n) (threads s) (cancelled s) (next_cancel s) (joined s) (crashed s).

(** A cancel function is called. *)
Definition cancel (c : nat) (s : threadControl) : threadControl :=
  mkControl (stopped s) (threadsWG s) (threads s) ({[c]} ∪ cancelled s) (next_cancel s) (joined s) (crashed s).

(** [context.WithCancel(ctx)] and the like make the next cancel function. *)
Definition WithCancel (ctx : context) (s : threadControl) : context * threadControl :=
  (next_cancel s :: ctx,
   mkControl (stopped s) (threadsWG s) (threads s) (cancelled s) (S (next_cancel s)) (joined s) (crashed s)).

(** The caller's part of [GoCtx]; [Go] is the same under [Background]. *)
Definition GoCtx (ctx : context) (s : threadControl) : threadControl :=
  set_threads (threads s ++ [mkThread ctx [] Starting false]) (wg_Add 1 s).

Definition Go (s : threadControl) : threadControl := GoCtx Background s.

Inductive action :=
| Spawn (by_ : option nat) (ctx : context)  (* [fn] of a goroutine of the group calls [GoCtx], or somebody else *)
| Derive (ctx : context)                   (* somebody derives a context *)
| Cancel (c : nat)                         (* a cancel function is called, or its time is up *)
| Enter (i : nat)                          (* up to the call of [fn] *)
| Return (i : nat)                         (* [fn] returns, and the deferred cancel runs *)
| Done (i : nat)                           (* the deferred [threadsWG.Done] runs *)
| Watch (i : nat) (on_stop : bool)         (* one branch of the select in [CtxCancel] *)
| Close                                    (* [Close], up to the wait *)
| Joined.                                  (* the wait ends *)

Definition is_Gone (t : thread) : bool := match now t with Gone => true | _ => false end.

(** The goroutine of [Go] and [GoCtx], around [fn]. *)
Definition enter (i : nat) (s : threadControl) : option threadControl :=
  t ← threads s !! i;
  match now t with
  | Starting =>
      let '(ctx, s) := WithCancel (parent t) s in
      Some (set_threads (<[i := mkThread (parent t) ctx Running true]> (threads s)) s)
  | _ => None
  end.

Definition return_ (i : nat) (s : threadControl) : option threadControl :=
  t ← threads s !! i;
  match now t, own t with
  | Running, c :: _ => Some (cancel c (set_threads (<[i := mkThread (parent t) (own t) Leaving (watching t)]> (threads s)) s))
  | _, _ => None
  end.

Definition wg_Done (i : nat) (s : threadControl) : option threadControl :=
  t ← threads s !! i;
  match now t with
  | Leaving => Some (wg_Add (-1) (set_threads (<[i := mkThread (parent t) (own t) Gone (watching t)]> (threads s)) s))
  | _ => None
  end.

(** The goroutine of [CtxCancel]; either branch of its select may be ready. *)
Definition CtxCancel (i : nat) (on_stop : bool) (s : threadControl) : option threadControl :=
  t ← threads s !! i;
  if watching t then
    let s1 := set_threads (<[i := mkThread (parent t) (own t) (now t) false]> (threads s)) s in
    if on_stop then
      match own t with
      | c :: _ => if stopped s then Some (cancel c s1) else None
      | [] => None
      end
    else if is_done s (own t) then Some s1 else None
  else None.

(** [close(tc.stop)], and the end of [threadsWG.Wait()]. *)
Definition close_stop (s : threadControl) : threadControl :=
  mkControl true (threadsWG s) (threads s) (cancelled s) (next_cancel s) (joined s) (crashed s || stopped s).

Definition wg_Wait (s : threadControl) : option threadControl :=
  if stopped s && (threadsWG s =? 0)
  then Some (mkControl (stopped s) (threadsWG s) (threads s) (cancelled s) (next_cancel s) true (crashed s))
  else None.

Definition act (a : action) (s : threadControl) : option threadControl :=
  match a with
  | Spawn None ctx => Some (GoCtx ctx s)
  | Spawn (Some i) ctx =>
      t ← threads s !! i;
      match now t with Running => Some (GoCtx ctx s) | _ => None end
  | Derive ctx => Some (WithCancel ctx s).2
  | Cancel c => if (c <? next_cancel s)%nat then Some (cancel c s) else None
  | Enter i => enter i s
  | Return i => return_ i s
  | Done i => wg_Done i s
  | Watch i on_stop => CtxCancel i on_stop s
  | Close => Some (close_stop s)
  | Joined => wg_Wait s
  end.

Fixpoint acts (l : list action) (s : threadControl) : option threadControl :=
  match l with
  | [] => Some s
  | a :: l => s' ← act a s; acts l s'
  end.

Definition reachable (s : threadControl) : Prop := exists l, acts l NewThreadControl = Some s.

(** Only goroutines of the group add goroutines to it. *)
Definition from_inside (a : action) : Prop := forall ctx, a <> Spawn None ctx.

(** ** The invariant *)

(** An equation about [act] on a known action becomes one about its cases. *)
Ltac unfold_act H := unfold act, enter, return_, wg_Done, CtxCancel, wg_Wait in H; cbn -[Nat.ltb Z.eqb] in H.

(** How many goroutines have not called [Done]. *)
Definition live (l : list thread) : Z := Z.of_nat (length (filter (fun t => is_Gone t = false) l)).

(** A goroutine whose function runs has a context; it is watched until it is
    done; and it is done when the function has returned. *)
Definition thread_ok (s : threadControl) (t : thread) : Prop :=
  match now t with
  | Starting => watching t = false
  | Running => own t <> [] /\ (watching t = true \/ is_done s (own t) = true)
  | Leaving | Gone => is_done s (own t) = true
  end.

Definition ok (s : threadControl) : Prop :=
  threadsWG s = live (threads s) /\ Forall (thread_ok s) (threads s) /\ (joined s = true -> stopped s = true).

Lemma live_cons t l : live (t :: l) = (if is_Gone t then 0 else 1) + live l.
Proof. unfold live. rewrite filter_cons. destruct (decide (is_Gone t = false)), (is_Gone t); cbn [length]; done || lia. Qed.

Lemma live_insert l i t t' : l !! i = Some t ->
  live (<[i := t']> l) + (if is_Gone t then 0 else 1) = live l + (if is_Gone t' then 0 else 1).
Proof.
  revert i. induction l as [|x l IH]; intros [|i] Hi; try done; cbn in Hi.
  - simplify_eq. change (<[0%nat := t']> (t :: l)) with (t' :: l). rewrite !live_cons. lia.
  - specialize (IH i Hi). change (<[S i := t']> (x :: l)) with (x :: <[i := t']> l). rewrite !live_cons. lia.
Qed.

Lemma live_snoc l t : live (l ++ [t]) = live l + (if is_Gone t then 0 else 1).
Proof. induction l as [|x l IH]; [cbn [app]|change ((x :: l) ++ [t]) with (x :: (l ++ [t]))]; rewrite !live_cons; lia. Qed.

Lemma live_nonneg l : 0 <= live l.
Proof. unfold live. lia. Qed.

Lemma live_zero l : live l = 0 <-> Forall (fun t => now t = Gone) l.
Proof.
  induction l as [|t l IH]; [done|]. rewrite live_cons, Forall_cons, <- IH. pose proof (live_nonneg l).
  unfold is_Gone. destruct (now t); split; try done; try lia; (intros [? ?]; done) || (intros; split; [done|lia]).
Qed.

(** What was done stays done. *)
Lemma is_done_mono s s' ctx : cancelled s ⊆ cancelled s' -> is_done s ctx = true -> is_done s' ctx = true.
Proof.
  intros Hs. unfold is_done. rewrite !existsb_exists. intros (c & Hc & Hd). exists c. split; [done|].
  rewrite bool_decide_eq_true in *. set_solver.
Qed.

Lemma thread_ok_mono s s' t : cancelled s ⊆ cancelled s' -> thread_ok s t -> thread_ok s' t.
Proof.
  intros Hs. unfold thread_ok. destruct (now t); [done|..].
  - intros [? [?|?]]; (split; [done|]); [by left|right]. by eapply is_done_mono.
  - by apply is_done_mono.
  - by apply is_done_mono.
Qed.

Lemma is_done_hd s c ctx : c ∈ cancelled s -> is_done s (c :: ctx) = true.
Proof. intros Hc. unfold is_done. cbn. by rewrite bool_decide_eq_true_2. Qed.

(** One thread moves, and the cancel functions called grow. *)
Lemma ok_move s s' i t t' : ok s -> threads s !! i = Some t -> threads s' = <[i := t']> (threads s) ->
  cancelled s ⊆ cancelled s' -> threadsWG s' + (if is_Gone t then 0 else 1) = threadsWG s + (if is_Gone t' then 0 else 1) ->
  stopped s' = stopped s -> joined s' = joined s -> thread_ok s' t' -> ok s'.
Proof.
  intros (Hwg & Ht & Hj) Hi El Hc Ew Es Ej Ht'. split; [|split; [|by rewrite Es, Ej]].
  - rewrite El. pose proof (live_insert _ i t t' Hi). lia.
  - rewrite El. apply Forall_insert; [|done]. eapply Forall_impl; [exact Ht|]. intros x. by apply thread_ok_mono.
Qed.

Lemma ok_same s s' : ok s -> threads s' = threads s -> cancelled s ⊆ cancelled s' -> threadsWG s' = threadsWG s ->
  (joined s' = true -> stopped s' = true) -> ok s'.
Proof.
  intros (Hwg & Ht & Hj) El Hc Ew Hj'. split; [congruence|split; [|done]]. rewrite El.
  eapply Forall_impl; [exact Ht|]. intros x. by apply thread_ok_mono.
Qed.

Lemma ok_GoCtx ctx s : ok s -> ok (GoCtx ctx s).
Proof.
  intros (Hwg & Ht & Hj). split; [|split; [|done]]; cbn.
  - rewrite live_snoc. cbn. lia.
  - apply Forall_app. split; [|by constructor]. eapply Forall_impl; [exact Ht|]. intros x. by apply thread_ok_mono.
Qed.

Lemma thread_ok_lookup s i t : ok s -> threads s !! i = Some t -> thread_ok s t.
Proof. intros (_ & Ht & _) Hi. rewrite Forall_lookup in Ht. by apply (Ht i). Qed.

Lemma ok_act a s s' : ok s -> act a s = Some s' -> ok s'.
Proof.
  intros Hok Ha. pose proof Hok as (_ & _ & Hj). destruct a as [[j|] ctx|ctx|c|i|i|i|i on_stop| |]; unfold_act Ha.
  - destruct (threads s !! j) as [t|]; [|done]. cbn in Ha. destruct (now t); try done. simplify_eq. by apply ok_GoCtx.
  - simplify_eq. by apply ok_GoCtx.
  - simplify_eq. by apply (ok_same s).
  - destruct (Nat.ltb c (next_cancel s)); [|done]. simplify_eq. apply (ok_same s); try done. cbn. set_solver.
  - destruct (threads s !! i) as [t|] eqn:Ei; [|done]. cbn in Ha. destruct (now t) eqn:En; try done. simplify_eq.
    eapply (ok_move s); [done|done|reflexivity|done| |done|done|]; cbn; [by unfold is_Gone; rewrite En|]. by split; [|left].
  - destruct (threads s !! i) as [t|] eqn:Ei; [|done]. cbn in Ha. destruct (now t) eqn:En, (own t) as [|c ctx] eqn:Eo; try done. simplify_eq.
    eapply (ok_move s); [done|done|reflexivity| | |done|done|]; [cbn; set_solver|cbn; by unfold is_Gone; rewrite En|].
    apply is_done_hd. cbn. set_solver.
  - destruct (threads s !! i) as [t|] eqn:Ei; [|done]. cbn in Ha. destruct (now t) eqn:En; try done. simplify_eq.
    pose proof (thread_ok_lookup s i t Hok Ei) as Ht. unfold thread_ok in Ht. rewrite En in Ht.
    eapply (ok_move s); [done|done|reflexivity|done| |done|done|exact Ht]. cbn. unfold is_Gone. rewrite En. cbn. lia.
  - destruct (threads s !! i) as [t|] eqn:Ei; [|done]. cbn in Ha. destruct (watching t) eqn:Ew; [|done].
    pose proof (thread_ok_lookup s i t Hok Ei) as Ht. unfold thread_ok in Ht.
    assert (forall s2, threads s2 = <[i := mkThread (parent t) (own t) (now t) false]> (threads s) -> cancelled s ⊆ cancelled s2 ->
      threadsWG s2 = threadsWG s -> stopped s2 = stopped s -> joined s2 = joined s -> is_done s2 (own t) = true -> ok s2) as Hend.
    { intros s2 E1 E2 E3 E4 E5 Hd. eapply (ok_move s); try done; [by rewrite E3|]. unfold thread_ok. cbn.
      destruct (now t); [congruence|by split; [apply Ht|right]|done..]. }
    destruct on_stop.
    + destruct (own t) as [|c ctx] eqn:Eo; [done|]. destruct (stopped s) eqn:Es; [|done]. simplify_eq.
      apply Hend; try done; [cbn; set_solver|]. apply is_done_hd. cbn. set_solver.
    + destruct (is_done s (own t)) eqn:Ed; [|done]. simplify_eq. by apply Hend.
  - simplify_eq. by apply (ok_same s).
  - destruct (stopped s) eqn:Es; [|done]. destruct (threadsWG s =? 0); [|done]. injection Ha as <-. by apply (ok_same s).
Qed.

Lemma ok_acts l s s' : ok s -> acts l s = Some s' -> ok s'.
Proof.
  revert s. induction l as [|a l IH]; intros s Hok Ha; cbn in Ha; [by simplify_eq|].
  destruct (act a s) as [s1|] eqn:E1; [|done]. apply (IH s1); [by eapply ok_act|done].
Qed.

Lemma ok_reachable s : reachable s -> ok s.
Proof. intros [l Hl]. eapply ok_acts; [|exact Hl]. split; [done|split; [by constructor|done]]. Qed.

(** The WaitGroup never goes from zero to one under [Wait]: a goroutine of the
    group that adds another is itself counted. *)
Lemma Add_counted i ctx s s' : ok s -> act (Spawn (Some i) ctx) s = Some s' -> 0 < threadsWG s.
Proof.
  intros (Hwg & _) Ha. cbn in Ha. destruct (threads s !! i) as [t|] eqn:Ei; [|done]. cbn in Ha.
  destruct (now t) eqn:En; try done. rewrite Hwg. destruct (Z.eq_dec (live (threads s)) 0) as [Hz|]; [|pose proof (live_nonneg (threads s)); lia].
  apply live_zero in Hz. rewrite Forall_lookup in Hz. rewrite (Hz i t Ei) in En. done.
Qed.

(** ** Close waits for every goroutine *)

Definition all_gone (s : threadControl) : Prop := Forall (fun t => now t = Gone) (threads s).

Lemma gone_act a s s' : from_inside a -> ok s -> (joined s = true -> all_gone s) -> act a s = Some s' -> joined s' = true -> all_gone s'.
Proof.
  intros Hin Hok Hg Ha Hj. unfold all_gone in *. destruct a as [[j|] ctx|ctx|c|i|i|i|i on_stop| |]; unfold_act Ha;
    [|by destruct (Hin ctx)| | | | | | | |].
  1,4,5,6,7: match type of Ha with (threads _ !! ?k ≫= _) = _ => destruct (threads s !! k) as [t|] eqn:Ei; [|done] end; cbn -[Nat.ltb Z.eqb] in Ha.
  - destruct (now t) eqn:En; try done. simplify_eq. specialize (Hg Hj). rewrite Forall_lookup in Hg. by rewrite (Hg _ _ Ei) in En.
  - destruct (now t) eqn:En; try done. simplify_eq. specialize (Hg Hj). rewrite Forall_lookup in Hg. by rewrite (Hg _ _ Ei) in En.
  - destruct (now t) eqn:En, (own t); try done. simplify_eq. specialize (Hg Hj). rewrite Forall_lookup in Hg. by rewrite (Hg _ _ Ei) in En.
  - destruct (now t) eqn:En; try done. simplify_eq. cbn in *. by apply Forall_insert; [apply Hg|].
  - destruct (watching t); [|done]. assert (joined s = true -> now t = Gone) as Ht
      by (intros Hjs; specialize (Hg Hjs); rewrite Forall_lookup in Hg; by apply (Hg i)).
    destruct on_stop; [destruct (own t), (stopped s); try done|destruct (is_done s (own t)); [|done]]; simplify_eq; cbn in *;
      (apply Forall_insert; [by apply Hg|by apply Ht]).
  - simplify_eq. by apply Hg.
  - destruct (Nat.ltb c (next_cancel s)); [|done]. simplify_eq. by apply Hg.
  - simplify_eq. by apply Hg.
  - destruct (stopped s && (threadsWG s =? 0)) eqn:Eb; [|done]. simplify_eq. apply andb_true_iff in Eb as [_ Ez].
    apply Z.eqb_eq in Ez. cbn. apply live_zero. destruct Hok as [<- _]. done.
Qed.

(** When [Close] returns, the goroutines have returned, and none is started
    again. From any reachable state, along any interleaving in which only
    goroutines of the group add to it, the group has no goroutine from the moment
    in which the wait ends. *)
Theorem Close_joins l s s' : reachable s -> joined s = false -> Forall from_inside l ->
  acts l s = Some s' -> joined s' = true -> Forall (fun t => now t = Gone) (threads s') /\ threadsWG s' = 0.
Proof.
  intros Hr Hj Hl Ha Hj'. apply ok_reachable in Hr.
  assert (joined s = true -> all_gone s) as Hg by congruence. clear Hj.
  assert (all_gone s' /\ ok s') as [Hs' (Hwg & _)]; [|split; [done|]; rewrite Hwg; by apply live_zero].
  revert s Hr Hg Ha. induction Hl as [|a l Hin Hl IH]; intros s Hok Hg Ha; cbn in Ha; [simplify_eq; auto|].
  destruct (act a s) as [s1|] eqn:E1; [|done]. apply (IH s1); [by eapply ok_act| |done].
  intros Hj1. by eapply gone_act.
Qed.

(** ** Close returns *)

Lemma running_ctx s i t : ok s -> threads s !! i = Some t -> now t = Running -> exists c ctx, own t = c :: ctx.
Proof.
  intros Hok Hi Hn. pose proof (thread_ok_lookup s i t Hok Hi) as Ht. unfold thread_ok in Ht. rewrite Hn in Ht.
  destruct Ht as [Hne _]. destruct (own t) as [|c ctx]; [done|]. eauto.
Qed.

(** A closed group tells every function to stop. *)
Lemma stop_reaches s i t : ok s -> stopped s = true -> threads s !! i = Some t -> now t = Running ->
  is_done s (own t) = true \/ exists s', act (Watch i true) s = Some s' /\ is_done s' (own t) = true.
Proof.
  intros Hok Hs Hi Hn. pose proof (thread_ok_lookup s i t Hok Hi) as Ht. unfold thread_ok in Ht. rewrite Hn in Ht.
  destruct Ht as [_ [Hw|Hd]]; [right|by left]. destruct (running_ctx s i t Hok Hi Hn) as (c & ctx & Eo).
  eexists. cbn [act]. unfold enter, return_, wg_Done, CtxCancel. rewrite Hi. cbn [mbind option_bind]. rewrite Hw, Eo, Hs. split; [reflexivity|]. apply is_done_hd. cbn. set_solver.
Qed.

(** The goroutine that watches a context ends with the function, if not before. *)
Lemma watchers_end s i t : ok s -> threads s !! i = Some t -> is_Gone t = true -> watching t = true ->
  is_Some (act (Watch i false) s).
Proof.
  intros Hok Hi Hg Hw. pose proof (thread_ok_lookup s i t Hok Hi) as Ht. unfold thread_ok, is_Gone in *.
  cbn [act]. unfold enter, return_, wg_Done, CtxCancel. rewrite Hi. cbn [mbind option_bind]. rewrite Hw. destruct (now t); try done. by rewrite Ht.
Qed.

(** The actions of the goroutines, their watchers' included. *)
Definition moves (a : action) : bool :=
  match a with Enter _ | Return _ | Done _ | Watch _ _ => true | Spawn _ _ | Derive _ | Cancel _ | Close | Joined => false end.

Definition spawns (a : action) : bool := match a with Spawn _ _ => true | _ => false end.

Definition weight (t : thread) : nat :=
  match now t with Starting => 4 | Running => 2 | Leaving => 1 | Gone => 0 end + if watching t then 1 else 0.

Definition work (s : threadControl) : nat := sum_list (weight <$> threads s).

Lemma work_move s s' i t t' : threads s !! i = Some t -> threads s' = <[i := t']> (threads s) ->
  (weight t' < weight t)%nat -> (work s' + 1 <= work s)%nat.
Proof. intros Hi El Hw. unfold work. rewrite El. pose proof (sum_list_insert weight i t t' _ Hi). lia. Qed.

Lemma thread_work a s s' : act a s = Some s' -> spawns a = false -> (work s' + (if moves a then 1 else 0) <= work s)%nat.
Proof.
  intros Ha Hs. assert (threads s' = threads s -> (work s' + 0 <= work s)%nat) as Hsame by (unfold work; intros ->; lia).
  destruct a as [j ctx|ctx|c|i|i|i|i on_stop| |]; try done; unfold_act Ha; cbn [moves].
  1,2,7,8: apply Hsame; repeat case_match; by simplify_eq.
  all: destruct (threads s !! i) as [t|] eqn:Ei; [|done]; cbn -[Nat.ltb Z.eqb] in Ha.
  - destruct (now t) eqn:En; try done. simplify_eq. eapply work_move; [done|reflexivity|]. unfold weight. rewrite En. cbn. destruct (watching t); lia.
  - destruct (now t) eqn:En, (own t) as [|c ctx] eqn:Eo; try done. simplify_eq. eapply work_move; [done|reflexivity|].
    unfold weight. rewrite En. cbn. lia.
  - destruct (now t) eqn:En; try done. simplify_eq. eapply work_move; [done|reflexivity|]. unfold weight. rewrite En. cbn. lia.
  - destruct (watching t) eqn:Ew; [|done]. assert (weight (mkThread (parent t) (own t) (now t) false) < weight t)%nat
      by (unfold weight; rewrite Ew; cbn; lia).
    destruct on_stop; [destruct (own t), (stopped s); try done|destruct (is_done s (own t)); [|done]]; simplify_eq;
      (eapply work_move; [done|reflexivity|done]).
Qed.

Lemma threads_work l s s' : ok s -> acts l s = Some s' -> Forall (fun a => spawns a = false) l ->
  (work s' + length (filter moves l) <= work s)%nat.
Proof.
  intros Hok Ha Hl. revert s Hok Ha. induction Hl as [|a l Hn Hl IH]; intros s Hok Ha; cbn in Ha; [simplify_eq; cbn; lia|].
  destruct (act a s) as [s1|] eqn:E1; [|done]. specialize (IH s1 (ok_act a s s1 Hok E1) Ha).
  pose proof (thread_work a s s1 E1 Hn). rewrite filter_cons. destruct (decide (moves a)) as [Hm|Hm]; destruct (moves a); cbn in *; done || lia.
Qed.

Lemma threads_bound s : ok s -> (work s <= 4 * length (threads s))%nat.
Proof.
  intros (_ & Ht & _). apply sum_list_bound. eapply Forall_impl; [exact Ht|]. intros t Hw. unfold thread_ok in Hw.
  unfold weight. destruct (now t); [rewrite Hw|..]; cbn; destruct (watching t); lia.
Qed.

(** C22: [Close] returns, if the functions return when they are told to. In a
    reachable group that was closed, the goroutines and their watchers can take
    at most four steps each, unless more are added; while [Close] has not
    returned, the wait can end, or some goroutine can step by itself, or some
    function that still runs has been told to stop: it never waits for one that
    has not. *)
Theorem Close_returns s : reachable s -> stopped s = true -> joined s = false ->
  (forall l s', acts l s = Some s' -> Forall (fun a => spawns a = false) l -> (length (filter moves l) <= 4 * length (threads s))%nat) /\
  (is_Some (act Joined s) \/
   (exists i, is_Some (act (Enter i) s) \/ is_Some (act (Done i) s) \/ is_Some (act (Watch i true) s)) \/
   (exists i t, threads s !! i = Some t /\ now t = Running /\ is_done s (own t) = true /\ is_Some (act (Return i) s))).
Proof.
  intros Hr Hs Hj. apply ok_reachable in Hr as Hok. split.
  { intros l s' Ha Hl. pose proof (threads_work l s s' Hok Ha Hl). pose proof (threads_bound s Hok). lia. }
  destruct (decide (Forall (fun t => now t = Gone) (threads s))) as [Hg|Hg].
  - left. cbn [act]. unfold wg_Wait. destruct Hok as (Hwg & _). rewrite Hs, Hwg, (proj2 (live_zero _) Hg). cbn. eauto.
  - right. apply not_Forall_Exists in Hg; [|apply _]. apply Exists_exists in Hg as (t & Hin & Hn). apply list_elem_of_lookup in Hin as [i Hi].
    destruct (now t) eqn:En; [| | |done].
    + left. exists i. left. cbn [act]. unfold enter, return_, wg_Done, CtxCancel. rewrite Hi. cbn. rewrite En. eauto.
    + destruct (stop_reaches s i t Hok Hs Hi En) as [Hd|(s' & Ha & _)]; [right|left; exists i; rewrite Ha; eauto].
      exists i, t. split_and!; try done. destruct (running_ctx s i t Hok Hi En) as (c & ctx & Eo).
      cbn [act]. unfold enter, return_, wg_Done, CtxCancel. rewrite Hi. cbn. rewrite En, Eo. eauto.
    + left. exists i. right. left. cbn [act]. unfold enter, return_, wg_Done, CtxCancel. rewrite Hi. cbn. rewrite En. eauto.
Qed.

(** ** A group of two *)

Module Runs.

(** The first goroutine starts the second under its own context; [Close] stops
    the first, and with it the second. *)
Definition two : list action :=
  [Spawn None Background; Enter 0; Spawn (Some 0) [0]; Enter 1; Close; Watch 0 true; Return 1; Return 0; Done 0; Done 1]%nat.

Definition busy : threadControl := Eval vm_compute in default NewThreadControl (acts (take 6 two) NewThreadControl).
Definition ended : threadControl := Eval vm_compute in default NewThreadControl (acts (two ++ [Joined]) NewThreadControl).

Example two_runs : map (fun t => is_done busy (own t)) (threads busy) = [true; true] /\
  act Joined busy = None /\ joined ended = true.
Proof. split_and!; vm_compute; reflexivity. Qed.

Lemma Close_joins_witness : Forall (fun t => now t = Gone) (threads ended) /\ threadsWG ended = 0.
Proof.
  apply (Close_joins (drop 6 two ++ [Joined]) busy ended).
  - exists (take 6 two). vm_compute. reflexivity.
  - reflexivity.
  - repeat constructor; intros ctx; discriminate.
  - vm_compute. reflexivity.
  - reflexivity.
Defined.

Lemma Close_returns_witness : (length (filter moves (drop 6 two)) <= 8)%nat.
Proof.
  destruct (Close_returns busy) as [Hb _].
  - exists (take 6 two). vm_compute. reflexivity.
  - reflexivity.
  - reflexivity.
  - apply (Hb (drop 6 two) (default busy (acts (drop 6 two) busy))); [vm_compute; reflexivity|].
    repeat constructor.
Defined.

End Runs.
