(* ===== verification/AccountRefresh.v ===== *)
(** * The token manager under concurrent calls (token_manager.go)

    Many goroutines call [token] at once, and the dashboard client may call
    [invalidate] between any two of their steps. *)

From S2P Require Import Prelude GoStrings Errors Json Http SingleFlight Account.

(** [token]: both checks, the refresh with [refreshMu] held, and the final read
    of the cache. *)
Definition token_flight : Flight cachedToken string http_reply :=
  mkFlight accessToken fresh_at
    (fun rep now => parsed ← token_of_reply rep; Ok (cached_of parsed now))
    true true no_token.

#[export] Instance token_laws : FlightLaws token_flight.
Proof.
  split; [|done]. intros v t t'. cbn. unfold fresh_at. rewrite !andb_true_iff, !negb_true_iff, !Z.ltb_ge.
  intros ? [? ?]. split; [done|lia].
Qed.

(** ** Properties *)

(** C4: concurrent refreshes collapse into one. From any state the manager can
    reach, along any interleaving in which no token is invalidated and the tokens
    that Auth0 grants are still outside the refresh window at the end, Auth0
    grants at most one token, however many goroutines missed the cache. *)
Theorem refresh_single_flight s l s' new : reachable token_flight s -> no_invalidate l -> acts token_flight l s = Some s' ->
  fetched s' = fetched s ++ new -> Forall (fun c => fresh_at c (clock s') = true) new -> (length new <= 1)%nat.
Proof. apply (one_fetch token_flight). Qed.

(** C19: every call of [token] returns. From any reachable state the calls in
    flight need at most five steps each, in any interleaving with ticks and
    invalidations; and while one of them has not returned some goroutine can
    step, where one that waits for Auth0 can take any reply. *)
Theorem token_liveness s : reachable token_flight s ->
  (forall l s', acts token_flight l s = Some s' -> Forall (fun a => a <> Call) l ->
     (length (filter moves l) <= 5 * length (goroutines s))%nat) /\
  (forall i p, goroutines s !! i = Some p -> (forall r, p <> Finished r) ->
     exists j, is_Some (act token_flight (Step j) s) \/ forall rep, is_Some (act token_flight (Reply j rep) s)).
Proof.
  intros Hr. apply locked_reachable in Hr. split.
  - intros l s' Ha Hn. pose proof (acts_work token_flight l s s' Hr Ha Hn). pose proof (work_bound s). lia.
  - intros i p. by apply some_enabled.
Qed.

Definition auth0_reply : http_reply :=
  HttpResponse 200 (print (JObj [("access_token", JStr "fresh"); ("expires_in", JNum "86400"); ("token_type", JStr "Bearer")])) None.

(** A call can return the empty token as if it were a good one: the dashboard
    client invalidates the cache between the refresh of another goroutine and
    its read of the cache. *)
Theorem token_empty_after_invalidate : exists l s,
  acts token_flight l (started no_token 0) = Some s /\ goroutines s !! 0%nat = Some (Finished (Ok "")).
Proof.
  exists [Call; Step 0; Step 0; Step 0; Reply 0 auth0_reply; Invalidate; Step 0]%nat.
  eexists. split; [vm_compute; reflexivity|]. reflexivity.
Qed.

(** Without an invalidation every answer is a token that Auth0 granted, or the
    one that was cached at the start and was fresh. *)
Lemma token_answers c t l s i tok : no_invalidate l -> acts token_flight l (started c t) = Some s ->
  goroutines s !! i = Some (Finished (Ok tok)) ->
  exists v, (v ∈ fetched s \/ v = c /\ exists now, fresh_at v now = true) /\ tok = accessToken v.
Proof. intros Hn. apply (answers_cached token_flight). by right. Qed.

(** Three goroutines miss the cache together and one token is granted. *)
Definition three_callers : list (action http_reply) :=
  [Step 0; Step 1; Step 2; Step 1; Step 1; Tick second; Reply 1 auth0_reply; Step 1; Step 0; Step 0; Step 2; Step 2]%nat.

Definition three_start : system cachedToken string :=
  Eval vm_compute in default (started no_token 0) (acts token_flight [Call; Call; Call] (started no_token 0)).
Definition three_end : system cachedToken string :=
  Eval vm_compute in default three_start (acts token_flight three_callers three_start).

Example three_callers_run : acts token_flight three_callers three_start = Some three_end /\
  goroutines three_end = [Finished (Ok "fresh"); Finished (Ok "fresh"); Finished (Ok "fresh")].
Proof. split; vm_compute; reflexivity. Qed.

Lemma three_start_reachable : reachable token_flight three_start.
Proof. exists no_token, 0, [Call; Call; Call]. reflexivity. Qed.

Lemma refresh_single_flight_witness : (length (fetched three_end) <= 1)%nat.
Proof.
  apply (refresh_single_flight three_start three_callers three_end (fetched three_end)).
  - apply three_start_reachable.
  - repeat constructor; discriminate.
  - vm_compute. reflexivity.
  - reflexivity.
  - repeat constructor.
Defined.

Lemma token_liveness_witness :
  (length (filter moves three_callers) <= 5 * length (goroutines three_start))%nat.
Proof.
  refine ((proj1 (token_liveness three_start three_start_reachable)) three_callers three_end _ _).
  - vm_compute. reflexivity.
  - repeat constructor; discriminate.
Defined.
