(* ===== verification/P256.v ===== *)
(** * Public keys on P-256 (crypto/ecdsa) *)

From S2P Require Import Prelude GoStrings Errors Codec Sha2.

Definition P256_p : Z := 2 ^ 256 - 2 ^ 224 + 2 ^ 192 + 2 ^ 96 - 1.
Definition P256_b : Z := 0x5ac635d8aa3a93e7b3ebbd55769886bc651d06b0cc53b0f63bce3c3e27d2604b.

Record PublicKey := mkPublicKey { key_X : Z; key_Y : Z }.

Definition on_curve (k : PublicKey) : bool :=
  (0 <=? key_X k) && (key_X k <? P256_p) && (0 <=? key_Y k) && (key_Y k <? P256_p) &&
  ((key_Y k * key_Y k) mod P256_p =? (key_X k * key_X k * key_X k - 3 * key_X k + P256_b) mod P256_p).

(** [k.Bytes()]: 0x04 || X || Y, for a key on the curve. *)
Definition Bytes (k : PublicKey) : result (list Z) :=
  if on_curve k then Ok (4 :: be_bytes 32 (key_X k) ++ be_bytes 32 (key_Y k))
  else Err (Errorf "ecdsa: invalid public key" []).

(** [ecdsa.ParseUncompressedPublicKey(elliptic.P256(), 0x04 || X || Y)] *)
Definition ParseUncompressedPublicKey (point : list Z) : result PublicKey :=
  match point with
  | 4 :: xy =>
      let k := mkPublicKey (be_word (firstn 32 xy)) (be_word (skipn 32 xy)) in
      if (length xy =? 64)%nat && on_curve k then Ok k
      else Err (Errorf "ecdsa: invalid public key" [])
  | _ => Err (Errorf "ecdsa: invalid uncompressed public key" [])
  end.

Lemma ParseUncompressedPublicKey_curve point k : ParseUncompressedPublicKey point = Ok k -> on_curve k = true.
Proof.
  unfold ParseUncompressedPublicKey. destruct point as [|x xy]; [done|]. do 3 (destruct x as [|x|]; try done).
  destruct x; try done. cbv zeta. destruct (_ && on_curve _) eqn:E; [|done]. intros [= <-]. by apply andb_true_iff in E as [_ ->].
Qed.

Lemma P256_p_range : 0 < P256_p < 2 ^ 256.
Proof. by vm_compute. Qed.

Lemma be_word_app a b : be_word (a ++ b) = fold_left (fun acc x => acc * 256 + x) b (be_word a).
Proof. apply fold_left_app. Qed.

Lemma be_fold_bytes n v : 0 <= v < 2 ^ (8 * Z.of_nat n) -> forall acc,
  fold_left (fun acc x => acc * 256 + x) (be_bytes n v) acc = acc * 2 ^ (8 * Z.of_nat n) + v.
Proof.
  assert (Hg : forall v acc, fold_left (fun acc x => acc * 256 + x) (be_bytes n v) acc =
    acc * 2 ^ (8 * Z.of_nat n) + v mod 2 ^ (8 * Z.of_nat n)).
  { clear v. induction n as [|n IH]; intros v acc; cbn [be_bytes fold_left].
    - change (8 * Z.of_nat 0) with 0. rewrite Z.mod_1_r. lia.
    - rewrite IH. replace (8 * Z.of_nat (S n)) with (8 * Z.of_nat n + 8) by lia. set (k := 8 * Z.of_nat n).
      assert (0 <= k) by lia. assert (0 < 2 ^ k) by (apply Z.pow_pos_nonneg; lia).
      rewrite Z.pow_add_r by lia. change (2 ^ 8) with 256. rewrite Z.rem_mul_r by lia. ring. }
  intros Hv acc. rewrite Hg, Z.mod_small by done. done.
Qed.

Lemma be_word_bytes n v : 0 <= v < 2 ^ (8 * Z.of_nat n) -> be_word (be_bytes n v) = v.
Proof. intros Hv. unfold be_word. by rewrite be_fold_bytes. Qed.

Lemma Parse_point a b : length a = 32%nat -> length b = 32%nat -> on_curve (mkPublicKey (be_word a) (be_word b)) = true ->
  ParseUncompressedPublicKey (4 :: a ++ b) = Ok (mkPublicKey (be_word a) (be_word b)).
Proof.
  intros Ha Hb Hc. unfold ParseUncompressedPublicKey.
  rewrite firstn_app, skipn_app, Ha, firstn_all2, skipn_all2, Nat.sub_diag, firstn_O, skipn_O, app_nil_r, length_app, Ha, Hb by lia.
  change (32 + 32 =? 64)%nat with true. cbn [andb]. change ([] ++ b) with b. by rewrite Hc.
Qed.

(** The point of a key parses to the key. *)
Lemma Parse_Bytes k point : Bytes k = Ok point -> ParseUncompressedPublicKey point = Ok k.
Proof.
  unfold Bytes. destruct (on_curve k) eqn:Ec; [|done]. intros Hb.
  assert (point = 4 :: be_bytes 32 (key_X k) ++ be_bytes 32 (key_Y k)) as -> by congruence. clear Hb.
  pose proof Ec as Hc. unfold on_curve in Hc. rewrite !andb_true_iff, !Z.leb_le, !Z.ltb_lt in Hc.
  destruct Hc as ((((Hx1 & Hx2) & Hy1) & Hy2) & _). pose proof P256_p_range as Hp.
  assert (be_word (be_bytes 32 (key_X k)) = key_X k) as Hx by (apply be_word_bytes; change (8 * Z.of_nat 32) with 256; lia).
  assert (be_word (be_bytes 32 (key_Y k)) = key_Y k) as Hy by (apply be_word_bytes; change (8 * Z.of_nat 32) with 256; lia).
  rewrite Parse_point by (rewrite ?length_be_bytes, ?Hx, ?Hy; destruct k; done). rewrite Hx, Hy. by destruct k.
Qed.
