(* ===== verification/Auth.v ===== *)
(** * The auth plugin (pkg/plugin/auth)

    Customers authenticate with personal access tokens, verified against the
    keys that the patissuer plugin publishes and this plugin caches; gateway
    services authenticate with Auth0 machine tokens. The JWT library
    (golang-jwt), the Auth0 validator, the RPC to the patissuer plugin and the
    clock are the parameter [AuthEnv]; the state is the key cache and the
    documents fetched so far. Logging is left out. *)

From S2P Require Import Prelude GoStrings Errors State Codec Json Http P256.

(** ** config.go *)

Record authConfig := mkAuthConfig {
  Auth0Domain : string;
  Auth0Audience : string;
  PatIss : string;
  PatAudience : string;
  PatIssuerPlugin : string;
  ServiceClientIDs : string;
}.

(** [env_string] is the value viper finds. *)
Definition readFromEnv (env_string : string -> option string) : authConfig :=
  mkAuthConfig (default "" (env_string "AUTH0_DOMAIN")) (default "" (env_string "AUTH0_AUDIENCE"))
    (TrimSpace (default "" (env_string "AUTH_PAT_ISS")))
    (TrimSpace (default "" (env_string "AUTH_PAT_AUDIENCE")))
    (TrimSpace (default "" (env_string "AUTH_PATISSUER_PLUGIN")))
    (TrimSpace (default "" (env_string "AUTH_SERVICE_CLIENT_IDS"))).

Definition patEnabled (c : authConfig) : bool :=
  negb (String.eqb (PatIss c) "") || negb (String.eqb (PatAudience c) "") || negb (String.eqb (PatIssuerPlugin c) "").

Definition validatePat (c : authConfig) : result unit :=
  if negb (patEnabled c) then Ok tt
  else
    let missing := (if String.eqb (PatIss c) "" then ["ORBITPORT_AUTH_PAT_ISS"] else []) ++
                   (if String.eqb (PatIssuerPlugin c) "" then ["ORBITPORT_AUTH_PATISSUER_PLUGIN"] else []) in
    reject (match missing with [] => false | _ => true end)
      (Errorf "FATAL: PAT validation partially configured, missing: %s" [Join ", " missing]).

Definition serviceClientIDSet (c : authConfig) : gset string :=
  list_to_set (filter (fun id => id <> "") (map TrimSpace (Split "," (ServiceClientIDs c)))).

(** ** pat.go *)

Definition jwksCacheTTL : Z := 5 * minute.
Definition jwksMinRefresh : Z := 10 * second.
Definition jwksFetchTimeout : Z := 5 * second.

Definition errIssuerUnavailable : error := Errorf "patissuer plugin unavailable" [].

Definition iss_fields : list (field string) := [fld "iss" (fun s => s) (fun x _ => x) dec_string].

Definition unverifiedIssuer (token : string) : string :=
  match Split "." token with
  | [_; part; _] =>
      match RawURL.DecodeString part with
      | Err _ => ""
      | Ok payload =>
          match Unmarshal (dec_struct iss_fields) (string_of_bytes payload) "" with
          | Err _ => ""
          | Ok iss => iss
          end
      end
  | _ => ""
  end.

Record jwk := mkJwk { Kty : string; Crv : string; Kid : string; X : string; Y : string }.

Definition jwk_zero : jwk := mkJwk "" "" "" "" "".

Definition jwk_fields : list (field jwk) :=
  [fld "kty" Kty (fun v r => mkJwk v (Crv r) (Kid r) (X r) (Y r)) dec_string;
   fld "crv" Crv (fun v r => mkJwk (Kty r) v (Kid r) (X r) (Y r)) dec_string;
   fld "kid" Kid (fun v r => mkJwk (Kty r) (Crv r) v (X r) (Y r)) dec_string;
   fld "x" X (fun v r => mkJwk (Kty r) (Crv r) (Kid r) v (Y r)) dec_string;
   fld "y" Y (fun v r => mkJwk (Kty r) (Crv r) (Kid r) (X r) v) dec_string].

Definition set_fields : list (field (list jwk)) :=
  [fld "keys" (fun l => l) (fun l _ => l) (dec_list jwk_zero (dec_struct jwk_fields))].

Definition parse_key (k : jwk) : result PublicKey :=
  x ← map_err (Wrapf "JWK kid %q: decoding x: %w" [Kid k]) (RawURL.DecodeString (X k));
  y ← map_err (Wrapf "JWK kid %q: decoding y: %w" [Kid k]) (RawURL.DecodeString (Y k));
  map_err (Wrapf "JWK kid %q: invalid P-256 point: %w" [Kid k])
    (ParseUncompressedPublicKey (4 :: x ++ y)).

Definition signing_key (k : jwk) : bool :=
  String.eqb (Kty k) "EC" && String.eqb (Crv k) "P-256" && negb (String.eqb (Kid k) "").

Fixpoint keys_loop (l : list jwk) (keys : gmap string PublicKey) : result (gmap string PublicKey) :=
  match l with
  | [] => Ok keys
  | k :: l =>
      if negb (signing_key k) then keys_loop l keys
      else pub ← parse_key k; keys_loop l (<[Kid k := pub]> keys)
  end.

Definition parseJWKS (jwksJSON : string) : result (gmap string PublicKey) :=
  set ← map_err (Wrapf "parsing JWKS JSON: %w" []) (Unmarshal (dec_struct set_fields) jwksJSON []);
  keys ← keys_loop set ∅;
  _ ← reject (bool_decide (size keys = 0%nat)) (Errorf "JWKS contains no usable EC P-256 keys" []);
  Ok keys.

(** The options that [validatePAT] gives to the parser. *)
Record parse_options := mkOptions {
  opt_ValidMethods : list string;
  opt_Issuer : string;
  opt_Audience : string;
  opt_ExpirationRequired : bool;
  opt_Leeway : Z;
}.

(** golang-jwt's [ErrTokenExpired]. *)
Definition ErrTokenExpired : error := Errorf "token is expired" [].

Record serviceClaims := mkServiceClaims { Scope : string; GrantType : string }.

(** The validator's [ValidatedClaims]; the custom claims may be of another type. *)
Record ValidatedClaims := mkValidatedClaims { Expiry : Z; Subject : string; CustomClaims : option serviceClaims }.

(** [jwt_header] is the header of a token whose algorithm is a valid method,
    [jwt_claims] its claims after the signature and the options were checked. *)
Class AuthEnv (E K : Type) := {
  auth_now : E -> E * Z;
  GetJwks : E -> E * result string;
  jwt_header : list string -> string -> result (list (string * json));
  jwt_claims : parse_options -> string -> PublicKey -> Z -> result (list (string * json));
  auth0_keys : E -> E * result K;
  auth0_ValidateToken : (E -> E * result K) -> E -> string -> E * result ValidatedClaims;
}.

Record auth_state (E : Type) := mkState {
  env : E;
  keys : option (gmap string PublicKey);
  fetchedAt : Z;
  fetched : list (result string);        (* the replies of the patissuer plugin *)
}.
Arguments mkState {E} env keys fetchedAt fetched.
Arguments env {E} a.
Arguments keys {E} a.
Arguments fetchedAt {E} a.
Arguments fetched {E} a.

Record Plugin := mkPlugin {
  patIss : string;
  patAudience : string;
  patKeys : bool;                        (* [patKeys != nil]; the cache is the state *)
  minRefresh : Z;
  serviceClientIDs : gset string;
}.

Record TokenValidationResponse := mkTokenResponse { Ok_ : bool; ClientId : string; Jti : string; KmsTenant : string }.
Record ServiceTokenValidationRequest := mkServiceRequest { svc_Token : string; svc_RequiredScopes : list string }.
Record ServiceTokenValidationResponse := mkServiceResponse { svc_Ok : bool; svc_ClientId : string }.

(** [s, _ := claims[name].(string)] *)
Definition string_claim (claims : list (string * json)) (name : string) : string :=
  match assoc_lookup name claims with Some (JStr s) => s | _ => "" end.

Definition hasRequiredScopes (c : serviceClaims) (requiredScopes : list string) : bool :=
  let scopes : gset string := list_to_set (Fields (Scope c)) in
  forallb (fun scope => bool_decide (scope ∈ scopes)) requiredScopes.

Definition hasClientCredentialsGrant (c : serviceClaims) : bool := String.eqb (GrantType c) "client-credentials".

Section Auth.
Context {E K : Type} `{AuthEnv E K}.

Abbreviation A := (Prog (auth_state E)).

Definition Now : A Z := fun s =>
  let '(e, t) := auth_now (env s) in (mkState e (keys s) (fetchedAt s) (fetched s), Returned (Ok t)).

Definition call_GetJwks : A string := fun s =>
  let '(e, r) := GetJwks (env s) in (mkState e (keys s) (fetchedAt s) (fetched s ++ [r]), Returned r).

Definition snapshot : A (option (gmap string PublicKey) * Z) := gets (fun s => (keys s, fetchedAt s)).

Definition Since (t : Z) : A Z := now ← Now; mret (now - t).

Definition refresh (minRefresh : Z) : A unit :=
  c ← snapshot;
  recent ← (match c.1 with None => mret false | Some _ => d ← Since c.2; mret (d <? minRefresh) end);
  if (recent : bool) then mret tt
  else
    resp ← on_err (fun err => Wrap2 "%w: fetching JWKS from patissuer plugin: %v" errIssuerUnavailable (Printed err)) call_GetJwks;
    ks ← lift (parseJWKS resp);
    now ← Now;
    modify (fun s => mkState (env s) (Some ks) now (fetched s)).

Definition no_key (kid : string) : error := Errorf "no JWKS key for kid %q" [kid].

(** A nil map has no members. *)
Definition find_key (ks : option (gmap string PublicKey)) (kid : string) : option PublicKey := default ∅ ks !! kid.

Definition key (minRefresh : Z) (kid : string) : A PublicKey :=
  c ← snapshot;
  stale ← (match c.1 with None => mret true | Some _ => d ← Since c.2; mret (jwksCacheTTL <? d) end);
  c ← (if (stale : bool) then _ ← refresh minRefresh; snapshot else mret c);
  match find_key c.1 kid with
  | Some k => mret k
  | None =>
      d ← Since c.2;
      if d <? minRefresh then throw (no_key kid)
      else
        _ ← refresh minRefresh;
        c ← snapshot;
        match find_key c.1 kid with
        | Some k => mret k
        | None => throw (no_key kid)
        end
  end.

(** [jwt.Parse]: the header, the key, then the signature and the claims. *)
Definition jwt_Parse (token : string) (keyfunc : list (string * json) -> A PublicKey) (o : parse_options) : A (list (string * json)) :=
  header ← lift (jwt_header (opt_ValidMethods o) token);
  k ← on_err (Wrapf "token is unverifiable: error while executing keyfunc: %w" []) (keyfunc header);
  now ← Now;
  lift (jwt_claims o token k now).

Definition pat_options (p : Plugin) : parse_options := mkOptions ["ES256"] (patIss p) (patAudience p) true minute.

Definition keyfunc (p : Plugin) (header : list (string * json)) : A PublicKey :=
  let kid := string_claim header "kid" in
  if String.eqb kid "" then throw (Errorf "PAT is missing kid header" [])
  else key (minRefresh p) kid.

Definition pat_error (err : error) : error :=
  if errors_Is err errIssuerUnavailable then StatusErr Unavailable err
  else if errors_Is err ErrTokenExpired then StatusErr Unauthenticated (Wrapf "pat_expired: %w" [] err)
  else StatusErr Unauthenticated (Wrapf "invalid_credential: %v" [] err).

Definition validatePAT (p : Plugin) (tokenString : string) : A TokenValidationResponse :=
  claims ← on_err pat_error (jwt_Parse tokenString (keyfunc p) (pat_options p));
  let sub := string_claim claims "sub" in
  _ ← guard_err (String.eqb sub "") (StatusErr Unauthenticated (Errorf "invalid_credential: validated PAT is missing sub claim" []));
  let jti := string_claim claims "jti" in
  _ ← guard_err (String.eqb jti "") (StatusErr Unauthenticated (Errorf "invalid_credential: validated PAT is missing jti claim" []));
  mret (mkTokenResponse true sub jti (string_claim claims "kms_tenant")).

(** ** plugin.go *)

Definition errAuth0JWKSUnavailable : error := Errorf "Auth0 JWKS unavailable" [].

(** [validator_New] and [NewClient] are the outcomes of [validator.New] and
    [grpc.NewClient], [url_ok] whether [url.Parse] accepts the issuer; where it
    does not, [log.Fatalf] ends the process. *)
Definition NewPlugin (url_ok : string -> bool) (validator_New : string -> string -> result unit)
    (NewClient : string -> result unit) (cfg : authConfig) : A Plugin :=
  _ ← guard_err (String.eqb (Auth0Domain cfg) "" || String.eqb (Auth0Audience cfg) "")
        (Errorf "FATAL: Auth0Domain or Auth0Audience is missing. Refusing to start without auth configuration" []);
  _ ← lift (validatePat cfg);
  let issuerURL := "https://" +:+ Auth0Domain cfg +:+ "/" in
  _ ← (if url_ok issuerURL then mret tt else panic);
  _ ← lift (map_err (Wrapf "failed to create Auth plugin: %w" [])
              (map_err (Wrapf "failed to set up the jwt validator: %w" []) (validator_New issuerURL (Auth0Audience cfg))));
  if patEnabled cfg then
    _ ← lift (map_err (Wrapf "failed to create PAT JWKS cache: %w" [])
                (map_err (Wrapf "failed to connect to patissuer plugin: %w" []) (NewClient (PatIssuerPlugin cfg))));
    mret (mkPlugin (PatIss cfg) (if String.eqb (PatAudience cfg) "" then Auth0Audience cfg else PatAudience cfg)
            true jwksMinRefresh (serviceClientIDSet cfg))
  else mret (mkPlugin "" "" false jwksMinRefresh (serviceClientIDSet cfg)).

Definition ValidateToken (p : Plugin) (token : string) : A TokenValidationResponse :=
  _ ← guard_err (negb (patKeys p) || negb (String.eqb (unverifiedIssuer token) (patIss p)))
        (StatusErr Unauthenticated (Errorf "invalid_credential: not a personal access token" []));
  validatePAT p token.

Definition wrapAuth0KeyFunc (keyFunc : E -> E * result K) : E -> E * result K := fun e =>
  let '(e', r) := keyFunc e in
  (e', map_err (fun err => Wrap2 "%w: %w" errAuth0JWKSUnavailable err) r).

Definition validateAuth0Token (token : string) : A ValidatedClaims := fun s =>
  let '(e, r) := auth0_ValidateToken (wrapAuth0KeyFunc auth0_keys) (env s) token in
  (mkState e (keys s) (fetchedAt s) (fetched s), Returned r).

Definition service_error (err : error) : error :=
  if errors_Is err errAuth0JWKSUnavailable then StatusErr Unavailable (Errorf "Auth0 JWKS unavailable" [])
  else StatusErr Unauthenticated (Errorf "invalid service token" []).

Definition not_authorized : error := StatusErr PermissionDenied (Errorf "service token is not authorized" []).

Definition ValidateServiceToken (p : Plugin) (req : ServiceTokenValidationRequest) : A ServiceTokenValidationResponse :=
  _ ← guard_err (match svc_RequiredScopes req with [] => true | _ => false end)
        (StatusErr InvalidArgument (Errorf "required_scopes must not be empty" []));
  validatedClaims ← on_err service_error (validateAuth0Token (svc_Token req));
  _ ← guard_err (Expiry validatedClaims <=? 0) (StatusErr Unauthenticated (Errorf "invalid service token" []));
  match CutSuffix (Subject validatedClaims) "@clients" with
  | None => throw not_authorized
  | Some clientID =>
      _ ← guard_err (String.eqb clientID "") not_authorized;
      _ ← guard_err (negb (bool_decide (clientID ∈ serviceClientIDs p))) not_authorized;
      match CustomClaims validatedClaims with
      | None => throw not_authorized
      | Some claims =>
          _ ← guard_err (negb (hasClientCredentialsGrant claims) || negb (hasRequiredScopes claims (svc_RequiredScopes req))) not_authorized;
          mret (mkServiceResponse true clientID)
      end
  end.

End Auth.
