(* ===== verification/AuthSpec.v ===== *)
(** * What the auth plugin promises

    Which tokens it accepts, under which keys, and how often it asks the
    patissuer plugin for them. *)

From S2P Require Import Prelude GoStrings Errors State Codec Json Http P256 Auth.

(** ** Key sets *)

(** What every key set of the cache satisfies. *)
Definition keys_usable (ks : gmap string PublicKey) : Prop := map_Forall (fun kid k => kid <> "" /\ on_curve k = true) ks.

Lemma keys_loop_usable l ks ks' : keys_loop l ks = Ok ks' -> keys_usable ks -> keys_usable ks'.
Proof.
  revert ks. induction l as [|k l IH]; intros ks Hk Hu; cbn in Hk; [by simplify_eq|].
  destruct (signing_key k) eqn:Es; cbn in Hk; [|by eapply IH]. apply bind_Ok in Hk as (pub & Hp & Hk).
  eapply IH; [exact Hk|]. apply map_Forall_insert_2; [|done]. unfold signing_key in Es. split.
  - apply andb_true_iff in Es as [_ Es]. by apply negb_true_iff, String.eqb_neq in Es.
  - unfold parse_key in Hp. inv_ok. by eapply ParseUncompressedPublicKey_curve.
Qed.

Lemma parseJWKS_usable doc ks : parseJWKS doc = Ok ks -> keys_usable ks /\ ks <> ∅.
Proof.
  unfold parseJWKS. intros Hp. inv_ok. split.
  - eapply keys_loop_usable; [eassumption|]. apply map_Forall_empty.
  - intros ->. by rewrite map_size_empty in *.
Qed.

Section Spec.
Context {E K : Type} `{AuthEnv E K}.

Abbreviation A := (Prog (auth_state E)).

(** ** The cache *)

(** The cached keys are those of a document that the patissuer plugin sent. *)
Definition cache_ok (s : auth_state E) : Prop := forall ks, keys s = Some ks ->
  exists doc, Ok doc ∈ fetched s /\ parseJWKS doc = Ok ks.

Lemma run_Since t (s : auth_state E) :
  Since t s = (mkState (auth_now (env s)).1 (keys s) (fetchedAt s) (fetched s), Returned (Ok ((auth_now (env s)).2 - t))).
Proof. unfold Since, Now, mbind, Prog_bind. by destruct (auth_now (env s)). Qed.

(** Whether the cache holds keys fetched less than [d] ago: a clock reading, if
    there are keys. *)
Lemma run_age (dflt : bool) (f : Z -> bool) (s : auth_state E) : exists e,
  (match keys s with None => mret dflt | Some _ => d ← Since (fetchedAt s); mret (f d) end : A bool) s =
  (mkState e (keys s) (fetchedAt s) (fetched s),
   Returned (Ok (match keys s with None => dflt | Some _ => f ((auth_now (env s)).2 - fetchedAt s) end))).
Proof.
  destruct (keys s) as [ks|] eqn:Ek.
  - erewrite run_bind by apply run_Since. exists (auth_now (env s)).1. by rewrite Ek.
  - exists (env s). unfold mret, Prog_ret. destruct s; cbn in *. by subst.
Qed.

(** A refresh does nothing while the keys are recent; otherwise it asks once. *)
Lemma run_refresh_keys m (s : auth_state E) : exists s' r, refresh m s = (s', Returned r) /\
  ((r = Ok tt /\ keys s <> None /\ keys s' = keys s /\ fetchedAt s' = fetchedAt s /\ fetched s' = fetched s) \/
   ((keys s = None \/ m <= (auth_now (env s)).2 - fetchedAt s) /\
    exists rep, fetched s' = fetched s ++ [rep] /\
      (((exists e, r = Err e) /\ keys s' = keys s /\ fetchedAt s' = fetchedAt s) \/
       (exists doc ks e, r = Ok tt /\ rep = Ok doc /\ parseJWKS doc = Ok ks /\ keys s' = Some ks /\ fetchedAt s' = (auth_now e).2)))).
Proof.
  unfold refresh. erewrite run_bind by done. cbn [fst snd].
  destruct (run_age false (fun d => d <? m) s) as [e0 Ea]. erewrite run_bind by exact Ea. clear Ea.
  destruct (match keys s with Some _ => _ | None => false end) eqn:Er.
  - eexists _, _. split; [done|]. left. cbn. by destruct (keys s).
  - assert (keys s = None \/ m <= (auth_now (env s)).2 - fetchedAt s) as Hm.
    { destruct (keys s); [right|by left]. by apply Z.ltb_ge in Er. }
    destruct (GetJwks e0) as [e1 rep] eqn:Eg.
    assert (call_GetJwks (mkState e0 (keys s) (fetchedAt s) (fetched s)) =
            (mkState e1 (keys s) (fetchedAt s) (fetched s ++ [rep]), Returned rep)) as Ec
      by (unfold call_GetJwks; cbn; by rewrite Eg).
    destruct rep as [doc|err].
    + erewrite run_bind by (by apply run_on_err). cbv beta. destruct (parseJWKS doc) as [ks|err] eqn:Ep.
      * erewrite run_bind by done. unfold Now, mbind, Prog_bind, modify. cbn [env keys fetchedAt fetched].
        destruct (auth_now e1) as [e2 t] eqn:Et.
        eexists _, _. split; [done|]. right. split; [done|]. eexists. split; [done|]. right.
        exists doc, ks, e1. rewrite Et. by split_and!.
      * eexists _, _. split; [by apply run_bind_err|]. right. split; [done|]. eexists. split; [done|]. left. eauto.
    + eexists _, _. split; [apply run_bind_err; by apply run_on_err_err|]. right. split; [done|].
      eexists. split; [done|]. left. eauto.
Qed.

Lemma refresh_cache_ok m (s s' : auth_state E) r : refresh m s = (s', Returned r) -> cache_ok s -> cache_ok s'.
Proof.
  intros Hr Hc ks Hk. destruct (run_refresh_keys m s) as (s1 & r1 & E1 & Hcase). rewrite Hr in E1. simplify_eq.
  destruct Hcase as [(_ & _ & H2 & _ & H4)|(_ & rep & Hf & [(_ & H2 & _)|(doc & ks' & e & _ & -> & Hp & Hk' & _)])].
  - rewrite H4. apply Hc. congruence.
  - rewrite Hf. destruct (Hc ks) as (doc & Hd & Hp); [congruence|]. exists doc. split; [set_solver|done].
  - exists doc. rewrite Hf. split; [set_solver|congruence].
Qed.

Lemma refresh_fetched m (s s' : auth_state E) r : refresh m s = (s', Returned r) ->
  exists l, fetched s' = fetched s ++ l /\ (length l <= 1)%nat /\ (r = Ok tt -> keys s' <> None).
Proof.
  intros Hr. destruct (run_refresh_keys m s) as (s1 & r1 & E1 & Hcase). rewrite Hr in E1. simplify_eq.
  destruct Hcase as [(_ & Hk & H2 & _ & H4)|(_ & rep & Hf & [((e & ->) & _)|(doc & ks' & e & _ & _ & _ & Hk' & _)])].
  - exists []. rewrite app_nil_r, H2. split_and!; [done|cbn; lia|done].
  - exists [rep]. split_and!; [done|cbn; lia|done].
  - exists [rep]. split_and!; [done|cbn; lia|]. by rewrite Hk'.
Qed.

(** [key] returns; a key it returns is the cached one; it asks at most twice. *)
Lemma run_key m kid (s : auth_state E) : exists s' r l, key m kid s = (s', Returned r) /\
  fetched s' = fetched s ++ l /\ (length l <= 2)%nat /\ (cache_ok s -> cache_ok s') /\
  (forall k, r = Ok k -> exists ks, keys s' = Some ks /\ ks !! kid = Some k).
Proof.
  assert (Hfind : forall (ks : option (gmap string PublicKey)) k, find_key ks kid = Some k -> exists ks0, ks = Some ks0 /\ ks0 !! kid = Some k).
  { intros [ks|] k Hf; [by exists ks|]. unfold find_key in Hf. cbn in Hf. by rewrite lookup_empty in Hf. }
  (* the part after the first refresh *)
  assert (Hrest : forall s0 : auth_state E, exists s' r l,
    (match find_key (keys s0) kid with
     | Some k => mret k
     | None =>
         d ← Since (fetchedAt s0);
         if d <? m then throw (no_key kid)
         else _ ← refresh m; c ← snapshot;
              match find_key c.1 kid with Some k => mret k | None => throw (no_key kid) end
     end : A PublicKey) s0 = (s', Returned r) /\
    fetched s' = fetched s0 ++ l /\ (length l <= 1)%nat /\ (cache_ok s0 -> cache_ok s') /\
    (forall k, r = Ok k -> exists ks, keys s' = Some ks /\ ks !! kid = Some k)).
  { intros s0. destruct (find_key (keys s0) kid) as [k|] eqn:Ef.
    - eexists s0, _, []. rewrite app_nil_r. split; [done|]. split_and!; [done|cbn; lia|done|]. intros k' [= <-]. eauto.
    - erewrite run_bind by apply run_Since. cbv beta. destruct (_ <? m).
      + eexists _, _, []. rewrite app_nil_r. split; [done|]. split_and!; [done|cbn; lia|done|done].
      + set (s1 := mkState _ _ _ _). destruct (run_refresh_keys m s1) as (s2 & r & Er & _).
        destruct (refresh_fetched m s1 s2 r Er) as (l & Hl & Hn & _). pose proof (refresh_cache_ok m s1 s2 r Er) as Hc.
        destruct r as [[]|e].
        * erewrite run_bind by exact Er. erewrite run_bind by done. cbn [fst].
          destruct (find_key (keys s2) kid) as [k|] eqn:Ef2; eexists s2, _, l; (split; [done|]); split_and!; try done.
          intros k' [= <-]. eauto.
        * eexists s2, _, l. split; [by apply run_bind_err|]. by split_and!. }
  unfold key. erewrite run_bind by done. cbn [fst snd].
  destruct (run_age true (fun d => jwksCacheTTL <? d) s) as [e0 Ea]. erewrite run_bind by exact Ea. clear Ea. cbv beta.
  set (s1 := mkState e0 _ _ _). destruct (match keys s with Some _ => _ | None => true end).
  - destruct (run_refresh_keys m s1) as (s2 & r & Er & _). destruct (refresh_fetched m s1 s2 r Er) as (l & Hl & Hn & _).
    pose proof (refresh_cache_ok m s1 s2 r Er) as Hc. destruct r as [[]|e].
    + erewrite run_bind by (erewrite run_bind by exact Er; reflexivity). cbn [fst snd].
      destruct (Hrest s2) as (s3 & r3 & l3 & E3 & Hl3 & Hn3 & Hc3 & Hk3). exists s3, r3, (l ++ l3). split; [exact E3|].
      rewrite Hl3, Hl, app_assoc. split_and!; [done|rewrite length_app; lia|auto|done].
    + eexists s2, _, l. split; [apply run_bind_err; by apply run_bind_err|]. split_and!; [done|lia|done|done].
  - erewrite run_bind by done. cbn [fst snd]. destruct (Hrest s1) as (s3 & r3 & l3 & E3 & Hl3 & Hn3 & Hc3 & Hk3).
    exists s3, r3, l3. split; [exact E3|]. split_and!; [done|lia|done|done].
Qed.

(** ** Personal access tokens *)

Lemma jwt_Parse_Ok token kf o (s s' : auth_state E) claims : jwt_Parse token kf o s = (s', Returned (Ok claims)) ->
  exists header s1 k e, jwt_header (opt_ValidMethods o) token = Ok header /\ kf header s = (s1, Returned (Ok k)) /\
    jwt_claims o token k (auth_now e).2 = Ok claims /\ s' = mkState (auth_now e).1 (keys s1) (fetchedAt s1) (fetched s1).
Proof.
  intros Hj. unfold jwt_Parse in Hj. inv_run. rename x0 into header, x2 into k, x1 into s1.
  unfold Now in *. destruct (auth_now (env s1)) as [e t] eqn:Et. simplify_eq.
  exists header, s1, k, (env s1). by rewrite Et.
Qed.

(** C8: [ValidateToken] fails closed. A token it accepts claims the configured
    issuer, and the JWT library verified it as an unexpired ES256 token of that
    issuer and audience, under the key on P-256 that a key set sent by the
    patissuer plugin lists under the token's key id; the client and the token id
    it reports are the verified [sub] and [jti], never empty. *)
Theorem ValidateToken_sound p token (s s' : auth_state E) resp :
  cache_ok s -> ValidateToken p token s = (s', Returned (Ok resp)) ->
  cache_ok s' /\ patKeys p = true /\ unverifiedIssuer token = patIss p /\
  exists header claims k ks doc now,
    jwt_header ["ES256"] token = Ok header /\ string_claim header "kid" <> "" /\
    Ok doc ∈ fetched s' /\ parseJWKS doc = Ok ks /\ ks !! string_claim header "kid" = Some k /\ on_curve k = true /\
    jwt_claims (mkOptions ["ES256"] (patIss p) (patAudience p) true minute) token k now = Ok claims /\
    resp = mkTokenResponse true (string_claim claims "sub") (string_claim claims "jti") (string_claim claims "kms_tenant") /\
    ClientId resp <> "" /\ Jti resp <> "".
Proof.
  intros Hc Hv. unfold ValidateToken, validatePAT in Hv. inv_run.
  match goal with Hj : jwt_Parse _ _ _ _ = _ |- _ => apply jwt_Parse_Ok in Hj as (header & s1 & k & e & Hh & Hkf & Hcl & ->) end.
  match goal with Hg : negb _ || negb _ = false |- _ => apply orb_false_iff in Hg as [Hp Hi] end.
  apply negb_false_iff in Hp, Hi. apply String.eqb_eq in Hi.
  repeat match goal with Hx : String.eqb _ "" = false |- _ => apply String.eqb_neq in Hx end.
  unfold keyfunc in Hkf. destruct (String.eqb_spec (string_claim header "kid") "") as [|Hkid]; [done|].
  destruct (run_key (minRefresh p) (string_claim header "kid") s) as (s2 & r & l & E2 & _ & _ & Hc2 & Hk2).
  rewrite Hkf in E2. simplify_eq. destruct (Hk2 k eq_refl) as (ks & Hks & Hlk).
  specialize (Hc2 Hc). destruct (Hc2 ks Hks) as (doc & Hd & Hpd). split; [exact Hc2|]. split; [done|]. split; [done|].
  exists header, x2, k, ks, doc, (auth_now e).2. apply parseJWKS_usable in Hpd as Hu. destruct Hu as [Hu _].
  destruct (Hu _ _ Hlk) as [_ Hon]. by split_and!.
Qed.

(** While the cached keys are recent, no call asks for keys. *)
Lemma key_recent m kid (s : auth_state E) : keys s <> None -> m <= jwksCacheTTL ->
  (forall e, (auth_now e).2 - fetchedAt s < m) -> fetched (key m kid s).1 = fetched s.
Proof.
  intros Hk Hm Ht. unfold key. erewrite run_bind by done. cbn [fst snd].
  destruct (run_age true (fun d => jwksCacheTTL <? d) s) as [e0 Ea]. erewrite run_bind by exact Ea. clear Ea. cbv beta.
  destruct (keys s) as [ks|] eqn:Eks; [|done]. specialize (Ht (env s)) as Ht0.
  destruct (Z.ltb_spec jwksCacheTTL ((auth_now (env s)).2 - fetchedAt s)); [lia|].
  erewrite run_bind by done. cbn [fst snd]. destruct (find_key _ _); [done|].
  erewrite run_bind by apply run_Since. cbn [env keys fetchedAt fetched]. specialize (Ht e0).
  by destruct (Z.ltb_spec ((auth_now e0).2 - fetchedAt s) m); [|lia].
Qed.

(** A validation asks the patissuer plugin for keys at most twice, and not
    at all within [minRefresh] of the last successful fetch, whatever key id the
    token names. *)
Theorem ValidateToken_fetches p token (s : auth_state E) : exists s' r l, ValidateToken p token s = (s', Returned r) /\
  fetched s' = fetched s ++ l /\ (length l <= 2)%nat /\
  (keys s <> None -> minRefresh p <= jwksCacheTTL -> (forall e, (auth_now e).2 - fetchedAt s < minRefresh p) -> l = []).
Proof.
  assert (Hkf : forall header, exists s' r l, keyfunc p header s = (s', Returned r) /\ fetched s' = fetched s ++ l /\ (length l <= 2)%nat /\
    (keys s <> None -> minRefresh p <= jwksCacheTTL -> (forall e, (auth_now e).2 - fetchedAt s < minRefresh p) -> l = [])).
  { intros header. unfold keyfunc. destruct (String.eqb _ "").
    - eexists _, _, []. rewrite app_nil_r. split; [done|]. split_and!; [done|cbn; lia|done].
    - destruct (run_key (minRefresh p) (string_claim header "kid") s) as (s' & r & l & Er & Hl & Hn & _).
      exists s', r, l. split; [done|]. split_and!; [done..|]. intros Hk Hm Ht.
      pose proof (key_recent (minRefresh p) (string_claim header "kid") s Hk Hm Ht) as Hf. rewrite Er in Hf. cbn in Hf.
      rewrite Hl in Hf. rewrite <- (app_nil_r (fetched s)) in Hf at 2. by apply app_inv_head in Hf. }
  unfold ValidateToken. destruct (negb (patKeys p) || _).
  { eexists _, _, []. rewrite app_nil_r. split; [by apply run_bind_err|]. split_and!; [done|cbn; lia|done]. }
  erewrite run_bind by done. unfold validatePAT.
  assert (Hj : exists s' r l, jwt_Parse token (keyfunc p) (pat_options p) s = (s', Returned r) /\ fetched s' = fetched s ++ l /\ (length l <= 2)%nat /\
    (keys s <> None -> minRefresh p <= jwksCacheTTL -> (forall e, (auth_now e).2 - fetchedAt s < minRefresh p) -> l = [])).
  { unfold jwt_Parse. destruct (jwt_header _ token) as [header|e] eqn:Eh.
    - erewrite run_bind by done. destruct (Hkf header) as (s' & [k|e] & l & Er & Hr).
      + erewrite run_bind by (by apply run_on_err). unfold mbind, Prog_bind, Now. destruct (auth_now (env s')) as [e t].
        eexists _, _, l. split; [done|exact Hr].
      + eexists s', _, l. split; [apply run_bind_err; by apply run_on_err_err|exact Hr].
    - eexists _, _, []. rewrite app_nil_r. split; [by apply run_bind_err|]. split_and!; [done|cbn; lia|done]. }
  destruct Hj as (s' & [claims|e] & l & Er & Hr).
  - erewrite run_bind by (by apply run_on_err). cbv zeta. destruct (String.eqb (string_claim claims "sub") "") eqn:E1.
    { eexists s', _, l. split; [by apply run_bind_err|exact Hr]. }
    erewrite run_bind by done. destruct (String.eqb (string_claim claims "jti") "") eqn:E2.
    { eexists s', _, l. split; [by apply run_bind_err|exact Hr]. }
    erewrite run_bind by done. eexists s', _, l. split; [done|exact Hr].
  - eexists s', _, l. split; [apply run_bind_err; by apply run_on_err_err|exact Hr].
Qed.

Lemma refresh_outage m (s : auth_state E) : (forall e, exists err, (GetJwks e).2 = Err err) ->
  (forall e, m <= (auth_now e).2 - fetchedAt s) ->
  exists s' err, refresh m s = (s', Returned (Err err)) /\ keys s' = keys s /\ fetchedAt s' = fetchedAt s /\
    length (fetched s') = S (length (fetched s)).
Proof.
  intros Hg Ht. unfold refresh. erewrite run_bind by done. cbn [fst snd].
  destruct (run_age false (fun d => d <? m) s) as [e1 Ea]. erewrite run_bind by exact Ea. clear Ea. cbv beta.
  replace (match keys s with Some _ => _ | None => false end) with false
    by (destruct (keys s); [symmetry; by apply Z.ltb_ge|done]).
  destruct (GetJwks e1) as [e2 rep] eqn:Eg. destruct (Hg e1) as [err He]. rewrite Eg in He. cbn in He. subst.
  eexists _, _. split; [apply run_bind_err, run_on_err_err; unfold call_GetJwks; cbn; by rewrite Eg|].
  cbn. rewrite length_app. cbn. split_and!; [done..|lia].
Qed.

(** The throttle counts successful fetches only: while the patissuer plugin
    fails, every call with an unknown key id asks it again. *)
Theorem key_outage_unthrottled m kid ks (s : auth_state E) : keys s = Some ks -> ks !! kid = None ->
  (forall e, exists err, (GetJwks e).2 = Err err) -> (forall e, m <= (auth_now e).2 - fetchedAt s <= jwksCacheTTL) ->
  exists s' err, key m kid s = (s', Returned (Err err)) /\ keys s' = Some ks /\ fetchedAt s' = fetchedAt s /\
    length (fetched s') = S (length (fetched s)).
Proof.
  intros Hk Hn Hg Ht. unfold key. erewrite run_bind by done. cbn [fst snd].
  destruct (run_age true (fun d => jwksCacheTTL <? d) s) as [e0 Ea]. erewrite run_bind by exact Ea. clear Ea. cbv beta.
  rewrite Hk. pose proof (Ht (env s)). destruct (Z.ltb_spec jwksCacheTTL ((auth_now (env s)).2 - fetchedAt s)); [lia|].
  erewrite run_bind by done. cbn [fst snd]. assert (find_key (Some ks) kid = None) as -> by exact Hn.
  erewrite run_bind by apply run_Since. cbn [env keys fetchedAt fetched]. pose proof (Ht e0).
  destruct (Z.ltb_spec ((auth_now e0).2 - fetchedAt s) m); [lia|].
  set (s1 := mkState _ _ _ _). destruct (refresh_outage m s1 Hg) as (s2 & err & Er & Hkk & Hff & Hf); [intros e; apply Ht|].
  exists s2, err. split; [by apply run_bind_err|done].
Qed.

(** ** Service tokens *)

Lemma hasRequiredScopes_spec c scopes : hasRequiredScopes c scopes = true <-> Forall (fun x => x ∈ Fields (Scope c)) scopes.
Proof.
  unfold hasRequiredScopes. rewrite forallb_forall, Forall_forall. setoid_rewrite bool_decide_eq_true. setoid_rewrite elem_of_list_to_set.
  split; intros Hs x Hx; apply Hs; by apply list_elem_of_In.
Qed.

(** C13: [ValidateServiceToken] authorizes exactly the unexpired machine tokens
    that Auth0 validated, of an allowlisted client, issued by the client
    credentials grant, that carry every one of the required scopes, of which
    there must be one; the client it reports is the token's subject without
    [@clients]. *)
Theorem ValidateServiceToken_authorized p req (s s' : auth_state E) resp :
  ValidateServiceToken p req s = (s', Returned (Ok resp)) <->
  exists claims custom,
    validateAuth0Token (svc_Token req) s = (s', Returned (Ok claims)) /\
    resp = mkServiceResponse true (svc_ClientId resp) /\ Subject claims = svc_ClientId resp +:+ "@clients" /\
    svc_ClientId resp <> "" /\ svc_ClientId resp ∈ serviceClientIDs p /\ 0 < Expiry claims /\
    CustomClaims claims = Some custom /\ GrantType custom = "client-credentials" /\
    svc_RequiredScopes req <> [] /\ Forall (fun x => x ∈ Fields (Scope custom)) (svc_RequiredScopes req).
Proof.
  unfold ValidateServiceToken. split.
  - intros Hv. inv_run. destruct (CutSuffix _ _) as [id|] eqn:Ec; [|done]. inv_run.
    destruct (CustomClaims _) as [custom|] eqn:Eu; [|done]. inv_run. cbn [svc_ClientId].
    match goal with Hg : negb _ || negb _ = false |- _ => apply orb_false_iff in Hg as [Hg1 Hg2]; apply negb_false_iff in Hg1, Hg2 end.
    repeat match goal with
    | Hx : String.eqb _ "" = false |- _ => apply String.eqb_neq in Hx
    | Hx : negb (bool_decide _) = false |- _ => apply negb_false_iff, bool_decide_eq_true in Hx
    | Hx : (_ <=? 0) = false |- _ => apply Z.leb_gt in Hx
    end.
    apply String.eqb_eq in Hg1. apply hasRequiredScopes_spec in Hg2. apply CutSuffix_Some in Ec.
    eexists _, custom. split; [eassumption|]. split_and!; try done. by destruct (svc_RequiredScopes req).
  - intros (claims & custom & Hv & -> & Hsub & Hne & Hin & Hexp & Hcu & Hg & Hsc & Hall). cbn [svc_ClientId] in *.
    destruct (svc_RequiredScopes req) as [|x l] eqn:Es; [done|]. rewrite <- Es in *.
    erewrite run_bind by done. erewrite run_bind by (by apply run_on_err). cbv beta.
    destruct (Z.leb_spec (Expiry claims) 0); [lia|]. erewrite run_bind by done. cbv beta.
    rewrite Hsub, CutSuffix_append. apply String.eqb_neq in Hne as Hb. rewrite Hb. erewrite run_bind by done. cbv beta.
    rewrite bool_decide_eq_true_2 by done. erewrite run_bind by done. cbv beta. rewrite Hcu.
    unfold hasClientCredentialsGrant. rewrite Hg. cbn [String.eqb negb orb]. 
    apply hasRequiredScopes_spec in Hall as ->. by erewrite run_bind by done.
Qed.

End Spec.

(** ** A patissuer plugin with one key *)

Module Runs.

Definition hex (s : string) : list Z := match Hex.DecodeString s with Ok b => b | Err _ => [] end.

(** The base point of P-256. *)
Definition jwks_doc : string :=
  print (JObj [("keys", JArr [JObj
    [("kty", JStr "EC"); ("crv", JStr "P-256"); ("kid", JStr "v1");
     ("x", JStr (RawURL.EncodeToString (hex "6b17d1f2e12c4247f8bce6e563a440f277037d812deb33a0f4a13945d898c296")));
     ("y", JStr (RawURL.EncodeToString (hex "4fe342e2fe1a7f9b8ee7eb4a7c0f9e162bce33576b315ececbb6406837bf51f5")))]])]).

Definition iss_payload : string := print (JObj [("iss", JStr "orbitport")]).
Definition pat : string := "h." +:+ RawURL.EncodeToString (bytes_of_string iss_payload) +:+ ".s".

Definition pat_claims : list (string * json) := [("sub", JStr "acme"); ("jti", JStr "t1")].

(** A library that verifies any token under the listed key before time 100. *)
#[export] Instance one_key : AuthEnv unit unit :=
  {| auth_now := fun e => (e, 50);
     GetJwks := fun e => (e, Ok jwks_doc);
     jwt_header := fun _ _ => Ok [("kid", JStr "v1")];
     jwt_claims := fun _ _ k now => if on_curve k && (now <? 100) then Ok pat_claims else Err ErrTokenExpired;
     auth0_keys := fun e => (e, Ok tt);
     auth0_ValidateToken := fun _ e _ =>
       (e, Ok (mkValidatedClaims 100 "gateway@clients" (Some (mkServiceClaims "kms.read kms.write" "client-credentials")))) |}.

Definition plugin : Plugin := mkPlugin "orbitport" "orbitport-api" true jwksMinRefresh {["gateway"]}.
Definition boot : auth_state unit := mkState tt None 0 [].
Definition validated : auth_state unit := Eval vm_compute in (ValidateToken plugin pat boot).1.

Lemma ValidateToken_sound_witness : cache_ok boot /\
  exists header claims k ks doc now,
    jwt_header ["ES256"] pat = Ok header /\ string_claim header "kid" <> "" /\
    Ok doc ∈ fetched validated /\ parseJWKS doc = Ok ks /\ ks !! string_claim header "kid" = Some k /\ on_curve k = true /\
    jwt_claims (mkOptions ["ES256"] "orbitport" "orbitport-api" true minute) pat k now = Ok claims /\
    mkTokenResponse true "acme" "t1" "" =
      mkTokenResponse true (string_claim claims "sub") (string_claim claims "jti") (string_claim claims "kms_tenant") /\
    "acme" <> "" /\ "t1" <> "".
Proof.
  assert (Hb : cache_ok boot) by (intros ks; discriminate). split; [exact Hb|].
  destruct (ValidateToken_sound plugin pat boot validated (mkTokenResponse true "acme" "t1" "") Hb) as (_ & _ & _ & Hr).
  - vm_compute. reflexivity.
  - exact Hr.
Defined.

Example gateway_service :
  (ValidateServiceToken plugin (mkServiceRequest "tok" ["kms.write"]) boot).2 = Returned (Ok (mkServiceResponse true "gateway")) /\
  (ValidateServiceToken plugin (mkServiceRequest "tok" ["kms.admin"]) boot).2 = Returned (Err not_authorized).
Proof. split; vm_compute; reflexivity. Qed.

End Runs.
