(* ===== verification/AuthRefresh.v ===== *)
(** * The key cache of the auth plugin under concurrent calls (auth/pat.go)

    Many requests validate tokens at once and [refresh] the same cache. Here
    [jwksCache.refresh] is a [Flight]; a run of [Auth.refresh] is the run of one
    goroutine. *)

From S2P Require Import Prelude GoStrings Errors State Codec Http P256 Auth AuthSpec SingleFlight.

(** What the cache holds: [keys] and [fetchedAt]. *)
Definition cached : Type := option (gmap string PublicKey) * Z.

(** The check under [refreshMu] is the only one, callers read the cache
    themselves, and nothing drops the keys: a run has no [Invalidate]. *)
Definition jwks_flight (minRefresh : Z) : Flight cached unit (result string) :=
  mkFlight (fun _ => tt)
    (fun c now => match c.1 with None => false | Some _ => now - c.2 <? minRefresh end)
    (fun resp now =>
       doc ← map_err (fun err => Wrap2 "%w: fetching JWKS from patissuer plugin: %v" errIssuerUnavailable (Printed err)) resp;
       ks ← parseJWKS doc;
       Ok (Some ks, now))
    false false (None, 0).

#[export] Instance jwks_laws m : FlightLaws (jwks_flight m).
Proof.
  split; [|done]. intros [[ks|] f] t t' Ht; cbn; [|done]. rewrite !Z.ltb_lt. lia.
Qed.

Section Throttle.
Context (m : Z).

Abbreviation F := (jwks_flight m).

(** The keys that are fetched are stored with the time of their reply. *)
Lemma receive_Ok resp now c : receive F resp now = Ok c -> c.1 <> None /\ c.2 = now.
Proof. cbn. destruct resp as [doc|e]; cbn; [|done]. by destruct (parseJWKS doc); cbn; intros; simplify_eq. Qed.

Definition timed (t : Z) (s : system cached unit) : Prop :=
  t <= clock s /\ Forall (fun c : cached => c.1 <> None /\ t <= c.2 <= clock s) (fetched s).

Lemma timed_act t a s s' : locked s -> timed t s -> act F a s = Some s' -> timed t s'.
Proof.
  intros Hl [Ht Hf] Ha. apply act_inv in Ha; [|done]. destruct a as [d| |i|i rep|]; unfold timed.
  - destruct Ha as [Hd ->]. cbn. split; [lia|]. eapply Forall_impl; [exact Hf|]. cbn. intros c [? ?]. split; [done|lia].
  - by subst s'.
  - by destruct Ha as (p & q & _ & _ & ->).
  - destruct Ha as [_ Ha]. destruct (receive F rep (clock s)) as [c|e] eqn:Er; subst s'; [|done]. cbn.
    apply receive_Ok in Er as [? ?]. split; [done|]. apply Forall_app. split; [done|]. constructor; [|done]. split; [done|lia].
  - by subst s'.
Qed.

Lemma timed_acts t l v s : acts F l (started v t) = Some s -> timed t s.
Proof.
  intros Ha. apply (acts_ind F (timed t) (fun _ => True)) with (l := l) (s := started v t); [| | | |done].
  - intros a s1 s2 Hl _. by apply timed_act.
  - apply locked_started.
  - by apply Forall_true.
  - split; [cbn; lia|]. by constructor.
Qed.

(** C23: the cache asks the patissuer plugin at a bounded rate. Along every
    interleaving of requests, replies and failures, two replies whose keys are
    stored are at least [minRefresh] apart, so [n] of them take at least
    [n - 1] times that long, however many requests ask for unknown keys. *)
Theorem refresh_throttled l v t s : no_invalidate l -> acts (jwks_flight m) l (started v t) = Some s ->
  (forall k1 k2 c1 c2, (k1 < k2)%nat -> fetched s !! k1 = Some c1 -> fetched s !! k2 = Some c2 -> c1.2 + m <= c2.2) /\
  (fetched s <> [] -> (Z.of_nat (length (fetched s)) - 1) * m <= clock s - t).
Proof.
  intros Hn Ha. pose proof (timed_acts t l v s Ha) as [_ Hf]. rewrite Forall_lookup in Hf.
  destruct (fetches_spaced F l (started v t) s) as [Hsp _]; [apply locked_started|done..|].
  assert (forall k1 k2 c1 c2, (k1 < k2)%nat -> fetched s !! k1 = Some c1 -> fetched s !! k2 = Some c2 -> c1.2 + m <= c2.2) as Hgap.
  { intros k1 k2 c1 c2 Hk H1 H2. destruct (Hsp k1 k2 c1 c2) as (rep & t' & _ & Hr & Hs); [cbn; lia|done..|].
    apply receive_Ok in Hr as [_ ->]. destruct (Hf k1 c1 H1) as [Hk1 _]. cbn in Hs. destruct c1.1; [|done].
    apply Z.ltb_ge in Hs. lia. }
  split; [exact Hgap|]. intros Hne.
  assert (forall k c, fetched s !! k = Some c -> t + Z.of_nat k * m <= c.2) as Hk.
  { induction k as [|k IH]; intros c Hc; [destruct (Hf _ _ Hc); lia|].
    destruct (lookup_lt_is_Some_2 (fetched s) k) as [c' Hc']; [apply lookup_lt_Some in Hc; exact (Nat.lt_succ_l _ _ Hc)|].
    specialize (IH c' Hc'). pose proof (Hgap k (S k) c' c ltac:(lia) Hc' Hc). lia. }
  destruct (fetched s) as [|c0 l0] eqn:Ef; [done|]. rewrite <- Ef in *.
  destruct (lookup_lt_is_Some_2 (fetched s) (length (fetched s) - 1)) as [c Hc]; [rewrite Ef; cbn; lia|].
  specialize (Hk _ c Hc). destruct (Hf _ _ Hc). assert (length (fetched s) > 0)%nat by (rewrite Ef; cbn; lia).
  replace (Z.of_nat (length (fetched s)) - 1) with (Z.of_nat (length (fetched s) - 1)) by lia. lia.
Qed.

End Throttle.

(** ** One call alone *)

Section Alone.
Context (m : Z).

Abbreviation F := (jwks_flight m).

(** The steps of a goroutine that is alone: the check is at [t1], and the reply
    comes at [t2]. *)
Definition alone_fresh (t0 t1 : Z) : list (action (result string)) :=
  [Call; Step 0; Step 0; Tick (t1 - t0); Step 0]%nat.

Definition alone_stale (t0 t1 t2 : Z) (resp : result string) : list (action (result string)) :=
  alone_fresh t0 t1 ++ [Tick (t2 - t1); Reply 0 resp]%nat ++ (if receive F resp t2 then [Step 0%nat] else []).

Lemma acts_fresh c t0 t1 : t0 <= t1 ->
  acts F (alone_fresh t0 t1) (started c t0) =
  Some (if is_fresh F c t1 then mkSystem t1 c None [Finished (Ok tt)] [] else mkSystem t1 c (Some 0%nat) [Fetching] []).
Proof.
  intros Ht. unfold alone_fresh, acts, act, started. cbn -[is_fresh Z.leb Z.add Z.sub].
  rewrite (proj2 (Z.leb_le 0 (t1 - t0))) by lia. cbn -[is_fresh Z.leb Z.add Z.sub]. unfold check.
  cbn [shared clock goroutines]. replace (t0 + (t1 - t0)) with t1 by lia. by destruct (is_fresh F c t1).
Qed.

Lemma acts_app l1 l2 (s : system cached unit) : acts F (l1 ++ l2) s = (s' ← acts F l1 s; acts F l2 s').
Proof. revert s. induction l1 as [|a l1 IH]; intros s; [done|]. cbn. destruct (act F a s); cbn; auto. Qed.

Lemma acts_stale c t0 t1 t2 resp : t0 <= t1 -> t1 <= t2 -> is_fresh F c t1 = false ->
  acts F (alone_stale t0 t1 t2 resp) (started c t0) =
  Some (match receive F resp t2 with
        | Ok c' => mkSystem t2 c' None [Finished (Ok tt)] [c']
        | Err e => mkSystem t2 c None [Finished (Err e)] []
        end).
Proof.
  intros Ht1 Ht2 Hs. unfold alone_stale. rewrite acts_app, acts_fresh, Hs by done. cbn [mbind option_bind].
  cbn -[receive Z.leb Z.add Z.sub]. rewrite (proj2 (Z.leb_le 0 (t2 - t1))) by lia. cbn -[receive Z.leb Z.add Z.sub].
  replace (t1 + (t2 - t1)) with t2 by lia. by destruct (receive F resp t2).
Qed.

Lemma no_invalidate_alone t0 t1 t2 resp : no_invalidate (alone_fresh t0 t1) /\ no_invalidate (alone_stale t0 t1 t2 resp).
Proof. unfold alone_stale, alone_fresh. split; [|destruct (receive _ _ _)]; repeat constructor; discriminate. Qed.

Context {E K : Type} `{AuthEnv E K}.
(** The time in an environment does not go back. *)
Context (time : E -> Z).
Context (now_time : forall e, time e <= (auth_now e).2 /\ (auth_now e).2 <= time (auth_now e).1).
Context (jwks_time : forall e, time e <= time (GetJwks e).1).

(** The check: fresh keys cost one reading of the clock, and no keys none. *)
Lemma run_check (s : auth_state E) : exists e t1, time (env s) <= t1 /\ t1 <= time e /\
  (match keys s with None => mret false | Some _ => d ← Since (fetchedAt s); mret (d <? m) end : Prog (auth_state E) bool) s =
  (mkState e (keys s) (fetchedAt s) (Auth.fetched s), Returned (Ok (is_fresh F (keys s, fetchedAt s) t1))).
Proof.
  cbn. destruct (keys s) as [ks|] eqn:Ek.
  - erewrite run_bind by apply run_Since. destruct (now_time (env s)). rewrite Ek. eexists _, _. by split_and!.
  - exists (env s), (time (env s)). split_and!; [lia..|]. unfold mret, Prog_ret. destruct s; cbn in *. by subst.
Qed.

(** The model of one call and the flight agree: some run of a lone goroutine
    takes the same time, answers the same and leaves the same cache. *)
Theorem refresh_simulated (s : auth_state E) : exists s' r l sys, refresh m s = (s', Returned r) /\
  no_invalidate l /\ acts F l (started (keys s, fetchedAt s) (time (env s))) = Some sys /\
  goroutines sys = [Finished r] /\ shared sys = (keys s', fetchedAt s') /\ clock sys <= time (env s').
Proof.
  unfold refresh. erewrite run_bind by done. cbn [fst snd].
  destruct (run_check s) as (e & t1 & Ht0 & Ht1 & Ec). erewrite run_bind by exact Ec. clear Ec.
  destruct (is_fresh F (keys s, fetchedAt s) t1) eqn:Ef.
  { eexists _, _, (alone_fresh (time (env s)) t1), _. split; [done|]. split; [exact (proj1 (no_invalidate_alone _ _ 0 (Ok "")))|].
    rewrite acts_fresh, Ef by done. split; [done|]. cbn. by split_and!. }
  cbv beta iota. pose proof (jwks_time e) as He. destruct (GetJwks e) as [e1 resp] eqn:Eg. cbn in He.
  pose proof (now_time e1) as Hn. destruct (auth_now e1) as [e2 t2] eqn:En. cbn in Hn.
  assert (forall t, t1 <= t -> acts F (alone_stale (time (env s)) t1 t resp) (started (keys s, fetchedAt s) (time (env s))) = _) as Ha
    by (intros t Ht; by apply acts_stale).
  unfold on_err, call_GetJwks, mbind at 1, Prog_bind. cbn [env keys fetchedAt Auth.fetched]. rewrite Eg. cbn [receive] in Ha.
  destruct resp as [doc|err]; cbn [map_err] in *.
  - unfold lift, mbind at 1, Prog_bind. destruct (parseJWKS doc) as [ks|err] eqn:Ep.
    + unfold Now, modify, mbind, Prog_bind. cbn [env keys fetchedAt Auth.fetched]. rewrite En.
      eexists _, _, (alone_stale (time (env s)) t1 t2 _), _. split; [done|]. split; [apply no_invalidate_alone|]. rewrite (Ha t2) by lia. cbn. rewrite Ep.
      split; [reflexivity|]. cbn. split_and!; [done..|lia].
    + eexists _, _, (alone_stale (time (env s)) t1 t1 _), _. split; [done|]. split; [apply no_invalidate_alone|]. rewrite (Ha t1) by lia. cbn. rewrite Ep.
      split; [reflexivity|]. cbn. split_and!; [done..|lia].
  - eexists _, _, (alone_stale (time (env s)) t1 t1 _), _. split; [done|]. split; [apply no_invalidate_alone|]. rewrite (Ha t1) by lia. cbn.
    split; [reflexivity|]. cbn. split_and!; [done..|lia].
Qed.

End Alone.

(** ** Requests for an unknown key *)

Module Runs.

Definition jwks_reply : result string := Ok AuthSpec.Runs.jwks_doc.

(** Three goroutines ask; a reply with the keys serves the second of them too,
    the third asks again after [minRefresh]. *)
Definition callers : list (action (result string)) :=
  [Call; Call; Step 0; Step 1; Step 0; Step 0; Reply 0 (Err (Errorf "down" [])); Step 1; Step 1; Tick second; Reply 1 jwks_reply; Step 1;
   Call; Step 2; Step 2; Step 2; Tick jwksMinRefresh; Call; Step 3; Step 3; Step 3; Tick second; Reply 3 jwks_reply; Step 3]%nat.

Definition served : system cached unit :=
  Eval vm_compute in default (started (None, 0) 0) (acts (jwks_flight jwksMinRefresh) callers (started (None, 0) 0)).

Example callers_run : map snd (fetched served) = [second; jwksMinRefresh + 2 * second] /\
  map (fun p => match p with Finished r => Some (is_ok r) | _ => None end) (goroutines served) =
  [Some false; Some true; Some true; Some true].
Proof. split; vm_compute; reflexivity. Qed.

Lemma refresh_throttled_witness : (2 - 1) * jwksMinRefresh <= clock served - 0.
Proof.
  refine ((proj2 (refresh_throttled jwksMinRefresh callers (None, 0) 0 served _ _)) _).
  - repeat constructor; discriminate.
  - vm_compute. reflexivity.
  - discriminate.
Defined.

End Runs.
