(* ===== verification/PatIssuer.v ===== *)
(** * The patissuer plugin (pkg/plugin/patissuer)

    Personal access tokens are minted as compact JWS under a P-256 key, held in
    memory or by OpenBao Transit, whose public keys are served as a JWK set. The
    OpenBao proxy and the clock are the parameter [Net]; PEM and X.509 parsing,
    key generation and golang-jwt are the parameter [PatCrypto]. Timeouts are
    failed requests; logging is left out. *)

From S2P Require Import Prelude GoStrings Errors State Codec Sha2 Json Http P256.

(** ** config.go *)

Definition signerLocal := "local".
Definition signerTransit := "transit".

Record patissuerConfig := mkConfig {
  Issuer : string;
  Audience : string;
  Signer : string;
  LocalKeyPEM : string;
  MaxTTLDays : Z;
  OpenBaoProxyURL : string;
  TransitMount : string;
  TransitKey : string;
  TimeoutSecs : Z;
}.

Definition trimValue (value : string) : string := TrimSpace value.

(** [env_string] and [env_int] are the values viper finds. *)
Definition readFromEnv (env_string : string -> option string) (env_int : string -> option Z) : patissuerConfig :=
  mkConfig (trimValue (default "" (env_string "PATISSUER_ISS")))
    (trimValue (default "" (env_string "PATISSUER_AUD")))
    (trimValue (default signerLocal (env_string "PATISSUER_SIGNER")))
    (default "" (env_string "PATISSUER_LOCAL_KEY_PEM"))
    (default 370 (env_int "PATISSUER_MAX_TTL_DAYS"))
    (trimValue (default "" (env_string "PATISSUER_OPENBAO_PROXY_URL")))
    (trimValue (default "transit" (env_string "PATISSUER_TRANSIT_MOUNT")))
    (trimValue (default "pat-signing" (env_string "PATISSUER_TRANSIT_KEY")))
    (default 10 (env_int "PATISSUER_TIMEOUT_SECS")).

Definition validate (c : patissuerConfig) : result unit :=
  let missing := (if String.eqb (Issuer c) "" then ["ORBITPORT_PATISSUER_ISS"] else []) ++
                 (if String.eqb (Audience c) "" then ["ORBITPORT_PATISSUER_AUD"] else []) in
  _ ← reject (match missing with [] => false | _ => true end)
        (Errorf "FATAL: patissuer plugin missing required env vars: %s" [Join ", " missing]);
  _ ← reject (negb (String.eqb (Signer c) signerLocal) && negb (String.eqb (Signer c) signerTransit))
        (Errorf "ORBITPORT_PATISSUER_SIGNER must be %q or %q, got %q" [signerLocal; signerTransit; Signer c]);
  _ ← (if String.eqb (Signer c) signerTransit then
         _ ← reject (String.eqb (OpenBaoProxyURL c) "")
               (Errorf "FATAL: ORBITPORT_PATISSUER_OPENBAO_PROXY_URL is required when ORBITPORT_PATISSUER_SIGNER=transit" []);
         _ ← reject (String.eqb (TransitMount c) "" || String.eqb (TransitKey c) "")
               (Errorf "ORBITPORT_PATISSUER_TRANSIT_MOUNT and ORBITPORT_PATISSUER_TRANSIT_KEY must be non-empty" []);
         reject (TimeoutSecs c <=? 0) (Errorf "ORBITPORT_PATISSUER_TIMEOUT_SECS must be > 0" [])
       else Ok tt);
  reject (MaxTTLDays c <=? 0) (Errorf "ORBITPORT_PATISSUER_MAX_TTL_DAYS must be > 0" []).

(** ** Parsed keys *)

(** What [x509.ParsePKIXPublicKey] and [x509.ParsePKCS8PrivateKey] return. *)
Inductive parsed_key (K : Type) :=
| ECKey (curve : string) (k : K)
| OtherKey.
Arguments ECKey {K} curve k.
Arguments OtherKey {K}.

Definition P256_name := "P-256".

(** [pem_Decode] is the first block of a PEM text; a private key of type
    [PrivateKey] has the curve and public key [public_of]. *)
Class PatCrypto (PrivateKey : Type) := {
  pem_Decode : string -> option string;
  ParsePKIXPublicKey : string -> result (parsed_key PublicKey);
  ParseECPrivateKey : string -> result PrivateKey;
  ParsePKCS8PrivateKey : string -> result (parsed_key PrivateKey);
  MarshalPKIXPublicKey : string -> PublicKey -> result (list Z);
  public_of : PrivateKey -> string * PublicKey;
  SignedString : PrivateKey -> list (string * json) -> list (string * json) -> result string;
}.

(** ** The claims: a map, which [json.Marshal] prints in the order of its keys *)

Definition sorted_object (l : list (string * json)) : json := JObj (isort (fun a b => String.leb a.1 b.1) l).

(** ** transit.go *)

Record transitSigner := mkTransitSigner { baseURL : string; mount : string; keyName : string }.

Definition newTransitSigner (cfg : patissuerConfig) : transitSigner :=
  mkTransitSigner (TrimRightChar "/" (OpenBaoProxyURL cfg)) (TransitMount cfg) (TransitKey cfg).

Record keyInfo := mkKeyInfo { Type_ : string; LatestVersion : Z; PublicKeys : gmap Z string }.

Definition jwsAlg (keyType : string) : result string :=
  if String.eqb keyType "ecdsa-p256" then Ok "ES256"
  else Err (Errorf "unsupported transit key type %q (vetted: ecdsa-p256)" [keyType]).

Definition jwsHeader_json (alg typ kid : string) : json :=
  JObj [("alg", JStr alg); ("typ", JStr typ); ("kid", JStr kid)].

Definition transitSignRequest_json (input : string) (prehashed : bool) (marshaling : string) (keyVersion : Z) : json :=
  JObj [("input", JStr input); ("prehashed", JBool prehashed);
        ("marshaling_algorithm", JStr marshaling); ("key_version", JNum (pretty keyVersion))].

Definition truncate (s : string) (n : nat) : string := if (String.length s <=? n)%nat then s else take_chars n s.

(** [io.LimitReader(resp.Body, 1<<20)] *)
Definition limit : Z := 2 ^ 20.
Definition limited (body : string) : string :=
  if Z.of_nat (String.length body) <=? limit then body else take_chars (Z.to_nat limit) body.

(** [enc.DecodeString(raw)] for the first encoding that accepts it. *)
Definition any_encoding (raw : string) : option (list Z) :=
  match RawURL.DecodeString raw, URLEncoding_DecodeString raw, RawStdEncoding_DecodeString raw, Base64.DecodeString raw with
  | Ok b, _, _, _ | Err _, Ok b, _, _ | Err _, Err _, Ok b, _ | Err _, Err _, Err _, Ok b => Some b
  | _, _, _, _ => None
  end.

(** [strings.SplitN(signature, ":", 3)]: the third part is the rest. *)
Definition SplitN3 (s : string) : option (string * string * string) :=
  match Split ":" s with
  | a :: b :: c :: rest => Some (a, b, Join ":" (c :: rest))
  | _ => None
  end.

Definition stripVaultEnvelope (signature : string) : result string :=
  match SplitN3 signature with
  | Some (vault, _, raw) =>
      if String.eqb vault "vault" then
        match any_encoding raw with
        | Some decoded => Ok (RawURL.EncodeToString decoded)
        | None => Err (Errorf "transit signature is not valid base64" [])
        end
      else Err (Errorf "unexpected transit signature envelope" [])
  | None => Err (Errorf "unexpected transit signature envelope" [])
  end.

(** The reply to a key read; [Keys] is kept raw. *)
Record keyRead := mkKeyRead { kr_Type : string; kr_LatestVersion : Z; kr_Keys : option json }.

Definition keyRead_fields : list (field keyRead) :=
  [fld "type" kr_Type (fun x r => mkKeyRead x (kr_LatestVersion r) (kr_Keys r)) dec_string;
   fld "latest_version" kr_LatestVersion (fun x r => mkKeyRead (kr_Type r) x (kr_Keys r)) dec_int;
   fld "keys" kr_Keys (fun x r => mkKeyRead (kr_Type r) (kr_LatestVersion r) x) (fun v _ => Ok (Some v))].

Definition keyRead_data : list (field keyRead) :=
  [fld "data" (fun r => r) (fun x _ => x) (dec_struct keyRead_fields)].

Definition publicKey_fields : list (field string) := [fld "public_key" (fun s => s) (fun x _ => x) dec_string].

(** [map[string]struct{PublicKey}]: each member is decoded on its own. *)
Definition dec_rawKeys : decoder (list (string * string)) := fun v r =>
  match v with
  | JObj l => fold_left (fun m kv => m ← m; x ← dec_struct publicKey_fields kv.2 ""; Ok (assoc_insert kv.1 x m)) l (Ok r)
  | JNull => Ok []
  | _ => Err UnmarshalTypeError
  end.

Definition signature_fields : list (field string) := [fld "signature" (fun s => s) (fun x _ => x) dec_string].
Definition signature_data : list (field string) := [fld "data" (fun s => s) (fun x _ => x) (dec_struct signature_fields)].

(** The loop over the key versions of a read; the last of two spellings of one
    version wins. *)
Definition add_key (m : gmap Z string) (kv : string * string) : gmap Z string :=
  match Atoi kv.1 with
  | None => m
  | Some v => if String.eqb kv.2 "" then m else <[v := kv.2]> m
  end.

Record state (E : Type) := mkState { net : E; calls : list http_request }.
Arguments mkState {E} net calls.
Arguments net {E} s.
Arguments calls {E} s.

Record localSigner (PrivateKey : Type) := mkLocalSigner { key : PrivateKey; kid : string }.
Arguments mkLocalSigner {PrivateKey} key kid.
Arguments key {PrivateKey} l.
Arguments kid {PrivateKey} l.

(** The implementations of the interface [signer]. *)
Inductive signer (PrivateKey : Type) :=
| Local (s : localSigner PrivateKey)
| Transit (s : transitSigner).
Arguments Local {PrivateKey} s.
Arguments Transit {PrivateKey} s.

Definition jwk_json (alg kid : string) (x y : list Z) : json :=
  JObj [("alg", JStr alg); ("crv", JStr "P-256"); ("kid", JStr kid); ("kty", JStr "EC"); ("use", JStr "sig");
        ("x", JStr (RawURL.EncodeToString x)); ("y", JStr (RawURL.EncodeToString y))].

Record IssueTokenRequest := mkIssueRequest { iss_Jti : string; iss_Subject : string; iss_KmsTenant : string; iss_ExpiresAt : Z }.
Record IssueTokenResponse := mkIssueResponse { iss_Ok : bool; iss_Token : string }.

(** [time.Unix(sec, 0)] in nanoseconds; the seconds since year 1 are an [int64]. *)
Definition unixToInternal : Z := 62135596800.
Definition time_Unix (sec : Z) : Z := (i64 (sec + unixToInternal) - unixToInternal) * second.
Definition Unix (t : Z) : Z := t / second.

Section PatIssuer.
Context {E PrivateKey : Type} `{Net E} `{PatCrypto PrivateKey}.

(** The order in which a Go map is visited. *)
Variable map_order : list (string * string) -> list (string * string).

(** [t.AddDate(0, 0, days)] in the zone of the process. *)
Variable AddDays : Z -> Z -> Z.

Abbreviation A := (Prog (state E)).

Definition Now : A Z := fun s => let '(e, t) := time_now (net s) in (mkState e (calls s), Returned (Ok t)).

Definition send (req : http_request) : A http_reply := fun s =>
  let '(e, rep) := http_do (net s) req in (mkState e (calls s ++ [req]), Returned (Ok rep)).

Definition NewRequest (req : http_request) : A http_request :=
  match url_error (hr_URL req) with
  | Some msg => throw (Errorf "parse: %s" [msg])
  | None => mret req
  end.

(** [do], up to the decoding: at most 1 MiB of the body is read. *)
Definition do_ {R} (req : http_request) (d : decoder R) (zero : R) : A R :=
  rep ← send req;
  match rep with
  | HttpFailed msg => throw (Errorf "%s: %s" [hr_Method req; msg])
  | HttpResponse code full rd =>
      _ ← guard_err (match rd with Some _ => Z.of_nat (String.length full) <? limit | None => false end)
            (Errorf "read: %s" [default "" rd]);
      let body := limited full in
      _ ← guard_err ((code <? 200) || (300 <=? code)) (Errorf "openbao returned %d: %s" [pretty code; truncate body 200]);
      lift (Unmarshal d body zero)
  end.

Definition readKey (s : transitSigner) : A keyInfo :=
  let url := baseURL s +:+ "/v1/" +:+ mount s +:+ "/keys/" +:+ keyName s in
  req ← NewRequest (mkHttp "GET" url None None None);
  resp ← on_err (Wrapf "transit key read: %w" []) (do_ req (dec_struct keyRead_data) (mkKeyRead "" 0 None));
  rawKeys ← lift (map_err (Wrapf "parsing transit key versions: %w" [])
                    (match kr_Keys resp with
                     | None => Err SyntaxError
                     | Some v => dec_rawKeys v []
                     end));
  let pubKeys := fold_left add_key (map_order rawKeys) ∅ in
  _ ← guard_err (bool_decide (size pubKeys = 0%nat)) (Errorf "transit key %q has no public keys" [keyName s]);
  mret (mkKeyInfo (kr_Type resp) (kr_LatestVersion resp) pubKeys).

Definition parseECPublicKeyPEM (data : string) : result PublicKey :=
  match pem_Decode data with
  | None => Err (Errorf "no PEM block in transit public key" [])
  | Some block =>
      parsed ← map_err (Wrapf "parsing transit public key: %w" []) (ParsePKIXPublicKey block);
      match parsed with
      | OtherKey => Err (Errorf "transit public key is not EC" [])
      | ECKey curve pub =>
          if negb (String.eqb curve P256_name) then Err (Errorf "transit public key must be P-256" [])
          else Ok pub
      end
  end.

(** The string that is signed. *)
Definition signing_string (alg kid : string) (claims : list (string * json)) : string :=
  RawURL.EncodeToString (bytes_of_string (print (jwsHeader_json alg "JWT" kid))) +:+ "." +:+
  RawURL.EncodeToString (bytes_of_string (print (sorted_object claims))).

Definition sign_request (s : transitSigner) (signingString : string) (version : Z) : http_request :=
  mkHttp "POST" (baseURL s +:+ "/v1/" +:+ mount s +:+ "/sign/" +:+ keyName s +:+ "/sha2-256") None (Some "application/json")
    (Some (print (transitSignRequest_json (Base64.EncodeToString (bytes_of_string signingString)) false "jws" version))).

Definition transit_Mint (s : transitSigner) (claims : list (string * json)) : A string :=
  info ← readKey s;
  alg ← lift (jwsAlg (Type_ info));
  let signingString := signing_string alg (pretty (LatestVersion info)) claims in
  req ← NewRequest (sign_request s signingString (LatestVersion info));
  signature ← on_err (Wrapf "transit sign: %w" []) (do_ req (dec_struct signature_data) "");
  sig ← lift (stripVaultEnvelope signature);
  sigBytes ← lift (map_err (Wrapf "transit signature is not valid base64url: %w" []) (RawURL.DecodeString sig));
  _ ← guard_err (negb (length sigBytes =? 64)%nat)
        (Errorf "transit signature has wrong length: want 64 bytes (ES256 R||S), got %d" [pretty (Z.of_nat (length sigBytes))]);
  mret (signingString +:+ "." +:+ sig).

(** One entry of the key set. *)
Definition version_jwk (alg : string) (info : keyInfo) (v : Z) : result json :=
  pub ← map_err (Wrapf "key version %d: %w" [pretty v]) (parseECPublicKeyPEM (default "" (PublicKeys info !! v)));
  b ← map_err (Wrapf "key version %d: %w" [pretty v]) (Bytes pub);
  Ok (jwk_json alg (pretty v) (firstn 32 (skipn 1 b)) (skipn 33 b)).

Definition versions (info : keyInfo) : list Z := isort Z.leb (map fst (map_to_list (PublicKeys info))).

Definition transit_JWKS (s : transitSigner) : A string :=
  info ← readKey s;
  alg ← lift (jwsAlg (Type_ info));
  keys ← lift (all_ok (version_jwk alg info) (versions info));
  mret (print (JObj [("keys", JArr keys)])).

(** ** signer.go *)

Definition parseECPrivateKeyPEM (data : string) : result PrivateKey :=
  match pem_Decode data with
  | None => Err (Errorf "no PEM block found" [])
  | Some block =>
      match ParseECPrivateKey block with
      | Ok k => Ok k
      | Err _ =>
          parsed ← map_err (Wrapf "key is neither SEC1 nor PKCS#8 EC: %w" []) (ParsePKCS8PrivateKey block);
          match parsed with
          | OtherKey => Err (Errorf "PKCS#8 key is not an EC key" [])
          | ECKey curve k =>
              if negb (String.eqb curve P256_name) then Err (Errorf "EC key must be P-256, got %s" [curve]) else Ok k
          end
      end
  end.

Definition keyID (pub : string * PublicKey) : result string :=
  der ← map_err (Wrapf "marshaling public key: %w" []) (MarshalPKIXPublicKey pub.1 pub.2);
  Ok (Hex.EncodeToString (firstn 8 (Sum256 der))).

(** [GenerateKey] is the outcome of [ecdsa.GenerateKey]. *)
Definition newLocalSigner (GenerateKey : result PrivateKey) (keyPEM : string) : result (localSigner PrivateKey * bool) :=
  kg ← (if String.eqb keyPEM "" then
          k ← map_err (Wrapf "generating ephemeral signing key: %w" []) GenerateKey; Ok (k, true)
        else
          k ← map_err (Wrapf "parsing ORBITPORT_PATISSUER_LOCAL_KEY_PEM: %w" []) (parseECPrivateKeyPEM keyPEM); Ok (k, false));
  id ← keyID (public_of kg.1);
  Ok (mkLocalSigner kg.1 id, kg.2).

Definition local_Mint (s : localSigner PrivateKey) (claims : list (string * json)) : result string :=
  SignedString (key s) [("alg", JStr "ES256"); ("typ", JStr "JWT"); ("kid", JStr (kid s))] claims.

Definition local_JWKS (s : localSigner PrivateKey) : result string :=
  let '(curve, pub) := public_of (key s) in
  _ ← reject (negb (String.eqb curve P256_name)) (Errorf "unsupported curve %s" [curve]);
  b ← Bytes pub;
  Ok (print (JObj [("keys", JArr [jwk_json "ES256" (kid s) (firstn 32 (skipn 1 b)) (skipn 33 b)])])).

Definition Mint (s : signer PrivateKey) (claims : list (string * json)) : A string :=
  match s with Local s => lift (local_Mint s claims) | Transit s => transit_Mint s claims end.

Definition JWKS (s : signer PrivateKey) : A string :=
  match s with Local s => lift (local_JWKS s) | Transit s => transit_JWKS s end.

(** ** plugin.go *)

Record Plugin := mkPlugin { cfg : patissuerConfig; plugin_signer : signer PrivateKey }.

Definition NewPlugin (GenerateKey : result PrivateKey) (cfg : patissuerConfig) : result Plugin :=
  _ ← validate cfg;
  if String.eqb (Signer cfg) signerTransit then Ok (mkPlugin cfg (Transit (newTransitSigner cfg)))
  else sg ← newLocalSigner GenerateKey (LocalKeyPEM cfg); Ok (mkPlugin cfg (Local sg.1)).

Definition token_claims (p : Plugin) (req : IssueTokenRequest) (now : Z) : list (string * json) :=
  [("iss", JStr (Issuer (cfg p))); ("aud", JStr (Audience (cfg p))); ("sub", JStr (iss_Subject req));
   ("jti", JStr (iss_Jti req)); ("iat", JNum (pretty (Unix now))); ("exp", JNum (pretty (Unix (time_Unix (iss_ExpiresAt req)))))] ++
  (if String.eqb (iss_KmsTenant req) "" then [] else [("kms_tenant", JStr (iss_KmsTenant req))]).

Definition IssueToken (p : Plugin) (req : IssueTokenRequest) : A IssueTokenResponse :=
  _ ← guard_err (String.eqb (iss_Jti req) "") (StatusErr InvalidArgument (Errorf "jti is required" []));
  _ ← guard_err (String.eqb (iss_Subject req) "") (StatusErr InvalidArgument (Errorf "subject is required" []));
  now ← Now;
  let exp := time_Unix (iss_ExpiresAt req) in
  _ ← guard_err (negb (now <? exp)) (StatusErr InvalidArgument (Errorf "expires_at must be in the future" []));
  _ ← guard_err (AddDays now (MaxTTLDays (cfg p)) <? exp)
        (StatusErr InvalidArgument (Errorf "expires_at exceeds the %d-day ceiling" [pretty (MaxTTLDays (cfg p))]));
  token ← on_err (fun _ => StatusErr Internal (Errorf "signing failed" [])) (Mint (plugin_signer p) (token_claims p req now));
  mret (mkIssueResponse true token).

Definition GetJwks (p : Plugin) : A string :=
  on_err (fun _ => StatusErr Internal (Errorf "building JWKS failed" [])) (JWKS (plugin_signer p)).

End PatIssuer.
