(* ===== verification/PatIssuerSpec.v ===== *)
(** * What the patissuer plugin promises

    The lifetime of the tokens, the key version a token names, and that the auth
    plugin reads the tokens and the key sets the way this plugin writes them. *)

From S2P Require Import Prelude GoStrings Errors State Codec Sha2 Json Http P256 PatIssuer.
From S2P Require Auth AuthSpec.

(** ** Texts that JSON leaves alone *)

Lemma sanitize_raw b : Forall is_byte b -> sanitize (RawURL.EncodeToString b) = RawURL.EncodeToString b.
Proof.
  intros Hb. apply sanitize_valid, valid_utf8_ascii. eapply all_chars_impl; [|by apply RawURL.raw_Encode_chars].
  intros c. destruct c as [[] [] [] [] [] [] [] []]; vm_compute; done.
Qed.

Lemma sanitize_pretty (z : Z) : sanitize (pretty z) = pretty z.
Proof.
  apply sanitize_valid, valid_utf8_ascii. eapply all_chars_impl; [|apply pretty_Z_chars].
  intros c. destruct c as [[] [] [] [] [] [] [] []]; vm_compute; done.
Qed.

Lemma raw_free b : Forall is_byte b -> free_of "." (RawURL.EncodeToString b) = true.
Proof.
  intros Hb. unfold free_of. eapply all_chars_impl; [|by apply RawURL.raw_Encode_chars].
  intros c. destruct c as [[] [] [] [] [] [] [] []]; vm_compute; done.
Qed.

(** A text that decodes holds no dot. *)
Lemma raw_decoded_free s b : RawURL.DecodeString s = Ok b -> free_of "." s = true.
Proof.
  assert (Hc : forall c, Base64.newline c = true \/ is_Some (RawURL.decode_char c) -> negb (Ascii.eqb c ".") = true).
  { intros c [Hn|[v Hv]]; apply negb_true_iff, Ascii.eqb_neq; intros ->; by vm_compute in Hn || by vm_compute in Hv. }
  unfold RawURL.DecodeString, free_of. generalize 0, (@nil Z), b. clear b.
  induction s as [|c s IH]; intros pos q b Hd; [done|]. cbn [RawURL.decode_loop all_chars] in *.
  destruct (Base64.newline c) eqn:En; [apply andb_true_iff; split; [apply Hc; by left|by eapply IH]|].
  destruct (RawURL.decode_char c) as [v|] eqn:Ev; [|done]. apply andb_true_iff. split; [apply Hc; right; eauto|].
  destruct q as [|x [|y [|z [|w q]]]]; try by eapply IH.
  destruct (RawURL.decode_loop (pos + 1) [] s) eqn:Er; [by eapply IH|done].
Qed.

(** ** The auth plugin reads the claims of a token *)

Lemma unverifiedIssuer_signed h c sig iss : free_of "." sig = true ->
  wf_json c -> Z.of_nat (height c) <= maxNestingDepth -> dec_struct Auth.iss_fields (clean c) "" = Ok iss ->
  Auth.unverifiedIssuer ((RawURL.EncodeToString (bytes_of_string h) +:+ "." +:+
    RawURL.EncodeToString (bytes_of_string (print c))) +:+ "." +:+ sig) = iss.
Proof.
  intros Hs Hw Hh Hd. unfold Auth.unverifiedIssuer. rewrite !append_assoc.
  assert (Hdot : forall x : string, "." +:+ x = String "." x) by done. rewrite !Hdot.
  rewrite (Split_append "." (RawURL.EncodeToString (bytes_of_string h))) by apply raw_free, bytes_of_string_range.
  rewrite (Split_append ".") by apply raw_free, bytes_of_string_range. rewrite Split_free by done.
  rewrite RawURL.raw_Decode_Encode by apply bytes_of_string_range. rewrite string_of_bytes_of_string.
  by rewrite Unmarshal_print, Hd.
Qed.

Section Spec.
Context {E PrivateKey : Type} `{Net E} `{PatCrypto PrivateKey}.
Variable map_order : list (string * string) -> list (string * string).

Abbreviation A := (Prog (state E)).

(** ** Key sets *)

Definition key_of (info : keyInfo) (v : Z) : result PublicKey := parseECPublicKeyPEM (default "" (PublicKeys info !! v)).

Lemma jwk_clean alg kid x y : sanitize alg = alg -> sanitize kid = kid -> Forall is_byte x -> Forall is_byte y ->
  clean (jwk_json alg kid x y) = jwk_json alg kid x y.
Proof. intros Ha Hk Hx Hy. unfold jwk_json. cbn [clean map fst snd]. by rewrite Ha, Hk, !sanitize_raw. Qed.

Lemma jwk_decodes alg kid x y :
  dec_struct Auth.jwk_fields (jwk_json alg kid x y) Auth.jwk_zero =
  Ok (Auth.mkJwk "EC" "P-256" kid (RawURL.EncodeToString x) (RawURL.EncodeToString y)).
Proof. reflexivity. Qed.

(** The entry for a key parses to the key. *)
Lemma jwk_parses kid k b : Bytes k = Ok b -> kid <> "" ->
  Forall is_byte (firstn 32 (skipn 1 b)) /\ Forall is_byte (skipn 33 b) /\
  let j := Auth.mkJwk "EC" "P-256" kid (RawURL.EncodeToString (firstn 32 (skipn 1 b))) (RawURL.EncodeToString (skipn 33 b)) in
  Auth.signing_key j = true /\ Auth.parse_key j = Ok k.
Proof.
  intros Hb Hk. pose proof (Parse_Bytes k b Hb) as Hp. unfold Bytes in Hb. destruct (on_curve k); [|done].
  assert (b = 4 :: be_bytes 32 (key_X k) ++ be_bytes 32 (key_Y k)) as -> by congruence. clear Hb.
  change (skipn 1 (4 :: ?l)) with l. change (skipn 33 (4 :: ?l)) with (skipn 32 l).
  rewrite firstn_app, skipn_app, length_be_bytes, firstn_all2, skipn_all2, Nat.sub_diag, firstn_O, skipn_O, app_nil_r
    by (rewrite length_be_bytes; lia).
  change ([] ++ ?l) with l. split; [apply be_bytes_range|]. split; [apply be_bytes_range|]. cbv zeta. split.
  - unfold Auth.signing_key. cbn. by apply String.eqb_neq in Hk as ->.
  - unfold Auth.parse_key. cbn [Auth.X Auth.Y Auth.Kid].
    rewrite !RawURL.raw_Decode_Encode by apply be_bytes_range. cbn [map_err mbind result_bind]. by rewrite Hp.
Qed.

(** One key set, written version by version and read key by key. *)
Lemma jwks_loop info vs js ks0 : all_ok (version_jwk "ES256" info) vs = Ok js ->
  exists l ks, all_ok (fun x => dec_struct Auth.jwk_fields x Auth.jwk_zero) (map clean js) = Ok l /\
    Auth.keys_loop l ks0 = Ok ks /\
    forall kid k, ks !! kid = Some k <->
      (exists v, v ∈ vs /\ kid = pretty v /\ key_of info v = Ok k) \/ (ks0 !! kid = Some k /\ forall v, v ∈ vs -> kid <> pretty v).
Proof.
  revert js ks0. induction vs as [|v vs IH]; intros js ks0 Ha; cbn in Ha.
  { simplify_eq. exists [], ks0. split_and!; [done..|]. set_solver. }
  apply bind_Ok in Ha as (j & Hj & Ha). apply bind_Ok in Ha as (js' & Ha & [= <-]).
  unfold version_jwk in Hj. inv_ok. rename x into k, x0 into b.
  match goal with Hx : Bytes k = Ok b |- _ => rename Hx into Hb end.
  match goal with Hx : parseECPublicKeyPEM _ = Ok k |- _ => rename Hx into Hp end.
  destruct (pretty_Z_chars v) as [_ Hne]. destruct (jwk_parses (pretty v) k b Hb Hne) as (Hx & Hy & Hs & Hk).
  destruct (IH js' (<[pretty v := k]> ks0) Ha) as (l & ks & Hl & Hks & Hspec).
  eexists (_ :: l), ks. cbn [map all_ok]. rewrite jwk_clean by (try apply sanitize_pretty; done).
  rewrite jwk_decodes. cbn [mbind result_bind]. rewrite Hl. split; [done|]. split.
  { cbn [Auth.keys_loop]. rewrite Hs. cbn [negb]. rewrite Hk. exact Hks. }
  intros kid k'. rewrite Hspec. split.
  - intros [(v' & Hv' & He)|[Hi Hn]]; [left; exists v'; set_solver|].
    destruct (decide (kid = pretty v)) as [->|Hkv].
    + rewrite lookup_insert_eq in Hi. left. exists v. split_and!; [set_solver|done|]. unfold key_of. congruence.
    + rewrite lookup_insert_ne in Hi by done. right. split; [done|]. set_solver.
  - intros [(v' & Hv' & -> & He)|[Hi Hn]].
    + destruct (decide (v' ∈ vs)) as [Hin|Hnin]; [left; eauto|]. apply elem_of_cons in Hv' as [->|?]; [|done].
      right. rewrite lookup_insert_eq. split; [unfold key_of in He; congruence|].
      intros v0 Hv0 He0. apply (inj pretty) in He0. by subst.
    + right. rewrite lookup_insert_ne by (apply not_eq_sym, Hn; set_solver). split; [done|]. set_solver.
Qed.

(** What a key read returns. *)
Lemma readKey_nonempty s (st st' : state E) info : readKey map_order s st = (st', Returned (Ok info)) -> PublicKeys info <> ∅.
Proof.
  intros Hr. unfold readKey in Hr. cbv zeta in Hr. inv_run. cbn [PublicKeys]. intros He.
  match goal with Hs : bool_decide _ = false |- _ => apply bool_decide_eq_false in Hs; apply Hs; rewrite He end.
  apply map_size_empty.
Qed.

Lemma elem_of_versions info v : v ∈ versions info <-> is_Some (PublicKeys info !! v).
Proof.
  unfold versions. rewrite isort_perm, list_elem_of_fmap. split.
  - intros ((v' & d) & -> & Hv). apply elem_of_map_to_list in Hv. by exists d.
  - intros [d Hd]. exists (v, d). by rewrite elem_of_map_to_list.
Qed.

Lemma jwsAlg_ES256 t alg : jwsAlg t = Ok alg -> t = "ecdsa-p256" /\ alg = "ES256".
Proof. unfold jwsAlg. destruct (String.eqb_spec t "ecdsa-p256"); naive_solver. Qed.

Lemma jwks_doc_reads js : wf_json (JArr js) -> Z.of_nat (height (JArr js)) < maxNestingDepth ->
  Unmarshal (dec_struct Auth.set_fields) (print (JObj [("keys", JArr js)])) [] =
  all_ok (fun x => dec_struct Auth.jwk_fields x Auth.jwk_zero) (map clean js).
Proof.
  intros Hw Hh. rewrite Unmarshal_print.
  - cbn [clean map fst snd]. change (sanitize "keys") with "keys". 
    assert (dec_struct Auth.set_fields (JObj [("keys", JArr (map clean js))]) [] =
      (r ← (l ← all_ok (fun x => dec_struct Auth.jwk_fields x Auth.jwk_zero) (map clean js); Ok l); Ok r)) as -> by reflexivity.
    by destruct (all_ok _ _).
  - change (Forall id [wf_json (JArr js)]). repeat constructor. exact Hw.
  - cbn [height map fst snd fold_right] in *. lia.
Qed.

Lemma jwks_wf info vs js : all_ok (version_jwk "ES256" info) vs = Ok js -> wf_json (JArr js) /\ (height (JArr js) <= 2)%nat.
Proof.
  revert js. induction vs as [|v vs IH]; intros js Ha; cbn in Ha.
  - simplify_eq. split; [constructor|cbn; lia].
  - apply bind_Ok in Ha as (j & Hj & Ha). apply bind_Ok in Ha as (js' & Ha & [= <-]). unfold version_jwk in Hj. inv_ok.
    destruct (IH js' Ha) as [Hw Hh]. cbn [wf_json height map fold_right] in *. split.
    + constructor; [|exact Hw]. unfold jwk_json. cbn. by repeat constructor.
    + cbn. cbn in Hh. lia.
Qed.

(** The keys of a document that was made from a key read. *)
Definition lists (info : keyInfo) (ks : gmap string PublicKey) : Prop := forall kid k,
  ks !! kid = Some k <-> exists v data, PublicKeys info !! v = Some data /\ kid = pretty v /\ parseECPublicKeyPEM data = Ok k.

Lemma all_ok_elem {X Y} (f : X -> result Y) l l' x : all_ok f l = Ok l' -> x ∈ l -> exists y, f x = Ok y.
Proof.
  revert l'. induction l as [|a l IH]; intros l' Ha Hx; [set_solver|]. cbn in Ha.
  apply bind_Ok in Ha as (y & Hy & Ha). apply bind_Ok in Ha as (ys & Ha & _).
  apply elem_of_cons in Hx as [->|Hx]; [eauto|by eapply IH].
Qed.

Lemma key_set_parses info js : PublicKeys info <> ∅ -> all_ok (version_jwk "ES256" info) (versions info) = Ok js ->
  exists ks, Auth.parseJWKS (print (JObj [("keys", JArr js)])) = Ok ks /\ lists info ks.
Proof.
  intros Hne Ha. destruct (jwks_loop info (versions info) js ∅ Ha) as (l & ks & Hl & Hk & Hspec).
  destruct (jwks_wf info (versions info) js Ha) as [Hw Hh]. exists ks.
  assert (Hsp : lists info ks).
  { intros kid k. rewrite Hspec, lookup_empty. setoid_rewrite elem_of_versions. unfold key_of. split.
    - intros [(v & [d Hd] & -> & He)|[? _]]; [|done]. exists v, d. rewrite Hd in He. auto.
    - intros (v & d & Hd & -> & He). left. exists v. rewrite Hd. eauto. }
  split; [|exact Hsp]. unfold Auth.parseJWKS. rewrite jwks_doc_reads by (done || (unfold maxNestingDepth; lia)).
  rewrite Hl. cbn [map_err mbind result_bind]. rewrite Hk. cbn [mbind result_bind]. rewrite bool_decide_eq_false_2; [done|].
  rewrite map_size_empty_iff. intros ->. destruct (map_choose _ Hne) as (v & d & Hd).
  destruct (all_ok_elem _ _ _ v Ha) as [j Hj]; [apply elem_of_versions; eauto|]. unfold version_jwk in Hj. inv_ok.
  match goal with Hx : parseECPublicKeyPEM _ = Ok ?k |- _ =>
    assert ((∅ : gmap string PublicKey) !! pretty v = Some k) as Hno by (apply Hsp; exists v, d; by rewrite Hd in Hx) end.
  by rewrite lookup_empty in Hno.
Qed.

Lemma transit_JWKS_keys s (st st' : state E) doc : transit_JWKS map_order s st = (st', Returned (Ok doc)) ->
  exists info ks, readKey map_order s st = (st', Returned (Ok info)) /\ Auth.parseJWKS doc = Ok ks /\ lists info ks.
Proof.
  intros Hj. unfold transit_JWKS in Hj. inv_run. rename x0 into info, x2 into alg, x4 into js.
  match goal with Hx : jwsAlg _ = Ok alg |- _ => apply jwsAlg_ES256 in Hx as [_ ->] end.
  match goal with Hx : all_ok _ _ = Ok js |- _ => rename Hx into Ha end.
  match goal with Hx : readKey _ _ _ = _ |- _ => rename Hx into Hr end.
  destruct (key_set_parses info js) as (ks & Hp & Hl); [by eapply readKey_nonempty|done|]. exists info, ks. by split_and!.
Qed.

(** C12: the key sets round trip between the plugins: what the transit signer
    serves, the auth plugin parses into exactly the keys that OpenBao listed,
    each under the decimal number of its version. *)
Theorem JWKS_roundtrip s (st st' : state E) doc : transit_JWKS map_order s st = (st', Returned (Ok doc)) ->
  exists info ks, readKey map_order s st = (st', Returned (Ok info)) /\ Auth.parseJWKS doc = Ok ks /\
    forall kid k, ks !! kid = Some k <->
      exists v data, PublicKeys info !! v = Some data /\ kid = pretty v /\ parseECPublicKeyPEM data = Ok k.
Proof. intros Hj. destruct (transit_JWKS_keys s st st' doc Hj) as (info & ks & Hr & Hp & Hl). by exists info, ks. Qed.

(** ** Tokens *)

(** The calls of a transit [Mint]. *)
Lemma run_send_proxy req (st : state E) :
  send req st = (mkState (http_do (net st) req).1 (calls st ++ [req]), Returned (Ok (http_do (net st) req).2)).
Proof. unfold send. by destruct (http_do (net st) req). Qed.

Lemma NewRequest_inv req r (st st' : state E) : NewRequest req st = (st', Returned (Ok r)) -> r = req /\ st' = st.
Proof. unfold NewRequest. destruct (url_error _); [done|]. intros Hr. unfold mret, Prog_ret in Hr. by simplify_eq. Qed.

Lemma do_calls {R} req (d : decoder R) z (st st' : state E) r : do_ req d z st = (st', Returned (Ok r)) ->
  calls st' = calls st ++ [req].
Proof.
  intros Hd. unfold do_ in Hd. erewrite run_bind in Hd by apply run_send_proxy.
  destruct (http_do (net st) req).2 as [msg|code full rd]; [done|]. cbv zeta in Hd. inv_run. done.
Qed.

Lemma readKey_calls s (st st' : state E) info : readKey map_order s st = (st', Returned (Ok info)) ->
  calls st' = calls st ++ [mkHttp "GET" (baseURL s +:+ "/v1/" +:+ mount s +:+ "/keys/" +:+ keyName s) None None None].
Proof.
  intros Hr. unfold readKey in Hr. cbv zeta in Hr. inv_run.
  match goal with Hn : NewRequest _ _ = _ |- _ => apply NewRequest_inv in Hn as [-> ->] end.
  match goal with Hd : do_ _ _ _ _ = _ |- _ => by apply do_calls in Hd end.
Qed.

Lemma stripVaultEnvelope_Ok e sig : stripVaultEnvelope e = Ok sig -> exists b, sig = RawURL.EncodeToString b.
Proof.
  unfold stripVaultEnvelope. destruct (SplitN3 e) as [[[? ?] raw]|]; [|done]. destruct (String.eqb _ _); [|done].
  destruct (any_encoding raw) as [b|]; [|done]. intros [= <-]. by exists b.
Qed.

(** What a transit [Mint] sends and returns: the key is read, the string is
    signed under the version the header names, and a token is the signed string
    and a signature of 64 bytes. *)
Lemma transit_Mint_token s claims (st st' : state E) tok : transit_Mint map_order s claims st = (st', Returned (Ok tok)) ->
  exists info st1 sig b,
    readKey map_order s st = (st1, Returned (Ok info)) /\ Type_ info = "ecdsa-p256" /\
    tok = signing_string "ES256" (pretty (LatestVersion info)) claims +:+ "." +:+ sig /\
    RawURL.DecodeString sig = Ok b /\ length b = 64%nat /\ (exists b0, sig = RawURL.EncodeToString b0) /\
    calls st' = calls st1 ++ [sign_request s (signing_string "ES256" (pretty (LatestVersion info)) claims) (LatestVersion info)] /\
    exists envelope, stripVaultEnvelope envelope = Ok sig /\
      do_ (sign_request s (signing_string "ES256" (pretty (LatestVersion info)) claims) (LatestVersion info))
        (dec_struct signature_data) "" st1 = (st', Returned (Ok envelope)).
Proof.
  intros Hm. unfold transit_Mint in Hm. cbv zeta in Hm.
  apply run_bind_inv in Hm as (st1 & info & Hr & Hm). apply run_bind_inv in Hm as (st2 & alg & Ha & Hm).
  apply run_lift_inv in Ha as [-> Ha]. apply jwsAlg_ES256 in Ha as [Ht ->].
  apply run_bind_inv in Hm as (st3 & req & Hn & Hm). apply NewRequest_inv in Hn as [-> ->].
  apply run_bind_inv in Hm as (st4 & env & Hd & Hm). apply run_on_err_inv in Hd. apply do_calls in Hd as Hcalls.
  apply run_bind_inv in Hm as (st5 & sig & Hs & Hm). apply run_lift_inv in Hs as [-> Hs].
  apply run_bind_inv in Hm as (st6 & b & Hb & Hm). apply run_lift_inv in Hb as [-> Hb]. apply map_err_Ok in Hb.
  apply run_bind_inv in Hm as (st7 & u & Hl & Hm). apply run_lift_inv in Hl as [-> Hl]. apply reject_Ok, negb_false_iff, Nat.eqb_eq in Hl.
  assert (st' = st4 /\ tok = signing_string "ES256" (pretty (LatestVersion info)) claims +:+ "." +:+ sig) as [-> ->]
    by (unfold mret, Prog_ret in Hm; split; congruence).
  exists info, st1, sig, b. split_and!; try done; [by eapply stripVaultEnvelope_Ok|]. by exists env.
Qed.

(** A transit token names the key that signed it. Minting reads the key once
    and sends one signing request, pinned to the version that the token's header
    names, for exactly the header and the claims of the token; the token is only
    returned with a signature of 64 bytes. *)
Theorem transit_Mint_pinned s claims (st st' : state E) tok : transit_Mint map_order s claims st = (st', Returned (Ok tok)) ->
  exists info sig b,
    let v := LatestVersion info in
    let signed := signing_string "ES256" (pretty v) claims in
    tok = signed +:+ "." +:+ sig /\ RawURL.DecodeString sig = Ok b /\ length b = 64%nat /\ Type_ info = "ecdsa-p256" /\
    (exists st1, readKey map_order s st = (st1, Returned (Ok info))) /\
    calls st' = calls st ++ [mkHttp "GET" (baseURL s +:+ "/v1/" +:+ mount s +:+ "/keys/" +:+ keyName s) None None None;
                             sign_request s signed v].
Proof.
  intros Hm. destruct (transit_Mint_token s claims st st' tok Hm) as (info & st1 & sig & b & Hr & Ht & -> & Hd & Hb & _ & Hc & _).
  exists info, sig, b. cbv zeta. split_and!; try done; [by exists st1|]. rewrite Hc, (readKey_calls s st st1 info Hr). by rewrite <- app_assoc.
Qed.

Variable AddDays : Z -> Z -> Z.

(** What [IssueToken] checked before it minted. *)
Lemma IssueToken_Ok p req (st st' : state E) resp :
  IssueToken map_order AddDays p req st = (st', Returned (Ok resp)) ->
  exists now st1, time_now (net st) = (net st1, now) /\ calls st1 = calls st /\
    iss_Jti req <> "" /\ iss_Subject req <> "" /\
    now < time_Unix (iss_ExpiresAt req) <= AddDays now (MaxTTLDays (cfg p)) /\
    Mint map_order (plugin_signer p) (token_claims p req now) st1 = (st', Returned (Ok (iss_Token resp))).
Proof.
  intros Hi. unfold IssueToken in Hi. cbv zeta in Hi.
  apply run_bind_inv in Hi as (s1 & u1 & H1 & Hi). apply run_lift_inv in H1 as [-> H1].
  apply run_bind_inv in Hi as (s2 & u2 & H2 & Hi). apply run_lift_inv in H2 as [-> H2].
  apply run_bind_inv in Hi as (s3 & now & H3 & Hi). unfold Now in H3. destruct (time_now (net st)) as [e t] eqn:Et.
  apply run_bind_inv in Hi as (s4 & u4 & H4 & Hi). apply run_lift_inv in H4 as [-> H4].
  apply run_bind_inv in Hi as (s5 & u5 & H5 & Hi). apply run_lift_inv in H5 as [-> H5].
  apply run_bind_inv in Hi as (s6 & tok & H6 & Hi). apply run_on_err_inv in H6.
  apply reject_Ok in H1, H2, H4, H5. apply String.eqb_neq in H1, H2. apply negb_false_iff, Z.ltb_lt in H4. apply Z.ltb_ge in H5.
  assert (s3 = mkState e (calls st) /\ now = t) as [-> ->] by (split; congruence).
  assert (st' = s6 /\ resp = mkIssueResponse true tok) as [-> ->] by (unfold mret, Prog_ret in Hi; split; congruence).
  exists t, (mkState e (calls st)). by split_and!.
Qed.

Lemma time_Unix_exact sec : is_i64 sec -> 0 <= time_Unix sec -> time_Unix sec = sec * second /\ Unix (time_Unix sec) = sec.
Proof.
  intros Hs Ht. unfold time_Unix, Unix, unixToInternal, second, swrap, is_i64 in *.
  change (2 ^ (64 - 1)) with (2 ^ 63) in *.
  assert ((sec + 62135596800 + 2 ^ 63) mod 2 ^ 64 = sec + 62135596800 + 2 ^ 63).
  { apply Z.mod_small. split; [lia|]. destruct (decide (sec + 62135596800 + 2 ^ 63 < 2 ^ 64)); [done|]. exfalso.
    assert ((sec + 62135596800 + 2 ^ 63) mod 2 ^ 64 = sec + 62135596800 + 2 ^ 63 - 2 ^ 64) as Hm.
    { symmetry. apply (Z.mod_unique _ _ 1); lia. }
    rewrite Hm in Ht. lia. }
  assert ((sec + 62135596800 + 2 ^ 63) mod 2 ^ 64 - 2 ^ 63 - 62135596800 = sec) as -> by lia. split; [done|].
  by apply Z.div_mul.
Qed.

(** C37: the lifetime of a token is bounded. [IssueToken] only mints for a named
    subject and token id, and the expiry it stamps is the requested one, after
    the present second and no later than the configured number of days from now;
    a requested expiry that overflows Go's clock is refused. *)
Theorem IssueToken_lifetime p req (st st' : state E) resp :
  is_i64 (iss_ExpiresAt req) -> (forall e, 0 <= (time_now e).2) -> 
  IssueToken map_order AddDays p req st = (st', Returned (Ok resp)) ->
  let now := (time_now (net st)).2 in
  iss_Jti req <> "" /\ iss_Subject req <> "" /\
  now < iss_ExpiresAt req * second <= AddDays now (MaxTTLDays (cfg p)) /\
  assoc_lookup "exp" (token_claims p req now) = Some (JNum (pretty (iss_ExpiresAt req))) /\
  assoc_lookup "iat" (token_claims p req now) = Some (JNum (pretty (Unix now))) /\ Unix now <= iss_ExpiresAt req /\
  exists st1, Mint map_order (plugin_signer p) (token_claims p req now) st1 = (st', Returned (Ok (iss_Token resp))).
Proof.
  intros He Hc Hi. destruct (IssueToken_Ok p req st st' resp Hi) as (now & st1 & Et & _ & Hj & Hs & [Hlo Hhi] & Hm).
  pose proof (Hc (net st)) as H0'. rewrite Et in *. cbn [snd] in *. 
  destruct (time_Unix_exact (iss_ExpiresAt req) He) as [E1 E2]; [lia|]. rewrite E1 in Hlo, Hhi.
  split_and!; try done.
  - cbn. by rewrite E2.
  - unfold Unix, second in *. apply Z.div_le_upper_bound; lia.
  - by exists st1.
Qed.

(** The claims as JSON. *)
Lemma claims_issuer (p : Plugin (PrivateKey := PrivateKey)) req now :
  dec_struct Auth.iss_fields (clean (sorted_object (token_claims p req now))) "" = Ok (sanitize (Issuer (cfg p))).
Proof. unfold token_claims. destruct (String.eqb _ ""); reflexivity. Qed.

Lemma claims_wf (p : Plugin (PrivateKey := PrivateKey)) req now : 0 <= Unix now -> 0 <= Unix (time_Unix (iss_ExpiresAt req)) ->
  wf_json (sorted_object (token_claims p req now)).
Proof.
  intros H1 H2. unfold token_claims. destruct (String.eqb _ ""); cbn; repeat constructor; cbn; eauto.
Qed.

Lemma claims_height (p : Plugin (PrivateKey := PrivateKey)) req now : Z.of_nat (height (sorted_object (token_claims p req now))) <= maxNestingDepth.
Proof. unfold token_claims. destruct (String.eqb _ ""); by vm_compute. Qed.

(** Tokens route between the plugins: whatever the request says, a token
    that the transit signer minted carries the configured issuer where the auth
    plugin looks for it, so that it is verified as a personal access token. *)
Theorem minted_token_routes p s req (st st' : state E) resp :
  plugin_signer p = Transit s -> valid_utf8 (Issuer (cfg p)) = true -> (forall e, 0 <= (time_now e).2) ->
  IssueToken map_order AddDays p req st = (st', Returned (Ok resp)) ->
  Auth.unverifiedIssuer (iss_Token resp) = Issuer (cfg p).
Proof.
  intros Hp Hv Hc Hi. destruct (IssueToken_Ok p req st st' resp Hi) as (now & st1 & Et & _ & Hj & Hs & [Hlo Hhi] & Hm).
  pose proof (Hc (net st)) as H0'. rewrite Et in H0'. cbn [snd] in H0'. rewrite Hp in Hm.
  destruct (transit_Mint_token s _ st1 st' _ Hm) as (info & st2 & sig & b & _ & _ & -> & Hd & _).
  unfold signing_string.
  apply unverifiedIssuer_signed.
  - by eapply raw_decoded_free.
  - apply claims_wf; unfold Unix, second; apply Z.div_pos; lia.
  - by apply claims_height.
  - by rewrite claims_issuer, sanitize_valid.
Qed.

End Spec.

(** ** An OpenBao proxy with one key version *)

Module Runs.

Definition hex (s : string) : list Z := match Hex.DecodeString s with Ok b => b | Err _ => [] end.

Definition base_point : PublicKey :=
  mkPublicKey (be_word (hex "6b17d1f2e12c4247f8bce6e563a440f277037d812deb33a0f4a13945d898c296"))
    (be_word (hex "4fe342e2fe1a7f9b8ee7eb4a7c0f9e162bce33576b315ececbb6406837bf51f5")).

Definition key_read : string :=
  print (JObj [("data", JObj [("type", JStr "ecdsa-p256"); ("latest_version", JNum "3");
    ("keys", JObj [("2", JObj [("public_key", JStr "PEM")]); ("3", JObj [("public_key", JStr "PEM")])])])]).

Definition signed : string :=
  print (JObj [("data", JObj [("signature", JStr ("vault:v3:" +:+ RawURL.EncodeToString (replicate 64 7)))])]).

#[export] Instance proxy : Net unit :=
  {| http_do := fun e req => (e, HttpResponse 200 (if String.eqb (hr_Method req) "GET" then key_read else signed) None);
     time_now := fun e => (e, 1700000000 * second);
     url_error := fun _ => None |}.

#[export] Instance crypto : PatCrypto unit :=
  {| pem_Decode := fun s => Some s;
     ParsePKIXPublicKey := fun _ => Ok (ECKey P256_name base_point);
     ParseECPrivateKey := fun _ => Ok tt;
     ParsePKCS8PrivateKey := fun _ => Ok OtherKey;
     MarshalPKIXPublicKey := fun _ _ => Ok [];
     public_of := fun _ => (P256_name, base_point);
     SignedString := fun _ _ _ => Ok "token" |}.

(** The zone is UTC. *)
Definition AddDays_UTC (t d : Z) : Z := t + d * 86400 * second.

Definition config : patissuerConfig :=
  mkConfig "orbitport" "orbitport-api" signerTransit "" 370 "http://proxy:8200/" "transit" "pat-signing" 10.
Definition transit : transitSigner := newTransitSigner config.
Definition plugin : Plugin := mkPlugin (PrivateKey := unit) config (Transit transit).
Definition request : IssueTokenRequest := mkIssueRequest "t1" "acme" "kms-acme" 1700086400.
Definition boot : state unit := mkState tt [].

Example plugin_made : NewPlugin (Err (Errorf "" [])) config = Ok plugin.
Proof. reflexivity. Qed.

Definition issued := Eval vm_compute in IssueToken id AddDays_UTC plugin request boot.
Definition response : IssueTokenResponse :=
  Eval vm_compute in match issued.2 with Returned (Ok r) => r | _ => mkIssueResponse false "" end.
Definition key_set : string :=
  Eval vm_compute in match (transit_JWKS id transit boot).2 with Returned (Ok d) => d | _ => "" end.

Lemma issued_run : IssueToken id AddDays_UTC plugin request boot = (issued.1, Returned (Ok response)).
Proof. vm_compute. reflexivity. Qed.

Lemma JWKS_roundtrip_witness :
  exists info ks, readKey id transit boot = ((transit_JWKS id transit boot).1, Returned (Ok info)) /\ Auth.parseJWKS key_set = Ok ks /\
    forall kid k, ks !! kid = Some k <->
      exists v data, PublicKeys info !! v = Some data /\ kid = pretty v /\ parseECPublicKeyPEM data = Ok k.
Proof.
  apply (JWKS_roundtrip id transit boot (transit_JWKS id transit boot).1 key_set). vm_compute. reflexivity.
Defined.

Lemma minted_token_routes_witness : Auth.unverifiedIssuer (iss_Token response) = "orbitport".
Proof.
  apply (minted_token_routes id AddDays_UTC plugin transit request boot issued.1 response).
  - reflexivity.
  - reflexivity.
  - intros e. vm_compute. discriminate.
  - exact issued_run.
Defined.

Lemma IssueToken_lifetime_witness :
  1700000000 * second < 1700086400 * second <= AddDays_UTC (1700000000 * second) 370.
Proof.
  destruct (IssueToken_lifetime id AddDays_UTC plugin request boot issued.1 response) as (_ & _ & Hb & _).
  - split; vm_compute; [discriminate|reflexivity].
  - intros e. vm_compute. discriminate.
  - exact issued_run.
  - exact Hb.
Defined.

Definition minted := Eval vm_compute in transit_Mint id transit [("iss", JStr "orbitport")] boot.
Definition minted_token : string := Eval vm_compute in match minted.2 with Returned (Ok d) => d | _ => "" end.

Lemma transit_Mint_pinned_witness : exists info sig b,
    let v := LatestVersion info in
    let signed := signing_string "ES256" (pretty v) [("iss", JStr "orbitport")] in
    minted_token = signed +:+ "." +:+ sig /\ RawURL.DecodeString sig = Ok b /\ length b = 64%nat /\ Type_ info = "ecdsa-p256" /\
    (exists st1, readKey id transit boot = (st1, Returned (Ok info))) /\
    calls minted.1 = calls boot ++ [mkHttp "GET" (baseURL transit +:+ "/v1/" +:+ mount transit +:+ "/keys/" +:+ keyName transit) None None None;
                             sign_request transit signed v].
Proof.
  apply (transit_Mint_pinned id transit [("iss", JStr "orbitport")] boot minted.1 minted_token). vm_compute. reflexivity.
Defined.

End Runs.
