(* ===== verification/PatRoundtrip.v ===== *)
(** * Tokens from the patissuer plugin to the auth plugin

    The auth plugin fetches its keys from the patissuer plugin. Here it runs on
    it: a token that was issued is accepted, for the client it was issued to,
    until a minute after it expires. What a signer promises for this is the
    interface [SignerLaws], which PatSigners proves of both signers. The JWT
    library and the Auth0 validator stay the parameter [Validators]. *)

From S2P Require Import Prelude GoStrings Errors State Codec Json Http P256.
From S2P Require PatIssuer PatIssuerSpec.
From S2P Require Import Auth AuthSpec.

(** golang-jwt and the Auth0 validator, in a world [W]. *)
Class Validators (W K : Type) := {
  lib_header : list string -> string -> result (list (string * json));
  lib_claims : parse_options -> string -> PublicKey -> Z -> result (list (string * json));
  lib_auth0_keys : W -> W * result K;
  lib_auth0_ValidateToken : (W -> W * result K) -> W -> string -> W * result ValidatedClaims;
}.

(** ** What is known of the libraries *)

(** A JSON object whose texts are UTF-8 and whose names differ. *)
Definition plain (l : list (string * json)) : Prop :=
  wf_json (JObj l) /\ Z.of_nat (height (JObj l)) <= maxNestingDepth /\ clean (JObj l) = JObj l /\ NoDup l.*1.

Definition signing_input (h c : list (string * json)) : string :=
  RawURL.EncodeToString (bytes_of_string (print (JObj h))) +:+ "." +:+ RawURL.EncodeToString (bytes_of_string (print (JObj c))).

Definition by_name (c : list (string * json)) : list (string * json) := isort (fun a b => String.leb a.1 b.1) c.

(** [verifies k text b]: ES256 verification of a signature of 64 bytes. *)
Class JwtLaws {W K : Type} `{Validators W K} (verifies : PublicKey -> string -> list Z -> Prop) := {
  (* the header of a well-formed token of a valid method is read *)
  header_read : forall methods h c sig b alg, plain h -> plain c -> RawURL.DecodeString sig = Ok b ->
    assoc_lookup "alg" h = Some (JStr alg) -> alg ∈ methods ->
    lib_header methods (signing_input h c +:+ "." +:+ sig) = Ok h;
  (* claims that are signed, of the issuer and audience asked for, are accepted
     until their expiry and the leeway are over *)
  claims_read : forall o h c sig b k exp now, plain h -> plain c -> RawURL.DecodeString sig = Ok b ->
    assoc_lookup "alg" h = Some (JStr "ES256") -> "ES256" ∈ opt_ValidMethods o ->
    verifies k (signing_input h c) b ->
    assoc_lookup "iss" c = Some (JStr (opt_Issuer o)) -> assoc_lookup "aud" c = Some (JStr (opt_Audience o)) ->
    assoc_lookup "exp" c = Some (JNum (pretty exp)) -> 0 <= exp < 2 ^ 53 -> assoc_lookup "nbf" c = None ->
    if now <? exp * second + opt_Leeway o
    then lib_claims o (signing_input h c +:+ "." +:+ sig) k now = Ok c
    else exists err, lib_claims o (signing_input h c +:+ "." +:+ sig) k now = Err err /\
           errors_Is err ErrTokenExpired = true /\ errors_Is err errIssuerUnavailable = false;
}.

(** ** What a signer promises *)

(** Keys are not withdrawn, and time does not go back. *)
Definition later {E} (ring : E -> gmap string PublicKey) (time : E -> Z) (w w' : PatIssuer.state E) : Prop :=
  ring (PatIssuer.net w) ⊆ ring (PatIssuer.net w') /\ time (PatIssuer.net w) <= time (PatIssuer.net w').

#[export] Instance later_preorder {E} ring time : PreOrder (@later E ring time).
Proof. split; [by split|]. intros x y z [? ?] [? ?]. split; [by etrans|lia]. Qed.

(** A token for the claims under one of the keys, which its header names. *)
Definition signed_under (verifies : PublicKey -> string -> list Z -> Prop) (ks : gmap string PublicKey)
    (c : list (string * json)) (tok : string) : Prop :=
  exists h k sig b, plain h /\ assoc_lookup "alg" h = Some (JStr "ES256") /\ string_claim h "kid" <> "" /\
    tok = signing_input h c +:+ "." +:+ sig /\ RawURL.DecodeString sig = Ok b /\
    verifies k (signing_input h c) b /\ ks !! string_claim h "kid" = Some k.

(** [ring e] are the keys in [e], by their key id: every token is signed under
    one of them, and they are what the key set lists. *)
Class SignerLaws {E PrivateKey : Type} `{Net E} `{PatIssuer.PatCrypto PrivateKey}
    (map_order : list (string * string) -> list (string * string)) (sg : PatIssuer.signer PrivateKey)
    (ring : E -> gmap string PublicKey) (time : E -> Z) (verifies : PublicKey -> string -> list Z -> Prop) := {
  signer_now : forall e, ring e ⊆ ring (time_now e).1;
  signer_clock : forall e, time e <= (time_now e).2 <= time (time_now e).1;
  signer_later : steps (later ring time) (PatIssuer.JWKS map_order sg);
  signer_lists : forall w w' doc, PatIssuer.JWKS map_order sg w = (w', Returned (Ok doc)) -> parseJWKS doc = Ok (ring (PatIssuer.net w'));
  signer_signs : forall c w w' tok, plain (by_name c) -> PatIssuer.Mint map_order sg c w = (w', Returned (Ok tok)) ->
    signed_under verifies (ring (PatIssuer.net w')) (by_name c) tok;
}.

(** ** The auth plugin on the patissuer plugin *)

Section Compose.
Context {E PrivateKey K : Type} `{Net E} `{PatIssuer.PatCrypto PrivateKey} `{Validators (PatIssuer.state E) K}.
Context (map_order : list (string * string) -> list (string * string)) (AddDays : Z -> Z -> Z).
Context (p : PatIssuer.Plugin (PrivateKey := PrivateKey)).

Abbreviation world := (PatIssuer.state E).

(** The keys are fetched by an RPC; the processes share one clock. *)
#[export] Instance patissuer_env : AuthEnv world K :=
  {| auth_now := fun w => let '(e, t) := time_now (PatIssuer.net w) in (PatIssuer.mkState e (PatIssuer.calls w), t);
     GetJwks := fun w => let '(w', o) := PatIssuer.GetJwks map_order p w in (w', answer o);
     jwt_header := lib_header;
     jwt_claims := lib_claims;
     auth0_keys := lib_auth0_keys;
     auth0_ValidateToken := lib_auth0_ValidateToken |}.

Context (ring : E -> gmap string PublicKey) (time : E -> Z) (verifies : PublicKey -> string -> list Z -> Prop).
Context `{!SignerLaws map_order (PatIssuer.plugin_signer p) ring time verifies} `{!JwtLaws verifies}.

Abbreviation later := (later ring time).

Lemma later_fetch w : later w (GetJwks w).1.
Proof.
  assert (steps later (PatIssuer.GetJwks map_order p)) as Hs by (apply steps_on_err, signer_later).
  specialize (Hs w). cbn. by destruct (PatIssuer.GetJwks map_order p w).
Qed.

Lemma later_now w : later w (auth_now w).1 /\ time (PatIssuer.net w) <= (auth_now w).2 <= time (PatIssuer.net (auth_now w).1).
Proof.
  pose proof (signer_now (PatIssuer.net w)). pose proof (signer_clock (PatIssuer.net w)).
  cbn. destruct (time_now (PatIssuer.net w)) as [e t] eqn:Et. cbn in *. split; [split; [done|cbn; lia]|lia].
Qed.

(** What a fetched document lists is the ring. *)
Lemma fetch_keys w doc : (GetJwks w).2 = Ok doc -> parseJWKS doc = Ok (ring (PatIssuer.net (GetJwks w).1)).
Proof.
  cbn. destruct (PatIssuer.GetJwks map_order p w) as [w' o] eqn:Eg. destruct o as [[d|e]| |]; cbn; intros Hd; simplify_eq.
  by apply run_on_err_inv, signer_lists in Eg.
Qed.

(** ** The key cache *)

Abbreviation A := (Prog (auth_state world)).

Definition now_ring (a : auth_state world) : gmap string PublicKey := ring (PatIssuer.net (env a)).

(** Cached keys are keys of the ring. *)
Definition cache_current (a : auth_state world) : Prop := forall ks, keys a = Some ks -> ks ⊆ now_ring a.

Definition knows (a : auth_state world) (kid : string) (k : PublicKey) : Prop :=
  exists ks, keys a = Some ks /\ ks !! kid = Some k.

(** The cache holds the key, or may be refreshed. *)
Definition can_learn (m : Z) (a : auth_state world) (kid : string) (k : PublicKey) : Prop :=
  knows a kid k \/ keys a = None \/ fetchedAt a + m <= time (PatIssuer.net (env a)).

(** OpenBao answers. *)
Definition available : Prop := forall w, exists doc, (GetJwks w).2 = Ok doc.

Lemma cache_current_later a e : cache_current a -> later (env a) e -> cache_current (mkState e (keys a) (fetchedAt a) (fetched a)).
Proof. intros Hc [Hr _] ks Hk. etrans; [by apply Hc|exact Hr]. Qed.

Lemma now_later (a : auth_state world) : later (env a) (auth_now (env a)).1.
Proof. apply later_now. Qed.

(** The age of the cached keys, if there are any. *)
Lemma run_age_later (dflt : bool) (f : Z -> bool) (a : auth_state world) : exists e b, later (env a) e /\
  (match keys a with
   | None => b = dflt
   | Some _ => exists t, time (PatIssuer.net (env a)) <= t /\ b = f (t - fetchedAt a)
   end) /\
  (match keys a with None => mret dflt | Some _ => d ← Since (fetchedAt a); mret (f d) end : A bool) a =
  (mkState e (keys a) (fetchedAt a) (fetched a), Returned (Ok b)).
Proof.
  destruct (keys a) as [ks|] eqn:Ek.
  - erewrite run_bind by apply run_Since. rewrite Ek. eexists _, _. split; [apply now_later|]. split; [|reflexivity].
    eexists. split; [|reflexivity]. apply later_now.
  - exists (env a), dflt. split; [reflexivity|]. split; [done|]. destruct a; cbn in *. by subst.
Qed.

(** A refresh while OpenBao answers: the keys are the ring's, unless they were
    fetched less than [m] ago. *)
Lemma refresh_learns m (a : auth_state world) kid k : available -> cache_current a -> now_ring a !! kid = Some k ->
  exists a', refresh m a = (a', Returned (Ok tt)) /\ cache_current a' /\ later (env a) (env a') /\
    (knows a' kid k \/ keys a' = keys a /\ fetchedAt a' = fetchedAt a /\ keys a <> None /\ time (PatIssuer.net (env a)) < fetchedAt a + m).
Proof.
  intros Hav Hc Hv. unfold refresh. erewrite run_bind by done. cbn [fst snd].
  destruct (run_age_later false (fun d => d <? m) a) as (e & b & Hle & Hb & Ha). erewrite run_bind by exact Ha. clear Ha.
  assert (b = true -> keys a <> None /\ time (PatIssuer.net (env a)) < fetchedAt a + m) as Hrec.
  { destruct (keys a); [|congruence]. destruct Hb as (t & Ht & ->). intros Hm%Z.ltb_lt. split; [done|lia]. }
  destruct b; [eexists; split; [done|]; cbn; split; [by apply cache_current_later|split; [done|right; tauto]]|].
  destruct (Hav e) as [doc Hd]. pose proof (fetch_keys e doc Hd) as Hp.
  pose proof (later_fetch e) as Hlf. destruct (GetJwks e) as [e1 r] eqn:Eg. cbn [fst snd] in Hd, Hp, Hlf. subst r.
  erewrite run_bind; [|apply run_on_err; unfold call_GetJwks; cbn [env keys fetchedAt fetched]; rewrite Eg; reflexivity]. cbv beta.
  rewrite Hp. erewrite run_bind by done. unfold Now, mbind, Prog_bind, modify. cbn [env keys fetchedAt fetched].
  pose proof (later_now e1) as [Hln _]. destruct (auth_now e1) as [e2 t] eqn:Et. cbn in Hln.
  assert (later (env a) e2) as Hl2 by (etrans; [exact Hle|by etrans]).
  eexists. split; [reflexivity|]. cbn. split; [|split; [done|left]].
  - intros ks' [= <-]. apply Hln.
  - eexists. split; [done|]. destruct Hle, Hlf. eapply lookup_weaken; [exact Hv|by etrans].
Qed.

Lemma find_known (a : auth_state world) kid k : knows a kid k -> find_key (keys a) kid = Some k.
Proof. intros (ks & -> & Hk). exact Hk. Qed.

(** A key the cache lists is the one of the ring. *)
Lemma found_current (a : auth_state world) kid k k' : cache_current a -> now_ring a !! kid = Some k ->
  find_key (keys a) kid = Some k' -> k' = k.
Proof.
  intros Hc Hv Hf. unfold find_key in Hf. destruct (keys a) as [ks|] eqn:Ek; cbn in Hf; [|by rewrite lookup_empty in Hf].
  pose proof (lookup_weaken _ _ _ _ Hf (Hc ks Ek)) as Hk. unfold now_ring in *. congruence.
Qed.

Lemma ring_later (a : auth_state world) e ks f l kid k : later (env a) e -> now_ring a !! kid = Some k -> now_ring (mkState e ks f l) !! kid = Some k.
Proof. intros [Hr _] Hv. by eapply lookup_weaken. Qed.

(** [key] finds the key of every id it can learn. *)
Lemma key_learns m (a : auth_state world) kid k : available -> cache_current a ->
  now_ring a !! kid = Some k -> can_learn m a kid k ->
  exists a', key m kid a = (a', Returned (Ok k)) /\ cache_current a' /\ later (env a) (env a').
Proof.
  intros Hav Hc Hv Hcan. unfold key. erewrite run_bind by done. cbn [fst snd].
  destruct (run_age_later true (fun d => jwksCacheTTL <? d) a) as (e & b & Hle & Hb & Ha). erewrite run_bind by exact Ha. clear Ha.
  set (a1 := mkState e (keys a) (fetchedAt a) (fetched a)).
  assert (cache_current a1) as Hc1 by by apply cache_current_later.
  assert (now_ring a1 !! kid = Some k) as Hv1 by by eapply ring_later.
  assert (can_learn m a1 kid k) as Hcan1.
  { destruct Hcan as [Hk|[Hk|Hk]]; [by left|by right; left|right; right]. destruct Hle. cbn in *. lia. }
  destruct b.
  - destruct (refresh_learns m a1 kid k Hav Hc1 Hv1) as (a2 & Hr & Hc2 & Hl2 & Hcase).
    erewrite run_bind by (erewrite run_bind by exact Hr; reflexivity). cbn [fst snd].
    assert (knows a2 kid k) as Hk2.
    { destruct Hcase as [?|(Hkk & Hf & Hn & Ht)]; [done|]. destruct Hcan1 as [Hk|[Hk|Hk]]; [|done|cbn in *; lia].
      destruct Hk as (ks & Hks & Hlk). exists ks. by rewrite Hkk. }
    rewrite (find_known a2 kid k Hk2). exists a2. split; [done|]. split; [done|by etrans].
  - erewrite run_bind by done. cbn [fst snd]. destruct (find_key (keys a) kid) as [k'|] eqn:Ef.
    { exists a1. rewrite (found_current a1 kid k k') by done. by split_and!. }
    erewrite run_bind by apply run_Since. cbv beta. set (a2 := mkState _ _ _ _).
    assert (later e (env a2)) as Hl2 by apply later_now.
    assert (keys a <> None) as Hsome by (intros Hn; by rewrite Hn in Hb).
    assert (fetchedAt a + m <= time (PatIssuer.net e)) as Hage.
    { destruct Hcan1 as [Hk|[Hk|Hk]]; [|done|done]. apply find_known in Hk. cbn in Hk. congruence. }
    destruct (later_now e) as [_ Hnow].
    destruct (Z.ltb_spec ((auth_now (env a1)).2 - fetchedAt a) m) as [Hlt|_]; [cbn in Hlt; cbn in Hnow; lia|].
    assert (now_ring a2 !! kid = Some k) as Hv2 by (by apply (ring_later a1)).
    destruct (refresh_learns m a2 kid k Hav) as (a3 & Hr & Hc3 & Hl3 & Hcase); [by apply (cache_current_later a1)|done|].
    erewrite run_bind by exact Hr. erewrite run_bind by done. cbn [fst snd].
    destruct Hcase as [Hk3|(_ & _ & _ & Ht)]; [|destruct Hl2; cbn in *; lia].
    rewrite (find_known a3 kid k Hk3). exists a3. split; [done|]. split; [done|]. etrans; [exact Hle|]. by etrans.
Qed.

(** ** Issued tokens *)

Definition claims (req : PatIssuer.IssueTokenRequest) (now : Z) : list (string * json) := by_name (PatIssuer.token_claims p req now).

Lemma claims_sorted req now : claims req now =
  [("aud", JStr (PatIssuer.Audience (PatIssuer.cfg p)));
   ("exp", JNum (pretty (PatIssuer.Unix (PatIssuer.time_Unix (PatIssuer.iss_ExpiresAt req)))));
   ("iat", JNum (pretty (PatIssuer.Unix now))); ("iss", JStr (PatIssuer.Issuer (PatIssuer.cfg p)));
   ("jti", JStr (PatIssuer.iss_Jti req))] ++
  (if String.eqb (PatIssuer.iss_KmsTenant req) "" then [] else [("kms_tenant", JStr (PatIssuer.iss_KmsTenant req))]) ++
  [("sub", JStr (PatIssuer.iss_Subject req))].
Proof. unfold claims, by_name, PatIssuer.token_claims. by destruct (String.eqb _ ""). Qed.

(** The texts that a token carries. *)
Definition texts_valid (req : PatIssuer.IssueTokenRequest) : Prop := Forall (fun x => valid_utf8 x = true)
  [PatIssuer.Issuer (PatIssuer.cfg p); PatIssuer.Audience (PatIssuer.cfg p); PatIssuer.iss_Subject req; PatIssuer.iss_Jti req; PatIssuer.iss_KmsTenant req].

Lemma plain_claims req now : texts_valid req -> 0 <= PatIssuer.Unix now ->
  0 <= PatIssuer.Unix (PatIssuer.time_Unix (PatIssuer.iss_ExpiresAt req)) -> plain (claims req now).
Proof.
  intros Hu Hn He. split; [by apply PatIssuerSpec.claims_wf|]. split; [apply PatIssuerSpec.claims_height|].
  unfold texts_valid in Hu. rewrite !Forall_cons in Hu. destruct Hu as (Hu1 & Hu2 & Hu3 & Hu4 & Hu5 & _).
  rewrite claims_sorted. destruct (String.eqb _ "");
    (split; [|apply (bool_decide_unpack _); by vm_compute]); cbn -[sanitize]; by rewrite !sanitize_valid.
Qed.

Lemma claims_texts req now : 
  assoc_lookup "iss" (claims req now) = Some (JStr (PatIssuer.Issuer (PatIssuer.cfg p))) /\
  assoc_lookup "aud" (claims req now) = Some (JStr (PatIssuer.Audience (PatIssuer.cfg p))) /\
  assoc_lookup "exp" (claims req now) = Some (JNum (pretty (PatIssuer.Unix (PatIssuer.time_Unix (PatIssuer.iss_ExpiresAt req))))) /\
  assoc_lookup "nbf" (claims req now) = None /\
  string_claim (claims req now) "sub" = PatIssuer.iss_Subject req /\
  string_claim (claims req now) "jti" = PatIssuer.iss_Jti req /\
  string_claim (claims req now) "kms_tenant" = PatIssuer.iss_KmsTenant req.
Proof.
  rewrite claims_sorted. unfold string_claim. destruct (String.eqb_spec (PatIssuer.iss_KmsTenant req) "") as [->|]; by split_and!.
Qed.

(** What an issued token is. *)
Lemma issued_token req (st st' : world) resp : texts_valid req -> 0 <= time (PatIssuer.net st) -> is_i64 (PatIssuer.iss_ExpiresAt req) ->
  PatIssuer.IssueToken map_order AddDays p req st = (st', Returned (Ok resp)) ->
  exists now, plain (claims req now) /\ PatIssuer.Unix (PatIssuer.time_Unix (PatIssuer.iss_ExpiresAt req)) = PatIssuer.iss_ExpiresAt req /\
    0 <= PatIssuer.iss_ExpiresAt req /\ PatIssuer.iss_Subject req <> "" /\ PatIssuer.iss_Jti req <> "" /\
    signed_under verifies (ring (PatIssuer.net st')) (claims req now) (PatIssuer.iss_Token resp).
Proof.
  intros Hu Ht He Hi. destruct (PatIssuerSpec.IssueToken_Ok map_order AddDays p req st st' resp Hi) as (now & st1 & Et & _ & Hj & Hsub & [Hlo _] & Hm).
  pose proof (signer_clock (PatIssuer.net st)) as [Hclk _]. rewrite Et in Hclk. cbn in Hclk.
  destruct (PatIssuerSpec.time_Unix_exact (PatIssuer.iss_ExpiresAt req) He) as [E1 E2]; [lia|].
  assert (0 <= PatIssuer.iss_ExpiresAt req) as Hexp by (rewrite E1 in Hlo; unfold second in Hlo; lia).
  assert (plain (claims req now)) as Hp by (apply plain_claims; [done|apply Z.div_pos; unfold second; lia|by rewrite E2]).
  exists now. split_and!; try done. by apply (signer_signs (PatIssuer.token_claims p req now) st1 st').
Qed.

Lemma run_Now_later (a : auth_state world) : exists a' t, Now a = (a', Returned (Ok t)) /\ keys a' = keys a /\ fetchedAt a' = fetchedAt a /\
  later (env a) (env a') /\ time (PatIssuer.net (env a)) <= t <= time (PatIssuer.net (env a')).
Proof.
  unfold Now. destruct (later_now (env a)) as [Hl Ht]. destruct (auth_now (env a)) as [e t]. by eexists _, t.
Qed.

(** The library's part of a validation, for a token under a key that can be learned. *)
Lemma jwt_Parse_issued q (a : auth_state world) ks c tok exp : available -> cache_current a -> ks ⊆ now_ring a ->
  signed_under verifies ks c tok -> (forall kid k, ks !! kid = Some k -> can_learn (minRefresh q) a kid k) -> plain c ->
  assoc_lookup "iss" c = Some (JStr (patIss q)) -> assoc_lookup "aud" c = Some (JStr (patAudience q)) ->
  assoc_lookup "exp" c = Some (JNum (pretty exp)) -> 0 <= exp < 2 ^ 53 -> assoc_lookup "nbf" c = None ->
  exists a' r now, jwt_Parse tok (keyfunc q) (pat_options q) a = (a', Returned r) /\
    cache_current a' /\ later (env a) (env a') /\ time (PatIssuer.net (env a)) <= now <= time (PatIssuer.net (env a')) /\
    if now <? exp * second + minute then r = Ok c
    else exists err, r = Err err /\ errors_Is err ErrTokenExpired = true /\ errors_Is err errIssuerUnavailable = false.
Proof.
  intros Hav Hc Hks (h & k & sig & b & Hh & Halg & Hkid & -> & Hd & Hver & Hk) Hcan Hp Hiss Haud Hexp Hlim Hnbf. unfold jwt_Parse.
  assert (jwt_header (opt_ValidMethods (pat_options q)) (signing_input h c +:+ "." +:+ sig) = Ok h) as ->.
  { by apply (header_read _ _ _ _ b "ES256"); [..|left]. }
  erewrite run_bind by done.
  destruct (key_learns (minRefresh q) a (string_claim h "kid") k Hav Hc (lookup_weaken _ _ _ _ Hk Hks) (Hcan _ _ Hk)) as (a1 & Hkey & Hc1 & Hl1).
  assert (keyfunc q h a = (a1, Returned (Ok k))) as Hkf.
  { unfold keyfunc. cbv zeta. apply String.eqb_neq in Hkid. by rewrite Hkid. }
  erewrite run_bind by (apply run_on_err; exact Hkf).
  destruct (run_Now_later a1) as (a2 & now & Hn & Hk2 & _ & Hl2 & Ht). erewrite run_bind by exact Hn.
  eexists a2, _, now. split; [reflexivity|]. split.
  { intros ks2 Hks2. rewrite Hk2 in Hks2. etrans; [by apply Hc1|apply Hl2]. }
  split; [by etrans|]. split; [destruct Hl1; lia|].
  pose proof (claims_read (pat_options q) h c sig b k exp now Hh Hp Hd Halg ltac:(by left) Hver Hiss Haud Hexp Hlim Hnbf) as Hcl.
  change (opt_Leeway (pat_options q)) with minute in Hcl. change (jwt_claims) with (lib_claims (W := world)).
  destruct (now <? exp * second + minute); [done|]. destruct Hcl as (err & -> & He). by exists err.
Qed.

(** Where the auth plugin looks for the issuer of a token. *)
Lemma signed_issuer ks req now tok : texts_valid req -> plain (claims req now) -> signed_under verifies ks (claims req now) tok ->
  unverifiedIssuer tok = PatIssuer.Issuer (PatIssuer.cfg p).
Proof.
  intros Hu (Hw & Hh & Hcl & _) (h & k & sig & b & _ & _ & _ & -> & Hd & _). unfold signing_input.
  apply PatIssuerSpec.unverifiedIssuer_signed; [by eapply PatIssuerSpec.raw_decoded_free|done..|].
  rewrite Hcl, claims_sorted. by destruct (String.eqb _ "").
Qed.

(** C9: tokens work from issue to expiry. Whatever token the patissuer plugin
    issued, with either signer, the auth plugin that fetches its keys from it
    accepts at every later time, through key rotations, until a minute after the
    expiry that was asked for, and reports the client, the token id and the
    tenant of the request; after that it answers [pat_expired]. It needs the
    issuer and the audience configured alike, the key set to be available, and a
    key cache that was filled after the issue or that may be refreshed. *)
Theorem issued_token_accepted q req (st st' : world) resp (a : auth_state world) :
  patKeys q = true -> patIss q = PatIssuer.Issuer (PatIssuer.cfg p) -> patAudience q = PatIssuer.Audience (PatIssuer.cfg p) ->
  texts_valid req -> 0 <= time (PatIssuer.net st) -> - 2 ^ 63 <= PatIssuer.iss_ExpiresAt req < 2 ^ 53 ->
  PatIssuer.IssueToken map_order AddDays p req st = (st', Returned (Ok resp)) ->
  available -> later st' (env a) -> cache_current a ->
  (forall kid k, ring (PatIssuer.net st') !! kid = Some k -> can_learn (minRefresh q) a kid k) ->
  exists a' r now, ValidateToken q (PatIssuer.iss_Token resp) a = (a', Returned r) /\
    cache_current a' /\ later (env a) (env a') /\ time (PatIssuer.net (env a)) <= now <= time (PatIssuer.net (env a')) /\
    if now <? PatIssuer.iss_ExpiresAt req * second + minute
    then r = Ok (mkTokenResponse true (PatIssuer.iss_Subject req) (PatIssuer.iss_Jti req) (PatIssuer.iss_KmsTenant req))
    else exists err, r = Err (StatusErr Unauthenticated (Wrapf "pat_expired: %w" [] err)).
Proof.
  intros Hq Hiss Haud Hu Ht Hexp Hi Hav Hl Hc Hcan.
  destruct (issued_token req st st' resp Hu Ht) as (t & Hp & Eu & He0 & Hsub & Hjti & Hsig); [unfold is_i64; lia|done|].
  pose proof (signed_issuer _ req t _ Hu Hp Hsig) as Hui. rewrite <- Hiss in Hui.
  destruct (claims_texts req t) as (Ci & Ca & Ce & Cn & Csub & Cjti & Cten). rewrite Eu in Ce. rewrite <- Hiss in Ci. rewrite <- Haud in Ca.
  destruct (jwt_Parse_issued q a _ _ _ _ Hav Hc (proj1 Hl) Hsig Hcan Hp Ci Ca Ce ltac:(lia) Cn) as (a' & r & now & Hj & Hc' & Hl' & Hnow & Hr).
  unfold ValidateToken, validatePAT. rewrite Hq, Hui, String.eqb_refl. erewrite run_bind by done.
  destruct (now <? _) eqn:Elt.
  - subst r. erewrite run_bind by (apply run_on_err; exact Hj). cbv zeta. rewrite Csub, Cjti, Cten.
    apply String.eqb_neq in Hsub, Hjti. rewrite Hsub, Hjti.
    exists a', (Ok (mkTokenResponse true (PatIssuer.iss_Subject req) (PatIssuer.iss_Jti req) (PatIssuer.iss_KmsTenant req))), now.
    erewrite run_bind by done. erewrite run_bind by done.
    split; [reflexivity|]. split; [exact Hc'|]. split; [exact Hl'|]. split; [exact Hnow|]. by rewrite Elt.
  - destruct Hr as (err & -> & Hx & Hy). exists a', (Err (pat_error err)), now.
    split; [apply run_bind_err, run_on_err_err; exact Hj|]. split; [exact Hc'|]. split; [exact Hl'|]. split; [exact Hnow|].
    rewrite Elt. unfold pat_error. rewrite Hy, Hx. by exists err.
Qed.

End Compose.
