(* ===== verification/PatSigners.v ===== *)
(** * The two signers of the patissuer plugin keep what PatRoundtrip asks for

    The Transit signer, of a key that may be rotated, and the signer of a local
    key; and a run of the two plugins with each of them. *)

From S2P Require Import Prelude GoStrings Errors State Codec Sha2 Json Http P256.
From S2P Require PatIssuer PatIssuerSpec.
From S2P Require Import Auth AuthSpec PatRoundtrip.

(** Time does not go back. *)
Class ClockLaws {E : Type} `{Net E} (time : E -> Z) := {
  time_http : forall e req, time e <= time (http_do e req).1;
  time_clock : forall e, time e <= (time_now e).2 <= time (time_now e).1;
}.

(** ** OpenBao Transit *)

(** [ring e] are the versions of the key in [e]. A version that was made stays,
    key reads list the versions with the latest among them, and a signature under
    a version verifies under its key. *)
Class TransitLaws {E PrivateKey : Type} `{Net E} `{PatIssuer.PatCrypto PrivateKey}
    (map_order : list (string * string) -> list (string * string)) (s : PatIssuer.transitSigner)
    (ring : E -> gmap Z PublicKey) (verifies : PublicKey -> string -> list Z -> Prop) := {
  ring_http : forall e req, ring e ⊆ ring (http_do e req).1;
  ring_now : forall e, ring e ⊆ ring (time_now e).1;
  read_lists : forall (st st' : PatIssuer.state E) info, PatIssuer.readKey map_order s st = (st', Returned (Ok info)) ->
    is_Some (ring (PatIssuer.net st') !! PatIssuer.LatestVersion info) /\
    forall v k, ring (PatIssuer.net st') !! v = Some k <->
      exists data, PatIssuer.PublicKeys info !! v = Some data /\ PatIssuer.parseECPublicKeyPEM data = Ok k;
  sign_verifies : forall (st st' : PatIssuer.state E) text v envelope sig b k,
    PatIssuer.do_ (PatIssuer.sign_request s text v) (dec_struct PatIssuer.signature_data) "" st = (st', Returned (Ok envelope)) ->
    PatIssuer.stripVaultEnvelope envelope = Ok sig -> RawURL.DecodeString sig = Ok b ->
    ring (PatIssuer.net st') !! v = Some k -> verifies k text b;
}.

Section Transit.
Context {E PrivateKey : Type} `{Net E} `{PatIssuer.PatCrypto PrivateKey}.
Context (map_order : list (string * string) -> list (string * string)) (s : PatIssuer.transitSigner).
Context (ring : E -> gmap Z PublicKey) (time : E -> Z) (verifies : PublicKey -> string -> list Z -> Prop).
Context `{!ClockLaws time} `{!TransitLaws map_order s ring verifies}.

(** A version is published under its decimal number. *)
Definition by_kid (e : E) : gmap string PublicKey := kmap pretty (ring e).

Abbreviation later := (later by_kid time).

Lemma by_kid_Some e kid k : by_kid e !! kid = Some k <-> exists v, kid = pretty v /\ ring e !! v = Some k.
Proof. apply lookup_kmap_Some, _. Qed.

Lemma by_kid_mono e e' : ring e ⊆ ring e' -> by_kid e ⊆ by_kid e'.
Proof. apply kmap_subseteq, _. Qed.

Lemma later_send req : steps later (PatIssuer.send req).
Proof. intros w. rewrite PatIssuerSpec.run_send_proxy. split; cbn; [apply by_kid_mono, ring_http|apply time_http]. Qed.

Lemma later_NewRequest req : steps later (PatIssuer.NewRequest req).
Proof. unfold PatIssuer.NewRequest. destruct (url_error _); intros w; reflexivity. Qed.

Lemma later_do {R} req (d : decoder R) z : steps later (PatIssuer.do_ req d z).
Proof.
  unfold PatIssuer.do_. apply steps_bind; [typeclasses eauto|apply later_send|]. intros [msg|code full rd]; cbv zeta; eauto 10 with steps.
Qed.

#[local] Hint Resolve later_send later_NewRequest later_do : steps.

Lemma later_readKey : steps later (PatIssuer.readKey map_order s).
Proof. unfold PatIssuer.readKey. cbv zeta. eauto 15 with steps. Qed.

#[local] Hint Resolve later_readKey : steps.

Lemma later_JWKS : steps later (PatIssuer.transit_JWKS map_order s).
Proof. unfold PatIssuer.transit_JWKS. eauto 15 with steps. Qed.

Lemma transit_lists w w' doc : PatIssuer.transit_JWKS map_order s w = (w', Returned (Ok doc)) ->
  parseJWKS doc = Ok (by_kid (PatIssuer.net w')).
Proof.
  intros Hj. destruct (PatIssuerSpec.transit_JWKS_keys map_order s w w' doc Hj) as (info & ks & Hr & Hp & Hl).
  destruct (read_lists w w' info Hr) as [_ Hring]. rewrite Hp. f_equal. apply map_eq. intros kid.
  apply option_eq. intros k. unfold PatIssuerSpec.lists in Hl. rewrite Hl, by_kid_Some. setoid_rewrite Hring. naive_solver.
Qed.

Definition transit_header (v : Z) : list (string * json) := [("alg", JStr "ES256"); ("typ", JStr "JWT"); ("kid", JStr (pretty v))].

Lemma plain_transit_header v : plain (transit_header v).
Proof.
  split; [by cbn; repeat constructor|]. split; [by vm_compute|]. split; [|apply (bool_decide_unpack _); by vm_compute].
  cbn. by rewrite PatIssuerSpec.sanitize_pretty.
Qed.

Lemma transit_signs c w w' tok : PatIssuer.transit_Mint map_order s c w = (w', Returned (Ok tok)) ->
  signed_under verifies (by_kid (PatIssuer.net w')) (by_name c) tok.
Proof.
  intros Hm. destruct (PatIssuerSpec.transit_Mint_token map_order s c w w' tok Hm)
    as (info & w1 & sig & b & Hr & _ & -> & Hd & _ & _ & _ & envelope & He & Hdo).
  set (v := PatIssuer.LatestVersion info) in *.
  destruct (read_lists w w1 info Hr) as [[k Hk] _]. fold v in Hk.
  pose proof (later_do (PatIssuer.sign_request s (PatIssuer.signing_string "ES256" (pretty v) c) v) (dec_struct PatIssuer.signature_data) "" w1) as Hl.
  rewrite Hdo in Hl. destruct Hl as [Hl _]. cbn [fst] in Hl.
  assert (by_kid (PatIssuer.net w') !! pretty v = Some k) as Hkid by (eapply lookup_weaken; [apply by_kid_Some; by exists v|exact Hl]).
  apply by_kid_Some in Hkid as Hv. destruct Hv as (v' & Hvv%(inj pretty) & Hv). subst v'.
  exists (transit_header v), k, sig, b. split; [apply plain_transit_header|]. split; [done|]. split; [apply pretty_Z_chars|].
  split; [done|]. split; [done|]. split; [|done]. by apply (sign_verifies w1 w' _ v envelope sig).
Qed.

#[export] Instance transit_signer_laws : SignerLaws map_order (PatIssuer.Transit s) by_kid time verifies.
Proof.
  split.
  - intros e. apply by_kid_mono, ring_now.
  - apply time_clock.
  - apply later_JWKS.
  - apply transit_lists.
  - intros c w w' tok _. apply transit_signs.
Qed.

End Transit.

(** ** A local key *)

(** golang-jwt's [SignedString] with an ES256 key: it prints the header and the
    claims, maps, in the order of their names, and the signature verifies. *)
Class LocalLaws {PrivateKey : Type} `{PatIssuer.PatCrypto PrivateKey} (verifies : PublicKey -> string -> list Z -> Prop) := {
  SignedString_signs : forall key h c tok, (PatIssuer.public_of key).1 = PatIssuer.P256_name -> PatIssuer.SignedString key h c = Ok tok ->
    exists sig b, tok = signing_input (by_name h) (by_name c) +:+ "." +:+ sig /\ RawURL.DecodeString sig = Ok b /\
      verifies (PatIssuer.public_of key).2 (signing_input (by_name h) (by_name c)) b;
}.

Section Local.
Context {E PrivateKey : Type} `{Net E} `{PatIssuer.PatCrypto PrivateKey}.
Context (map_order : list (string * string) -> list (string * string)) (s : PatIssuer.localSigner PrivateKey).
Context (time : E -> Z) (verifies : PublicKey -> string -> list Z -> Prop) `{!ClockLaws time} `{!LocalLaws verifies}.

(** The signer was made by [newLocalSigner], of a key on P-256. *)
Context (Hkid : PatIssuer.keyID (PatIssuer.public_of (PatIssuer.key s)) = Ok (PatIssuer.kid s)).
Context (Hcurve : (PatIssuer.public_of (PatIssuer.key s)).1 = PatIssuer.P256_name).

Abbreviation pub := (PatIssuer.public_of (PatIssuer.key s)).2.

Definition local_ring (e : E) : gmap string PublicKey := {[PatIssuer.kid s := pub]}.

Lemma kid_hex : exists b, PatIssuer.kid s = Hex.EncodeToString b /\ Forall is_byte b /\ b <> [].
Proof.
  unfold PatIssuer.keyID in Hkid. destruct (map_err _ _) as [der|e]; [|done]. cbn [mbind result_bind] in Hkid.
  assert (PatIssuer.kid s = Hex.EncodeToString (firstn 8 (Sum256 der))) as -> by congruence.
  exists (firstn 8 (Sum256 der)). split; [done|]. split; [apply Forall_take, Sum256_range|].
  intros He%(f_equal length). rewrite length_take, length_Sum256 in He. done.
Qed.

Lemma kid_clean : sanitize (PatIssuer.kid s) = PatIssuer.kid s /\ PatIssuer.kid s <> "".
Proof.
  destruct kid_hex as (b & -> & Hb & Hn). split; [apply sanitize_valid, valid_utf8_ascii; by apply Hex.hex_Encode_chars|].
  by destruct b.
Qed.

Lemma local_lists doc : PatIssuer.local_JWKS s = Ok doc -> parseJWKS doc = Ok {[PatIssuer.kid s := pub]}.
Proof.
  destruct kid_clean as [Hc Hn]. unfold PatIssuer.local_JWKS. destruct (PatIssuer.public_of (PatIssuer.key s)) as [curve k].
  cbn [fst snd]. intros Hd. inv_ok. rename x0 into b.
  match goal with Hx : Bytes k = Ok b |- _ => rename Hx into Hb end.
  destruct (PatIssuerSpec.jwk_parses (PatIssuer.kid s) k b Hb Hn) as (Hx & Hy & Hs & Hp).
  unfold parseJWKS. match goal with |- context [Unmarshal _ ?d _] =>
    change d with (print (JObj [("keys", JArr [PatIssuer.jwk_json "ES256" (PatIssuer.kid s) (firstn 32 (skipn 1 b)) (skipn 33 b)])])) end.
  rewrite PatIssuerSpec.jwks_doc_reads; [|by repeat constructor|by vm_compute].
  cbn [map all_ok]. rewrite PatIssuerSpec.jwk_clean, PatIssuerSpec.jwk_decodes by done. rewrite !bind_Ok_l. cbn [map_err].
  rewrite bind_Ok_l. cbn [keys_loop]. rewrite Hs. cbn [negb]. rewrite Hp, !bind_Ok_l. by rewrite insert_empty, map_size_singleton.
Qed.

Definition local_header : list (string * json) := [("alg", JStr "ES256"); ("typ", JStr "JWT"); ("kid", JStr (PatIssuer.kid s))].

Lemma plain_local_header : plain (by_name local_header).
Proof.
  change (by_name local_header) with [("alg", JStr "ES256"); ("kid", JStr (PatIssuer.kid s)); ("typ", JStr "JWT")].
  split; [by cbn; repeat constructor|]. split; [by vm_compute|]. split; [|apply (bool_decide_unpack _); by vm_compute].
  cbn -[sanitize]. by rewrite (proj1 kid_clean).
Qed.

#[export] Instance local_signer_laws : SignerLaws map_order (PatIssuer.Local s) local_ring time verifies.
Proof.
  split.
  - done.
  - apply time_clock.
  - by apply steps_pure; [apply _|].
  - intros w w' doc Hj. cbn in Hj. apply run_lift_inv in Hj as [-> Hj]. by apply local_lists.
  - intros c w w' tok Hc Hm. cbn in Hm. apply run_lift_inv in Hm as [-> Hm].
    destruct (SignedString_signs (PatIssuer.key s) local_header c tok Hcurve Hm) as (sig & b & -> & Hd & Hv).
    exists (by_name local_header), pub, sig, b. split; [apply plain_local_header|]. split; [done|].
    split; [apply kid_clean|]. split_and!; try done. apply lookup_singleton_eq.
Qed.

End Local.

(** ** A proxy with two key versions, a local key, and a JWT library *)

Module Runs.

Import PatIssuerSpec.Runs.

(** The signature of a text under the one key: 64 times a byte of its hash. *)
Definition checksum (input : string) : Z := hd 0 (Sha2.Sum256 (bytes_of_string input)).
Definition envelope (x : Z) : string := "vault:v3:" +:+ RawURL.EncodeToString (replicate 64 x).
Definition reply (x : Z) : string := print (JObj [("data", JObj [("signature", JStr (envelope x))])]).

Definition input_fields : list (field string) := [fld "input" (fun s => s) (fun x _ => x) dec_string].
Definition input_of (req : http_request) : string :=
  match Unmarshal (dec_struct input_fields) (default "" (hr_Body req)) "" with Ok input => input | Err _ => "" end.

(** A second passes with every reading of the clock. *)
#[export] Instance proxy : Net Z :=
  {| http_do := fun e req => (e, HttpResponse 200 (if String.eqb (hr_Method req) "GET" then key_read else reply (checksum (input_of req))) None);
     time_now := fun e => (e + second, e);
     url_error := fun _ => None |}.

Definition ring (e : Z) : gmap Z PublicKey := {[2 := base_point; 3 := base_point]}.

Definition signature (text : string) : list Z := replicate 64 (checksum (sanitize (Base64.EncodeToString (bytes_of_string text)))).
Definition verifies (k : PublicKey) (text : string) (b : list Z) : Prop := k = base_point /\ b = signature text.

#[export] Instance PublicKey_eq_dec : EqDecision PublicKey.
Proof. solve_decision. Defined.

#[export] Instance verifies_dec k text b : Decision (verifies k text b).
Proof. unfold verifies. apply _. Defined.

Definition verified (k : PublicKey) (text : string) (b : list Z) : bool := bool_decide (verifies k text b).

Definition decode_object (part : string) : result (list (string * json)) :=
  b ← RawURL.DecodeString part;
  match parse (string_of_bytes b) with Some (JObj l) => Ok l | _ => Err SyntaxError end.

Definition is_str (s : string) (v : option json) : bool := match v with Some (JStr x) => String.eqb x s | _ => false end.

Definition read_header (methods : list string) (token : string) : result (list (string * json)) :=
  match Split "." token with
  | [h; c; sig] =>
      h ← decode_object h; _ ← decode_object c; _ ← RawURL.DecodeString sig;
      _ ← reject (negb (existsb (fun m => is_str m (assoc_lookup "alg" h)) methods)) (Errorf "invalid method" []); Ok h
  | _ => Err (Errorf "malformed" [])
  end.

Definition read_claims (o : parse_options) (token : string) (k : PublicKey) (now : Z) : result (list (string * json)) :=
  match Split "." token with
  | [h; c; sig] =>
      b ← RawURL.DecodeString sig;
      _ ← reject (negb (verified k (h +:+ "." +:+ c) b)) (Errorf "signature is invalid" []);
      c ← decode_object c;
      _ ← reject (negb (is_str (opt_Issuer o) (assoc_lookup "iss" c) && is_str (opt_Audience o) (assoc_lookup "aud" c))) (Errorf "invalid claims" []);
      exp ← (match assoc_lookup "exp" c with
             | Some (JNum n) => match parse_nat n with Some exp => Ok exp | None => Err SyntaxError end
             | _ => Err SyntaxError
             end);
      _ ← reject (negb (now <? exp * second + opt_Leeway o)) (Wrapf "token has invalid claims: %w" [] ErrTokenExpired);
      Ok c
  | _ => Err (Errorf "malformed" [])
  end.

#[export] Instance jwt : Validators (PatIssuer.state Z) unit :=
  {| lib_header := read_header; lib_claims := read_claims;
     lib_auth0_keys := fun w => (w, Ok tt); lib_auth0_ValidateToken := fun _ w _ => (w, Err SyntaxError) |}.

Lemma decode_plain l : plain l -> decode_object (RawURL.EncodeToString (bytes_of_string (print (JObj l)))) = Ok l.
Proof.
  intros (Hw & Hh & Hc & _). unfold decode_object. rewrite RawURL.raw_Decode_Encode by apply bytes_of_string_range.
  cbn [mbind result_bind]. rewrite string_of_bytes_of_string, parse_print, Hc by done. done.
Qed.

Lemma Split_signed h c sig b : RawURL.DecodeString sig = Ok b ->
  Split "." (signing_input h c +:+ "." +:+ sig) =
  [RawURL.EncodeToString (bytes_of_string (print (JObj h))); RawURL.EncodeToString (bytes_of_string (print (JObj c))); sig].
Proof.
  intros Hd. unfold signing_input. rewrite !append_assoc. assert (Hdot : forall x : string, "." +:+ x = String "." x) by done.
  rewrite !Hdot, !(Split_append ".") by apply PatIssuerSpec.raw_free, bytes_of_string_range.
  by rewrite Split_free by by eapply PatIssuerSpec.raw_decoded_free.
Qed.

Lemma read_header_signed methods h c sig b alg : plain h -> plain c -> RawURL.DecodeString sig = Ok b ->
  assoc_lookup "alg" h = Some (JStr alg) -> alg ∈ methods -> read_header methods (signing_input h c +:+ "." +:+ sig) = Ok h.
Proof.
  intros Hh Hc Hd Ha Hm. unfold read_header. rewrite (Split_signed h c sig b Hd), !decode_plain, Hd by done. cbn [mbind result_bind].
  assert (existsb (fun m => is_str m (assoc_lookup "alg" h)) methods = true) as Hex.
  { apply existsb_exists. exists alg. rewrite Ha. split; [by apply list_elem_of_In|apply String.eqb_refl]. }
  by rewrite Hex.
Qed.

Lemma read_claims_signed o h c sig exp now : plain c ->
  RawURL.DecodeString sig = Ok (signature (signing_input h c)) ->
  assoc_lookup "iss" c = Some (JStr (opt_Issuer o)) -> assoc_lookup "aud" c = Some (JStr (opt_Audience o)) ->
  assoc_lookup "exp" c = Some (JNum (pretty exp)) -> 0 <= exp ->
  read_claims o (signing_input h c +:+ "." +:+ sig) base_point now =
  if now <? exp * second + opt_Leeway o then Ok c else Err (Wrapf "token has invalid claims: %w" [] ErrTokenExpired).
Proof.
  intros Hc Hd Hi Ha He Hx. unfold read_claims. rewrite (Split_signed h c sig _ Hd), Hd, bind_Ok_l.
  assert (verified base_point (signing_input h c) (signature (signing_input h c)) = true) as Hv by by apply bool_decide_eq_true_2.
  unfold signing_input in Hv at 1. rewrite Hv. cbn [negb reject]. rewrite bind_Ok_l, decode_plain, bind_Ok_l, Hi, Ha, He by done.
  cbn [is_str]. rewrite !String.eqb_refl, parse_nat_pretty_Z by lia. cbn [negb andb reject]. rewrite !bind_Ok_l.
  by destruct (now <? _).
Qed.

#[export] Instance jwt_laws : JwtLaws verifies.
Proof.
  split; [exact read_header_signed|]. intros o h c sig b k exp now _ Hc Hd _ _ [-> ->] Hi Ha He [Hx _] _. cbn [lib_claims jwt].
  rewrite (read_claims_signed o h c sig exp now) by done. destruct (now <? _); [done|]. by eexists.
Qed.

(** What the proxy replies to a request to sign. *)
Lemma checksum_byte input : is_byte (checksum input).
Proof.
  unfold checksum. pose proof (Sha2.Sum256_range (bytes_of_string input)) as Hr. pose proof (Sha2.length_Sum256 (bytes_of_string input)) as Hl.
  destruct (Sha2.Sum256 _) as [|x l]; [done|]. by apply Forall_cons in Hr as [? _].
Qed.

Definition carries (x : Z) (r : result string) : bool :=
  match r with
  | Ok e =>
      match PatIssuer.stripVaultEnvelope e with
      | Ok sig => match RawURL.DecodeString sig with Ok b => bool_decide (b = replicate 64 x) | Err _ => false end
      | Err _ => false
      end
  | Err _ => false
  end.

Lemma carries_Ok x r e sig b : carries x r = true -> r = Ok e ->
  PatIssuer.stripVaultEnvelope e = Ok sig -> RawURL.DecodeString sig = Ok b -> b = replicate 64 x.
Proof. intros Hx -> Hs Hb. unfold carries in Hx. rewrite Hs, Hb in Hx. by apply bool_decide_eq_true in Hx. Qed.

Lemma replies_carry x : is_byte x ->
  carries x (Unmarshal (dec_struct PatIssuer.signature_data) (PatIssuer.limited (reply x)) "") = true.
Proof.
  intros Hx. assert (forallb (fun x => carries x (Unmarshal (dec_struct PatIssuer.signature_data) (PatIssuer.limited (reply x)) ""))
    (map Z.of_nat (seq 0 256)) = true) as Ha by (vm_compute; reflexivity).
  rewrite forallb_forall in Ha. apply (Ha x). apply in_map_iff. exists (Z.to_nat x). unfold is_byte in Hx.
  split; [lia|]. apply in_seq. lia.
Qed.

Lemma input_of_sign s text v : 0 <= v ->
  input_of (PatIssuer.sign_request s text v) = sanitize (Base64.EncodeToString (bytes_of_string text)).
Proof.
  intros Hv. unfold input_of. change (default "" (hr_Body _)) with
    (print (PatIssuer.transitSignRequest_json (Base64.EncodeToString (bytes_of_string text)) false "jws" v)).
  unfold PatIssuer.transitSignRequest_json.
  rewrite Unmarshal_print; [done|cbn; repeat constructor; cbn; eauto|by vm_compute].
Qed.

Lemma ring_versions e v k : ring e !! v = Some k -> (v = 2 \/ v = 3) /\ k = base_point.
Proof. unfold ring. rewrite lookup_insert_Some, lookup_singleton_Some. naive_solver. Qed.

Lemma key_read_run (st : PatIssuer.state Z) : exists calls, PatIssuer.readKey id transit st =
  (PatIssuer.mkState (PatIssuer.net st) calls, Returned (Ok (PatIssuer.mkKeyInfo "ecdsa-p256" 3 {[2 := "PEM"; 3 := "PEM"]}))).
Proof. destruct st as [e calls]. eexists. vm_compute. reflexivity. Qed.

Lemma Ok_eq {A} (x y : A) : Ok x = Ok y -> x = y.
Proof. congruence. Qed.

Lemma returned_inj {S A} (s s' : S) (r r' : result A) : (s, Returned r) = (s', Returned r') -> r = r'.
Proof. congruence. Qed.

Lemma do_200 {E R} `{Net E} req (d : decoder R) z (st : PatIssuer.state E) e body :
  http_do (PatIssuer.net st) req = (e, HttpResponse 200 body None) ->
  exists st', PatIssuer.do_ req d z st = (st', Returned (Unmarshal d (PatIssuer.limited body) z)).
Proof.
  intros Hr. unfold PatIssuer.do_. erewrite run_bind by apply PatIssuerSpec.run_send_proxy. rewrite Hr. cbn [fst snd]. cbv zeta.
  erewrite run_bind by done. erewrite run_bind by done. by eexists.
Qed.

Lemma sign_reply e text v : 0 <= v -> http_do e (PatIssuer.sign_request transit text v) =
  (e, HttpResponse 200 (reply (checksum (sanitize (Base64.EncodeToString (bytes_of_string text))))) None).
Proof. intros Hv. cbn [http_do proxy]. by rewrite input_of_sign. Qed.

Lemma reply_signature x e sig b : is_byte x ->
  Unmarshal (dec_struct PatIssuer.signature_data) (PatIssuer.limited (reply x)) "" = Ok e ->
  PatIssuer.stripVaultEnvelope e = Ok sig -> RawURL.DecodeString sig = Ok b -> b = replicate 64 x.
Proof. intros Hx%replies_carry. exact (carries_Ok x _ e sig b Hx). Qed.

Lemma sign_run text v e (st st' : PatIssuer.state Z) sig b : 0 <= v ->
  PatIssuer.do_ (PatIssuer.sign_request transit text v) (dec_struct PatIssuer.signature_data) "" st = (st', Returned (Ok e)) ->
  PatIssuer.stripVaultEnvelope e = Ok sig -> RawURL.DecodeString sig = Ok b -> b = signature text.
Proof.
  intros Hv Hd Hs Hb. pose proof (sign_reply (PatIssuer.net st) text v Hv) as Hr.
  destruct (do_200 _ (dec_struct PatIssuer.signature_data) "" st _ _ Hr) as [st1 Hd1]. rewrite Hd1 in Hd. apply returned_inj in Hd.
  eapply reply_signature; [apply checksum_byte|exact Hd|exact Hs|exact Hb].
Qed.

#[export] Instance proxy_clock : ClockLaws id.
Proof. split; [done|]. intros e. cbn. unfold second. lia. Qed.

#[export] Instance transit_laws : TransitLaws id transit ring verifies.
Proof.
  split; try done.
  - intros st st' info Hr. destruct (key_read_run st) as [calls Er]. rewrite Er in Hr. simplify_eq. cbn [PatIssuer.net PatIssuer.LatestVersion PatIssuer.PublicKeys].
    split; [by eexists|]. intros v k. split.
    + intros [[-> | ->] ->]%ring_versions; exists "PEM"; (split; [done|]); vm_compute; reflexivity.
    + intros (data & Hd & Hp). assert (k = base_point) as -> by (vm_compute in Hp; by injection Hp).
      rewrite lookup_insert_Some, lookup_singleton_Some in Hd. by destruct Hd as [[<- _]|[_ [<- _]]].
  - intros st st' text v e sig b k Hd Hs Hb [Hv ->]%ring_versions. split; [done|].
    eapply sign_run; [|done..]. lia.
Qed.

Definition boot_pat : PatIssuer.state Z := PatIssuer.mkState (1700000000 * second) [].
Definition issued := Eval vm_compute in PatIssuer.IssueToken id AddDays_UTC plugin request boot_pat.
Definition token : PatIssuer.IssueTokenResponse :=
  Eval vm_compute in match issued.2 with Returned (Ok r) => r | _ => PatIssuer.mkIssueResponse false "" end.

Lemma proxy_issued_run : PatIssuer.IssueToken id AddDays_UTC plugin request boot_pat = (issued.1, Returned (Ok token)).
Proof. vm_compute. reflexivity. Qed.

Definition auth_plugin : Plugin := mkPlugin "orbitport" "orbitport-api" true jwksMinRefresh ∅.
Definition boot_auth (t : Z) : auth_state (PatIssuer.state Z) := mkState (PatIssuer.mkState t []) None 0 [].

Lemma proxy_available : available (K := unit) id plugin.
Proof. intros [e calls]. eexists. vm_compute. reflexivity. Qed.

#[local] Instance env_K : AuthEnv (PatIssuer.state Z) unit := patissuer_env id plugin.

Definition before := Eval vm_compute in ValidateToken auth_plugin (PatIssuer.iss_Token token) (boot_auth (1700050000 * second)).
Definition after := Eval vm_compute in ValidateToken auth_plugin (PatIssuer.iss_Token token) (boot_auth (1700086520 * second)).

Lemma before_run : ValidateToken auth_plugin (PatIssuer.iss_Token token) (boot_auth (1700050000 * second)) = before.
Proof. vm_compute. reflexivity. Qed.

Lemma before_clock : PatIssuer.net (env before.1) < 1700086400 * second + minute.
Proof. vm_compute. reflexivity. Qed.

Lemma after_run : ValidateToken auth_plugin (PatIssuer.iss_Token token) (boot_auth (1700086520 * second)) = after.
Proof. vm_compute. reflexivity. Qed.

(** Ten hours before it expires the token is accepted; two minutes after, it is not. *)
Lemma issued_token_accepted_witness :
  before.2 = Returned (Ok (mkTokenResponse true "acme" "t1" "kms-acme")) /\
  exists err, after.2 = Returned (Err (StatusErr Unauthenticated (Wrapf "pat_expired: %w" [] err))).
Proof.
  assert (forall t, PatIssuer.net issued.1 <= t -> exists a' r now,
    ValidateToken auth_plugin (PatIssuer.iss_Token token) (boot_auth t) = (a', Returned r) /\ cache_current (by_kid ring) a' /\
    later (by_kid ring) id (env (boot_auth t)) (env a') /\ t <= now <= PatIssuer.net (env a') /\
    if now <? 1700086400 * second + minute then r = Ok (mkTokenResponse true "acme" "t1" "kms-acme")
    else exists err, r = Err (StatusErr Unauthenticated (Wrapf "pat_expired: %w" [] err))) as Hrun.
  { intros t Ht. apply (issued_token_accepted (SignerLaws0 := transit_signer_laws id transit ring id verifies) id AddDays_UTC plugin (by_kid ring) id verifies auth_plugin request boot_pat issued.1 token (boot_auth t));
      [reflexivity..|repeat constructor|by vm_compute|by split; vm_compute|exact proxy_issued_run|apply proxy_available|by split|done|by right; left]. }
  split.
  - destruct (Hrun (1700050000 * second)) as (a' & r & now & Hv & _ & _ & Hn & Hr); [by vm_compute|].
    rewrite before_run in Hv. rewrite Hv. cbn [snd]. destruct (Z.ltb_spec now (1700086400 * second + minute)) as [|Hge]; [by subst r|].
    exfalso. assert (a' = before.1) as -> by (by rewrite Hv). pose proof before_clock. lia.
  - destruct (Hrun (1700086520 * second)) as (a' & r & now & Hv & _ & _ & Hn & Hr); [by vm_compute|].
    rewrite after_run in Hv. rewrite Hv. cbn [snd]. destruct (Z.ltb_spec now (1700086400 * second + minute)) as [Hlt|].
    + exfalso. assert (1700086400 * second + minute <= 1700086520 * second) by (by vm_compute). lia.
    + destruct Hr as [err ->]. by exists err.
Defined.

(** A local key, whose signatures are of the same kind. *)
Definition local_crypto : PatIssuer.PatCrypto unit :=
  {| PatIssuer.pem_Decode := fun s => Some s;
     PatIssuer.ParsePKIXPublicKey := fun _ => Ok PatIssuer.OtherKey;
     PatIssuer.ParseECPrivateKey := fun _ => Ok tt;
     PatIssuer.ParsePKCS8PrivateKey := fun _ => Ok PatIssuer.OtherKey;
     PatIssuer.MarshalPKIXPublicKey := fun _ _ => Ok [];
     PatIssuer.public_of := fun _ => (PatIssuer.P256_name, base_point);
     PatIssuer.SignedString := fun _ h c =>
       let text := signing_input (by_name h) (by_name c) in Ok (text +:+ "." +:+ RawURL.EncodeToString (signature text)) |}.

#[export] Instance local_laws : LocalLaws (H := local_crypto) verifies.
Proof.
  split. intros key h c tok _ Ht.
  pose proof (Ok_eq _ _ Ht) as <-.
  exists (RawURL.EncodeToString (signature (signing_input (by_name h) (by_name c)))), (signature (signing_input (by_name h) (by_name c))).
  split; [reflexivity|]. split; [apply RawURL.raw_Decode_Encode, Forall_replicate, checksum_byte|by split].
Qed.

Definition local_config : PatIssuer.patissuerConfig :=
  PatIssuer.mkConfig "orbitport" "orbitport-api" PatIssuer.signerLocal "" 370 "" "" "" 10.
Definition local_made := Eval vm_compute in PatIssuer.newLocalSigner (H0 := local_crypto) (Ok tt) "".
Definition local_signer : PatIssuer.localSigner unit :=
  Eval vm_compute in match local_made with Ok (s, _) => s | Err _ => PatIssuer.mkLocalSigner tt "" end.
Definition local_plugin : PatIssuer.Plugin := PatIssuer.mkPlugin (PrivateKey := unit) local_config (PatIssuer.Local local_signer).

(** Its laws hold, and its tokens are accepted. *)
Example local_signer_ok : SignerLaws (H0 := local_crypto) id (PatIssuer.Local local_signer) (local_ring (H0 := local_crypto) local_signer) id verifies.
Proof. apply (local_signer_laws (H0 := local_crypto)); [apply _|apply _|vm_compute; reflexivity|reflexivity]. Qed.

Definition local_token : PatIssuer.IssueTokenResponse :=
  Eval vm_compute in match (PatIssuer.IssueToken (H0 := local_crypto) id AddDays_UTC local_plugin request boot_pat).2 with
                     | Returned (Ok r) => r | _ => PatIssuer.mkIssueResponse false "" end.

Example local_accepted :
  (ValidateToken (H := patissuer_env (H0 := local_crypto) id local_plugin) auth_plugin (PatIssuer.iss_Token local_token)
     (boot_auth (1700050000 * second))).2 = Returned (Ok (mkTokenResponse true "acme" "t1" "kms-acme")).
Proof. vm_compute. reflexivity. Qed.

End Runs.
