(* ===== verification/Beacon.v ===== *)
(** * The beacon plugin (pkg/plugin/beacon)

    A beacon is a chain of blocks on IPFS whose head an IPNS name points to. The
    plugin finds or creates its beacon in a registry that another name points
    to, schedules the beacons of the registry by their intervals, and appends a
    block of random values at each execution. The other plugins (IPFS, cTRNG,
    master seed), the clock and the context are the parameter [BeaconEnv]; the
    state is that environment and the requests sent so far. Metrics and logging
    are left out. *)

From S2P Require Import Prelude GoStrings Errors State Json Http MasterSeed.

(** ** config.go *)

Record Config := mkConfig {
  IPFSPlugin : string;
  CTRNGPlugin : string;
  MasterSeedPlugin : string;
  BeaconRegistry : string;
  DefaultBeaconName : string;
  BeaconMsg : string;
  BeaconInterval : Z;
  IPFSAddress : string;
  RegistryRetrievalTimeout : Z;
}.

(** [env_string] and [env_int32] are the values viper finds. *)
Definition readFromEnv (env_string : string -> option string) (env_int32 : string -> option Z) : Config :=
  mkConfig (default "plugin-ipfs:50002" (env_string "IPFS_PLUGIN"))
    (default "plugin-aptos-orbital:50001" (env_string "CTRNG_PLUGIN"))
    (default "plugin-masterseed:50003" (env_string "MASTERSEED_PLUGIN"))
    (default "orbitport-registry" (env_string "BEACON_REGISTRY"))
    (default "randomness-beacon1.0" (env_string "DEFAULT_BEACON_NAME"))
    (default "Rm9ydHVuZQrotKLlr4wK157Xltec" (env_string "BEACON_MSG"))
    (default 60 (env_int32 "BEACON_UPDATE_INTERVAL"))
    (default "http://ipfs-node:5001" (env_string "IPFS_ADDRESS"))
    (default 90 (env_int32 "REGISTRY_RETRIEVAL_TIMEOUT")).

(** ** types.go *)

Record BeaconMetadata := mkMetadata {
  Name : string;
  PublicKey : string;
  Version : string;
  Encoding : string;
  BatchSize : Z;                          (* uint64 *)
  Message : string;
  Interval : Z;                           (* time.Duration *)
}.

Record BeaconPayload := mkPayload { Sequence : Z; Timestamp : Z; CTRNG : list string }.

Record Block := mkBlock { Link : string; Data : option BeaconPayload; Metadata : option BeaconMetadata }.

Record Registry := mkRegistry { Beacons : list BeaconMetadata }.

Definition BeaconMetadata_json (m : BeaconMetadata) : json :=
  JObj [("name", JStr (Name m)); ("public_key", JStr (PublicKey m)); ("version", JStr (Version m));
        ("encoding", JStr (Encoding m)); ("batch_size", JNum (pretty (BatchSize m)));
        ("message", JStr (Message m)); ("interval", JNum (pretty (Interval m)))].

Definition BeaconPayload_json (p : BeaconPayload) : json :=
  JObj [("sequence", JNum (pretty (Sequence p))); ("timestamp", JNum (pretty (Timestamp p)));
        ("ctrng", JArr (map JStr (CTRNG p)))].

Definition Block_json (b : Block) : json :=
  JObj (omitempty "previous" (Link b) ++
        match Data b with Some p => [("data", BeaconPayload_json p)] | None => [] end ++
        match Metadata b with Some m => [("metadata", BeaconMetadata_json m)] | None => [] end).

Definition metadata_zero : BeaconMetadata := mkMetadata "" "" "" "" 0 "" 0.
Definition payload_zero : BeaconPayload := mkPayload 0 0 [].
Definition block_zero : Block := mkBlock "" None None.

Definition BeaconMetadata_fields : list (field BeaconMetadata) :=
  [fld "name" Name (fun x r => mkMetadata x (PublicKey r) (Version r) (Encoding r) (BatchSize r) (Message r) (Interval r)) dec_string;
   fld "public_key" PublicKey (fun x r => mkMetadata (Name r) x (Version r) (Encoding r) (BatchSize r) (Message r) (Interval r)) dec_string;
   fld "version" Version (fun x r => mkMetadata (Name r) (PublicKey r) x (Encoding r) (BatchSize r) (Message r) (Interval r)) dec_string;
   fld "encoding" Encoding (fun x r => mkMetadata (Name r) (PublicKey r) (Version r) x (BatchSize r) (Message r) (Interval r)) dec_string;
   fld "batch_size" BatchSize (fun x r => mkMetadata (Name r) (PublicKey r) (Version r) (Encoding r) x (Message r) (Interval r)) dec_uint64;
   fld "message" Message (fun x r => mkMetadata (Name r) (PublicKey r) (Version r) (Encoding r) (BatchSize r) x (Interval r)) dec_string;
   fld "interval" Interval (fun x r => mkMetadata (Name r) (PublicKey r) (Version r) (Encoding r) (BatchSize r) (Message r) x) dec_int].

Definition BeaconPayload_fields : list (field BeaconPayload) :=
  [fld "sequence" Sequence (fun x r => mkPayload x (Timestamp r) (CTRNG r)) dec_uint64;
   fld "timestamp" Timestamp (fun x r => mkPayload (Sequence r) x (CTRNG r)) dec_int;
   fld "ctrng" CTRNG (fun x r => mkPayload (Sequence r) (Timestamp r) x) (dec_list "" dec_string)].

Definition Block_fields : list (field Block) :=
  [fld "previous" Link (fun x r => mkBlock x (Data r) (Metadata r)) dec_string;
   fld "data" Data (fun x r => mkBlock (Link r) x (Metadata r)) (dec_ptr payload_zero (dec_struct BeaconPayload_fields));
   fld "metadata" Metadata (fun x r => mkBlock (Link r) (Data r) x) (dec_ptr metadata_zero (dec_struct BeaconMetadata_fields))].

Definition UnmarshalBeaconBlock (data : string) : result Block :=
  map_err (Wrapf "failed to unmarshal beacon block: %w" []) (Unmarshal (dec_struct Block_fields) data block_zero).

Definition Registry_Marshal (r : Registry) : string := print (JArr (map BeaconMetadata_json (Beacons r))).

Definition Registry_Unmarshal (data : string) : result Registry :=
  l ← Unmarshal (dec_list metadata_zero (dec_struct BeaconMetadata_fields)) data []; Ok (mkRegistry l).

(** ** The environment *)

Inductive rpc :=
| RGet (key namespace : string)
| RAdd (data : string)
| RPublish (cid name : string)
| RKeyInfo (name : string)
| RGetTrng
| RGetSeeds (count : Z).

(** [ipfs_Get] returns the path and the data, [ipfs_Add] the CID, [ipfs_Publish]
    and [ipfs_KeyInfo] the IPNS name, which is empty where the response is nil.
    [wait] is the select on the timer and the context, [ctx_Err] the context's
    error, if it is done. *)
Class BeaconEnv (E : Type) := {
  ipfs_Get : E -> string -> string -> E * result (string * string);
  ipfs_Add : E -> string -> E * result string;
  ipfs_Publish : E -> string -> string -> E * result string;
  ipfs_KeyInfo : E -> string -> E * result string;
  GetTrng : E -> E * result (list string);
  GetSeeds : E -> Z -> E * result (list string);
  clock_now : E -> E * Z;
  wait : E -> Z -> E * option error;
  ctx_Err : E -> E * option error;
}.

Record state (E : Type) := mkState { env : E; sent : list rpc }.
Arguments mkState {E} env sent.
Arguments env {E} s.
Arguments sent {E} s.

Inductive registryQueryState := StateMissingKey | StateUnpublishedKey | StateLoaded.

Definition findBeaconInRegistry (reg : Registry) (name : string) : option BeaconMetadata :=
  find (fun b => String.eqb (Name b) name) (Beacons reg).

Fixpoint upsertBeacon (l : list BeaconMetadata) (meta : BeaconMetadata) : list BeaconMetadata :=
  match l with
  | [] => [meta]
  | b :: l => if String.eqb (Name b) (Name meta) then meta :: l else b :: upsertBeacon l meta
  end.

Definition maxRetries : nat := 5.

Section Beacon.
Context {E : Type} `{BeaconEnv E}.

Abbreviation B := (Prog (state E)).

(** One request and its answer. *)
Definition ask {A} (r : rpc) (f : E -> E * result A) : B A := fun s =>
  let '(e, a) := f (env s) in (mkState e (sent s ++ [r]), Returned a).

Definition look {A} (f : E -> E * A) : B A := fun s =>
  let '(e, a) := f (env s) in (mkState e (sent s), Returned (Ok a)).

Definition Get (key namespace : string) : B (string * string) := ask (RGet key namespace) (fun e => ipfs_Get e key namespace).
Definition Add (data : string) : B string := ask (RAdd data) (fun e => ipfs_Add e data).
Definition Publish (cid name : string) : B string := ask (RPublish cid name) (fun e => ipfs_Publish e cid name).
Definition KeyInfo (name : string) : B string := ask (RKeyInfo name) (fun e => ipfs_KeyInfo e name).
Definition Now : B Z := look clock_now.

(** ** plugin.go *)

Definition loadLastBeaconBlock (name : string) : B (string * option BeaconPayload) :=
  getResp ← on_err (Printf "failed to get beacon from IPFS: %v" []) (Get name "ipns");
  block ← lift (map_err (Wrapf "failed to unmarshal beacon block: %w" []) (UnmarshalBeaconBlock getResp.2));
  mret (getResp.1, Data block).

Definition createBeacon (beaconName msg : string) (interval : Z) : B BeaconMetadata :=
  now ← Now;
  let gen0 := mkPayload 0 (now / second) [] in
  addTemp ← on_err (Wrapf "add temp genesis: %w" []) (Add (print (Block_json (mkBlock "" (Some gen0) None))));
  pubKey ← on_err (Wrapf "publish temp genesis to IPNS: %w" []) (Publish addTemp beaconName);
  let beaconInterval := if 0 <? interval then interval * second else 60 * second in
  let meta := mkMetadata beaconName pubKey "1.0" "json" 3 msg beaconInterval in
  addFinal ← on_err (Wrapf "add final genesis: %w" []) (Add (print (Block_json (mkBlock "" (Some gen0) (Some meta)))));
  _ ← on_err (Wrapf "publish final genesis to IPNS: %w" []) (Publish addFinal beaconName);
  mret meta.

Definition publishRegistry (alias : string) (reg : Registry) : B string :=
  cid ← on_err (Printf "ipfs add registry: %v" []) (Add (Registry_Marshal reg));
  _ ← on_err (Printf "publish registry %v: %v" [alias]) (Publish cid alias);
  mret cid.

(** The timeout of the query is part of the environment: it shows as an error of
    the requests. *)
Definition queryRegistry (alias : string) : B (option Registry * string * registryQueryState) :=
  ki ← on_err (Wrapf "KeyInfo check failed: %w" []) (KeyInfo alias);
  if String.eqb ki "" then mret (None, "", StateMissingKey)
  else
    resp ← attempt (Get ki "ipns");
    match resp with
    | Err err =>
        if bool_decide (status_code err = NotFound) then mret (None, "", StateUnpublishedKey)
        else throw (Wrapf "key exists (%s) but IPNS Get failed: %w" [ki] err)
    | Ok resp =>
        reg ← lift (map_err (Wrapf "unmarshal registry: %w" []) (Registry_Unmarshal resp.2));
        mret (Some reg, resp.1, StateLoaded)
    end.

(** The loop over the attempts; [more] are the attempts after this one. *)
Fixpoint query_loop (alias : string) (more : nat) (waitDuration : Z) : B (option Registry * registryQueryState) :=
  r ← attempt (queryRegistry alias);
  match r with
  | Ok (reg, _, st) => mret (reg, st)
  | Err queryErr =>
      match more with
      | O => throw (Wrapf "registry key %q exists locally, but IPNS resolution failed after retries: %w" [alias] queryErr)
      | S more =>
          stop ← look (fun e => wait e waitDuration);
          match stop with
          | Some err => throw err
          | None => query_loop alias more (i64 (waitDuration * 2))
          end
      end
  end.

(** The beacon is created, put into [reg], and [reg] is published. *)
Definition create_and_publish (cfg : Config) (reg : Registry) : B Registry :=
  meta ← on_err (Wrapf "createBeacon(%q) failed: %w" [DefaultBeaconName cfg])
           (createBeacon (DefaultBeaconName cfg) (BeaconMsg cfg) (BeaconInterval cfg));
  _ ← on_err (Wrapf "publishRegistry(%q) failed: %w" [BeaconRegistry cfg])
        (publishRegistry (BeaconRegistry cfg) (mkRegistry (upsertBeacon (Beacons reg) meta)));
  mret (mkRegistry [meta]).

Definition loadRegistryWithClient (cfg : Config) : B Registry :=
  let registryAlias := BeaconRegistry cfg in
  _ ← guard_err (String.eqb registryAlias "") (Errorf ("BEACON_REGISTRY must be set (e.g., " +:+ String dquote ("orbitport-registry" +:+ String dquote ")")) []);
  q ← query_loop registryAlias (maxRetries - 1) (2 * second);
  match q with
  | (Some reg, StateLoaded) =>
      match findBeaconInRegistry reg (DefaultBeaconName cfg) with
      | Some meta => mret (mkRegistry [meta])
      | None => create_and_publish cfg reg
      end
  | (None, StateLoaded) => throw (Errorf "registry %q reported as loaded but returned no data" [registryAlias])
  | (_, StateMissingKey) | (_, StateUnpublishedKey) => create_and_publish cfg (mkRegistry [])
  end.

(** ** builder.go *)

(** [loadCtrngs], up to the receive from its channel: a channel that was closed
    without a value gives nil. *)
Definition loadCtrngs (metadata : BeaconMetadata) : B (list string) :=
  let batchSize := if BatchSize metadata <=? 0 then 1 else BatchSize metadata in
  ctrngResp ← attempt (ask RGetTrng GetTrng);
  stop ← (match ctrngResp with Err _ => look ctx_Err | Ok _ => mret None end);
  match stop with
  | Some _ => mret []
  | None =>
      let ctrngSeed := match ctrngResp with Ok (v :: _) => v | _ => "" end in
      ctrngs ← (if negb (String.eqb ctrngSeed "") then
                  match DeriveBulkFromSeedHex ctrngSeed (i64 batchSize) with
                  | Returned (Ok l) => mret l
                  | Returned (Err _) => mret []
                  | Blocked => fun s => (s, Blocked)
                  | Panicked => panic
                  end
                else
                  r ← attempt (ask (RGetSeeds (u32 batchSize)) (fun e => GetSeeds e (u32 batchSize)));
                  mret (match r with Ok l => l | Err _ => [] end));
      match ctrngs with
      | [] => mret []
      | _ => stop ← look ctx_Err; mret (match stop with Some _ => [] | None => ctrngs end)
      end
  end.

(** The part of [executeBeacon] that reads: the random values, and the last
    block with its CID. The loader runs beside the read of the block, on other
    services. *)
Definition execute_read (metadata : BeaconMetadata) : B (list string * string * BeaconPayload) :=
  ctrngs ← loadCtrngs metadata;
  last ← on_err (Wrapf "failed to load last beacon block: %w" []) (loadLastBeaconBlock (Name metadata));
  match last.2 with
  | None => panic                       (* lastBlock.Sequence of a nil lastBlock *)
  | Some lastBlock => mret (ctrngs, last.1, lastBlock)
  end.

(** The part that writes: the new block is added, then published. *)
Definition execute_write (metadata : BeaconMetadata) (r : list string * string * BeaconPayload) : B unit :=
  let '(ctrngs, lastCid, lastBlock) := r in
  _ ← guard_err (match ctrngs with [] => true | _ => false end) (Errorf "no CTRNG values received for beacon %s" [Name metadata]);
  now ← Now;
  let beaconPayload := mkPayload (u64 (Sequence lastBlock + 1)) (now / second) ctrngs in
  let block := mkBlock lastCid (Some beaconPayload) None in
  cid ← on_err (Wrapf "failed to add beacon block to IPFS: %w" []) (Add (print (Block_json block)));
  _ ← on_err (Wrapf "failed to publish updated beacon block %s to IPNS beacon-name %s, beacon-CID %s: %w"
                [cid; Name metadata; PublicKey metadata]) (Publish cid (Name metadata));
  mret tt.

Definition executeBeacon (metadata : BeaconMetadata) : B unit := r ← execute_read metadata; execute_write metadata r.

(** ** scheduler.go *)

Record Scheduler := mkScheduler {
  registry : Registry;
  q : list BeaconMetadata;                (* the buffered channel, oldest first *)
  lastExecs : gmap string Z;
}.

Definition queue_capacity : nat := 16.

Definition NewScheduler (reg : Registry) : Scheduler := mkScheduler reg [] ∅.

Definition setLastExec (s : Scheduler) (beacon : string) (t : Z) : Scheduler :=
  mkScheduler (registry s) (q s) (<[beacon := t]> (lastExecs s)).

(** Whether the tick that reads the clock at [now] skips a beacon. *)
Definition skips (s : Scheduler) (beacon : BeaconMetadata) (now : Z) : bool :=
  (Interval beacon =? 0) ||
  match lastExecs s !! Name beacon with
  | Some lastExec => now - lastExec <? Interval beacon
  | None => false
  end.

(** One beacon of a tick; the clock is read for the check and again after the
    send. *)
Definition trigger (s : Scheduler) (beacon : BeaconMetadata) (checked pushed : Z) : Scheduler :=
  if skips s beacon checked then s
  else if (length (q s) <? queue_capacity)%nat
  then mkScheduler (registry s) (q s ++ [beacon]) (<[Name beacon := pushed]> (lastExecs s))
  else s.

(** [clock i] are the two readings for the [i]-th beacon. *)
Fixpoint trigger_all (s : Scheduler) (beacons : list BeaconMetadata) (clock : list (Z * Z)) : Scheduler :=
  match beacons, clock with
  | b :: bs, (t1, t2) :: ts => trigger_all (trigger s b t1 t2) bs ts
  | _, _ => s
  end.

Definition checkAndTriggerBeacons (s : Scheduler) (clock : list (Z * Z)) : Scheduler :=
  trigger_all s (Beacons (registry s)) clock.

(** The builder takes the oldest event. *)
Definition receive (s : Scheduler) : option (BeaconMetadata * Scheduler) :=
  match q s with
  | [] => None
  | b :: l => Some (b, mkScheduler (registry s) l (lastExecs s))
  end.

Fixpoint update_loop (s : Scheduler) (beacons : list BeaconMetadata) : B Scheduler :=
  match beacons with
  | [] => mret s
  | b :: bs =>
      r ← attempt (loadLastBeaconBlock (Name b));
      match r with
      | Err _ => update_loop s bs
      | Ok (_, None) => panic              (* lastBlock.Timestamp of a nil lastBlock *)
      | Ok (_, Some lastBlock) => update_loop (setLastExec s (Name b) (Timestamp lastBlock * second)) bs
      end
  end.

(** [NewClient] is the outcome of [grpc.NewClient]. *)
Definition updateLastExecs (NewClient : string -> result unit) (cfg : Config) (s : Scheduler) : B Scheduler :=
  _ ← lift (map_err (Printf "failed to connect to IPFS plugin: %v" [])
              (map_err (Wrapf "failed to connect to IPFS plugin: %w" []) (NewClient (IPFSPlugin cfg))));
  update_loop s (Beacons (registry s)).

Definition Scheduler_Start (NewClient : string -> result unit) (cfg : Config) (s : Scheduler) : B Scheduler :=
  on_err (Wrapf "failed to update last execution times: %w" []) (updateLastExecs NewClient cfg s).

Definition loadRegistry (NewClient : string -> result unit) (cfg : Config) : B Registry :=
  _ ← lift (map_err (Wrapf "failed to connect to IPFS plugin: %w" [])
              (map_err (Wrapf "failed to connect to IPFS plugin: %w" []) (NewClient (IPFSPlugin cfg))));
  loadRegistryWithClient cfg.

(** [dependencies] is the outcome of [health.WaitForDependencies]. *)
Definition NewPlugin (dependencies : result unit) (NewClient : string -> result unit) (cfg : Config) : B Scheduler :=
  _ ← lift (map_err (Wrapf "beacon plugin dependencies failed to start within the alloted timeframe, aborting: %w" []) dependencies);
  reg ← on_err (Wrapf "failed to load beacon registry: %w" []) (loadRegistry NewClient cfg);
  mret (NewScheduler reg).

End Beacon.
