(* ===== verification/BeaconSpec.v ===== *)
(** * What the beacon plugin promises

    The blocks of a beacon form a chain, a registry that could not be read is
    not overwritten, and the scheduler keeps the intervals. *)

From S2P Require Import Prelude GoStrings Errors State Json Http MasterSeed Beacon.

(** Member names are ASCII: sanitizing leaves them alone. *)
Ltac plain_names :=
  repeat match goal with
  | |- context [sanitize (String ?c ?s)] =>
      let v := eval vm_compute in (sanitize (String c s)) in change (sanitize (String c s)) with v
  end.

(** ** Blocks *)

Lemma dec_uint64_num z r : is_u64 z -> dec_uint64 (JNum (pretty z)) r = Ok z.
Proof.
  intros Hz. unfold is_u64 in Hz. cbn. rewrite parse_nat_pretty_Z by lia.
  by destruct (Z.ltb_spec z (2 ^ 64)); [|lia].
Qed.

Lemma dec_int_num z r : 0 <= z < 2 ^ 63 -> dec_int (JNum (pretty z)) r = Ok z.
Proof. intros Hz. cbn. by rewrite Atoi_pretty. Qed.

Lemma dec_strings l : all_ok (fun x => dec_string x "") (map clean (map JStr l)) = Ok (map sanitize l).
Proof. induction l as [|s l IH]; cbn; [done|]. cbn in IH. by rewrite IH. Qed.

Definition payload_ok (p : BeaconPayload) : Prop := is_u64 (Sequence p) /\ 0 <= Timestamp p < 2 ^ 63.

Definition clean_payload (p : BeaconPayload) : BeaconPayload := mkPayload (Sequence p) (Timestamp p) (map sanitize (CTRNG p)).

Lemma payload_decodes p : payload_ok p -> dec_struct BeaconPayload_fields (clean (BeaconPayload_json p)) payload_zero = Ok (clean_payload p).
Proof.
  intros [Hs Ht]. unfold BeaconPayload_json. cbn [clean map fst snd]. plain_names.
  assert (Hf : forall a b c, dec_struct BeaconPayload_fields (JObj [("sequence", a); ("timestamp", b); ("ctrng", c)]) payload_zero =
    (x ← dec_uint64 a 0; y ← dec_int b 0; z ← dec_list "" dec_string c []; Ok (mkPayload x y z))).
  { intros a b c. cbn -[dec_uint64 dec_int dec_list]. destruct (dec_uint64 a 0); [|reflexivity]. cbn -[dec_uint64 dec_int dec_list].
    destruct (dec_int b 0); [|reflexivity]. cbn -[dec_uint64 dec_int dec_list]. destruct (dec_list "" dec_string c []); reflexivity. }
  rewrite Hf, dec_uint64_num, dec_int_num by done. cbn [mbind result_bind dec_list]. by rewrite dec_strings.
Qed.

Definition metadata_ok (m : BeaconMetadata) : Prop := is_u64 (BatchSize m) /\ 0 <= Interval m < 2 ^ 63.

Definition clean_metadata (m : BeaconMetadata) : BeaconMetadata :=
  mkMetadata (sanitize (Name m)) (sanitize (PublicKey m)) (sanitize (Version m)) (sanitize (Encoding m)) (BatchSize m)
    (sanitize (Message m)) (Interval m).

Lemma metadata_decodes m : metadata_ok m -> dec_struct BeaconMetadata_fields (clean (BeaconMetadata_json m)) metadata_zero = Ok (clean_metadata m).
Proof.
  intros [Hb Hi]. unfold BeaconMetadata_json. cbn [clean map fst snd]. plain_names.
  assert (Hf : forall a b c d e f g, dec_struct BeaconMetadata_fields
      (JObj [("name", JStr a); ("public_key", JStr b); ("version", JStr c); ("encoding", JStr d);
             ("batch_size", e); ("message", JStr f); ("interval", g)]) metadata_zero =
    (x ← dec_uint64 e 0; y ← dec_int g 0; Ok (mkMetadata a b c d x f y))).
  { intros a b c d e f g. cbn -[dec_uint64 dec_int]. destruct (dec_uint64 e 0); [|reflexivity]. cbn -[dec_uint64 dec_int].
    destruct (dec_int g 0); reflexivity. }
  by rewrite Hf, dec_uint64_num, dec_int_num.
Qed.

Definition clean_block (b : Block) : Block :=
  mkBlock (sanitize (Link b)) (clean_payload <$> Data b) (clean_metadata <$> Metadata b).

Definition block_ok (b : Block) : Prop :=
  match Data b with Some p => payload_ok p | None => True end /\
  match Metadata b with Some m => metadata_ok m | None => True end.

Lemma strings_wf l : wf_json (JArr (map JStr l)).
Proof. cbn. induction l; cbn; constructor; done. Qed.

Lemma strings_height l : (height (JArr (map JStr l)) <= 1)%nat.
Proof. cbn. induction l as [|s l IH]; cbn; lia. Qed.

Lemma payload_wf p : payload_ok p -> wf_json (BeaconPayload_json p) /\ (height (BeaconPayload_json p) <= 2)%nat.
Proof.
  intros [Hs Ht]. unfold is_u64 in Hs. pose proof (strings_wf (CTRNG p)) as Hw. pose proof (strings_height (CTRNG p)) as Hh. split.
  - unfold BeaconPayload_json. cbn [wf_json map snd]. repeat constructor; [exists (Sequence p)|exists (Timestamp p)|exact Hw]; split; (done || lia).
  - unfold BeaconPayload_json. cbn [height map snd fold_right] in *. lia.
Qed.

Lemma metadata_wf m : metadata_ok m -> wf_json (BeaconMetadata_json m) /\ (height (BeaconMetadata_json m) <= 1)%nat.
Proof.
  intros [Hb Hi]. unfold is_u64 in Hb. split; [|cbn; lia]. unfold BeaconMetadata_json. cbn [wf_json map snd].
  repeat constructor; [exists (BatchSize m)|exists (Interval m)]; split; (done || lia).
Qed.

Lemma wf_members l : Forall (fun kv => wf_json kv.2) l -> wf_json (JObj l).
Proof. intros Hl. cbn. induction Hl as [|kv l Hv Hl IH]; cbn; constructor; done. Qed.

Lemma height_members l n : Forall (fun kv => (height kv.2 <= n)%nat) l -> (height (JObj l) <= S n)%nat.
Proof. intros Hl. cbn. induction Hl as [|kv l Hv Hl IH]; cbn; lia. Qed.

Lemma block_wf b : block_ok b -> wf_json (Block_json b) /\ (height (Block_json b) <= 3)%nat.
Proof.
  intros [Hd Hm]. split; [apply wf_members|apply height_members]; unfold omitempty; rewrite !Forall_app; split_and!.
  1, 4: destruct (String.eqb _ _); repeat constructor; cbn; lia.
  1, 3: destruct (Data b); [constructor; [cbn [snd]; destruct (payload_wf _ Hd); (done || lia)|constructor]|constructor].
  all: destruct (Metadata b); [constructor; [cbn [snd]; destruct (metadata_wf _ Hm); (done || lia)|constructor]|constructor].
Qed.

(** The decoding of a block's members, those that are there. *)
Lemma block_decodes b : block_ok b -> dec_struct Block_fields (clean (Block_json b)) block_zero = Ok (clean_block b).
Proof.
  intros [Hd Hm]. assert (Hfd : forall v l m x, dec_members Block_fields (("data", v) :: l) (mkBlock x None m) =
    (d ← dec_ptr payload_zero (dec_struct BeaconPayload_fields) v None; dec_members Block_fields l (mkBlock x d m))).
  { intros v l m x. cbn -[dec_ptr]. destruct (dec_ptr payload_zero _ v None); reflexivity. }
  assert (Hfm : forall v l d x, dec_members Block_fields (("metadata", v) :: l) (mkBlock x d None) =
    (m ← dec_ptr metadata_zero (dec_struct BeaconMetadata_fields) v None; dec_members Block_fields l (mkBlock x d m))).
  { intros v l d x. cbn -[dec_ptr]. destruct (dec_ptr metadata_zero _ v None); reflexivity. }
  unfold Block_json, clean_block. cbn [clean]. rewrite !map_app. cbn [dec_struct].
  assert (Hpd : forall p, payload_ok p -> dec_ptr payload_zero (dec_struct BeaconPayload_fields) (clean (BeaconPayload_json p)) None = Ok (Some (clean_payload p))).
  { intros p Hp. pose proof (payload_decodes p Hp) as Hx. unfold dec_ptr. cbn [default]. 
    change (clean (BeaconPayload_json p)) with (JObj (map (fun kv => (sanitize kv.1, clean kv.2))
      [("sequence", JNum (pretty (Sequence p))); ("timestamp", JNum (pretty (Timestamp p))); ("ctrng", JArr (map JStr (CTRNG p)))])) in *.
    cbn beta iota. unfold default, from_option. by rewrite Hx. }
  assert (Hpm : forall m, metadata_ok m -> dec_ptr metadata_zero (dec_struct BeaconMetadata_fields) (clean (BeaconMetadata_json m)) None = Ok (Some (clean_metadata m))).
  { intros m Hx. pose proof (metadata_decodes m Hx) as Hy. unfold dec_ptr.
    unfold BeaconMetadata_json in *. cbn [clean] in *. unfold default, from_option. by rewrite Hy. }
  unfold omitempty. destruct (String.eqb_spec (Link b) "") as [He|Hne].
  - rewrite He. cbn [map app]. change (block_zero) with (mkBlock (sanitize "") None None).
    destruct (Data b) as [p|], (Metadata b) as [m|]; cbn [map app fst snd fmap option_fmap option_map]; plain_names;
      rewrite ?Hfd, ?Hpd by done; cbn [mbind result_bind]; rewrite ?Hfm, ?Hpm by done; reflexivity.
  - cbn [map app fst snd clean]. plain_names.
    assert (Hfl : forall s l, dec_members Block_fields (("previous", JStr s) :: l) block_zero = dec_members Block_fields l (mkBlock s None None)) by done.
    rewrite Hfl.
    destruct (Data b) as [p|], (Metadata b) as [m|]; cbn [map app fst snd fmap option_fmap option_map]; plain_names;
      rewrite ?Hfd, ?Hpd by done; cbn [mbind result_bind]; rewrite ?Hfm, ?Hpm by done; reflexivity.
Qed.

Lemma block_reads b : block_ok b -> UnmarshalBeaconBlock (print (Block_json b)) = Ok (clean_block b).
Proof.
  intros Hb. destruct (block_wf b Hb) as [Hw Hh]. unfold UnmarshalBeaconBlock.
  rewrite Unmarshal_print by (done || (unfold maxNestingDepth; lia)). by rewrite block_decodes.
Qed.

(** Blocks round trip: a block whose texts are valid UTF-8, whose numbers
    fit their Go types and are not negative, reads back as itself. *)
Theorem Block_roundtrip b : block_ok b ->
  valid_utf8 (Link b) = true ->
  match Data b with Some p => Forall (fun s => valid_utf8 s = true) (CTRNG p) | None => True end ->
  match Metadata b with
  | Some m => Forall (fun s => valid_utf8 s = true) [Name m; PublicKey m; Version m; Encoding m; Message m]
  | None => True
  end ->
  UnmarshalBeaconBlock (print (Block_json b)) = Ok b.
Proof.
  intros Hb Hl Hd Hm. rewrite block_reads by done. f_equal. destruct b as [l d m]. unfold clean_block. cbn [Link Data Metadata] in *.
  f_equal; [by apply sanitize_valid|destruct d as [[sq ts ct]|]|destruct m as [[? ? ? ? ? ? ?]|]]; try done; cbn in *.
  - do 2 f_equal. unfold clean_payload. cbn. f_equal. induction Hd as [|s ct Hs Hd IH]; cbn; [done|]. by rewrite sanitize_valid, IH.
  - rewrite !Forall_cons in Hm. destruct Hm as (? & ? & ? & ? & ? & _). f_equal. unfold clean_metadata. cbn. by rewrite !sanitize_valid.
Qed.

(** ** One execution *)

Section Spec.
Context {E : Type} `{BeaconEnv E}.

Abbreviation B := (Prog (state E)).

(** Requests that write: the blocks and the names of IPFS. *)
Definition writes (r : rpc) : bool := match r with RAdd _ | RPublish _ _ => true | _ => false end.

(** [s'] is reached from [s] without writing. *)
Definition quietly (s s' : state E) : Prop := exists l, sent s' = sent s ++ l /\ Forall (fun r => writes r = false) l.

#[local] Instance quietly_preorder : PreOrder quietly.
Proof.
  split.
  - intros s. exists []. by rewrite app_nil_r.
  - intros s1 s2 s3 (l1 & E1 & F1) (l2 & E2 & F2). exists (l1 ++ l2). rewrite E2, E1, app_assoc. by rewrite Forall_app.
Qed.

Lemma quietly_ask {A} r (f : E -> E * result A) : writes r = false -> steps quietly (ask r f).
Proof. intros Hr s. unfold ask. destruct (f (env s)) as [e a]. exists [r]. by repeat constructor. Qed.

Lemma quietly_look {A} (f : E -> E * A) : steps quietly (look f).
Proof. intros s. unfold look. destruct (f (env s)) as [e a]. exists []. by rewrite app_nil_r. Qed.

Hint Resolve quietly_ask quietly_look : steps.

Lemma quietly_loadCtrngs m : steps quietly (loadCtrngs m).
Proof.
  unfold loadCtrngs. apply steps_bind; [typeclasses eauto|auto with steps|intros ctrngResp].
  apply steps_bind; [typeclasses eauto|destruct ctrngResp; auto with steps|intros stop].
  destruct stop; [auto with steps|]. apply steps_bind; [typeclasses eauto| |intros ctrngs].
  - destruct (negb _); [destruct (DeriveBulkFromSeedHex _ _) as [[]| |]; auto with steps|]. auto with steps.
  - destruct ctrngs; auto with steps.
Qed.

Lemma quietly_loadLast name : steps quietly (loadLastBeaconBlock name).
Proof. unfold loadLastBeaconBlock, Get. auto with steps. Qed.

Lemma run_ask {A} r (f : E -> E * result A) (s : state E) : ask r f s = (mkState (f (env s)).1 (sent s ++ [r]), Returned (f (env s)).2).
Proof. unfold ask. by destruct (f (env s)). Qed.

Lemma run_look {A} (f : E -> E * A) (s : state E) : look f s = (mkState (f (env s)).1 (sent s), Returned (Ok (f (env s)).2)).
Proof. unfold look. by destruct (f (env s)). Qed.

(** What was read before a block is written. *)
Definition was_head (m : BeaconMetadata) (path : string) (last : BeaconPayload) : Prop :=
  exists e data b, (ipfs_Get e (Name m) "ipns").2 = Ok (path, data) /\ UnmarshalBeaconBlock data = Ok b /\ Data b = Some last.

Lemma loadLast_Ok name (s s' : state E) path last : loadLastBeaconBlock name s = (s', Returned (Ok (path, last))) ->
  s' = mkState (ipfs_Get (env s) name "ipns").1 (sent s ++ [RGet name "ipns"]) /\
  exists data b, (ipfs_Get (env s) name "ipns").2 = Ok (path, data) /\ UnmarshalBeaconBlock data = Ok b /\ Data b = last.
Proof.
  unfold loadLastBeaconBlock, Get. intros Hl. apply run_bind_inv in Hl as (s1 & [p d] & Hg & Hl). apply run_on_err_inv in Hg.
  rewrite run_ask in Hg. apply run_bind_inv in Hl as (s2 & b & Hu & Hl). apply run_lift_inv in Hu as [-> Hu].
  apply map_err_Ok in Hu. unfold mret, Prog_ret in Hl. cbn [fst snd] in *. simplify_eq. split; [done|]. by exists d, b.
Qed.

Lemma execute_read_Ok m (s s' : state E) ctrngs path last : execute_read m s = (s', Returned (Ok (ctrngs, path, last))) ->
  quietly s s' /\ was_head m path last.
Proof.
  intros Hr. assert (Hq : steps quietly (execute_read m)).
  { unfold execute_read. apply steps_bind; [typeclasses eauto|apply quietly_loadCtrngs|intros c].
    apply steps_bind; [typeclasses eauto|apply steps_on_err, quietly_loadLast|intros l]. destruct l.2; auto with steps. }
  specialize (Hq s). rewrite Hr in Hq. split; [exact Hq|]. clear Hq.
  unfold execute_read in Hr. apply run_bind_inv in Hr as (s1 & c & _ & Hr). apply run_bind_inv in Hr as (s2 & [p l] & Hl & Hr).
  apply run_on_err_inv, loadLast_Ok in Hl as (_ & data & b & Hg & Hu & Hd). cbn [fst snd] in Hr. destruct l as [lb|]; [|done].
  unfold mret, Prog_ret in Hr. simplify_eq. by exists (env s1), data, b.
Qed.

(** The block that an execution appends. *)
Definition next_block (path : string) (last : BeaconPayload) (now : Z) (ctrngs : list string) : Block :=
  mkBlock path (Some (mkPayload (u64 (Sequence last + 1)) (now / second) ctrngs)) None.

Lemma execute_write_run m ctrngs path last (s : state E) : exists s' r, execute_write m (ctrngs, path, last) s = (s', Returned r) /\
  ((ctrngs = [] /\ s' = s /\ is_ok r = false) \/
   (ctrngs <> [] /\ exists now, now = (clock_now (env s)).2 /\ 
     let data := print (Block_json (next_block path last now ctrngs)) in
     ((sent s' = sent s ++ [RAdd data] /\ is_ok r = false) \/
      (exists e cid, (ipfs_Add e data).2 = Ok cid /\ sent s' = sent s ++ [RAdd data; RPublish cid (Name m)] /\
         (is_ok r = true <-> is_ok (ipfs_Publish (ipfs_Add e data).1 cid (Name m)).2 = true))))).
Proof.
  unfold execute_write. destruct ctrngs as [|c cs].
  { eexists _, _. split; [by apply run_bind_err|]. by left. }
  erewrite run_bind by done. cbv beta. unfold Now. erewrite run_bind by apply run_look. cbv beta zeta.
  fold (next_block path last (clock_now (env s)).2 (c :: cs)). set (data := print (Block_json _)).
  set (e1 := (clock_now (env s)).1). unfold Add. destruct (ipfs_Add e1 data).2 as [cid|err] eqn:Ea.
  - erewrite run_bind; [|apply run_on_err; rewrite run_ask; cbn [env]; rewrite Ea; reflexivity]. cbv beta. unfold Publish.
    cbn [env sent]. destruct (ipfs_Publish (ipfs_Add e1 data).1 cid (Name m)).2 as [n|err] eqn:Ep.
    + erewrite run_bind; [|apply run_on_err; rewrite run_ask; cbn [env]; rewrite Ep; reflexivity].
      eexists _, _. split; [done|]. right. split; [done|]. eexists. split; [done|]. right. exists e1, cid. split; [exact Ea|].
      cbn [sent]. rewrite <- !app_assoc. fold data. by rewrite Ep.
    + eexists _, _. split; [apply run_bind_err, run_on_err_err; rewrite run_ask; cbn [env]; rewrite Ep; reflexivity|].
      right. split; [done|]. eexists. split; [done|]. right. exists e1, cid. split; [exact Ea|].
      cbn [sent]. rewrite <- !app_assoc. fold data. by rewrite Ep.
  - eexists _, _. split; [apply run_bind_err, run_on_err_err; rewrite run_ask; cbn [env]; rewrite Ea; reflexivity|].
    right. split; [done|]. eexists. split; [done|]. by left.
Qed.

(** An execution appends to the chain or leaves it alone. A successful one
    wrote exactly one block, which links to the head that it read, carries the
    next sequence number and at least one random value, and published exactly
    this block under the beacon's name; any other execution published nothing,
    or failed at the publication of the one block it had added. *)
Theorem executeBeacon_appends m (s : state E) :
  let s' := (executeBeacon m s).1 in
  let ok := match (executeBeacon m s).2 with Returned r => is_ok r | _ => false end in
  (ok = false /\ quietly s s') \/
  exists s1 path last ctrngs now,
    quietly s s1 /\ was_head m path last /\ ctrngs <> [] /\ now = (clock_now (env s1)).2 /\
    let data := print (Block_json (next_block path last now ctrngs)) in
    ((ok = false /\ sent s' = sent s1 ++ [RAdd data]) \/
     (exists e cid, (ipfs_Add e data).2 = Ok cid /\ sent s' = sent s1 ++ [RAdd data; RPublish cid (Name m)] /\
        (ok = true <-> is_ok (ipfs_Publish (ipfs_Add e data).1 cid (Name m)).2 = true))).
Proof.
  cbv zeta. unfold executeBeacon. destruct (execute_read m s) as [s1 o] eqn:Er.
  assert (Hq : quietly s s1).
  { assert (Hq : steps quietly (execute_read m)).
    { unfold execute_read. apply steps_bind; [typeclasses eauto|apply quietly_loadCtrngs|intros c].
      apply steps_bind; [typeclasses eauto|apply steps_on_err, quietly_loadLast|intros l]. destruct l.2; auto with steps. }
    specialize (Hq s). by rewrite Er in Hq. }
  destruct o as [[[[ctrngs path] last]|e]| |].
  - erewrite run_bind by exact Er. destruct (execute_read_Ok m s s1 ctrngs path last Er) as [_ Hh].
    destruct (execute_write_run m ctrngs path last s1) as (s2 & r & Ew & [(-> & -> & Hr)|(Hne & now & Hnow & Hw)]); rewrite Ew; cbn [fst snd].
    + left. by split.
    + right. exists s1, path, last, ctrngs, now. split_and!; try done. cbv zeta in Hw. destruct Hw as [[Hs Hr]|Hw]; [by left|by right].
  - rewrite (run_bind_err _ _ _ _ _ Er). left. by split.
  - unfold mbind, Prog_bind. rewrite Er. left. by split.
  - unfold mbind, Prog_bind. rewrite Er. left. by split.
Qed.

End Spec.
