(* ===== verification/BeaconChain.v ===== *)
(** * The chain of a beacon's blocks

    Over an IPFS whose blocks are addressed by their content, the blocks that
    executions publish form a chain from the head back to the genesis, with
    consecutive sequence numbers. Two executions of one beacon that overlap fork
    it. *)

From S2P Require Import Prelude GoStrings Errors State Json Http MasterSeed Beacon BeaconSpec.

(** ** An IPFS *)

Record ipfs := mkIpfs {
  blocks : gmap string string;            (* by CID *)
  names : gmap string string;             (* IPNS name to CID *)
}.

(** The other services: what they answer, in an environment of their own. *)
Class Services (R : Type) := {
  svc_GetTrng : R -> R * result (list string);
  svc_GetSeeds : R -> Z -> R * result (list string);
  svc_now : R -> R * Z;
  svc_ctx_Err : R -> R * option error;
}.

Definition path_of (cid : string) : string := "/ipfs/" +:+ cid.

Section Chain.
Context {R : Type} `{Services R}.

(** The CID of a block: its content decides it, and no two contents share it. *)
Context (cid_of : string -> string) `{!Inj (=) (=) cid_of}.

Definition ideal_Get (s : ipfs * R) (key namespace : string) : (ipfs * R) * result (string * string) :=
  (s, match names s.1 !! key with
      | Some c => match blocks s.1 !! c with
                  | Some data => Ok (path_of c, data)
                  | None => Err (Errorf "block not found" [])
                  end
      | None => Err (StatusErr NotFound (Errorf "ipns record not published" []))
      end).

Definition ideal_Add (s : ipfs * R) (data : string) : (ipfs * R) * result string :=
  ((mkIpfs (<[cid_of data := data]> (blocks s.1)) (names s.1), s.2), Ok (cid_of data)).

Definition ideal_Publish (s : ipfs * R) (cid name : string) : (ipfs * R) * result string :=
  ((mkIpfs (blocks s.1) (<[name := cid]> (names s.1)), s.2), Ok name).

Definition on_services {A} (f : R -> R * A) (s : ipfs * R) : (ipfs * R) * A := let '(r, a) := f s.2 in ((s.1, r), a).

#[export] Instance ideal_env : BeaconEnv (ipfs * R) :=
  {| ipfs_Get := ideal_Get;
     ipfs_Add := ideal_Add;
     ipfs_Publish := ideal_Publish;
     ipfs_KeyInfo := fun s name => (s, Ok (match names s.1 !! name with Some _ => name | None => "" end));
     GetTrng := on_services svc_GetTrng;
     GetSeeds := fun s n => on_services (fun r => svc_GetSeeds r n) s;
     clock_now := on_services svc_now;
     wait := fun s _ => (s, None);
     ctx_Err := on_services svc_ctx_Err |}.

Abbreviation B := (Prog (state (ipfs * R))).

(** [chain bs c n]: the block [c] has sequence number [n], and its links lead
    through the numbers below to a genesis. *)
Inductive chain (bs : gmap string string) : string -> Z -> Prop :=
| chain_genesis c data b p : bs !! c = Some data -> UnmarshalBeaconBlock data = Ok b -> Link b = "" ->
    Data b = Some p -> Sequence p = 0 -> chain bs c 0
| chain_next c data b p c' n : bs !! c = Some data -> UnmarshalBeaconBlock data = Ok b -> Link b = path_of c' ->
    Data b = Some p -> Sequence p = n + 1 -> chain bs c' n -> chain bs c (n + 1).

(** Blocks are stored under their own CID. *)
Definition content_addressed (bs : gmap string string) : Prop := map_Forall (fun c data => c = cid_of data) bs.

Lemma add_keeps bs data c d : content_addressed bs -> bs !! c = Some d -> <[cid_of data := data]> bs !! c = Some d.
Proof.
  intros Hc Hd. destruct (decide (c = cid_of data)) as [->|]; [|by rewrite lookup_insert_ne].
  rewrite lookup_insert_eq. apply Hc in Hd as Hx. apply (inj cid_of) in Hx. by subst.
Qed.

Lemma chain_add bs data c n : content_addressed bs -> chain bs c n -> chain (<[cid_of data := data]> bs) c n.
Proof.
  intros Hc. induction 1 as [c d b p Hb Hu Hl Hd Hs|c d b p c' n Hb Hu Hl Hd Hs _ IH].
  - eapply chain_genesis; try done. by apply add_keeps.
  - eapply chain_next; try done. by apply add_keeps.
Qed.

Lemma chain_head bs c n : chain bs c n -> exists data b p, bs !! c = Some data /\ UnmarshalBeaconBlock data = Ok b /\ Data b = Some p /\ Sequence p = n.
Proof. destruct 1; eauto 10. Qed.

(** The part that writes, over this IPFS. *)
Lemma ideal_write m ctrngs path last (s : state (ipfs * R)) : ctrngs <> [] ->
  exists s', execute_write m (ctrngs, path, last) s = (s', Returned (Ok tt)) /\
    let data := print (Block_json (next_block path last (svc_now (env s).2).2 ctrngs)) in
    (env s').1 = mkIpfs (<[cid_of data := data]> (blocks (env s).1)) (<[Name m := cid_of data]> (names (env s).1)).
Proof.
  intros Hne. unfold execute_write. destruct ctrngs as [|c cs]; [done|]. erewrite run_bind by done. cbv beta.
  unfold Now. erewrite run_bind by apply run_look. cbv beta zeta. cbn [clock_now ideal_env].
  unfold on_services. destruct (svc_now (env s).2) as [r t] eqn:En. cbn [fst snd].
  fold (next_block path last t (c :: cs)). set (data := print _). unfold Add, Publish.
  erewrite run_bind; [|apply run_on_err; by rewrite run_ask]. cbv beta.
  erewrite run_bind; [|apply run_on_err; by rewrite run_ask]. by eexists.
Qed.

(** The part that reads leaves this IPFS alone. *)
Definition same_ipfs (s s' : state (ipfs * R)) : Prop := (env s').1 = (env s).1.

#[local] Instance same_ipfs_preorder : PreOrder same_ipfs.
Proof. split; [done|]. intros ? ? ? H1 H2. unfold same_ipfs in *. congruence. Qed.

Lemma same_ask {A} (f : R -> R * result A) r : steps same_ipfs (ask r (on_services f)).
Proof. intros s0. rewrite run_ask. unfold same_ipfs, on_services. by destruct (f (env s0).2). Qed.

Lemma same_look {A} (f : R -> R * A) : steps same_ipfs (look (on_services f)).
Proof. intros s0. rewrite run_look. unfold same_ipfs, on_services. by destruct (f (env s0).2). Qed.

Lemma same_get key ns : steps same_ipfs (Get key ns).
Proof. intros s0. unfold Get. by rewrite run_ask. Qed.

Hint Resolve same_ask same_look same_get : steps.

Lemma ideal_read_same m : steps same_ipfs (execute_read m).
Proof.
  assert (Hc : steps same_ipfs (loadCtrngs m)).
  { unfold loadCtrngs. cbn [GetTrng GetSeeds ctx_Err ideal_env].
    apply steps_bind; [typeclasses eauto|auto with steps|intros o].
    apply steps_bind; [typeclasses eauto|destruct o; auto with steps|intros stop].
    destruct stop; [auto with steps|]. apply steps_bind; [typeclasses eauto| |intros l].
    - destruct (negb _); [destruct (DeriveBulkFromSeedHex _ _) as [[]| |]; auto with steps|].
      apply steps_bind; [typeclasses eauto|apply steps_attempt, same_ask|auto with steps].
    - destruct l; auto with steps. }
  unfold execute_read, loadLastBeaconBlock.
  apply steps_bind; [typeclasses eauto|exact Hc|intros c]. apply steps_bind; [typeclasses eauto|auto with steps|intros l].
  destruct l.2; auto with steps.
Qed.

Lemma ideal_read m (s s' : state (ipfs * R)) ctrngs path last : execute_read m s = (s', Returned (Ok (ctrngs, path, last))) ->
  exists c data b, names (env s).1 !! Name m = Some c /\ blocks (env s).1 !! c = Some data /\ path = path_of c /\
    UnmarshalBeaconBlock data = Ok b /\ Data b = Some last.
Proof.
  intros Hr. pose proof (ideal_read_same m s) as Hsame. rewrite Hr in Hsame. cbn in Hsame.
  unfold execute_read in Hr. apply run_bind_inv in Hr as (s1 & l & _ & Hr).
  apply run_bind_inv in Hr as (s2 & [p lb] & Hb & Hr). apply run_on_err_inv, loadLast_Ok in Hb as (Hs2 & data & b & Hg & Hu & Hd).
  cbn [fst snd] in Hr. destruct lb as [lb|]; [|done]. unfold mret, Prog_ret in Hr. simplify_eq.
  cbn [ipfs_Get ideal_env ideal_Get fst snd env] in Hg, Hsame. unfold same_ipfs in Hsame. cbn [env ideal_Get fst] in Hsame. rewrite Hsame in Hg.
  destruct (names (env s).1 !! Name m) as [c|] eqn:En; [|done]. destruct (blocks (env s).1 !! c) as [d|] eqn:Eb; [|done]. simplify_eq.
  by exists c, data, b.
Qed.

(** The head of a beacon's chain. *)
Definition head_at (s : state (ipfs * R)) (name : string) (n : Z) : Prop :=
  content_addressed (blocks (env s).1) /\ exists c, names (env s).1 !! name = Some c /\ chain (blocks (env s).1) c n.

Lemma append_chain m (s s' : state (ipfs * R)) c n path last b data ctrngs now :
  content_addressed (blocks (env s).1) -> chain (blocks (env s).1) c n -> 0 <= n -> n + 1 < 2 ^ 64 -> 0 <= now < 2 ^ 63 ->
  path = path_of c -> valid_utf8 (path_of c) = true ->
  blocks (env s).1 !! c = Some data -> UnmarshalBeaconBlock data = Ok b -> Data b = Some last ->
  (env s').1 = (let new := print (Block_json (next_block path last now ctrngs)) in
                mkIpfs (<[cid_of new := new]> (blocks (env s).1)) (<[Name m := cid_of new]> (names (env s).1))) ->
  head_at s' (Name m) (n + 1).
Proof.
  intros Hca Hch Hn0 Hn Ht -> Hv Hd Hu Hl Hs. cbv zeta in Hs. set (new := print _) in Hs.
  destruct (chain_head _ _ _ Hch) as (d' & b' & p' & Hd' & Hu' & Hl' & Hq).
  assert (d' = data) as -> by congruence. assert (b' = b) as -> by congruence. assert (p' = last) as -> by congruence. subst n.
  unfold head_at. rewrite Hs. cbn [blocks names]. split.
  - apply map_Forall_insert_2; [done|exact Hca].
  - exists (cid_of new). rewrite lookup_insert_eq. split; [done|].
    eapply chain_next; [by rewrite lookup_insert_eq| | | | |by apply chain_add].
    + apply block_reads. unfold next_block, block_ok. cbn. split; [|done]. split; cbn; [apply u64_range|].
      unfold second. split; [apply Z.div_pos; lia|]. apply Z.div_lt_upper_bound; lia.
    + cbn. by apply sanitize_valid.
    + done.
    + cbn. apply wrap_small. lia.
Qed.

(** C3: executions extend the chain. When the head of a beacon ends a chain of
    blocks numbered down to 0, a successful execution publishes a head that ends
    a chain one longer, whatever random values the other services gave; an
    execution that fails leaves the head, and every block, where it was. *)
Theorem executeBeacon_chain m n (s s' : state (ipfs * R)) o :
  (forall r, 0 <= (svc_now r).2 < 2 ^ 63) -> (forall data, valid_utf8 (path_of (cid_of data)) = true) ->
  0 <= n -> n + 1 < 2 ^ 64 -> head_at s (Name m) n -> executeBeacon m s = (s', o) ->
  if decide (o = Returned (Ok tt)) then head_at s' (Name m) (n + 1) else (env s').1 = (env s).1.
Proof.
  intros Ht Hv Hn0 Hn [Hca (c & Hc & Hch)] He. unfold executeBeacon in He.
  pose proof (ideal_read_same m s) as Hsame. destruct (execute_read m s) as [s1 o1] eqn:Er. cbn in Hsame. unfold same_ipfs in Hsame.
  assert (Hfail : forall o', o' <> Returned (Ok tt) -> (s1, o') = (s', o) ->
    if decide (o = Returned (Ok tt)) then head_at s' (Name m) (n + 1) else (env s').1 = (env s).1).
  { intros o' Ho [= <- <-]. by destruct (decide (o' = Returned (Ok tt))). }
  destruct o1 as [[[[ctrngs path] last]|e]| |]; [|unfold mbind, Prog_bind in He; rewrite Er in He; by apply (Hfail _) in He..].
  erewrite run_bind in He by exact Er. destruct ctrngs as [|v ctrngs].
  { unfold execute_write in He. erewrite run_bind_err in He by done. by apply (Hfail _) in He. }
  destruct (ideal_read m s s1 _ _ _ Er) as (c' & data & b & Hc' & Hd & Hp & Hu & Hl).
  destruct (ideal_write m (v :: ctrngs) path last s1) as (s2 & Ew & Hs2); [done|]. rewrite Ew in He. injection He as <- <-.
  destruct (decide _) as [_|]; [|done]. rewrite Hsame in Hs2. assert (c' = c) as -> by congruence.
  apply (append_chain m s s2 c n path last b data (v :: ctrngs) (svc_now (env s1).2).2); try done.
  apply Hca in Hd as ->. apply Hv.
Qed.

(** Two executions of one beacon that overlap: both read before either writes.
    Both succeed, and the chain is one longer, not two: the second block
    replaces the first, with the same number and the same predecessor. The
    builder runs every event in a goroutine of its own, so nothing keeps
    executions of a beacon apart but their scheduling. *)
Theorem overlapping_executions_fork m n (s s1 s2 s3 s4 : state (ipfs * R)) r1 r2 :
  (forall r, 0 <= (svc_now r).2 < 2 ^ 63) -> (forall data, valid_utf8 (path_of (cid_of data)) = true) ->
  0 <= n -> n + 1 < 2 ^ 64 -> head_at s (Name m) n ->
  execute_read m s = (s1, Returned (Ok r1)) -> execute_read m s1 = (s2, Returned (Ok r2)) ->
  execute_write m r1 s2 = (s3, Returned (Ok tt)) -> execute_write m r2 s3 = (s4, Returned (Ok tt)) ->
  head_at s3 (Name m) (n + 1) /\ head_at s4 (Name m) (n + 1) /\ r1.1.2 = r2.1.2 /\ r1.2 = r2.2.
Proof.
  intros Ht Hv Hn0 Hn [Hca (c & Hc & Hch)] R1 R2 W1 W2.
  destruct r1 as [[ct1 path1] last1], r2 as [[ct2 path2] last2].
  pose proof (ideal_read_same m s) as E1. rewrite R1 in E1. pose proof (ideal_read_same m s1) as E2. rewrite R2 in E2.
  cbn [fst] in E1, E2. unfold same_ipfs in E1, E2.
  destruct (ideal_read m s s1 _ _ _ R1) as (c1 & d1 & b1 & N1 & D1 & -> & U1 & L1).
  destruct (ideal_read m s1 s2 _ _ _ R2) as (c2 & d2 & b2 & N2 & D2 & -> & U2 & L2).
  rewrite E1 in N2, D2. assert (c1 = c) as -> by congruence. assert (c2 = c) as -> by congruence.
  assert (d2 = d1) as -> by congruence. assert (b2 = b1) as -> by congruence. assert (last2 = last1) as -> by congruence.
  assert (Hne : forall ct path last (sa sb : state (ipfs * R)), execute_write m (ct, path, last) sa = (sb, Returned (Ok tt)) -> ct <> [])
    by (intros ct path last sa sb Hw ->; unfold execute_write in Hw; by erewrite run_bind_err in Hw).
  destruct (ideal_write m ct1 (path_of c) last1 s2) as (s3' & W1' & S3); [by eapply Hne|]. rewrite W1 in W1'. injection W1' as <-.
  destruct (ideal_write m ct2 (path_of c) last1 s3) as (s4' & W2' & S4); [by eapply Hne|]. rewrite W2 in W2'. injection W2' as <-.
  cbn [fst snd]. assert (E2s : (env s2).1 = (env s).1) by congruence. cbv zeta in S3, S4. rewrite E2s in S3.
  assert (H3 : head_at s3 (Name m) (n + 1)).
  { apply (append_chain m s s3 c n (path_of c) last1 b1 d1 ct1 (svc_now (env s2).2).2); try done. apply Hca in D1 as ->. apply Hv. }
  split; [exact H3|]. split; [|done]. destruct H3 as [Hca3 _].
  set (new1 := print (Block_json (next_block (path_of c) last1 (svc_now (env s2).2).2 ct1))) in S3.
  assert (H4 : head_at s4 (Name (mkMetadata (Name m) "" "" "" 0 "" 0)) (n + 1)).
  { eapply (append_chain _ s3 s4 c n (path_of c) last1 b1 d1 ct2 (svc_now (env s3).2).2); try done.
    - rewrite S3. cbn [blocks]. by apply chain_add.
    - apply Hca in D1 as ->. apply Hv.
    - rewrite S3. cbn [blocks]. by apply add_keeps. }
  exact H4.
Qed.

End Chain.

(** A head block without a [data] member ends the process: [executeBeacon] reads
    the number of a nil payload. *)
Theorem nil_data_panics {E} `{BeaconEnv E} m (s s1 : state E) ctrngs path data b :
  loadCtrngs m s = (s1, Returned (Ok ctrngs)) -> (ipfs_Get (env s1) (Name m) "ipns").2 = Ok (path, data) ->
  UnmarshalBeaconBlock data = Ok b -> Data b = None -> (executeBeacon m s).2 = Panicked.
Proof.
  intros Hl Hg Hu Hd. unfold executeBeacon, execute_read.
  assert (Hb : on_err (Wrapf "failed to load last beacon block: %w" []) (loadLastBeaconBlock (Name m)) s1 =
    (mkState (ipfs_Get (env s1) (Name m) "ipns").1 (sent s1 ++ [RGet (Name m) "ipns"]), Returned (Ok (path, None)))).
  { apply run_on_err. unfold loadLastBeaconBlock, Get.
    erewrite run_bind; [|apply run_on_err; by rewrite run_ask, Hg]. cbv beta. cbn [fst snd].
    rewrite Hu. cbn [map_err]. erewrite run_bind by done. by rewrite Hd. }
  unfold mbind at 1, Prog_bind at 1. erewrite run_bind by exact Hl. erewrite run_bind by exact Hb. reflexivity.
Qed.

(** ** A beacon that runs *)

Module Runs.

(** The cTRNG is down and the master seed plugin answers; every reading of the
    clock is a second later. *)
#[export] Instance services : Services Z :=
  {| svc_GetTrng := fun t => (t, Err (StatusErr Unavailable (Errorf "down" [])));
     svc_GetSeeds := fun t n => (t, Ok (replicate (Z.to_nat n) "5eed"));
     svc_now := fun t => (t, (t mod 100) * second);
     svc_ctx_Err := fun t => (t, None) |}.

(** CIDs that hold the whole content. *)
Definition cid (data : string) : string := Codec.Hex.EncodeToString (bytes_of_string data).

#[export] Instance cid_inj : Inj (=) (=) cid.
Proof.
  intros a b Hc. apply Codec.Hex.hex_Encode_inj in Hc; [|apply bytes_of_string_range..].
  by rewrite <- (string_of_bytes_of_string a), Hc, string_of_bytes_of_string.
Qed.

Lemma cid_utf8 data : valid_utf8 (path_of (cid data)) = true.
Proof.
  apply valid_utf8_ascii. unfold path_of. rewrite all_chars_append. apply andb_true_iff. split; [done|].
  unfold cid. apply Codec.Hex.hex_Encode_chars; [by vm_compute|apply bytes_of_string_range].
Qed.

Definition beacon : BeaconMetadata := mkMetadata "beacon" "k51" "1.0" "json" 3 "msg" (60 * second).

Definition genesis : string := print (Block_json (mkBlock "" (Some (mkPayload 0 0 [])) (Some beacon))).

Definition boot : state (ipfs * Z) := mkState (mkIpfs {[cid genesis := genesis]} {["beacon" := cid genesis]}, 7) [].

Lemma boot_head : head_at cid boot "beacon" 0.
Proof.
  split; [by apply map_Forall_singleton|]. exists (cid genesis). split; [apply lookup_singleton_eq|].
  eapply (chain_genesis _ _ genesis); [apply lookup_singleton_eq|vm_compute; reflexivity|reflexivity|reflexivity|reflexivity].
Qed.

Definition after := executeBeacon (H := ideal_env cid) beacon boot.

Lemma after_ok : after.2 = Returned (Ok tt).
Proof. vm_compute. reflexivity. Qed.

Lemma services_clock : forall r : Z, 0 <= (svc_now r).2 < 2 ^ 63.
Proof. intros r. cbn. unfold second. pose proof (Z.mod_pos_bound r 100). lia. Qed.

Lemma executeBeacon_chain_witness : head_at cid after.1 "beacon" 1.
Proof.
  pose proof (executeBeacon_chain cid beacon 0 boot after.1 after.2 services_clock cid_utf8) as Hx.
  rewrite after_ok in Hx. rewrite decide_True in Hx by reflexivity. apply Hx.
  - lia.
  - lia.
  - exact boot_head.
  - rewrite <- after_ok. apply surjective_pairing.
Defined.

End Runs.
