(* ===== verification/BeaconRegistry.v ===== *)
(** * Loading the registry of beacons (beacon/plugin.go)

    A registry that exists but could not be read is never overwritten, and one
    that could be read keeps its other beacons. *)

From S2P Require Import Prelude GoStrings Errors State Json Http MasterSeed Beacon BeaconSpec.

(** ** upsertBeacon *)

Lemma upsert_find l meta : find (fun b => String.eqb (Name b) (Name meta)) (upsertBeacon l meta) = Some meta.
Proof.
  induction l as [|b l IH]; cbn; [by rewrite String.eqb_refl|]. destruct (String.eqb (Name b) (Name meta)) eqn:E; cbn.
  - by rewrite String.eqb_refl.
  - by rewrite E.
Qed.

(** Beacons of other names are all kept, in order. *)
Lemma upsert_others l meta : find (fun b => String.eqb (Name b) (Name meta)) l = None -> upsertBeacon l meta = l ++ [meta].
Proof.
  induction l as [|b l IH]; cbn; [done|]. destruct (String.eqb (Name b) (Name meta)); [done|]. intros Hl. by rewrite IH.
Qed.

Section Registry.
Context {E : Type} `{BeaconEnv E}.

Abbreviation B := (Prog (state E)).

(** ** Queries *)

(** What a query that returned had been told. *)
Definition told (alias : string) (reg : option Registry) (st : registryQueryState) : Prop :=
  match st with
  | StateMissingKey => reg = None /\ exists e, (ipfs_KeyInfo e alias).2 = Ok ""
  | StateUnpublishedKey => reg = None /\ exists e e' ki err, (ipfs_KeyInfo e alias).2 = Ok ki /\ ki <> "" /\
      (ipfs_Get e' ki "ipns").2 = Err err /\ status_code err = NotFound
  | StateLoaded => exists r e e' ki path data, reg = Some r /\ (ipfs_KeyInfo e alias).2 = Ok ki /\ ki <> "" /\
      (ipfs_Get e' ki "ipns").2 = Ok (path, data) /\ Registry_Unmarshal data = Ok r
  end.

Definition is_query (r : rpc) : bool := match r with RKeyInfo _ | RGet _ _ => true | _ => false end.

Lemma queryRegistry_run alias (s : state E) : exists s' r l, queryRegistry alias s = (s', Returned r) /\
  sent s' = sent s ++ l /\ Forall (fun q => is_query q = true) l /\ (length l <= 2)%nat /\
  match r with Ok (reg, _, st) => told alias reg st | Err _ => True end.
Proof.
  unfold queryRegistry, KeyInfo. destruct (ipfs_KeyInfo (env s) alias).2 as [ki|err] eqn:Ek.
  - erewrite run_bind; [|apply run_on_err; by rewrite run_ask, Ek]. cbv beta. destruct (String.eqb_spec ki "") as [->|Hki].
    + eexists _, _, [_]. split; [done|]. split_and!; [done|by repeat constructor|cbn; lia|]. cbn. eauto.
    + unfold Get. erewrite run_bind; [|apply run_attempt; by rewrite run_ask]. cbv beta. cbn [env sent].
      set (e1 := (ipfs_KeyInfo (env s) alias).1). destruct (ipfs_Get e1 ki "ipns").2 as [[path data]|err] eqn:Eg.
      * cbn [fst snd]. destruct (Registry_Unmarshal data) as [reg|err] eqn:Eu.
        -- erewrite run_bind by (cbn [map_err]; done). cbv beta. eexists _, _, [_; _]. split; [done|]. cbn [sent]. rewrite <- app_assoc.
           split_and!; [done|by repeat constructor|cbn; lia|]. exists reg, (env s), e1, ki, path, data. done.
        -- eexists _, _, [_; _]. split; [by apply run_bind_err|]. cbn [sent]. rewrite <- app_assoc.
           split_and!; [done|by repeat constructor|cbn; lia|done].
      * destruct (bool_decide (status_code err = NotFound)) eqn:En.
        -- eexists _, _, [_; _]. split; [done|]. cbn [sent]. rewrite <- app_assoc. split_and!; [done|by repeat constructor|cbn; lia|].
           apply bool_decide_eq_true in En. split; [done|]. exists (env s), e1, ki, err. done.
        -- eexists _, _, [_; _]. split; [done|]. cbn [sent]. rewrite <- app_assoc. split_and!; [done|by repeat constructor|cbn; lia|done].
  - eexists _, _, [_]. split; [apply run_bind_err, run_on_err_err; by rewrite run_ask, Ek|].
    split_and!; [done|by repeat constructor|cbn; lia|done].
Qed.

Lemma query_loop_run alias more wd (s : state E) : exists s' r l, query_loop alias more wd s = (s', Returned r) /\
  sent s' = sent s ++ l /\ Forall (fun q => is_query q = true) l /\ (length l <= 2 * S more)%nat /\
  match r with Ok (reg, st) => told alias reg st | Err _ => True end.
Proof.
  revert wd s. induction more as [|more IH]; intros wd s; cbn [query_loop];
    destruct (queryRegistry_run alias s) as (s1 & r & l & Er & Hl & Hq & Hn & Ht);
    (erewrite run_bind by (by apply run_attempt)); cbv beta;
    (destruct r as [[[reg path] st]|err]; [eexists s1, _, l; split; [done|]; split_and!; [done..|lia|exact Ht]|]).
  - eexists s1, _, l. split; [done|]. split_and!; [done..|lia|done].
  - erewrite run_bind by apply run_look. cbv beta. destruct (wait (env s1) wd).2 as [err'|].
    + eexists _, _, l. split; [done|]. split_and!; [done..|lia|done].
    + destruct (IH (i64 (wd * 2)) (mkState (wait (env s1) wd).1 (sent s1))) as (s2 & r2 & l2 & E2 & Hl2 & Hq2 & Hn2 & Ht2).
      exists s2, r2, (l ++ l2). split; [exact E2|]. cbn [sent] in Hl2. rewrite Hl2, Hl, app_assoc, length_app.
      split_and!; [done|by apply Forall_app_2|lia|exact Ht2].
Qed.

(** ** The creation *)

Lemma run_Publish cid name (s : state E) : Publish cid name s =
  (mkState (ipfs_Publish (env s) cid name).1 (sent s ++ [RPublish cid name]), Returned (ipfs_Publish (env s) cid name).2).
Proof. unfold Publish. by rewrite run_ask. Qed.

Lemma run_Add data (s : state E) : Add data s = (mkState (ipfs_Add (env s) data).1 (sent s ++ [RAdd data]), Returned (ipfs_Add (env s) data).2).
Proof. unfold Add. by rewrite run_ask. Qed.

(** The requests of [createBeacon]: two blocks, each published under the
    beacon's name. *)
Lemma createBeacon_run name msg interval (s : state E) : exists s' r l, createBeacon name msg interval s = (s', Returned r) /\
  sent s' = sent s ++ l /\ Forall (fun q => match q with RAdd _ => True | RPublish _ n => n = name | _ => False end) l /\ (length l <= 4)%nat /\
  match r with Ok meta => Name meta = name | Err _ => True end.
Proof.
  unfold createBeacon, Now. erewrite run_bind by apply run_look. cbv beta zeta. set (e0 := (clock_now (env s)).1).
  set (d1 := print _).
  destruct (ipfs_Add e0 d1).2 as [c1|err] eqn:E1.
  2: { eexists _, _, [_]. split; [apply run_bind_err, run_on_err_err; by rewrite run_Add; cbn [env]; rewrite E1|].
       split_and!; [done|by repeat constructor|cbn; lia|done]. }
  erewrite run_bind; [|apply run_on_err; rewrite run_Add; cbn [env]; by rewrite E1]. cbv beta. cbn [sent].
  destruct (ipfs_Publish (ipfs_Add e0 d1).1 c1 name).2 as [pk|err] eqn:E2.
  2: { eexists _, _, [_; _]. split; [apply run_bind_err, run_on_err_err; by rewrite run_Publish; cbn [env]; rewrite E2|].
       cbn [sent]. rewrite <- app_assoc. split_and!; [done|by repeat constructor|cbn; lia|done]. }
  erewrite run_bind; [|apply run_on_err; rewrite run_Publish; cbn [env]; by rewrite E2]. cbv beta. cbn [env sent].
  set (meta := mkMetadata _ _ _ _ _ _ _). set (e2 := (ipfs_Publish _ _ _).1).
  match goal with |- context [Add ?d] => set (d2 := d) end.
  destruct (ipfs_Add e2 d2).2 as [c2|err] eqn:E3.
  2: { eexists _, _, [_; _; _]. split; [apply run_bind_err, run_on_err_err; by rewrite run_Add; cbn [env]; rewrite E3|].
       cbn [sent]. rewrite <- !app_assoc. split_and!; [done|by repeat constructor|cbn; lia|done]. }
  erewrite run_bind; [|apply run_on_err; rewrite run_Add; cbn [env]; by rewrite E3]. cbv beta. cbn [env sent].
  destruct (ipfs_Publish (ipfs_Add e2 d2).1 c2 name).2 as [n|err] eqn:E4.
  - erewrite run_bind; [|apply run_on_err; rewrite run_Publish; cbn [env]; by rewrite E4].
    eexists _, _, [_; _; _; _]. split; [done|]. cbn [sent]. rewrite <- !app_assoc. split_and!; [done|by repeat constructor|cbn; lia|done].
  - eexists _, _, [_; _; _; _]. split; [apply run_bind_err, run_on_err_err; by rewrite run_Publish; cbn [env]; rewrite E4|].
    cbn [sent]. rewrite <- !app_assoc. split_and!; [done|by repeat constructor|cbn; lia|done].
Qed.

(** The creation: blocks published under the beacon's name, then at most one
    registry, with the beacon upserted, under the alias. *)
Lemma create_and_publish_run cfg reg (s : state E) : exists s' r l1 l2, create_and_publish cfg reg s = (s', Returned r) /\
  sent s' = sent s ++ l1 ++ l2 /\
  Forall (fun q => match q with RAdd _ => True | RPublish _ n => n = DefaultBeaconName cfg | _ => False end) l1 /\
  (l2 = [] \/ exists meta, Name meta = DefaultBeaconName cfg /\
    let data := Registry_Marshal (mkRegistry (upsertBeacon (Beacons reg) meta)) in
    ((l2 = [RAdd data] /\ is_ok r = false) \/
     exists e cid, (ipfs_Add e data).2 = Ok cid /\ l2 = [RAdd data; RPublish cid (BeaconRegistry cfg)] /\
       (forall reg', r = Ok reg' -> reg' = mkRegistry [meta]))).
Proof.
  unfold create_and_publish. destruct (createBeacon_run (DefaultBeaconName cfg) (BeaconMsg cfg) (BeaconInterval cfg) s)
    as (s1 & r & l & Er & Hl & Hw & _ & Hm).
  destruct r as [meta|err].
  2: { eexists s1, _, l, []. split; [apply run_bind_err; by apply run_on_err_err|]. rewrite app_nil_r. split_and!; [done..|by left]. }
  erewrite run_bind by (by apply run_on_err). cbv beta. unfold publishRegistry. set (data := Registry_Marshal _).
  destruct (ipfs_Add (env s1) data).2 as [cid|err] eqn:Ea.
  2: { eexists _, _, l, [_]. split; [apply run_bind_err, run_on_err_err, run_bind_err, run_on_err_err; by rewrite run_Add, Ea|].
       cbn [sent]. rewrite Hl, <- app_assoc. split_and!; [done..|]. right. exists meta. split; [done|]. left. done. }
  destruct (ipfs_Publish (ipfs_Add (env s1) data).1 cid (BeaconRegistry cfg)).2 as [n|err] eqn:Ep.
  - erewrite run_bind; [|apply run_on_err; erewrite run_bind; [|apply run_on_err; by rewrite run_Add, Ea]; cbv beta;
      erewrite run_bind; [|apply run_on_err; rewrite run_Publish; cbn [env]; by rewrite Ep]; reflexivity].
    eexists _, _, l, [_; _]. split; [done|]. cbn [sent]. rewrite Hl, <- !app_assoc. split_and!; [done..|]. right. exists meta. split; [done|].
    right. exists (env s1), cid. split_and!; [done..|]. by intros reg' [= <-].
  - eexists _, _, l, [_; _]. split.
    { apply run_bind_err, run_on_err_err. erewrite run_bind; [|apply run_on_err; by rewrite run_Add, Ea]. cbv beta.
      apply run_bind_err, run_on_err_err. rewrite run_Publish. cbn [env]. by rewrite Ep. }
    cbn [sent]. rewrite Hl, <- !app_assoc. split_and!; [done..|]. right. exists meta. split; [done|].
    right. exists (env s1), cid. by split_and!.
Qed.

(** C10: a registry is only written when that is safe. [loadRegistryWithClient]
    always returns, after at most ten read requests. It writes nothing when the
    beacon is in the registry that it read, nor when every attempt to read
    failed. It writes only after the IPFS plugin said that the alias has no key,
    or that nothing was published under it, or after it read the registry: then
    what it publishes under the alias is that registry (or an empty one) with
    the beacon upserted, so that no other beacon is lost. *)
Theorem registry_not_overwritten cfg (s : state E) : exists s' r, loadRegistryWithClient cfg s = (s', Returned r) /\
  exists reads l, sent s' = sent s ++ reads ++ l /\ (length reads <= 10)%nat /\ Forall (fun q => is_query q = true) reads /\
  (l = [] \/
   exists reg st l1 l2, told (BeaconRegistry cfg) reg st /\ l = l1 ++ l2 /\
     let old := default (mkRegistry []) reg in
     findBeaconInRegistry old (DefaultBeaconName cfg) = None /\
     Forall (fun q => match q with RAdd _ => True | RPublish _ n => n = DefaultBeaconName cfg | _ => False end) l1 /\
     (l2 = [] \/ exists meta, Name meta = DefaultBeaconName cfg /\
       let data := Registry_Marshal (mkRegistry (Beacons old ++ [meta])) in
       (l2 = [RAdd data] \/ exists e cid, (ipfs_Add e data).2 = Ok cid /\ l2 = [RAdd data; RPublish cid (BeaconRegistry cfg)]))).
Proof.
  unfold loadRegistryWithClient. cbv zeta. destruct (String.eqb (BeaconRegistry cfg) "").
  { eexists _, _. split; [by apply run_bind_err|]. exists [], []. rewrite app_nil_r. split_and!; [done|cbn; lia|done|by left]. }
  erewrite run_bind by done. cbv beta.
  destruct (query_loop_run (BeaconRegistry cfg) (maxRetries - 1) (2 * second) s) as (s1 & r & reads & Er & Hr & Hq & Hn & Ht).
  assert (Hlen : (length reads <= 10)%nat) by (etrans; [exact Hn|cbn; lia]).
  assert (Hnone : forall o : result Registry, exists s' r', (s1, Returned o) = (s', Returned r') /\
    exists reads l, sent s' = sent s ++ reads ++ l /\ (length reads <= 10)%nat /\ Forall (fun q => is_query q = true) reads /\ l = []).
  { intros o. exists s1, o. split; [done|]. exists reads, []. rewrite app_nil_r. done. }
  assert (Hwrite : forall reg st, told (BeaconRegistry cfg) reg st ->
    findBeaconInRegistry (default (mkRegistry []) reg) (DefaultBeaconName cfg) = None ->
    exists s' r', create_and_publish cfg (default (mkRegistry []) reg) s1 = (s', Returned r') /\
    exists l, sent s' = sent s ++ reads ++ l /\
    exists l1 l2, l = l1 ++ l2 /\
     Forall (fun q => match q with RAdd _ => True | RPublish _ n => n = DefaultBeaconName cfg | _ => False end) l1 /\
     (l2 = [] \/ exists meta, Name meta = DefaultBeaconName cfg /\
       let data := Registry_Marshal (mkRegistry (Beacons (default (mkRegistry []) reg) ++ [meta])) in
       (l2 = [RAdd data] \/ exists e cid, (ipfs_Add e data).2 = Ok cid /\ l2 = [RAdd data; RPublish cid (BeaconRegistry cfg)]))).
  { intros reg st Htold Hfind. destruct (create_and_publish_run cfg (default (mkRegistry []) reg) s1) as (s2 & r2 & l1 & l2 & E2 & Hl & Hw & Hm).
    exists s2, r2. split; [done|]. exists (l1 ++ l2). rewrite Hl, Hr, <- app_assoc. split; [done|]. exists l1, l2. split_and!; [done..|].
    destruct Hm as [->|(meta & Hname & Hm)]; [by left|]. right. exists meta. split; [done|]. cbv zeta in *.
    rewrite upsert_others in Hm by (rewrite Hname; exact Hfind).
    destruct Hm as [[-> _]|(e & cid & Ha & -> & _)]; [by left|]. right. by exists e, cid. }
  destruct r as [[reg st]|err].
  2: { destruct (Hnone (Err err)) as (s' & r' & [= <- <-] & reads' & l & ? & ? & ? & ->). eexists s1, _. split; [by apply run_bind_err|].
       exists reads', []. split_and!; [done..|by left]. }
  erewrite run_bind by exact Er. cbv beta.
  destruct st.
  - destruct Ht as [-> Hk]. destruct (Hwrite None StateMissingKey) as (s' & r' & E' & l & Hl & l1 & l2 & Hl12 & H1 & H2); [by split|done|].
    exists s', r'. split; [exact E'|]. exists reads, l. split_and!; [done..|]. right. exists None, StateMissingKey, l1, l2. by split_and!.
  - destruct Ht as [-> Hk]. destruct (Hwrite None StateUnpublishedKey) as (s' & r' & E' & l & Hl & l1 & l2 & Hl12 & H1 & H2); [by split|done|].
    exists s', r'. split; [exact E'|]. exists reads, l. split_and!; [done..|]. right. exists None, StateUnpublishedKey, l1, l2. by split_and!.
  - pose proof Ht as Htold. destruct Ht as (reg' & _ & _ & _ & _ & _ & -> & _). destruct (findBeaconInRegistry reg' (DefaultBeaconName cfg)) as [meta|] eqn:Ef.
    + destruct (Hnone (Ok (mkRegistry [meta]))) as (s' & r' & [= <- <-] & reads' & l & ? & ? & ? & ->). eexists s1, _. split; [done|].
      exists reads', []. split_and!; [done..|by left].
    + destruct (Hwrite (Some reg') StateLoaded) as (s' & r' & E' & l & Hl & l1 & l2 & Hl12 & H1 & H2); [done..|].
      exists s', r'. split; [exact E'|]. exists reads, l. split_and!; [done..|]. right. exists (Some reg'), StateLoaded, l1, l2. by split_and!.
Qed.

End Registry.
