(* ===== verification/BeaconScheduler.v ===== *)
(** * The scheduler of the beacons (beacon/scheduler.go)

    The ticks, the receives of the builder and the clock readings in the order
    in which the lock and the channel put them. *)

From S2P Require Import Prelude GoStrings Errors State Json Http MasterSeed Beacon.

(** One event: a beacon of a tick, with the two clock readings of its turn, or a
    receive by the builder. *)
Inductive event :=
| Turn (b : BeaconMetadata) (checked pushed : Z)
| Receive.

Definition apply_event (s : Scheduler) (e : event) : Scheduler :=
  match e with
  | Turn b t1 t2 => trigger s b t1 t2
  | Receive => match receive s with Some (_, s') => s' | None => s end
  end.

Definition run_events (s : Scheduler) (l : list event) : Scheduler := fold_left apply_event l s.

(** What an event put into the queue, and when: a turn leaves it after what was
    there; a receive only takes the oldest out. *)
Definition queued_by (s : Scheduler) (e : event) : list (BeaconMetadata * Z) :=
  match e with
  | Turn _ _ t2 => map (fun b => (b, t2)) (drop (length (q s)) (q (apply_event s e)))
  | Receive => []
  end.

Fixpoint queued (s : Scheduler) (l : list event) : list (BeaconMetadata * Z) :=
  match l with
  | [] => []
  | e :: l => queued_by s e ++ queued (apply_event s e) l
  end.

(** What the builder received. *)
Fixpoint received (s : Scheduler) (l : list event) : list BeaconMetadata :=
  match l with
  | [] => []
  | e :: l =>
      match e with
      | Receive => match receive s with Some (b, _) => [b] | None => [] end
      | Turn _ _ _ => []
      end ++ received (apply_event s e) l
  end.

(** The clock does not go back. *)
Fixpoint in_order (t : Z) (l : list event) : Prop :=
  match l with
  | [] => True
  | Turn _ t1 t2 :: l => t <= t1 <= t2 /\ in_order t2 l
  | Receive :: l => in_order t l
  end.

(** A tick is a turn for each beacon of the registry. *)
Lemma tick_events s clock : length clock = length (Beacons (registry s)) ->
  checkAndTriggerBeacons s clock = run_events s (zip_with (fun b t => Turn b t.1 t.2) (Beacons (registry s)) clock).
Proof.
  intros Hl. unfold checkAndTriggerBeacons, run_events. generalize dependent clock. generalize (Beacons (registry s)) as bs. intros bs.
  revert s. induction bs as [|b bs IH]; intros s [|[t1 t2] ts] Hl; try done. cbn. rewrite IH by (cbn in Hl; lia). done.
Qed.

Lemma trigger_cases s b t1 t2 :
  (skips s b t1 = true /\ trigger s b t1 t2 = s) \/
  (skips s b t1 = false /\ (queue_capacity <= length (q s))%nat /\ trigger s b t1 t2 = s) \/
  (skips s b t1 = false /\ (length (q s) < queue_capacity)%nat /\
    trigger s b t1 t2 = mkScheduler (registry s) (q s ++ [b]) (<[Name b := t2]> (lastExecs s))).
Proof.
  unfold trigger. destruct (skips s b t1); [by left|right]. destruct (Nat.ltb_spec (length (q s)) queue_capacity); [by right|by left].
Qed.

Lemma queue_bounded_step s e : (length (q s) <= queue_capacity)%nat -> (length (q (apply_event s e)) <= queue_capacity)%nat.
Proof.
  intros Hq. destruct e as [b t1 t2|]; cbn.
  - destruct (trigger_cases s b t1 t2) as [[_ ->]|[(_ & _ & ->)|(_ & Hlt & ->)]]; try done. cbn [q]. rewrite length_app. cbn [length]. lia.
  - unfold receive. destruct (q s) eqn:Eq; cbn in *; [by rewrite Eq|lia].
Qed.

(** Every time recorded for a beacon is one the clock has reached. *)
Lemma last_monotone s e t name : in_order t [e] ->
  (forall p, lastExecs s !! name = Some p -> p <= t) ->
  forall p, lastExecs (apply_event s e) !! name = Some p -> p <= match e with Turn _ _ t2 => t2 | Receive => t end.
Proof.
  intros Ho Hp p. destruct e as [b t1 t2|]; cbn in *.
  - destruct (trigger_cases s b t1 t2) as [[_ ->]|[(_ & _ & ->)|(_ & Hlt & ->)]]; intros Hl; [specialize (Hp p Hl); lia..|].
    cbn in Hl. destruct (decide (Name b = name)) as [<-|Hne].
    + rewrite lookup_insert_eq in Hl. simplify_eq. lia.
    + rewrite lookup_insert_ne in Hl by done. specialize (Hp p Hl). lia.
  - intros Hl. unfold receive in Hl. destruct (q s); cbn in Hl; by apply Hp.
Qed.

(** A turn queues its beacon, unless it is skipped or the queue is full. *)
Lemma queued_turn s b t1 t2 : queued_by s (Turn b t1 t2) = if negb (skips s b t1) && (length (q s) <? queue_capacity)%nat then [(b, t2)] else [].
Proof.
  cbn [queued_by apply_event]. destruct (trigger_cases s b t1 t2) as [[-> ->]|[(-> & Hq & ->)|(-> & Hq & ->)]]; cbn [negb andb].
  - by rewrite drop_all.
  - destruct (Nat.ltb_spec (length (q s)) queue_capacity); [lia|]. by rewrite drop_all.
  - destruct (Nat.ltb_spec (length (q s)) queue_capacity); [|lia]. cbn [q]. by rewrite drop_app_length.
Qed.

(** What is received and what is left were in the queue or were queued, in the
    same order. *)
Lemma queue_fifo l : forall s, received s l ++ q (run_events s l) = q s ++ map fst (queued s l).
Proof.
  induction l as [|e l IH]; intros s; cbn [received queued]; [by rewrite app_nil_r|]. change (run_events s (e :: l)) with (run_events (apply_event s e) l).
  rewrite <- app_assoc, IH, map_app, app_assoc. rewrite (app_assoc (q s)). f_equal. destruct e as [b t1 t2|].
  - cbn [app]. rewrite queued_turn. cbn [apply_event]. destruct (trigger_cases s b t1 t2) as [[-> ->]|[(-> & Hq & ->)|(-> & Hq & ->)]]; cbn [negb andb].
    + by rewrite app_nil_r.
    + destruct (Nat.ltb_spec (length (q s)) queue_capacity); [lia|]. by rewrite app_nil_r.
    + by destruct (Nat.ltb_spec (length (q s)) queue_capacity); [|lia].
  - cbn [queued_by map apply_event]. rewrite app_nil_r. unfold receive. by destruct (q s) eqn:Eq; cbn.
Qed.

(** A beacon queued after time [p0] was recorded for its name comes an interval
    later. *)
Lemma spacing_after s l t p0 name : in_order t l -> p0 <= t -> (exists p, lastExecs s !! name = Some p /\ p0 <= p) ->
  Forall (fun bp => Name bp.1 = name -> p0 + Interval bp.1 <= bp.2) (queued s l).
Proof.
  revert s t. induction l as [|e l IH]; intros s t Ho Ht (p & Hp & Hle); cbn [queued]; [constructor|]. apply Forall_app. split.
  - destruct e as [b t1 t2|]; [|constructor]. rewrite queued_turn. destruct (negb (skips s b t1) && _) eqn:Ep; [|constructor].
    constructor; [|constructor]. cbn. intros <-. apply andb_true_iff in Ep as [Ep _]. apply negb_true_iff in Ep. unfold skips in Ep.
    rewrite Hp in Ep. apply orb_false_iff in Ep as [_ Ep]. apply Z.ltb_ge in Ep. cbn in Ho. lia.
  - destruct e as [b t1 t2|]; cbn in Ho.
    + apply (IH _ t2); [tauto|lia|]. cbn.
      destruct (trigger_cases s b t1 t2) as [[_ ->]|[(_ & _ & ->)|(_ & Hlt & ->)]]; [eauto..|]. cbn.
      destruct (decide (Name b = name)) as [<-|Hne]; [rewrite lookup_insert_eq; exists t2; split; [done|lia]|].
      rewrite lookup_insert_ne by done. eauto.
    + apply (IH _ t); [done..|]. cbn. unfold receive. destruct (q s); cbn; eauto.
Qed.

Lemma spacing s l t : in_order t l -> forall l1 l2 l3 b1 b2 p1 p2,
  queued s l = l1 ++ (b1, p1) :: l2 ++ (b2, p2) :: l3 -> Name b1 = Name b2 -> p1 + Interval b2 <= p2.
Proof.
  intros Ho. revert s t Ho. induction l as [|e l IH]; intros s t Ho l1 l2 l3 b1 b2 p1 p2 Hp Hn; cbn [queued] in Hp; [by destruct l1|].
  destruct e as [b t1 t2|]; cbn [in_order] in Ho; [|by eapply (IH (apply_event s Receive) t)].
  rewrite queued_turn in Hp. destruct (negb (skips s b t1) && _) eqn:Ep; [|by eapply (IH _ t2); [tauto|..]].
  destruct l1 as [|z l1]; cbn [app] in Hp; [injection Hp as -> -> Hp|injection Hp as _ Hp; by eapply (IH _ t2); [tauto|..]].
  apply andb_true_iff in Ep as [Ep Eq]. apply negb_true_iff in Ep. apply Nat.ltb_lt in Eq.
  assert (Hf : Forall (fun bp => Name bp.1 = Name b1 -> p1 + Interval bp.1 <= bp.2) (queued (trigger s b1 t1 p1) l)).
  { apply (spacing_after _ l p1); [tauto|lia|]. cbn.
    destruct (trigger_cases s b1 t1 p1) as [[Hx _]|[(_ & Hx & _)|(_ & _ & ->)]]; [congruence|lia|]. cbn.
    rewrite lookup_insert_eq. exists p1. split; [done|lia]. }
  rewrite Hp, Forall_app, Forall_cons in Hf. destruct Hf as (_ & Hf & _). cbn in Hf. by apply Hf.
Qed.

(** A due beacon is queued unless the queue is full, and in either case no other
    beacon's record changes. *)
Lemma due_queued s b t1 t2 : Interval b <> 0 -> (forall p, lastExecs s !! Name b = Some p -> Interval b <= t1 - p) ->
  (length (q s) < queue_capacity)%nat ->
  trigger s b t1 t2 = mkScheduler (registry s) (q s ++ [b]) (<[Name b := t2]> (lastExecs s)).
Proof.
  intros Hi Hp Hq. destruct (trigger_cases s b t1 t2) as [[Hx _]|[(_ & Hx & _)|(_ & _ & ->)]]; [|lia|done].
  unfold skips in Hx. apply orb_true_iff in Hx as [Hx|Hx]; [by apply Z.eqb_eq in Hx|].
  destruct (lastExecs s !! Name b) as [p|]; [|done]. specialize (Hp p eq_refl). apply Z.ltb_lt in Hx. lia.
Qed.

(** C16: the scheduler. Along any sequence of ticks and receives in which the
    clock does not go back, the queue never holds more than 16 events; the builder
    receives, in order, exactly what was queued; no beacon is queued twice within
    its interval: two executions queued for one name are at least the interval of
    the later one apart; and a beacon with an interval that is due is queued,
    unless the queue is full. *)
Theorem scheduler_spacing s l t : in_order t l -> (length (q s) <= 16)%nat ->
  (length (q (run_events s l)) <= 16)%nat /\
  received s l ++ q (run_events s l) = q s ++ map fst (queued s l) /\
  (forall l1 l2 l3 b1 b2 p1 p2, queued s l = l1 ++ (b1, p1) :: l2 ++ (b2, p2) :: l3 -> Name b1 = Name b2 -> p1 + Interval b2 <= p2) /\
  forall b t1 t2, let s' := run_events s l in
    Interval b <> 0 -> (forall p, lastExecs s' !! Name b = Some p -> Interval b <= t1 - p) -> (length (q s') < 16)%nat ->
    q (trigger s' b t1 t2) = q s' ++ [b].
Proof.
  intros Ho Hq. split.
  { clear Ho. unfold run_events. revert s Hq. induction l as [|e l IH]; intros s Hq; cbn; [done|]. apply IH. by apply queue_bounded_step. }
  split; [apply queue_fifo|]. split; [by apply (spacing s l t)|]. intros b t1 t2 s' Hi Hp Hlt. by rewrite due_queued.
Qed.

(** ** Two ticks *)

Definition minutely : BeaconMetadata := mkMetadata "beacon" "k51" "1.0" "json" 3 "msg" (60 * second).

Definition two_minutes : list event :=
  [Turn minutely 0 1; Receive; Turn minutely (30 * second) (30 * second); Turn minutely (61 * second) (61 * second); Receive].

Lemma scheduler_spacing_witness :
  queued (NewScheduler (mkRegistry [minutely])) two_minutes = [(minutely, 1); (minutely, 61 * second)] /\ 1 + 60 * second <= 61 * second.
Proof.
  assert (Hp : queued (NewScheduler (mkRegistry [minutely])) two_minutes = [] ++ (minutely, 1) :: [] ++ (minutely, 61 * second) :: [])
    by (vm_compute; reflexivity).
  split; [exact Hp|].
  refine (proj1 (proj2 (proj2 (scheduler_spacing (NewScheduler (mkRegistry [minutely])) two_minutes 0 _ _))) [] [] [] minutely minutely 1 (61 * second) Hp eq_refl).
  - cbn. unfold second. lia.
  - vm_compute. lia.
Defined.
