(* ===== verification/Ipfs.v ===== *)
(** * The ipfs plugin (pkg/plugin/ipfs)

    Blocks are added to, read and removed from an IPFS node, and IPNS names are
    published and resolved, with two LRU caches in front. The node (kubo's RPC
    client, with the CID, path and IPNS name types it uses) is the parameter
    [Kubo]; golang-lru is the parameter [Lru], with its documented behaviour as
    [LruLaws]. A path is its text. Metrics and logging are left out. *)

From S2P Require Import Prelude GoStrings Errors State Json.

(** ** golang-lru *)

Class Lru (C : Type -> Type) := {
  lru_New : forall {V}, Z -> result (C V);
  lru_Get : forall {V}, C V -> string -> C V * option V;
  lru_Add : forall {V}, C V -> string -> V -> C V;
  lru_Remove : forall {V}, C V -> string -> C V;
  lru_Peek : forall {V}, C V -> string -> option V;       (* Peek: what Get would find *)
}.

(** An entry is what was last added under its key, until it is evicted or
    removed; the entry just added is there. *)
Class LruLaws (C : Type -> Type) `{Lru C} := {
  lru_new_empty : forall {V} n (c : C V) k, lru_New n = Ok c -> lru_Peek c k = None;
  lru_get_peek : forall {V} (c : C V) k, (lru_Get c k).2 = lru_Peek c k;
  lru_get_keeps : forall {V} (c : C V) k j, lru_Peek (lru_Get c k).1 j = lru_Peek c j;
  lru_add_there : forall {V} (c : C V) k v, lru_Peek (lru_Add c k v) k = Some v;
  lru_add_others : forall {V} (c : C V) k v j, j <> k -> lru_Peek (lru_Add c k v) j = lru_Peek c j \/ lru_Peek (lru_Add c k v) j = None;
  lru_remove_gone : forall {V} (c : C V) k, lru_Peek (lru_Remove c k) k = None;
  lru_remove_others : forall {V} (c : C V) k j, j <> k -> lru_Peek (lru_Remove c k) j = lru_Peek c j;
}.

(** ** The node *)

Record Key := mkKey { key_Name : string; key_Path : string }.

(** [cid_Decode] gives a CID's canonical text, [FromCid] its path, [RootCid] the
    CID of a path, [AsPath] the path of an IPNS name; [block_Get] is the content
    of a block and the error that reading it ends with, if any; [rpc_Code] is
    the code of the first rpc.Error in an error's chain. *)
Class Kubo (E : Type) := {
  block_Put : E -> string -> E * result string;
  block_Get : E -> string -> E * result (string * option error);
  block_Rm : E -> string -> E * result unit;
  pin_Add : E -> string -> E * result unit;
  pin_Rm : E -> string -> E * result unit;
  name_Resolve : E -> string -> E * result string;
  name_Publish : E -> string -> string -> Z -> E * result string;
  key_Sign : E -> string -> E * result Key;
  key_List : E -> E * result (list Key);
  key_Generate : E -> string -> E * result Key;
  cid_Decode : string -> result string;
  FromCid : string -> string;
  RootCid : string -> string;
  AsPath : string -> string;
  rpc_Code : error -> option Z;
}.

Definition ErrNormal : Z := 0.
Definition Canceled : error := Errorf "context canceled" [].
Definition DeadlineExceeded : error := Errorf "context deadline exceeded" [].

(** ** config.go *)

Record Config := mkConfig {
  IPFSAddress : string;
  CacheSize : Z;                          (* uint *)
  LeaseDuration : Z;
  MaxAddBytes : Z;                        (* uint *)
  MaxGetBytes : Z;                        (* uint *)
}.

Definition readFromEnv (env_string : string -> option string) (env_uint env_duration : string -> option Z) : Config :=
  mkConfig (default "http://localhost:5001" (env_string "IPFS_ADDRESS"))
    (default 100 (env_uint "PLUGIN_CACHE_SIZE"))
    (default (24 * 3600 * 1000000000) (env_duration "IPNS_LEASE_DURATION"))
    (default 1048576 (env_uint "PLUGIN_MAX_ADD_BYTES"))
    (default 1048576 (env_uint "PLUGIN_MAX_GET_BYTES")).

(** ** plugin.go *)

(** The state: the node, the two caches, and the blocks put so far with their
    paths. *)
Record state (E : Type) (C : Type -> Type) := mkState {
  node : E;
  cache : C string;
  ipnsCache : C string;
  puts : list (string * string);
}.
Arguments mkState {E C} node cache ipnsCache puts.
Arguments node {E C} s.
Arguments cache {E C} s.
Arguments ipnsCache {E C} s.
Arguments puts {E C} s.

Record Plugin := mkPlugin { leaseDuration : Z; maxAddBytes : Z; maxGetBytes : Z }.

Record GetResponse := mkGetResponse { get_Data : string; get_Path : string }.

(** [url_Parse] gives the scheme, the host name and the port of a URL. *)
Definition convertToMultiaddr (url_Parse : string -> result (string * string * string)) (httpAddr : string) : result string :=
  u ← url_Parse httpAddr;
  let '(scheme, host, port) := u in
  let port := if String.eqb port "" then (if String.eqb scheme "https" then "443" else "80") else port in
  Ok ("/dns/" +:+ host +:+ "/tcp/" +:+ port +:+ "/" +:+ scheme).

Section Ipfs.
Context {E : Type} {C : Type -> Type} `{Kubo E} `{Lru C}.

Abbreviation I := (Prog (state E C)).

Definition ask {A} (f : E -> E * result A) : I A := fun s =>
  let '(e, r) := f (node s) in (mkState e (cache s) (ipnsCache s) (puts s), Returned r).

Definition cache_Get (k : string) : I (option string) := fun s =>
  let '(c, r) := lru_Get (cache s) k in (mkState (node s) c (ipnsCache s) (puts s), Returned (Ok r)).
Definition cache_Add (k v : string) : I unit := modify (fun s => mkState (node s) (lru_Add (cache s) k v) (ipnsCache s) (puts s)).
Definition cache_Remove (k : string) : I unit := modify (fun s => mkState (node s) (lru_Remove (cache s) k) (ipnsCache s) (puts s)).

Definition ipns_Get (k : string) : I (option string) := fun s =>
  let '(c, r) := lru_Get (ipnsCache s) k in (mkState (node s) (cache s) c (puts s), Returned (Ok r)).
Definition ipns_Add (k v : string) : I unit := modify (fun s => mkState (node s) (cache s) (lru_Add (ipnsCache s) k v) (puts s)).

(** [pi.node.Block().Put], which the model also records. *)
Definition Put (data : string) : I string := fun s =>
  let '(e, r) := block_Put (node s) data in
  (mkState e (cache s) (ipnsCache s) (match r with Ok p => puts s ++ [(p, data)] | Err _ => puts s end), Returned r).

Definition NewPlugin (url_Parse : string -> result (string * string * string)) (NewMultiaddr : string -> result string)
    (NewApi : string -> result E) (cfg : Config) : result (Plugin * state E C) :=
  addr ← convertToMultiaddr url_Parse (IPFSAddress cfg);
  multiAddr ← NewMultiaddr addr;
  n ← NewApi multiAddr;
  c ← lru_New (i64 (CacheSize cfg));
  ic ← lru_New (i64 (CacheSize cfg / 2));
  Ok (mkPlugin (LeaseDuration cfg) (MaxAddBytes cfg) (MaxGetBytes cfg), mkState n c ic []).

Definition too_large (fmt : string) (n max : Z) : error := Errorf fmt [pretty n; pretty max].

Definition Add (p : Plugin) (data : string) : I string :=
  let n := Z.of_nat (String.length data) in
  _ ← guard_err (maxAddBytes p <? n) (too_large "add payload too large: %d bytes exceeds max %d" n (maxAddBytes p));
  path ← Put data;
  _ ← ask (fun e => pin_Add e path);
  _ ← cache_Add path data;
  mret (RootCid path).

(** The first key of that name. *)
Definition find_key (keys : list Key) (name : string) : option Key := find (fun k => String.eqb (key_Name k) name) keys.

Definition keyForName (name : string) : I Key :=
  key ← attempt (ask (fun e => key_Sign e name));
  match key with
  | Ok key => mret key
  | Err err =>
      keys ← attempt (ask key_List);
      match keys with
      | Err listErr => throw (Wrap2 "%w %w" err listErr)
      | Ok keys =>
          match find_key keys name with
          | Some key => mret key
          | None => throw (Errorf "key not found" [])
          end
      end
  end.

Definition isUnpublishedIPNSRecordError (err : error) : bool :=
  if errors_Is err Canceled || errors_Is err DeadlineExceeded then false
  else match rpc_Code err with Some code => code =? ErrNormal | None => false end.

(** The name that [Get] resolves. *)
Definition normalize (name : string) : I string :=
  if HasPrefix name "/ipns/" then mret name
  else
    key ← attempt (keyForName name);
    mret (match key with
          | Ok key => if String.eqb (key_Path key) "" then "/ipns/" +:+ name else key_Path key
          | Err _ => "/ipns/" +:+ name
          end).

(** [io.ReadAll(io.LimitReader(reader, int64(max)+1))]: a read that the limit
    ends meets no error. *)
Definition read_limited (max : Z) (r : string * option error) : result string :=
  let limit := i64 (i64 max + 1) in
  if limit <=? Z.of_nat (String.length r.1) then Ok (take_chars (Z.to_nat limit) r.1)
  else match r.2 with Some err => Err err | None => Ok r.1 end.

Definition getByPath (p : Plugin) (path : string) : I string :=
  hit ← cache_Get path;
  match hit with
  | Some data => mret data
  | None =>
      reader ← ask (fun e => block_Get e path);
      data ← lift (read_limited (maxGetBytes p) reader);
      let n := Z.of_nat (String.length data) in
      _ ← guard_err (maxGetBytes p <? n) (too_large "get payload too large: %d bytes exceeds max %d" n (maxGetBytes p));
      mret data
  end.

Definition resolve_ipns (name : string) : I string :=
  hit ← ipns_Get name;
  match hit with
  | Some resolved => mret resolved
  | None =>
      normalized ← normalize name;
      resolved ← on_err (fun err => if isUnpublishedIPNSRecordError err
                                    then StatusErr NotFound (Errorf "ipns record not published for %q" [normalized]) else err)
                   (ask (fun e => name_Resolve e normalized));
      _ ← ipns_Add normalized resolved;
      _ ← ipns_Add name resolved;
      mret resolved
  end.

Definition Get (p : Plugin) (key namespace : string) : I GetResponse :=
  path ← (if String.eqb namespace "ipfs" then c ← lift (cid_Decode key); mret (FromCid c)
          else if String.eqb namespace "ipns" then resolve_ipns key
          else throw (Errorf "unknown namespace: %s" [namespace]));
  data ← getByPath p path;
  mret (mkGetResponse data path).

Definition cachePublishedName (alias published path : string) : I unit :=
  _ ← ipns_Add alias path;
  _ ← ipns_Add published path;
  ipns_Add (AsPath published) path.

Definition publish (p : Plugin) (path name : string) : I string :=
  published ← ask (fun e => name_Publish e path name (leaseDuration p));
  _ ← cachePublishedName name published path;
  mret published.

Definition resolveOrGenerateKey (name : string) : I Key :=
  key ← attempt (keyForName name);
  match key with
  | Ok key => mret key
  | Err _ => ask (fun e => key_Generate e name)
  end.

Definition Publish (p : Plugin) (cid name : string) : I string :=
  key ← resolveOrGenerateKey name;
  c ← lift (cid_Decode cid);
  publish p (FromCid c) (key_Name key).

Definition Delete (cid : string) : I bool :=
  c ← lift (cid_Decode cid);
  let path := FromCid c in
  _ ← ask (fun e => pin_Rm e path);
  _ ← ask (fun e => block_Rm e path);
  _ ← cache_Remove path;
  mret true.

(** An alias without a key has the empty name. *)
Definition KeyInfo (name : string) : I string :=
  key ← attempt (keyForName name);
  mret (match key with Ok key => key_Path key | Err _ => "" end).

End Ipfs.
