(* ===== verification/IpfsSpec.v ===== *)
(** * What the ipfs plugin promises

    The size limits, what the caches may hold, and that a published head is not
    hidden by an older one. *)

From S2P Require Import Prelude GoStrings Errors State Json Ipfs.

Section Spec.
Context {E : Type} {C : Type -> Type} `{Kubo E} `{LruLaws C}.

Abbreviation I := (Prog (state E C)).

Definition size (data : string) : Z := Z.of_nat (String.length data).

(** ** The cache of blocks *)

(** A cached block was put under its path through this plugin, and fits the
    limit of [Add]. *)
Definition cache_ok (p : Plugin) (s : state E C) : Prop := forall path data, lru_Peek (cache s) path = Some data ->
  (path, data) ∈ puts s /\ size data <= maxAddBytes p.

(** Steps that leave the invariant: the puts grow, the cache loses entries. *)
Definition keeps (p : Plugin) (s s' : state E C) : Prop :=
  (exists l, puts s' = puts s ++ l) /\ (cache_ok p s -> cache_ok p s').

#[local] Instance keeps_preorder p : PreOrder (keeps p).
Proof.
  split.
  - intros s. split; [exists []; by rewrite app_nil_r|done].
  - intros s1 s2 s3 [[l1 E1] K1] [[l2 E2] K2]. split; [exists (l1 ++ l2); by rewrite E2, E1, app_assoc|auto].
Qed.

Lemma keeps_cache p (s s' : state E C) : puts s' = puts s -> (forall k, lru_Peek (cache s') k = lru_Peek (cache s) k \/ lru_Peek (cache s') k = None) ->
  keeps p s s'.
Proof.
  intros Hp Hk. split; [exists []; by rewrite app_nil_r|]. intros Hc path data Hd. rewrite Hp.
  destruct (Hk path) as [He|He]; rewrite He in Hd; [by apply Hc|done].
Qed.

Lemma keeps_ask {A} p (f : E -> E * result A) : steps (keeps p) (ask f).
Proof. intros s. unfold ask. destruct (f (node s)). apply keeps_cache; [done|by left]. Qed.

Lemma keeps_cache_Get p k : steps (keeps p) (cache_Get k).
Proof.
  intros s. unfold cache_Get. destruct (lru_Get (cache s) k) as [c r] eqn:Ec. apply keeps_cache; [done|]. intros j. left. cbn.
  pose proof (lru_get_keeps (cache s) k j) as Hx. by rewrite Ec in Hx.
Qed.

Lemma keeps_cache_Remove p k : steps (keeps p) (cache_Remove k).
Proof.
  intros s. apply keeps_cache; [done|]. intros j. cbn. destruct (decide (j = k)) as [->|Hne].
  - right. apply lru_remove_gone.
  - left. by apply lru_remove_others.
Qed.

Lemma keeps_ipns_Get p k : steps (keeps p) (ipns_Get k).
Proof. intros s. unfold ipns_Get. destruct (lru_Get (ipnsCache s) k). apply keeps_cache; [done|by left]. Qed.

Lemma keeps_ipns_Add p k v : steps (keeps p) (ipns_Add k v).
Proof. intros s. apply keeps_cache; [done|by left]. Qed.

Hint Resolve keeps_ask keeps_cache_Get keeps_cache_Remove keeps_ipns_Get keeps_ipns_Add : steps.
Hint Extern 3 (steps _ (match ?x with _ => _ end)) => (destruct x) : steps.

Lemma keeps_keyForName p name : steps (keeps p) (keyForName name).
Proof. unfold keyForName. auto 10 with steps. Qed.

Hint Resolve keeps_keyForName : steps.

Lemma keeps_resolve p name : steps (keeps p) (resolve_ipns name).
Proof. unfold resolve_ipns, normalize. auto 15 with steps. Qed.

Lemma keeps_getByPath p path : steps (keeps p) (getByPath p path).
Proof. unfold getByPath. cbv zeta. auto 10 with steps. Qed.

(** ** Adding *)

Lemma run_ask_node {A} (f : E -> E * result A) (s : state E C) :
  ask f s = (mkState (f (node s)).1 (cache s) (ipnsCache s) (puts s), Returned (f (node s)).2).
Proof. unfold ask. by destruct (f (node s)). Qed.

Lemma run_Put data (s : state E C) : Put data s =
  (mkState (block_Put (node s) data).1 (cache s) (ipnsCache s)
     (match (block_Put (node s) data).2 with Ok p => puts s ++ [(p, data)] | Err _ => puts s end), Returned (block_Put (node s) data).2).
Proof. unfold Put. by destruct (block_Put (node s) data). Qed.

Lemma keeps_Add p data : steps (keeps p) (Add p data).
Proof.
  intros s. unfold Add. cbv zeta. destruct (Z.ltb_spec (maxAddBytes p) (Z.of_nat (String.length data))) as [Hlt|Hle].
  { erewrite run_bind_err by done. reflexivity. }
  erewrite run_bind by done. cbv beta. destruct (block_Put (node s) data).2 as [path|err] eqn:Ep.
  - assert (Hp : keeps p s (Put data s).1).
    { rewrite run_Put, Ep. split; [by eexists|]. intros Hc k d Hd. cbn in *. destruct (Hc k d Hd). split; [set_solver|done]. }
    erewrite run_bind; [|rewrite run_Put, Ep; reflexivity]. cbv beta. rewrite run_Put, Ep in Hp. cbn [fst] in Hp.
    etrans; [exact Hp|]. set (s1 := mkState _ _ _ _). cbn [node] in s1.
    destruct (pin_Add (node s1) path).2 as [[]|err] eqn:En.
    + erewrite run_bind; [|rewrite run_ask_node, En; reflexivity]. erewrite run_bind by done. cbn [fst mret Prog_ret].
      split; [exists []; by rewrite app_nil_r|]. intros Hc k d Hd. cbn in Hd |- *. destruct (decide (k = path)) as [->|Hne].
      * rewrite lru_add_there in Hd. injection Hd as <-. split; [set_solver|exact Hle].
      * destruct (lru_add_others (cache s) path data k Hne) as [Hx|Hx]; rewrite Hx in Hd; [by apply Hc in Hd|done].
    + erewrite run_bind_err by (rewrite run_ask_node, En; reflexivity). apply keeps_cache; [done|by left].
  - erewrite run_bind_err by (rewrite run_Put, Ep; reflexivity). cbn [fst]. apply keeps_cache; [done|by left].
Qed.

(** ** Reading *)

Lemma take_chars_all n s : (String.length s <= n)%nat -> take_chars n s = s.
Proof. revert n. induction s as [|c s IH]; intros [|n] Hn; cbn in *; try done; [lia|]. rewrite IH by lia. done. Qed.

Lemma take_chars_length n s : (n <= String.length s)%nat -> String.length (take_chars n s) = n.
Proof. revert n. induction s as [|c s IH]; intros [|n] Hn; cbn in *; try done; [lia|]. rewrite IH by lia. done. Qed.

(** A read within the limit is the whole content. *)
Lemma read_limited_whole max r data : 0 <= max < 2 ^ 63 - 1 -> read_limited max r = Ok data -> size data <= max -> data = r.1 /\ r.2 = None.
Proof.
  intros Hm. unfold read_limited, size. assert (Hi : i64 max = max) by (unfold swrap; rewrite Z.mod_small; lia).
  assert (Hl : i64 (max + 1) = max + 1) by (unfold swrap; rewrite Z.mod_small; lia). rewrite Hi, Hl.
  destruct (Z.leb_spec (max + 1) (Z.of_nat (String.length r.1))).
  - intros [= <-]. rewrite take_chars_length by lia. lia.
  - destruct r.2; [done|]. by intros [= <-].
Qed.

Lemma getByPath_Ok p path (s s' : state E C) data : 0 <= maxGetBytes p < 2 ^ 63 - 1 -> getByPath p path s = (s', Returned (Ok data)) ->
  lru_Peek (cache s) path = Some data \/
  (exists e, (block_Get e path).2 = Ok (data, None) /\ size data <= maxGetBytes p).
Proof.
  intros Hm Hg. unfold getByPath in Hg. apply run_bind_inv in Hg as (s1 & hit & Hc & Hg).
  pose proof (lru_get_peek (cache s) path) as Hpk.
  unfold cache_Get in Hc. destruct (lru_Get (cache s) path) as [c r] eqn:Ec. assert (hit = r) as -> by congruence. cbn in Hpk.
  destruct r as [d|]; [unfold mret, Prog_ret in Hg; simplify_eq; by left|]. right.
  apply run_bind_inv in Hg as (s2 & rd & Ha & Hg). rewrite run_ask_node in Ha.
  apply run_bind_inv in Hg as (s3 & d & Hl & Hg). apply run_lift_inv in Hl as [-> Hl]. cbv zeta in Hg.
  apply run_bind_inv in Hg as (s4 & u & Hgd & Hg). apply run_lift_inv in Hgd as [-> Hgd]. apply reject_Ok, Z.ltb_ge in Hgd.
  unfold mret, Prog_ret in Hg. assert (d = data) as -> by congruence.
  destruct (read_limited_whole _ _ _ Hm Hl Hgd) as [Hd Hn]. exists (node s1). split; [|exact Hgd].
  destruct rd as [full err]. cbn in Hd, Hn. subst. congruence.
Qed.

(** C25: [Get] never answers a truncated, oversized or foreign block. From a
    state whose cache holds only blocks that were put through the plugin, the
    data of an answer is the whole content of the block, as the node read it
    now within the limit or as it was put under this very path; the cache stays
    as good. *)
Theorem Get_whole p key namespace (s s' : state E C) resp :
  0 <= maxGetBytes p < 2 ^ 63 - 1 -> cache_ok p s -> Get p key namespace s = (s', Returned (Ok resp)) ->
  cache_ok p s' /\ size (get_Data resp) <= Z.max (maxAddBytes p) (maxGetBytes p) /\
  ((get_Path resp, get_Data resp) ∈ puts s' \/
   exists e, (block_Get e (get_Path resp)).2 = Ok (get_Data resp, None) /\ size (get_Data resp) <= maxGetBytes p).
Proof.
  intros Hm Hc Hg. unfold Get in Hg. apply run_bind_inv in Hg as (s1 & path & Hp & Hg).
  apply run_bind_inv in Hg as (s2 & data & Hd & Hg). unfold mret, Prog_ret in Hg.
  assert (s' = s2 /\ resp = mkGetResponse data path) as [-> ->] by (split; congruence). cbn [get_Path get_Data]. clear Hg.
  assert (K1 : keeps p s s1).
  { assert (Hs : steps (keeps p) (if String.eqb namespace "ipfs" then c ← lift (cid_Decode key); mret (FromCid c)
          else if String.eqb namespace "ipns" then resolve_ipns key else throw (Errorf "unknown namespace: %s" [namespace]) : I string)).
    { destruct (String.eqb namespace "ipfs"); [auto with steps|]. destruct (String.eqb namespace "ipns"); [apply keeps_resolve|auto with steps]. }
    specialize (Hs s). by rewrite Hp in Hs. }
  pose proof (keeps_getByPath p path s1) as K2. rewrite Hd in K2. cbn in K2.
  destruct K1 as [_ C1]. destruct K2 as [[l E2] C2]. specialize (C1 Hc). split; [by apply C2|].
  destruct (getByPath_Ok p path s1 s2 data Hm Hd) as [Hx|(e & He & Hs)].
  - destruct (C1 path data Hx) as [Hin Hs]. split; [lia|]. left. rewrite E2. set_solver.
  - split; [lia|]. right. eauto.
Qed.

(** [Add] refuses data over its limit without a request. *)
Lemma Add_too_large p data (s : state E C) : maxAddBytes p < size data -> exists e, Add p data s = (s, Returned (Err e)).
Proof.
  intros Hs. unfold Add. cbv zeta. apply Z.ltb_lt in Hs. unfold size in Hs. rewrite Hs. eexists. by apply run_bind_err.
Qed.

(** Every operation keeps the cache of blocks good, whatever the node
    answers: from a state in which each cached block is one that was put under
    its path, within the limit on additions, it leaves such a state, and it
    forgets no block that was put. *)
Theorem operations_keep_cache p : (forall data, steps (keeps p) (Add p data)) /\ (forall key ns, steps (keeps p) (Get p key ns)) /\
  (forall cid name, steps (keeps p) (Publish p cid name)) /\ (forall cid, steps (keeps p) (Delete cid)) /\
  (forall name, steps (keeps p) (KeyInfo name)).
Proof.
  split_and!.
  - apply keeps_Add.
  - intros key ns. unfold Get. apply steps_bind; [typeclasses eauto| |intros path].
    + destruct (String.eqb ns "ipfs"); [auto with steps|]. destruct (String.eqb ns "ipns"); [apply keeps_resolve|auto with steps].
    + apply steps_bind; [typeclasses eauto|apply keeps_getByPath|auto with steps].
  - intros cid name. unfold Publish, resolveOrGenerateKey, publish, cachePublishedName. auto 15 with steps.
  - intros cid. unfold Delete. cbv zeta. auto 15 with steps.
  - intros name. unfold KeyInfo. auto 10 with steps.
Qed.

(** ** The cache of heads *)

(** The names under which a head is cached after a publication. *)
Definition head_keys (alias published : string) : list string := [alias; published; AsPath published].

(** C18: a publication is not hidden by an older head. After [Publish] returned,
    none of the names under which the head may be asked for, the key's name, the
    IPNS name and its path, is cached with any other path; and the canonical
    path is cached with the new one. A lookup by a cached name answers the new
    head without asking the node. *)
Theorem Publish_coherent p cid name (s s' : state E C) published : Publish p cid name s = (s', Returned (Ok published)) ->
  exists key c s1, resolveOrGenerateKey name s = (s1, Returned (Ok key)) /\ cid_Decode cid = Ok c /\
    lru_Peek (ipnsCache s') (AsPath published) = Some (FromCid c) /\
    (forall k path, k ∈ head_keys (key_Name key) published -> lru_Peek (ipnsCache s') k = Some path -> path = FromCid c) /\
    (forall k, lru_Peek (ipnsCache s') k = Some (FromCid c) -> exists s2, resolve_ipns k s' = (s2, Returned (Ok (FromCid c))) /\ node s2 = node s').
Proof.
  intros Hp. unfold Publish in Hp. apply run_bind_inv in Hp as (s1 & key & Hk & Hp).
  apply run_bind_inv in Hp as (s2 & c & Hc & Hp). apply run_lift_inv in Hc as [-> Hc]. unfold publish in Hp.
  apply run_bind_inv in Hp as (s3 & pub & Ha & Hp). unfold cachePublishedName in Hp. cbv zeta in Hp.
  rewrite run_ask_node in Ha. assert (Hi3 : ipnsCache s3 = ipnsCache s1) by (injection Ha as <- _; done).
  set (i1 := lru_Add (ipnsCache s3) (key_Name key) (FromCid c)).
  set (i2 := lru_Add i1 pub (FromCid c)). set (i3 := lru_Add i2 (AsPath pub) (FromCid c)).
  assert (Hs' : s' = mkState (node s3) (cache s3) i3 (puts s3) /\ pub = published).
  { unfold ipns_Add, modify, mbind, Prog_bind, mret, Prog_ret in Hp. cbn in Hp. injection Hp as <- <-. done. }
  destruct Hs' as [-> ->]. exists key, c, s1. split; [done|]. split; [done|]. cbn [ipnsCache node].
  assert (Hadd : forall (i : C string) k v j path, lru_Peek (lru_Add i k v) j = Some path -> (j = k /\ path = v) \/ (j <> k /\ lru_Peek i j = Some path)).
  { intros i k v j path Hj. destruct (decide (j = k)) as [->|Hne]; [left; rewrite lru_add_there in Hj; naive_solver|].
    right. split; [done|]. destruct (lru_add_others i k v j Hne) as [Hx|Hx]; congruence. }
  split_and!.
  - apply lru_add_there.
  - intros k path Hin Hpk. apply Hadd in Hpk as [[_ ->]|[N3 Hpk]]; [done|].
    apply Hadd in Hpk as [[_ ->]|[N2 Hpk]]; [done|]. apply Hadd in Hpk as [[_ ->]|[N1 Hpk]]; [done|].
    unfold head_keys in Hin. set_solver.
  - intros k Hpk. unfold resolve_ipns. destruct (lru_Get i3 k) as [i4 r] eqn:Eg. pose proof (lru_get_peek i3 k) as Hx.
    rewrite Eg, Hpk in Hx. cbn in Hx. subst r.
    eexists. split; [erewrite run_bind; [|unfold ipns_Get; cbn [ipnsCache]; rewrite Eg; reflexivity]; reflexivity|]. done.
Qed.

(** ** Keys *)

(** [KeyInfo] always succeeds: a node that cannot be asked looks like an alias
    without a key. *)
Theorem KeyInfo_hides_errors name (s : state E C) e1 e2 : (key_Sign (node s) name).2 = Err e1 ->
  (key_List (key_Sign (node s) name).1).2 = Err e2 -> exists s', KeyInfo name s = (s', Returned (Ok "")).
Proof.
  intros H1' H2'. assert (Hk : exists s', keyForName name s = (s', Returned (Err (Wrap2 "%w %w" e1 e2)))).
  { unfold keyForName. eexists. erewrite run_bind by (apply run_attempt; by rewrite run_ask_node, H1'). cbv beta iota.
    erewrite run_bind by (apply run_attempt; rewrite run_ask_node; cbn [node]; by rewrite H2'). reflexivity. }
  destruct Hk as [s' Hk]. exists s'. unfold KeyInfo. by erewrite run_bind by (apply run_attempt, Hk).
Qed.

End Spec.

(** ** A node and a cache *)

Module Runs.

(** An unbounded cache: an association list. *)
#[export] Instance list_lru : Lru (fun V => list (string * V)) :=
  {| lru_New := fun V n => if n <=? 0 then Err (Errorf "must provide a positive size" []) else Ok [];
     lru_Get := fun V c k => (c, assoc_lookup k c);
     lru_Add := fun V c k v => assoc_insert k v c;
     lru_Remove := fun V c k => filter (fun kv => kv.1 <> k) c;
     lru_Peek := fun V c k => assoc_lookup k c |}.

#[export] Instance list_lru_laws : LruLaws (fun V => list (string * V)).
Proof.
  split; cbn.
  - intros V n c k Hn. destruct (n <=? 0); [done|]. by injection Hn as <-.
  - done.
  - done.
  - intros V c k v. apply assoc_lookup_insert.
  - intros V c k v j Hne. left. apply assoc_lookup_insert_ne. congruence.
  - intros V c k. induction c as [|[i x] c IH]; [done|]. rewrite filter_cons. cbn. case_decide as Hd; cbn; [|done].
    by apply not_eq_sym, String.eqb_neq in Hd as ->.
  - intros V c k j Hne. induction c as [|[i x] c IH]; [done|]. rewrite filter_cons. cbn. case_decide as Hd; cbn.
    + by destruct (String.eqb j i).
    + rewrite IH. destruct (decide (i = k)) as [->|]; [|done]. by apply String.eqb_neq in Hne as ->.
Qed.

End Runs.
