(* ===== verification/BeaconIpfs.v ===== *)
(** * The beacon plugin on the ipfs plugin

    The beacon plugin's IPFS client is the ipfs plugin, through gRPC: an error
    arrives as a status with the code that the plugin chose, [Unknown] where it
    chose none. A node for running the two together closes the file. *)

From S2P Require Import Prelude GoStrings Errors State Json Http MasterSeed.
From S2P Require Beacon BeaconSpec BeaconRegistry.
From S2P Require Import Ipfs IpfsSpec.

(** The services beside IPFS, in an environment of their own. *)
Class OtherServices (R : Type) := {
  svc_GetTrng : R -> R * result (list string);
  svc_GetSeeds : R -> Z -> R * result (list string);
  svc_now : R -> R * Z;
  svc_wait : R -> Z -> R * option error;
  svc_ctx_Err : R -> R * option error;
}.

Section Compose.
Context {E R : Type} {C : Type -> Type} `{Kubo E} `{Lru C} `{OtherServices R} (p : Plugin).

Abbreviation world := (state E C * R)%type.

Definition on_ipfs {A B} (h : Prog (state E C) A) (f : A -> B) (w : world) : world * result B :=
  let '(s, o) := h w.1 in ((s, w.2), a ← answer o; Ok (f a)).

Definition on_other {A} (f : R -> R * A) (w : world) : world * A := let '(r, a) := f w.2 in ((w.1, r), a).

#[export] Instance plugins_env : Beacon.BeaconEnv world :=
  {| Beacon.ipfs_Get := fun w key ns => on_ipfs (Get p key ns) (fun r => (get_Path r, get_Data r)) w;
     Beacon.ipfs_Add := fun w data => on_ipfs (Add p data) id w;
     Beacon.ipfs_Publish := fun w cid name => on_ipfs (Publish p cid name) id w;
     Beacon.ipfs_KeyInfo := fun w name => on_ipfs (KeyInfo name) id w;
     Beacon.GetTrng := on_other svc_GetTrng;
     Beacon.GetSeeds := fun w n => on_other (fun r => svc_GetSeeds r n) w;
     Beacon.clock_now := on_other svc_now;
     Beacon.wait := fun w d => on_other (fun r => svc_wait r d) w;
     Beacon.ctx_Err := on_other svc_ctx_Err |}.

(** A node that cannot be asked for its keys looks to the beacon plugin like a
    registry that was never created. *)
Lemma outage_looks_missing alias (s : Beacon.state world) e1 e2 :
  (key_Sign (node (Beacon.env s).1) alias).2 = Err e1 -> (key_List (key_Sign (node (Beacon.env s).1) alias).1).2 = Err e2 ->
  exists s', Beacon.queryRegistry alias s = (s', Returned (Ok (None, "", Beacon.StateMissingKey))).
Proof.
  intros Hs Hl. destruct (KeyInfo_hides_errors alias (Beacon.env s).1 e1 e2 Hs Hl) as [s1 Hk].
  unfold Beacon.queryRegistry, Beacon.KeyInfo. eexists. erewrite run_bind; [|apply run_on_err; rewrite BeaconSpec.run_ask].
  2: { cbn [Beacon.ipfs_KeyInfo plugins_env]. unfold on_ipfs. rewrite Hk. reflexivity. }
  reflexivity.
Qed.

End Compose.

(** ** A node *)

Module Runs.

Import IpfsSpec.Runs.

(** A node in memory whose next [down] key requests fail. *)
Record memory := mkMemory { stored : list (string * string); heads : list (string * string); down : nat }.

Definition up (f : memory -> memory * result Key) (e : memory) : memory * result Key :=
  match down e with
  | O => f e
  | S n => (mkMemory (stored e) (heads e) n, Err (Errorf "connection refused" []))
  end.

Definition key_of (name : string) : Key := mkKey name ("/ipns/k-" +:+ name).

#[export] Instance memory_node : Kubo memory :=
  {| block_Put := fun e data => (mkMemory (assoc_insert ("/ipfs/" +:+ data) data (stored e)) (heads e) (down e), Ok ("/ipfs/" +:+ data));
     block_Get := fun e path => (e, match assoc_lookup path (stored e) with Some d => Ok (d, None) | None => Err (Errorf "not found" []) end);
     block_Rm := fun e path => (mkMemory (filter (fun kv => kv.1 <> path) (stored e)) (heads e) (down e), Ok tt);
     pin_Add := fun e _ => (e, Ok tt);
     pin_Rm := fun e _ => (e, Ok tt);
     name_Resolve := fun e path => (e, match assoc_lookup (TrimPrefix path "/ipns/k-") (heads e) with
                                       | Some p => Ok p | None => Err (Errorf "could not resolve name" []) end);
     name_Publish := fun e path name _ => (mkMemory (stored e) (assoc_insert name path (heads e)) (down e), Ok ("k-" +:+ name));
     key_Sign := fun e name => up (fun e => (e, match assoc_lookup name (heads e) with
                                                | Some _ => Ok (key_of name) | None => Err (Errorf "no key by that name" []) end)) e;
     key_List := fun e => match down e with
                          | O => (e, Ok (map (fun kv => key_of kv.1) (heads e)))
                          | S n => (mkMemory (stored e) (heads e) n, Err (Errorf "connection refused" []))
                          end;
     key_Generate := fun e name => (e, Ok (key_of name));
     cid_Decode := fun s => Ok s;
     FromCid := fun c => "/ipfs/" +:+ c;
     RootCid := fun path => TrimPrefix path "/ipfs/";
     AsPath := fun n => "/ipns/" +:+ n;
     rpc_Code := fun _ => None |}.

#[export] Instance others : OtherServices unit :=
  {| svc_GetTrng := fun r => (r, Ok []);
     svc_GetSeeds := fun r n => (r, Ok (replicate (Z.to_nat n) "5eed"));
     svc_now := fun r => (r, 1700000000 * Http.second);
     svc_wait := fun r _ => (r, None);
     svc_ctx_Err := fun r => (r, None) |}.

Definition plugin : Plugin := mkPlugin 86400 1048576 1048576.

(** ** Witnesses of the ipfs plugin's properties *)

Abbreviation ipfs_state := (state memory (fun V => list (string * V))).

Definition empty : ipfs_state := mkState (mkMemory [] [] 0) [] [] [].
Definition added : ipfs_state := Eval vm_compute in (Add plugin "hello" empty).1.
Definition published : ipfs_state := Eval vm_compute in (Publish plugin "hello" "greeting" added).1.
Definition got : ipfs_state := Eval vm_compute in (Get plugin "greeting" "ipns" published).1.

Lemma Get_whole_witness : cache_ok plugin got /\ size "hello" <= Z.max 1048576 1048576.
Proof.
  destruct (Get_whole plugin "greeting" "ipns" published got (mkGetResponse "hello" "/ipfs/hello")) as (Hc & Hs & _).
  - vm_compute. split; [discriminate|reflexivity].
  - intros path data Hd. cbn in Hd. destruct (String.eqb path "/ipfs/hello") eqn:Ep; [|discriminate].
    apply String.eqb_eq in Ep as ->. injection Hd as <-. split; [apply list_elem_of_singleton; reflexivity|vm_compute; discriminate].
  - vm_compute. reflexivity.
  - split; [exact Hc|exact Hs].
Defined.

Lemma operations_keep_cache_witness : cache_ok plugin (Add plugin "hello" empty).1.
Proof.
  destruct (operations_keep_cache (E := memory) (C := fun V => list (string * V)) plugin) as [HAdd _].
  destruct (HAdd "hello" empty) as [_ Hk]. apply Hk. intros path data Hd. discriminate Hd.
Defined.

Lemma Publish_coherent_witness : lru_Peek (ipnsCache published) "/ipns/k-greeting" = Some "/ipfs/hello".
Proof.
  destruct (Publish_coherent plugin "hello" "greeting" added published "k-greeting") as (key & c & s1 & _ & Hc & Hp & _).
  - vm_compute. reflexivity.
  - injection Hc as <-. exact Hp.
Defined.

(** ** A registry that is lost *)

Definition config : Beacon.Config := Beacon.mkConfig "" "" "" "registry" "beacon" "msg" 60 "" 90.

Definition other : Beacon.BeaconMetadata := Beacon.mkMetadata "other" "k-other" "1.0" "json" 3 "m" 60.

Definition registry_text : string := Beacon.Registry_Marshal (Beacon.mkRegistry [other]).

(** The registry is published with another beacon in it, and the node refuses
    the next [n] key requests. *)
Definition with_registry (n : nat) : Beacon.state (ipfs_state * unit) :=
  let path := "/ipfs/" +:+ registry_text in
  Beacon.mkState (mkState (mkMemory [(path, registry_text)] [("registry", path)] n) [] [] [], tt) [].

(** The names of the beacons in the registry as it is published. *)
Definition registered (s : Beacon.state (ipfs_state * unit)) : result (list string) :=
  match Get plugin "registry" "ipns" (Beacon.env s).1 with
  | (_, Returned (Ok r)) => reg ← Beacon.Registry_Unmarshal (get_Data r); Ok (map Beacon.Name (Beacon.Beacons reg))
  | _ => Err (Errorf "" [])
  end.

Definition load (n : nat) := Beacon.loadRegistryWithClient (H := plugins_env plugin) config (with_registry n).

(** With the node up, the beacon is added to the registry. *)
Example registry_kept : registered (load 0).1 = Ok ["other"; "beacon"].
Proof. vm_compute. reflexivity. Qed.

(** A registry is lost when the node is unreachable for the one lookup of its
    key: the ipfs plugin reports the failed lookup as a key that does not exist,
    so the beacon plugin takes the registry for a new one, and publishes over it
    without the beacons that it held. *)
Theorem registry_lost_in_outage : registered (with_registry 0) = Ok ["other"] /\
  (exists reg, (load 2).2 = Returned (Ok reg)) /\ registered (load 2).1 = Ok ["beacon"].
Proof. split; [vm_compute; reflexivity|]. split; [eexists; vm_compute; reflexivity|vm_compute; reflexivity]. Qed.

End Runs.
