(* ===== verification/Jwks.v ===== *)
(** * The jwks plugin (pkg/plugin/jwks)

    The key set of the patissuer plugin, cached and served over HTTP. The RPC to
    the patissuer plugin and the clock are the parameter [JwksEnv]; the state is
    the cache and the replies so far. JwksServer has the HTTP server around the
    handler; logging is left out. *)

From S2P Require Import Prelude GoStrings Errors State Json Http SingleFlight.

(** ** config.go *)

Record jwksConfig := mkConfig { PatIssuerPlugin : string; HTTPPort : Z; CacheTTLSecs : Z; TimeoutSecs : Z }.

(** [env_string], [env_uint16] and [env_int] are the values viper finds. *)
Definition readFromEnv (env_string : string -> option string) (env_uint16 env_int : string -> option Z) : jwksConfig :=
  mkConfig (TrimSpace (default "" (env_string "JWKS_PATISSUER_PLUGIN")))
    (default 8080 (env_uint16 "JWKS_HTTP_PORT"))
    (default 60 (env_int "JWKS_CACHE_TTL_SECS"))
    (default 5 (env_int "JWKS_TIMEOUT_SECS")).

Definition validate (c : jwksConfig) : result unit :=
  _ ← reject (String.eqb (PatIssuerPlugin c) "") (Errorf "FATAL: ORBITPORT_JWKS_PATISSUER_PLUGIN is required" []);
  _ ← reject (HTTPPort c =? 0) (Errorf "FATAL: ORBITPORT_JWKS_HTTP_PORT must be non-zero" []);
  _ ← reject (CacheTTLSecs c <? 0) (Errorf "FATAL: ORBITPORT_JWKS_CACHE_TTL_SECS must not be negative" []);
  reject (TimeoutSecs c <=? 0) (Errorf "FATAL: ORBITPORT_JWKS_TIMEOUT_SECS must be positive" []).

(** ** plugin.go *)

Definition browserCacheMaxAge : Z := 300.

(** The text of the constant, which is printed JSON. *)
Definition unavailableBody : string := print (JObj [("error", JStr "patissuer_plugin_unavailable")]).

Record Plugin := mkPlugin { cfg : jwksConfig; cacheTTL : Z; timeout : Z }.

(** [NewClient] is the outcome of [grpc.NewClient]. *)
Definition NewPlugin (NewClient : string -> result unit) (cfg : jwksConfig) : result Plugin :=
  _ ← validate cfg;
  _ ← map_err (Wrapf "failed to connect to patissuer plugin: %w" []) (NewClient (PatIssuerPlugin cfg));
  Ok (mkPlugin cfg (i64 (CacheTTLSecs cfg * second)) (i64 (TimeoutSecs cfg * second))).

(** [GetJwks] is the RPC under the given timeout. *)
Class JwksEnv (E : Type) := {
  jwks_now : E -> E * Z;
  GetJwks : E -> Z -> E * result string;
}.

Record state (E : Type) := mkState { env : E; cached : string; fetchedAt : Z; asked : list (result string) }.
Arguments mkState {E} env cached fetchedAt asked.
Arguments env {E} s.
Arguments cached {E} s.
Arguments fetchedAt {E} s.
Arguments asked {E} s.

(** What the handler writes. *)
Record http_response := mkResponse {
  rs_Status : Z; rs_ContentType : string; rs_CacheControl : option string; rs_Body : string }.

(** What [refresh] makes of the RPC's answer. *)
Definition key_set (resp : result string) : result string :=
  body ← map_err (Wrapf "fetching JWKS from patissuer plugin: %w" []) resp;
  _ ← reject (String.eqb body "") (Errorf "patissuer plugin returned an empty JWKS" []);
  Ok body.

Section Jwks.
Context {E : Type} `{JwksEnv E}.

Abbreviation J := (Prog (state E)).

Definition Now : J Z := fun s =>
  let '(e, t) := jwks_now (env s) in (mkState e (cached s) (fetchedAt s) (asked s), Returned (Ok t)).

Definition call_GetJwks (p : Plugin) : J (result string) := fun s =>
  let '(e, r) := GetJwks (env s) (timeout p) in (mkState e (cached s) (fetchedAt s) (asked s ++ [r]), Returned (Ok r)).

Definition fresh (p : Plugin) : J (option string) :=
  c ← gets (fun s => (cached s, fetchedAt s));
  if String.eqb c.1 "" then mret None
  else now ← Now; mret (if now - c.2 <? cacheTTL p then Some c.1 else None).

Definition refresh (p : Plugin) : J string :=
  hit ← fresh p;
  match hit with
  | Some body => mret body
  | None =>
      resp ← call_GetJwks p;
      body ← lift (key_set resp);
      now ← Now;
      _ ← modify (fun s => mkState (env s) body now (asked s));
      mret body
  end.

(** [jwks] of one request; [refreshMu] is taken before the second check (the
    interleavings are in JwksSpec). *)
Definition jwks (p : Plugin) : J string :=
  hit ← fresh p;
  match hit with
  | Some body => mret body
  | None => refresh p
  end.

Definition handleJWKS (p : Plugin) : J http_response :=
  r ← attempt (jwks p);
  mret (match r with
        | Err _ => mkResponse 503 "application/json" None unavailableBody
        | Ok body => mkResponse 200 "application/json" (Some ("max-age=" +:+ pretty browserCacheMaxAge)) body
        end).

End Jwks.
