(* ===== verification/JwksSpec.v ===== *)
(** * What the jwks plugin promises

    Only key sets of the patissuer plugin are published, and a burst of requests
    asks for one. *)

From S2P Require Import Prelude GoStrings Errors State Json Http SingleFlight Jwks.

(** ** One request *)

Section Spec.
Context {E : Type} `{JwksEnv E}.

Implicit Types (s : state E).

Lemma run_jwks_now s : Now s = (mkState (jwks_now (env s)).1 (cached s) (fetchedAt s) (asked s), Returned (Ok (jwks_now (env s)).2)).
Proof. unfold Now. by destruct (jwks_now (env s)). Qed.

(** Some reading of the clock finds the cache within its lifetime. *)
Definition recent (p : Plugin) s : Prop := exists e, (jwks_now e).2 - fetchedAt s < cacheTTL p.

(** The cache as [fresh] reads it. *)
Lemma run_cached p s : exists e r, fresh p s = (mkState e (cached s) (fetchedAt s) (asked s), Returned (Ok r)) /\
  match r with
  | Some body => body = cached s /\ body <> "" /\ recent p s
  | None => cached s = "" \/ exists e, cacheTTL p <= (jwks_now e).2 - fetchedAt s
  end.
Proof.
  unfold fresh, gets, mbind, Prog_bind. cbn [fst snd]. destruct (String.eqb_spec (cached s) "") as [Hc|Hc].
  { exists (env s), None. split; [by destruct s|by left]. }
  rewrite run_jwks_now. eexists. destruct (Z.ltb_spec ((jwks_now (env s)).2 - fetchedAt s) (cacheTTL p)); eexists; (split; [done|]); [|by right; eauto].
  split; [done|]. split; [done|]. by exists (env s).
Qed.

(** What a request sees and leaves. *)
Lemma run_jwks p s : exists s' r l, jwks p s = (s', Returned r) /\ asked s' = asked s ++ l /\
  match r with
  | Ok body => body <> "" /\ cached s' = body /\
      ((l = [] /\ body = cached s /\ fetchedAt s' = fetchedAt s /\ recent p s) \/ l = [Ok body])
  | Err _ => cached s' = cached s /\ fetchedAt s' = fetchedAt s /\ exists x, l = [x] /\ is_ok (key_set x) = false
  end.
Proof.
  unfold jwks, refresh. destruct (run_cached p s) as (e & r1 & E1 & H1). rewrite (run_bind _ _ _ _ _ E1).
  destruct r1 as [body|].
  { exists (mkState e (cached s) (fetchedAt s) (asked s)), (Ok body), []. rewrite app_nil_r. destruct H1 as (-> & ? & ?).
    split; [done|]. cbn. eauto 10. }
  set (s1 := mkState e (cached s) (fetchedAt s) (asked s)).
  destruct (run_cached p s1) as (e2 & r2 & E2 & H2). rewrite (run_bind _ _ _ _ _ E2). destruct r2 as [body|].
  { exists (mkState e2 (cached s) (fetchedAt s) (asked s)), (Ok body), []. rewrite app_nil_r. destruct H2 as (-> & ? & ?).
    split; [done|]. cbn in *. eauto 10. }
  unfold call_GetJwks at 1. unfold mbind at 1, Prog_bind at 1. cbn [env cached fetchedAt asked s1].
  destruct (GetJwks e2 (timeout p)) as [e3 resp]. unfold mbind at 1, Prog_bind at 1, lift.
  destruct (key_set resp) as [body|err] eqn:Ek.
  - unfold mbind at 1, Prog_bind at 1. rewrite run_jwks_now. cbn. eexists _, (Ok body), [resp]. cbn. split; [done|]. split; [done|].
    unfold key_set in Ek. inv_ok. destruct resp; [|done]. cbn in *. simplify_eq.
    split; [by intros ->|]. eauto.
  - eexists _, _, [resp]. split; [reflexivity|]. cbn. repeat split. exists resp. by rewrite Ek.
Qed.

(** A request is answered by a key set of the patissuer plugin or by an
    error. It always gets an answer and asks the plugin at most once: a 200
    carries a non-empty key set, either the cached one within its lifetime, and
    then nothing was asked, or the one the plugin just sent, which is cached
    now; a 503 says that the plugin failed or sent the empty set, changes
    nothing that is cached and must not be cached by the client. *)
Theorem handleJWKS_answers p s : exists s' rep l, handleJWKS p s = (s', Returned (Ok rep)) /\ asked s' = asked s ++ l /\
  ((rs_Status rep = 200 /\ rs_Body rep <> "" /\ cached s' = rs_Body rep /\
    ((l = [] /\ rs_Body rep = cached s /\ recent p s) \/ l = [Ok (rs_Body rep)])) \/
   (rep = mkResponse 503 "application/json" None unavailableBody /\ cached s' = cached s /\ fetchedAt s' = fetchedAt s /\
    exists x, l = [x] /\ is_ok (key_set x) = false)).
Proof.
  destruct (run_jwks p s) as (s' & r & l & Er & Ha & Hr). unfold handleJWKS.
  rewrite (run_bind _ _ _ _ _ (run_attempt _ _ _ _ Er)). eexists s', _, l. split; [reflexivity|]. split; [done|].
  destruct r as [body|err]; [left|right].
  - cbn. destruct Hr as (? & ? & [(? & ? & ? & ?)|?]); eauto 10.
  - destruct Hr as (? & ? & ?). eauto.
Qed.

End Spec.

(** ** Concurrent requests *)

(** [jwks] and [refresh]: both checks and the fetch with [refreshMu] held. The
    cache is the body and the time it was fetched. *)
Definition jwks_flight (p : Plugin) : Flight (string * Z) string (result string) :=
  mkFlight fst (fun c now => negb (String.eqb c.1 "") && (now - c.2 <? cacheTTL p))
    (fun resp now => body ← key_set resp; Ok (body, now))
    true false ("", 0).

#[export] Instance jwks_laws p : FlightLaws (jwks_flight p).
Proof.
  split; [|done]. intros v t t'. cbn. rewrite !andb_true_iff, !negb_true_iff, !Z.ltb_lt. intros ? [? ?]. split; [done|lia].
Qed.

Lemma key_set_Ok resp body : key_set resp = Ok body -> resp = Ok body /\ body <> "".
Proof. unfold key_set. intros Hk. inv_ok. destruct resp; [|done]. cbn in *. simplify_eq. split; [done|]. by intros ->. Qed.

(** C38: a burst of requests cannot fan out to the issuer, and nothing else is
    ever published. From the start, along any interleaving of requests, every
    request that got a key set got a non-empty one that the patissuer plugin
    sent; and once a set is cached no other one is fetched before its lifetime
    has passed. *)
Theorem jwks_published p t l s : no_invalidate l -> acts (jwks_flight p) l (started ("", 0) t) = Some s ->
  (forall i body, goroutines s !! i = Some (Finished (Ok body)) -> body <> "" /\ exists j, Reply j (Ok body) ∈ l) /\
  (forall k1 k2 v1 v2, fetched s !! k1 = Some v1 -> fetched s !! k2 = Some v2 -> (k1 < k2)%nat -> v1.2 + cacheTTL p <= v2.2).
Proof.
  intros Hn Ha. pose proof (locked_started (A := string) ("", 0) t) as Hl.
  assert (forall v, v ∈ fetched s -> v.1 <> "" /\ exists j, Reply j (Ok v.1) ∈ l) as Hsent.
  { intros v Hv. destruct (fetched_replies (jwks_flight p) l _ s v Hl Ha Hv) as [Hin|(j & rep & t' & Hin & Hr)]; [by apply elem_of_nil in Hin|].
    cbn in Hr. inv_ok. match goal with Hk : key_set _ = Ok _ |- _ => apply key_set_Ok in Hk as [-> ?] end. eauto. }
  split.
  - intros i body Hi. destruct (answers_cached (jwks_flight p) ("", 0) t l s i body (or_introl eq_refl) Ha Hi) as (v & [Hv|(-> & now & Hf)] & ->).
    + by apply Hsent.
    + by rewrite (dropped_stale (F := jwks_flight p)) in Hf.
  - intros k1 k2 v1 v2 H1 H2 Hk. destruct (fetches_spaced (jwks_flight p) l _ s Hl) as [Hsp _]; [done..|].
    destruct (Hsp k1 k2 v1 v2) as (rep & t2 & _ & Hr & Hf); [cbn; lia|done..|]. cbn in Hr, Hf. inv_ok. cbn.
    destruct (Hsent v1) as [Hne _]; [by eapply list_elem_of_lookup_2|]. apply String.eqb_neq in Hne. rewrite Hne in Hf. cbn in Hf.
    apply Z.ltb_ge in Hf. lia.
Qed.

Module Runs.

(** A patissuer plugin that always sends the same set, and a clock at 1000 s. *)
Definition config : jwksConfig := mkConfig "patissuer:50010" 8080 60 5.
Definition plugin : Plugin := mkPlugin config (60 * second) (5 * second).

Example jwks_plugin_made : NewPlugin (fun _ => Ok tt) config = Ok plugin.
Proof. reflexivity. Qed.

Definition key_set_doc : string := print (JObj [("keys", JArr [])]).

(** Three requests at once, of which the last to take the lock finds the set;
    a fourth, a minute later, fetches again. *)
Definition burst : list (action (result string)) :=
  [Call; Call; Call; Step 0; Step 1; Step 2; Step 1; Step 1; Reply 1 (Ok key_set_doc); Step 1; Step 0; Step 0; Step 2; Step 2;
   Tick (60 * second); Call; Step 3; Step 3; Step 3; Reply 3 (Ok key_set_doc); Step 3]%nat.

Definition boot : system (string * Z) string := started ("", 0) (1000 * second).
Definition after_burst : system (string * Z) string := Eval vm_compute in default boot (acts (jwks_flight plugin) burst boot).

Example burst_run : goroutines after_burst = replicate 4 (Finished (Ok key_set_doc)).
Proof. vm_compute. reflexivity. Qed.

Lemma jwks_published_witness : 1000 * second + cacheTTL plugin <= 1060 * second.
Proof.
  refine (proj2 (jwks_published plugin (1000 * second) burst after_burst _ _) 0%nat 1%nat
            (key_set_doc, 1000 * second) (key_set_doc, 1060 * second) _ _ _).
  - repeat constructor; discriminate.
  - vm_compute. reflexivity.
  - reflexivity.
  - reflexivity.
  - repeat constructor.
Defined.

End Runs.
