(* ===== verification/JwksServer.v ===== *)
(** * The HTTP server of the jwks plugin ([ListenHTTP] in pkg/plugin/jwks)

    The server has one route. [ServeMux] is net/http's, for routes of fixed
    segments, and what a request is answered is followed to the handler of Jwks. *)

From S2P Require Import Prelude GoStrings Errors State Codec Http Jwks JwksSpec.

(** ** net/http *)

(** [cleanPath]. *)
Definition cleanPath (p : string) : string :=
  if String.eqb p "" then "/"
  else
    let p := if HasPrefix p "/" then p else "/" +:+ p in
    let np := Clean p in
    if HasSuffix p "/" && negb (String.eqb np "/") then np +:+ "/" else np.

(** The segments of a path as the routing tree takes them; the slash that ends a
    path is a segment of its own. *)
Definition pathUnescape (s : string) : string := default s (unescape s).

Fixpoint segment_names (l : list string) : list string :=
  match l with
  | [] => []
  | [s] => [if String.eqb s "" then "/" else pathUnescape s]
  | s :: l => pathUnescape s :: segment_names l
  end.

Definition segments (path : string) : list string :=
  match path with "" => [] | String _ rest => segment_names (Split slash rest) end.

Section ServeMux.
Context {H : Type}.

(** A route of fixed segments, of which the last is not a slash, for one method. *)
Record route := mkRoute { rt_Method : string; rt_Segments : list string; rt_Handler : H }.

Definition matches (path : string) (r : route) : bool := bool_decide (rt_Segments r = segments path).

Definition with_method (method : string) (l : list route) : option H :=
  rt_Handler <$> List.find (fun r => String.eqb (rt_Method r) method) l.

Definition match_route (mux : list route) (method path : string) : option H :=
  let l := List.filter (matches path) mux in
  match with_method method l with
  | Some h => Some h
  | None => if String.eqb method "HEAD" then with_method "GET" l else None
  end.

Definition matchingMethods (mux : list route) (path : string) : list string :=
  let ms := map rt_Method (List.filter (matches path) mux) in
  isort String.leb (remove_dups (if existsb (String.eqb "GET") ms then ms ++ ["HEAD"] else ms)).

Inductive found :=
| Found (h : H)
| Redirect (path : string)
| MethodNotAllowed (allow : string)
| NoRoute.

Definition no_route (mux : list route) (path : string) : found :=
  match matchingMethods mux path with [] => NoRoute | ms => MethodNotAllowed (Join ", " ms) end.

(** [escapedPath] is the path of the request as it was sent. The clean path is
    escaped once more when the URL of a redirection is printed; its query is left
    out. *)
Definition findHandler (mux : list route) (method escapedPath : string) : found :=
  if String.eqb method "CONNECT" then
    match match_route mux method escapedPath with Some h => Found h | None => no_route mux escapedPath end
  else
    let path := cleanPath escapedPath in
    if negb (String.eqb path escapedPath) then Redirect (escape_path path)
    else match match_route mux method path with Some h => Found h | None => no_route mux path end.

End ServeMux.
Arguments route H : clear implicits.
Arguments found H : clear implicits.

(** [http.Server], with the fields that are set. *)
Record http_server (H : Type) := mkServer {
  Addr : string; Handler : list (route H);
  ReadHeaderTimeout : Z; ReadTimeout : Z; WriteTimeout : Z; IdleTimeout : Z; MaxHeaderBytes : Z;
}.
Arguments mkServer {H} Addr Handler ReadHeaderTimeout ReadTimeout WriteTimeout IdleTimeout MaxHeaderBytes.
Arguments Addr {H} h.
Arguments Handler {H} h.

Record http_in := mkIn { in_Method : string; in_URI : string; in_Path : string }.

(** What the client of a request gets. Of the mux's own answers the texts and the
    status of a redirection are left out. *)
Inductive http_out :=
| Answered (r : http_response)
| Redirected (path : string)
| MuxAnswered (status : Z) (allow : option string).

(** ** plugin.go *)

Section Server.
Context {E : Type} `{JwksEnv E}.

Abbreviation J := (Prog (state E)).

Definition jwks_route (p : Plugin) : route (J http_response) :=
  mkRoute "GET" [".well-known"; "jwks.json"] (handleJWKS p).

Definition server (p : Plugin) : http_server (J http_response) :=
  mkServer (":" +:+ pretty (HTTPPort (cfg p))) [jwks_route p] (5 * second) (10 * second) (10 * second) (60 * second) (Z.shiftl 8 10).

(** [ListenAndServe] gives the error with which the standard server stops. *)
Definition ListenHTTP (ListenAndServe : http_server (J http_response) -> error) (p : Plugin) : result unit :=
  Err (ListenAndServe (server p)).

(** One request to the server: [OPTIONS *] is the server's own, any other request
    for [*] is bad, and the answer to HEAD has no body. *)
Definition serve (srv : http_server (J http_response)) (r : http_in) : J http_out :=
  if String.eqb (in_URI r) "*" then
    mret (MuxAnswered (if String.eqb (in_Method r) "OPTIONS" then 200 else 400) None)
  else
    match findHandler (Handler srv) (in_Method r) (in_Path r) with
    | Found h =>
        rep ← h;
        mret (Answered (if String.eqb (in_Method r) "HEAD"
                        then mkResponse (rs_Status rep) (rs_ContentType rep) (rs_CacheControl rep) "" else rep))
    | Redirect path => mret (Redirected path)
    | MethodNotAllowed allow => mret (MuxAnswered 405 (Some allow))
    | NoRoute => mret (MuxAnswered 404 None)
    end.

End Server.

(** ** Clean paths *)

Lemma clean_step_rooted stack s : free_of slash s = true -> Forall (fun x => safe_segment x = true) stack ->
  Forall (fun x => safe_segment x = true) (clean_step true stack s).
Proof.
  intros Hs Hl. unfold clean_step. destruct (String.eqb s "" || String.eqb s ".") eqn:E; [done|]. apply orb_false_iff in E as [E1 E2].
  destruct (String.eqb s "..") eqn:E3.
  - destruct Hl as [|x l Hx Hl]; [constructor|]. unfold safe_segment in Hx. rewrite !andb_true_iff, !negb_true_iff in Hx.
    by destruct Hx as [[_ ->] _].
  - constructor; [|done]. unfold safe_segment. by rewrite E1, E2, E3, Hs.
Qed.

Lemma clean_fold_rooted l stack : Forall (fun x => free_of slash x = true) l -> Forall (fun x => safe_segment x = true) stack ->
  Forall (fun x => safe_segment x = true) (fold_left (clean_step true) l stack).
Proof. intros Hl. revert stack. induction Hl as [|x l Hx _ IH]; intros stack Hs; cbn; [done|]. apply IH. by apply clean_step_rooted. Qed.

Lemma Clean_slash p : HasPrefix p "/" = true -> exists l, Forall (fun x => safe_segment x = true) l /\ Clean p = "/" +:+ Join "/" l.
Proof.
  intros Hp. unfold Clean. rewrite Hp. eexists. split; [|reflexivity]. apply Forall_rev, clean_fold_rooted; [apply Split_all_free|constructor].
Qed.

(** A clean path and a slash. *)
Lemma Clean_slash_end l : l <> [] -> Forall (fun s => safe_segment s = true) l ->
  Clean (("/" +:+ Join "/" l) +:+ "/") = "/" +:+ Join "/" l.
Proof.
  intros Hne Hl. replace (("/" +:+ Join "/" l) +:+ "/") with (String slash (Join "/" (l ++ [""]))).
  2: { rewrite Join_append by done. cbn [Join]. by rewrite append_nil_r. }
  unfold Clean. assert (HasPrefix (String slash (Join "/" (l ++ [""]))) "/" = true) as ->
    by (cbn; by destruct (Join "/" (l ++ [""]))).
  change (Split slash (String slash (Join "/" (l ++ [""])))) with ("" :: Split slash (Join "/" (l ++ [""]))).
  rewrite Split_Join; [|by destruct l|apply Forall_app_2; [by apply safe_segments_free|by repeat constructor]].
  cbn [fold_left]. change (clean_step true [] "") with (@nil string). rewrite fold_left_app, (clean_fold_safe true l), app_nil_r by done.
  cbn [fold_left]. change (clean_step true (rev l) "") with (rev l). by rewrite rev_involutive.
Qed.

Lemma HasSuffix_slash_end s : HasSuffix (s +:+ "/") "/" = true.
Proof. induction s as [|c s IH]; [done|]. rewrite append_cons. cbn [HasSuffix]. rewrite IH. by rewrite orb_true_r. Qed.

Lemma HasSuffix_rooted l : l <> [] -> Forall (fun s => safe_segment s = true) l -> HasSuffix ("/" +:+ Join "/" l) "/" = false.
Proof.
  intros Hne Hl. change ("/" +:+ Join "/" l) with (String slash (Join "/" l)). cbn [HasSuffix]. rewrite HasSuffix_slash_safe by done.
  rewrite orb_false_r. apply String.eqb_neq. intros [= Hj].
  destruct l as [|x l]; [done|]. apply Forall_cons in Hl as [Hx _]. by destruct x, l.
Qed.

(** Clean paths: the root, and segments that may be followed by a slash. *)
Definition clean_form (p : string) : Prop := exists l, Forall (fun s => safe_segment s = true) l /\
  (p = "/" +:+ Join "/" l \/ (l <> [] /\ p = ("/" +:+ Join "/" l) +:+ "/")).

Lemma cleanPath_form p : clean_form (cleanPath p).
Proof.
  unfold cleanPath. destruct (String.eqb_spec p "") as [->|Hne]; [exists []; split; [constructor|by left]|].
  set (q := if HasPrefix p "/" then p else "/" +:+ p). cbv zeta. destruct (Clean_slash q) as (l & Hl & ->).
  { subst q. destruct (HasPrefix p "/") eqn:E; [done|]. cbn. by destruct p. }
  exists l. split; [done|]. destruct (HasSuffix q "/" && _) eqn:E; [right|by left]. split; [|done]. intros ->.
  apply andb_true_iff in E as [_ E]. done.
Qed.

Lemma clean_form_fixed p : clean_form p -> cleanPath p = p.
Proof.
  intros (l & Hl & Hp). destruct (decide (l = [])) as [->|Hne]; [by destruct Hp as [->|[? _]]|].
  assert (String.eqb ("/" +:+ Join "/" l) "/" = false) as Hn.
  { apply String.eqb_neq. intros Hj. pose proof (HasSuffix_rooted l Hne Hl) as Hx. by rewrite Hj in Hx. }
  assert (forall t, HasPrefix (("/" +:+ Join "/" l) +:+ t) "/" = true) as Hpre
    by (intros t; rewrite append_assoc; apply HasPrefix_true; by eexists).
  destruct Hp as [->|[_ ->]]; unfold cleanPath.
  - pose proof (Hpre "") as Hp0. rewrite append_nil_r in Hp0. change (String.eqb ("/" +:+ Join "/" l) "") with false. cbv iota zeta.
    by rewrite Hp0, Clean_rooted, HasSuffix_rooted.
  - change (String.eqb (("/" +:+ Join "/" l) +:+ "/") "") with false. cbv iota. rewrite Hpre, Clean_slash_end, HasSuffix_slash_end, Hn by done. done.
Qed.

(** Escaping keeps a path clean. *)
Lemma escape_append a b : escape_path (a +:+ b) = escape_path a +:+ escape_path b.
Proof.
  induction a as [|c a IH]; [done|]. rewrite append_cons. cbn [escape_path]. rewrite IH. by destruct (path_char c); rewrite !append_cons.
Qed.

Lemma escape_Join l : escape_path (Join "/" l) = Join "/" (map escape_path l).
Proof.
  induction l as [|x [|y l] IH]; [done|done|]. cbn [map]. rewrite !Join_cons, !escape_append, IH. done.
Qed.

Lemma path_char_escape c : path_char c = true -> Ascii.eqb c "%" = false.
Proof. intros Hc. destruct (Ascii.eqb_spec c "%") as [->|]; [|done]. by vm_compute in Hc. Qed.

Lemma escape_id s : free_of "%" (escape_path s) = true -> escape_path s = s.
Proof.
  unfold free_of. induction s as [|c s IH]; [done|]. cbn [escape_path]. destruct (path_char c); [|done].
  cbn [all_chars]. rewrite andb_true_iff. intros [_ Hs]. by rewrite IH.
Qed.

Lemma hex_upper_slash v : 0 <= v < 16 -> Ascii.eqb (hex_upper v) slash = false.
Proof.
  intros Hv. assert (forallb (fun v => negb (Ascii.eqb (hex_upper v) slash)) (map Z.of_nat (seq 0 16)) = true) as Ha by (vm_compute; reflexivity).
  rewrite forallb_forall in Ha. apply negb_true_iff, Ha, in_map_iff. exists (Z.to_nat v). split; [lia|]. apply in_seq. lia.
Qed.

Lemma escape_free s : free_of slash s = true -> free_of slash (escape_path s) = true.
Proof.
  unfold free_of. induction s as [|c s IH]; [done|]. cbn [all_chars escape_path]. rewrite andb_true_iff. intros [Hc Hs].
  destruct (path_char c); cbn [all_chars]; [by rewrite Hc, IH|]. pose proof (byte_of_range c) as Hb. unfold is_byte in Hb.
  rewrite !hex_upper_slash, IH by (try done; apply Z.mod_pos_bound || (split; [apply Z.div_pos|apply Z.div_lt_upper_bound]); lia). done.
Qed.

Lemma escape_safe s : safe_segment s = true -> safe_segment (escape_path s) = true.
Proof.
  unfold safe_segment. rewrite !andb_true_iff, !negb_true_iff, !String.eqb_neq. intros [[[H0 H1] H2] Hf].
  assert (forall t, free_of "%" t = true -> escape_path s = t -> s = t) as Hid by (intros t Ht He; rewrite <- (escape_id s); [done|by rewrite He]).
  split_and!; [| | |by apply escape_free].
  - intros He. by apply H0, (Hid "").
  - intros He. by apply H1, (Hid ".").
  - intros He. by apply H2, (Hid "..").
Qed.

Lemma clean_form_escape p : clean_form p -> clean_form (escape_path p).
Proof.
  intros (l & Hl & Hp). exists (map escape_path l). split; [apply Forall_map; eapply Forall_impl; [exact Hl|apply escape_safe]|].
  destruct Hp as [->|[Hne ->]]; [left|right]; rewrite !escape_append, escape_Join; [done|]. split; [by destruct l|done].
Qed.

(** A redirection is to a path that is not redirected again. *)
Lemma redirect_clean p : cleanPath (escape_path (cleanPath p)) = escape_path (cleanPath p).
Proof. apply clean_form_fixed, clean_form_escape, cleanPath_form. Qed.

(** ** One route *)

(** The requests for the key set. *)
Definition is_route (path : string) : bool := bool_decide (segments path = [".well-known"; "jwks.json"]).

Definition routed (r : http_in) : bool :=
  negb (String.eqb (in_URI r) "*") && (String.eqb (in_Method r) "GET" || String.eqb (in_Method r) "HEAD") &&
  String.eqb (cleanPath (in_Path r)) (in_Path r) && is_route (in_Path r).

(** What is answered to any other request. *)
Definition refusal (r : http_in) : http_out :=
  if String.eqb (in_URI r) "*" then MuxAnswered (if String.eqb (in_Method r) "OPTIONS" then 200 else 400) None
  else if negb (String.eqb (in_Method r) "CONNECT") && negb (String.eqb (cleanPath (in_Path r)) (in_Path r))
  then Redirected (escape_path (cleanPath (in_Path r)))
  else if is_route (in_Path r) then MuxAnswered 405 (Some "GET, HEAD") else MuxAnswered 404 None.

(** The answer to HEAD is the one to GET without its body. *)
Definition for_method (method : string) (rep : http_response) : http_response :=
  if String.eqb method "HEAD" then mkResponse (rs_Status rep) (rs_ContentType rep) (rs_CacheControl rep) "" else rep.

Section Spec.
Context {E : Type} `{JwksEnv E}.

Lemma match_jwks_route p (method path : string) : match_route (Handler (server p)) method path =
  if is_route path && (String.eqb method "GET" || String.eqb method "HEAD") then Some (handleJWKS p) else None.
Proof.
  unfold match_route, server, is_route. cbn [Handler List.filter matches rt_Segments jwks_route]. unfold matches. cbn [rt_Segments jwks_route].
  rewrite (bool_decide_ext ([".well-known"; "jwks.json"] = segments path) (segments path = [".well-known"; "jwks.json"])) by naive_solver.
  destruct (bool_decide _); cbn [andb]; [|by destruct (String.eqb method "HEAD")].
  unfold with_method. cbn [List.find rt_Method jwks_route]. rewrite (String.eqb_sym "GET").
  by destruct (String.eqb method "GET"), (String.eqb method "HEAD").
Qed.

Lemma no_jwks_route p path : no_route (Handler (server p)) path =
  if is_route path then MethodNotAllowed "GET, HEAD" else NoRoute.
Proof.
  unfold no_route, matchingMethods, server, is_route. cbn [Handler List.filter]. unfold matches. cbn [rt_Segments jwks_route].
  rewrite (bool_decide_ext ([".well-known"; "jwks.json"] = segments path) (segments path = [".well-known"; "jwks.json"])) by naive_solver.
  by destruct (bool_decide _).
Qed.

(** The one route, by the request. *)
Lemma serve_routed p r s : serve (server p) r s =
  if routed r then (rep ← handleJWKS p; mret (Answered (for_method (in_Method r) rep))) s else (s, Returned (Ok (refusal r))).
Proof.
  unfold serve, routed, refusal, for_method, findHandler. destruct (String.eqb (in_URI r) "*"); [done|]. cbn [negb andb].
  rewrite !match_jwks_route, !no_jwks_route. destruct (String.eqb_spec (in_Method r) "CONNECT") as [->|Hc]; cbn [negb andb].
  - cbn [String.eqb Ascii.eqb Bool.eqb orb andb]. rewrite andb_false_r. by destruct (is_route _).
  - destruct (String.eqb_spec (cleanPath (in_Path r)) (in_Path r)) as [->|]; cbn [negb andb]; [|by rewrite andb_false_r].
    rewrite andb_true_r. by destruct (is_route _), (String.eqb (in_Method r) "GET"), (String.eqb (in_Method r) "HEAD").
Qed.

(** C15: the port that faces the internet has one route. Every request is
    answered. Only GET and HEAD requests whose path is, once unescaped, the one of
    the key set reach the handler, which may ask the patissuer plugin once; any
    other request changes nothing, asks nothing, and gets a redirection to the
    clean path, which is escaped, 405 with the allowed methods, or 404 (400 and
    200 for [*]). Who follows a redirection is not redirected again. *)
Theorem serve_single_route p r (s : state E) : exists s' out l, serve (server p) r s = (s', Returned (Ok out)) /\
  asked s' = asked s ++ l /\ (length l <= 1)%nat /\
  (if routed r
   then exists rep, handleJWKS p s = (s', Returned (Ok rep)) /\ out = Answered (for_method (in_Method r) rep)
   else s' = s /\ out = refusal r) /\
  (forall path uri s1 s2 out2 path2, out = Redirected path ->
     serve (server p) (mkIn (in_Method r) uri path) s1 = (s2, Returned (Ok out2)) -> out2 <> Redirected path2).
Proof.
  assert (forall path uri s1 s2 out2 path2, refusal r = Redirected path ->
     serve (server p) (mkIn (in_Method r) uri path) s1 = (s2, Returned (Ok out2)) -> out2 <> Redirected path2) as Hre.
  { intros path uri s1 s2 out2 path2 Hp. assert (path = escape_path (cleanPath (in_Path r))) as ->.
    { unfold refusal in Hp. repeat case_match; congruence. }
    rewrite serve_routed. unfold routed, refusal. cbn [in_URI in_Method in_Path]. rewrite redirect_clean, String.eqb_refl. cbn [negb].
    rewrite andb_false_r. destruct (handleJWKS_answers p s1) as (s3 & rep & l & Er & _).
    intros Hs. case_match; [rewrite (run_bind _ _ _ _ _ Er) in Hs|]; repeat case_match; unfold mret, Prog_ret in *; congruence. }
  rewrite serve_routed. destruct (routed r).
  - destruct (handleJWKS_answers p s) as (s' & rep & l & Er & Ha & Hl). rewrite (run_bind _ _ _ _ _ Er).
    exists s', (Answered (for_method (in_Method r) rep)), l. split; [done|]. split; [done|]. split.
    { destruct Hl as [(_ & _ & _ & [[-> _]| ->])|(_ & _ & _ & x & -> & _)]; cbn; lia. }
    split; [by exists rep|]. done.
  - exists s, (refusal r), []. rewrite app_nil_r. split; [done|]. split; [done|]. split; [cbn; lia|]. done.
Qed.

End Spec.

(** ** Some requests *)

Example served_paths : map (fun r => (routed r, refusal r))
    [mkIn "GET" "/.well-known/jwks.json?x=1" "/.well-known/jwks.json"; mkIn "HEAD" "/%2ewell-known/jwks.json" "/%2ewell-known/jwks.json";
     mkIn "POST" "/.well-known/jwks.json" "/.well-known/jwks.json"; mkIn "GET" "/a/..//.well-known/jwks.json" "/a/..//.well-known/jwks.json";
     mkIn "GET" "/%2ewell-known/./jwks.json" "/%2ewell-known/./jwks.json";
     mkIn "GET" "/.well-known/jwks.json/" "/.well-known/jwks.json/"; mkIn "OPTIONS" "*" "*"] =
  [(true, MuxAnswered 405 (Some "GET, HEAD")); (true, MuxAnswered 405 (Some "GET, HEAD")); (false, MuxAnswered 405 (Some "GET, HEAD"));
   (false, Redirected "/.well-known/jwks.json"); (false, Redirected "/%252ewell-known/jwks.json"); (false, MuxAnswered 404 None); (false, MuxAnswered 200 None)].
Proof. vm_compute. reflexivity. Qed.
