(* ===== verification/GoFloat.v ===== *)
(** * float64

    The values are the binary64 numbers of the Standard Library's [SpecFloat];
    [ParseFloat] is [strconv.ParseFloat] on the numbers of JSON and of Go
    literals, the nearest float to the decimal. *)

From S2P Require Import Prelude GoStrings Errors Json.
From Stdlib Require Import Floats.SpecFloat.

Definition float64 : Type := spec_float.

(** [m * 10 ^ e], with the sign apart; the quotient is rounded once. *)
Definition of_decimal (neg : bool) (m e : Z) : float64 :=
  match m * (if 0 <=? e then 10 ^ e else 1) with
  | Zpos n =>
      if 0 <=? e then binary_normalize 53 1024 (if neg then Zneg n else Zpos n) 0 neg
      else match 10 ^ (- e) with
           | Zpos d => SFdiv 53 1024 (S754_finite neg n 0) (S754_finite false d 0)
           | _ => S754_nan
           end
  | _ => S754_zero neg
  end.

(** The part before the first character that [stop] accepts, and the part after
    it, if there is one. *)
Fixpoint cut_at (stop : ascii -> bool) (s : string) : string * option string :=
  match s with
  | "" => ("", None)
  | String c s => if stop c then ("", Some s) else let '(a, b) := cut_at stop s in (String c a, b)
  end.

(** [None] where the value overflows (ErrRange), or the text is not a number. *)
Definition ParseFloat (lit : string) : option float64 :=
  let neg := HasPrefix lit "-" in
  let '(mant, exp) := cut_at (fun c => Ascii.eqb c "e" || Ascii.eqb c "E") (TrimPrefix lit "-") in
  let '(int, frac) := cut_at (fun c => Ascii.eqb c ".") mant in
  m ← parse_nat (int +:+ default "" frac);
  e ← match exp with Some x => parse_int x | None => Some 0 end;
  match of_decimal neg m (e - Z.of_nat (String.length (default "" frac))) with
  | S754_infinity _ | S754_nan => None
  | f => Some f
  end.

Definition is_zero (f : float64) : bool := match f with S754_zero _ => true | _ => false end.

(** [int64(f)]: the fraction is dropped; [out_of_range] is what the machine gives
    for a value that does not fit. *)
Definition to_int64 (out_of_range : Z) (f : float64) : Z :=
  match f with
  | S754_zero _ => 0
  | S754_finite neg m e =>
      let n := if 0 <=? e then Zpos m * 2 ^ e else Zpos m / 2 ^ (- e) in
      let z := if neg then - n else n in
      if (- 2 ^ 63 <=? z) && (z <? 2 ^ 63) then z else out_of_range
  | _ => out_of_range
  end.

(** Decoding into [any]: every number of the value must be a float. *)
Fixpoint any_ok (v : json) : bool :=
  match v with
  | JNum lit => match ParseFloat lit with Some _ => true | None => false end
  | JArr l => forallb any_ok l
  | JObj l => forallb (fun kv => any_ok kv.2) l
  | _ => true
  end.

(** [var result map[string]any]: the last of two members of one name counts. *)
Definition dec_map : decoder (list (string * json)) := fun v r =>
  match v with
  | JObj l => if any_ok v then Ok (fold_left (fun m kv => assoc_insert kv.1 kv.2 m) l r) else Err UnmarshalTypeError
  | JNull => Ok []
  | _ => Err UnmarshalTypeError
  end.

Example ParseFloat_half : ParseFloat "0.5" = Some (S754_finite false (2 ^ 52) (-53)).
Proof. vm_compute. reflexivity. Qed.

(** The float nearest to 0.1 has the mantissa 0x1999999999999a. *)
Example ParseFloat_tenth : ParseFloat "0.1" = Some (S754_finite false 0x1999999999999a (-56)).
Proof. vm_compute. reflexivity. Qed.

Example to_int64_day : to_int64 0 <$> ParseFloat "86400" = Some 86400 /\ to_int64 0 <$> ParseFloat "-2.75e1" = Some (-27) /\
  ParseFloat "1e309" = None /\ to_int64 (-1) <$> ParseFloat "1e19" = Some (-1).
Proof. vm_compute. done. Qed.
