(* ===== verification/OAuth.v ===== *)
(** * The OAuth client (pkg/oauth/oauth_client.go)

    An access token by the client-credentials grant, cached until a minute before
    it expires. The endpoint and the clock are the parameter [Net]; the state is
    the last token and the requests sent so far. Metrics and logging are left
    out. *)

From S2P Require Import Prelude GoStrings Errors State Json Http GoFloat SingleFlight.

Record AccessToken := mkAccessToken { Value : string; Expiration : Z }.

Record OAuthClient := mkOAuthClient { clientID : string; clientSecret : string; authURL : string; timeout : Z }.

Definition NewOAuthClient (clientID clientSecret authURL : string) (timeout : Z) : OAuthClient :=
  mkOAuthClient clientID clientSecret authURL timeout.

Definition data_form (c : OAuthClient) : list (string * string) :=
  [("grant_type", "client_credentials"); ("client_id", clientID c);
   ("client_secret", clientSecret c); ("scope", "services/read")].

Definition token_request (c : OAuthClient) : http_request :=
  mkHttp "POST" (authURL c) None (Some "application/x-www-form-urlencoded") (Some (form_Encode (data_form c))).

(** The token and its lifetime in a reply; [out_of_range] is [int64] of a float
    that does not fit. *)
Definition token_of_reply (out_of_range : Z) (rep : http_reply) : result (string * Z) :=
  match rep with
  | HttpFailed msg => Err (Printf "bad endpoint: %v" [] (Errorf "Post: %s" [msg]))
  | HttpResponse code body _ =>
      _ ← reject (negb (code =? 200)) (Errorf "failed with code %d" [pretty code]);
      result ← map_err (Printf "bad response: %v" []) (Decode dec_map body []);
      match assoc_lookup "access_token" result with
      | Some (JStr accessToken) =>
          match assoc_lookup "expires_in" result with
          | Some (JNum lit) => Ok (accessToken, to_int64 out_of_range (default (SpecFloat.S754_zero false) (ParseFloat lit)))
          | _ => Err (Errorf "token expiration not found" [])
          end
      | _ => Err (Errorf "access token not found" [])
      end
  end.

(** The token made at [now], a time in nanoseconds. *)
Definition token_at (r : string * Z) (now : Z) : AccessToken := mkAccessToken r.1 (i64 (i64 (now / second + r.2) - 60)).

Definition usable (t : option AccessToken) (now : Z) : bool :=
  match t with Some t => now / second <? Expiration t | None => false end.

Record oauth_state (E : Type) := mkState { net : E; lastToken : option AccessToken; calls : list http_request }.
Arguments mkState {E} net lastToken calls.
Arguments net {E} o.
Arguments lastToken {E} o.
Arguments calls {E} o.

Section OAuth.
Context {E : Type} `{Net E}.
Variable out_of_range : Z.

Abbreviation O := (Prog (oauth_state E)).

Definition Do (req : http_request) : O http_reply := fun s =>
  let '(e, rep) := http_do (net s) req in (mkState e (lastToken s) (calls s ++ [req]), Returned (Ok rep)).

Definition Now : O Z := fun s =>
  let '(e, t) := time_now (net s) in (mkState e (lastToken s) (calls s), Returned (Ok t)).

Definition new_request (fmt : string) (req : http_request) : O http_request :=
  match url_error (hr_URL req) with
  | Some msg => throw (Printf fmt [] (Errorf "parse: %s" [msg]))
  | None => mret req
  end.

(** One caller; [authLock] is held throughout (the interleavings are in
    OrbitalSpec). *)
Definition GetAccessToken (c : OAuthClient) : O AccessToken :=
  last ← gets lastToken;
  valid ← (match last with None => mret false | Some t => now ← Now; mret (usable (Some t) now) end);
  match (if (valid : bool) then last else None) with
  | Some t => mret t
  | None =>
      req ← new_request "bad request: %v" (token_request c);
      rep ← Do req;
      r ← lift (token_of_reply out_of_range rep);
      now ← Now;
      let token := token_at r now in
      _ ← modify (fun s => mkState (net s) (Some token) (calls s));
      mret token
  end.

End OAuth.
