(* ===== verification/Orbital.v ===== *)
(** * The aptosorbital plugin (pkg/plugin/aptosorbital)

    True randomness from the satellite API, behind a rate limiter and an OAuth
    token. The API, the token endpoint and the clock are the parameter [Net]; the
    limiter of golang.org/x/time/rate is the parameter [Limiter]. Metrics and
    logging are left out. *)

From S2P Require Import Prelude GoStrings Errors State Json Http GoFloat OAuth.
From Stdlib Require Import Floats.SpecFloat.

(** ** golang.org/x/time/rate: [NewLimiter(limit, burst)], and [Allow] at a time *)

Class Limiter (L : Type) := {
  NewLimiter : float64 -> Z -> L;
  Allow : L -> Z -> L * bool;
}.

(** ** config.go *)

Record aptosOrbitalConfig := mkConfig {
  AptosOrbitalApiUrl : string;
  AptosOrbitalAuthUrl : string;
  AptosOrbitalClientId : string;
  AptosOrbitalClientSecret : string;
  AptosOrbitalRateLimit : float64;
  AptosOrbitalTimeout : Z;
}.

Definition trimValue (value : string) : string := TrimSpace value.

(** A float literal of the source. *)
Definition float_lit (s : string) : float64 := default (S754_zero false) (ParseFloat s).

(** [env_string], [env_float] and [env_int] are the values viper finds. *)
Definition readFromEnv (env_string : string -> option string) (env_float : string -> option float64) (env_int : string -> option Z) : aptosOrbitalConfig :=
  mkConfig (trimValue (default "https://api.aptosorbital.com" (env_string "APTOS_ORBITAL_API_URL")))
    (trimValue (default "https://auth.aptosorbital.com/oauth2/token" (env_string "APTOS_ORBITAL_AUTH_URL")))
    (trimValue (default "" (env_string "APTOS_ORBITAL_CLIENT_ID")))
    (trimValue (default "" (env_string "APTOS_ORBITAL_CLIENT_SECRET")))
    (default (float_lit "0.5") (env_float "APTOS_ORBITAL_RATE_LIMIT"))
    (default 20 (env_int "APTOS_ORBITAL_TIMEOUT")).

(** ** client_opts.go *)

Definition API_URL := "https://api.aptosorbital.com".
Definition AUTH_URL := "https://auth.aptosorbital.com/oauth2/token".

Record ClientOptions := mkOptions {
  apiURL : string;
  opt_authURL : string;
  opt_clientID : string;
  opt_clientSecret : string;
  rateLimit : float64;
  rateBurst : Z;
  opt_timeout : Z;
}.

Definition no_options : ClientOptions := mkOptions "" "" "" "" (S754_zero false) 0 0.

Definition ClientOption : Type := ClientOptions -> ClientOptions.

Definition WithTimeout (timeout : Z) : ClientOption := fun o =>
  mkOptions (apiURL o) (opt_authURL o) (opt_clientID o) (opt_clientSecret o) (rateLimit o) (rateBurst o) timeout.
Definition WithApiURL (url : string) : ClientOption := fun o =>
  mkOptions url (opt_authURL o) (opt_clientID o) (opt_clientSecret o) (rateLimit o) (rateBurst o) (opt_timeout o).
Definition WithAuthURL (url : string) : ClientOption := fun o =>
  mkOptions (apiURL o) url (opt_clientID o) (opt_clientSecret o) (rateLimit o) (rateBurst o) (opt_timeout o).
Definition WithClientID (id : string) : ClientOption := fun o =>
  mkOptions (apiURL o) (opt_authURL o) id (opt_clientSecret o) (rateLimit o) (rateBurst o) (opt_timeout o).
Definition WithClientSecret (secret : string) : ClientOption := fun o =>
  mkOptions (apiURL o) (opt_authURL o) (opt_clientID o) secret (rateLimit o) (rateBurst o) (opt_timeout o).
Definition WithRateLimit (limit : float64) (burst : Z) : ClientOption := fun o =>
  mkOptions (apiURL o) (opt_authURL o) (opt_clientID o) (opt_clientSecret o) limit burst (opt_timeout o).

Definition defaults (o : ClientOptions) : result ClientOptions :=
  let api := if String.eqb (apiURL o) "" then API_URL else apiURL o in
  let auth := if String.eqb (opt_authURL o) "" then AUTH_URL else opt_authURL o in
  _ ← reject (String.eqb (opt_clientID o) "") (Errorf "client ID is required" []);
  _ ← reject (String.eqb (opt_clientSecret o) "") (Errorf "client secret is required" []);
  Ok (mkOptions api auth (opt_clientID o) (opt_clientSecret o)
        (if is_zero (rateLimit o) then float_lit "0.2" else rateLimit o)
        (if rateBurst o =? 0 then 1 else rateBurst o)
        (if opt_timeout o =? 0 then 20 * second else opt_timeout o)).

Definition apply (opts : list ClientOption) (o : ClientOptions) : result ClientOptions :=
  defaults (fold_left (fun o opt => opt o) opts o).

(** ** client.go *)

Definition ErrDailyRateLimitExceeded : error := Errorf "aptos orbital daily rate limit exceeded" [].
Definition ErrRateLimitExceeded : error := Errorf "rate limit exceeded" [].

Record trngSeed := mkSeed { Chunk : string; Signature : string }.

Definition seed_zero : trngSeed := mkSeed "" "".

Definition trngSeed_fields : list (field trngSeed) :=
  [fld "chunk" Chunk (fun x r => mkSeed x (Signature r)) dec_string;
   fld "signature" Signature (fun x r => mkSeed (Chunk r) x) dec_string].

Definition dec_seeds : decoder (list trngSeed) := dec_list seed_zero (dec_struct trngSeed_fields).

Record TrngRequest := mkTrngRequest { IgnoreSig : bool; Chunks : Z }.
Record TrngResponse := mkTrngResponse { Values : list string; Sig : string }.

Record AptosClient := mkAptosClient { opts : ClientOptions; authClient : OAuthClient }.

(** The limiter is the mutable part of the client, beside the token. *)
Record orbital_state (E L : Type) := mkOrbital { limiter : L; oauth : oauth_state E }.
Arguments mkOrbital {E L} limiter oauth.
Arguments limiter {E L} o.
Arguments oauth {E L} o.

Section Orbital.
Context {E L : Type} `{Net E} `{Limiter L}.
Variable out_of_range : Z.

Abbreviation O := (Prog (orbital_state E L)).

Definition NewClient (options : list ClientOption) : result (AptosClient * L) :=
  o ← apply options no_options;
  Ok (mkAptosClient o (NewOAuthClient (opt_clientID o) (opt_clientSecret o) (opt_authURL o) (opt_timeout o)),
      NewLimiter (rateLimit o) (rateBurst o)).

(** A call on the token client and its requests. *)
Definition on_oauth {A} (m : Prog (oauth_state E) A) : O A := fun s =>
  let '(o, r) := m (oauth s) in (mkOrbital (limiter s) o, r).

Definition limiter_Allow : O bool := fun s =>
  let '(e, now) := time_now (net (oauth s)) in
  let '(l, ok) := Allow (limiter s) now in
  (mkOrbital l (OAuth.mkState e (lastToken (oauth s)) (calls (oauth s))), Returned (Ok ok)).

(** The value of the header Authorization. *)
Definition getHeaders (c : AptosClient) : O string :=
  atoken ← on_err (Printf "authentication failed: %v" []) (on_oauth (GetAccessToken out_of_range (authClient c)));
  mret ("Bearer " +:+ Value atoken).

(** What a reply is made into; [d] decodes the type [R]. *)
Definition response_of {R} (d : decoder R) (zero : R) (rep : http_reply) : result R :=
  match rep with
  | HttpFailed msg => Err (Printf "failed to reach end-point: %v" [] (Errorf "%s" [msg]))
  | HttpResponse code body rd =>
      _ ← reject ((code <? 200) || (202 <? code))
            (if code =? 400 then ErrDailyRateLimitExceeded else Errorf "failed request (%d): %s" [pretty code; body]);
      _ ← reject (match rd with Some _ => true | None => false end) (Printf "failed to read response body: %v" [] (Errorf "%s" [default "" rd]));
      map_err (Printf "failed to decode response: %v" []) (Unmarshal d body zero)
  end.

(** [data] is the marshalled body, [params] the query, each if there is one. *)
Definition makeRequest {R} (d : decoder R) (zero : R) (method urlStr : string) (authorization : string)
    (data : option string) (params : option (list (string * string))) : O R :=
  let url := match params with Some ps => urlStr +:+ "?" +:+ form_Encode ps | None => urlStr end in
  req ← on_oauth (match url_error url with
                  | Some msg => throw (Errorf "parse: %s" [msg])
                  | None => mret (mkHttp method url (Some authorization) (match data with Some _ => Some "application/json" | None => None end) data)
                  end);
  rep ← on_oauth (Do req);
  lift (response_of d zero rep).

(** ** client_rand.go *)

Definition seed_url (c : AptosClient) (noSig : bool) (numChunk : Z) : string :=
  apiURL (opts c) +:+ "/services/v1/trng_seed?no_sig=" +:+ (if noSig then "1" else "0") +:+ "&num_chunk=" +:+ pretty numChunk.

Definition GetTrueRandomnessSeed (c : AptosClient) (noSig : bool) (numChunk : Z) : O TrngResponse :=
  ok ← limiter_Allow;
  _ ← guard_err (negb ok) ErrRateLimitExceeded;
  headers ← getHeaders c;
  resp ← on_err (Printf "failed to make trng_seed request: %v" [])
           (makeRequest dec_seeds [] "GET" (seed_url c noSig numChunk) headers None None);
  _ ← guard_err (match resp with [] => true | _ => false end) (Errorf "empty response from trng_seed" []);
  mret (mkTrngResponse (map Chunk resp) (match resp with r :: _ => Signature r | [] => "" end)).

(** ** plugin.go *)

Definition NewPlugin (cfg : aptosOrbitalConfig) : result (AptosClient * L) :=
  map_err (Wrapf "failed to create Aptos Orbital client: %w" [])
    (NewClient [WithApiURL (AptosOrbitalApiUrl cfg); WithAuthURL (AptosOrbitalAuthUrl cfg);
                WithClientID (AptosOrbitalClientId cfg); WithClientSecret (AptosOrbitalClientSecret cfg);
                WithRateLimit (AptosOrbitalRateLimit cfg) 2; WithTimeout (i64 (AptosOrbitalTimeout cfg * second))]).

Definition GetTrng (c : AptosClient) (req : TrngRequest) : O TrngResponse :=
  let numChunk := if Chunks req =? 0 then 1 else Chunks req in
  r ← attempt (GetTrueRandomnessSeed c (IgnoreSig req) numChunk);
  mret (match r with
        | Ok resp => match Values resp with [] => mkTrngResponse [] "" | _ => resp end
        | Err _ => mkTrngResponse [] ""
        end).

End Orbital.
