(* ===== verification/OrbitalSpec.v ===== *)
(** * What the aptosorbital plugin promises

    It always answers, with the values of the API or with none, and its callers
    share one access token. *)

From S2P Require Import Prelude GoStrings Errors State Json Http GoFloat SingleFlight OAuth Orbital.
From Stdlib Require Import Floats.SpecFloat.

(** ** The access token *)

Section Token.
Context {E : Type} `{Net E}.
Variable out_of_range : Z.

Implicit Types (s : oauth_state E).

Lemma run_now s : OAuth.Now s = (OAuth.mkState (time_now (net s)).1 (lastToken s) (calls s), Returned (Ok (time_now (net s)).2)).
Proof. unfold OAuth.Now. by destruct (time_now (net s)). Qed.

Lemma run_Do_oauth req s : OAuth.Do req s = (OAuth.mkState (http_do (net s) req).1 (lastToken s) (calls s ++ [req]), Returned (Ok (http_do (net s) req).2)).
Proof. unfold OAuth.Do. by destruct (http_do (net s) req). Qed.

(** One call asks for a token at most once, and not while the last one is valid. *)
Lemma run_GetAccessToken c s : exists s' r l, GetAccessToken out_of_range c s = (s', Returned r) /\ calls s' = calls s ++ l /\
  (l = [] \/ l = [token_request c]) /\
  match r with
  | Ok tok => lastToken s' = Some tok /\ (l = [] -> lastToken s = Some tok)
  | Err _ => lastToken s' = lastToken s
  end.
Proof.
  assert (forall s, exists s' r l, (req ← new_request "bad request: %v" (token_request c);
    rep ← OAuth.Do req; r ← lift (token_of_reply out_of_range rep); now ← OAuth.Now;
    _ ← modify (fun s => OAuth.mkState (net s) (Some (token_at r now)) (calls s)); mret (token_at r now)) s = (s', Returned r) /\
    calls s' = calls s ++ l /\ (l = [] \/ l = [token_request c]) /\
    match r with Ok tok => lastToken s' = Some tok /\ l <> [] | Err _ => lastToken s' = lastToken s end) as Hask.
  { clear s. intros s. unfold new_request. destruct (url_error (hr_URL (token_request c))) as [msg|].
    - eexists s, _, []. rewrite app_nil_r. split; [reflexivity|]. cbn. auto.
    - unfold mbind at 1, Prog_bind at 1. cbn [mret Prog_ret]. rewrite (run_bind _ _ _ _ _ (run_Do_oauth _ _)).
      destruct (token_of_reply out_of_range _) as [r|err] eqn:Er.
      + unfold lift at 1. unfold mbind at 1, Prog_bind at 1. rewrite (run_bind _ _ _ _ _ (run_now _)).
        eexists _, _, [token_request c]. split; [reflexivity|]. cbn. auto.
      + eexists _, _, [token_request c]. split; [reflexivity|]. cbn. auto. }
  unfold GetAccessToken. unfold gets at 1. unfold mbind at 1, Prog_bind at 1.
  destruct (lastToken s) as [t|] eqn:Et.
  - unfold mbind at 1, Prog_bind at 1. rewrite (run_bind _ _ _ _ _ (run_now s)). cbn [mret Prog_ret].
    destruct (usable (Some t) _).
    + eexists _, _, []. rewrite app_nil_r. split; [reflexivity|]. cbn. auto.
    + destruct (Hask (OAuth.mkState (time_now (net s)).1 (lastToken s) (calls s))) as (s' & r & l & E1 & E2 & E3 & E4).
      exists s', r, l. split; [exact E1|]. split; [done|]. split; [done|].
      destruct r; [|cbn in *; congruence]. destruct E4 as [? ?]. split; [done|]. intros ->. done.
  - unfold mbind at 1, Prog_bind at 1. cbn [mret Prog_ret]. destruct (Hask s) as (s' & r & l & E1 & E2 & E3 & E4).
    exists s', r, l. split; [exact E1|]. split; [done|]. split; [done|].
    destruct r; [|congruence]. destruct E4 as [? ?]. split; [done|]. intros ->. done.
Qed.

End Token.

(** [GetAccessToken] of many goroutines: [authLock] is taken before the check. *)
Definition oauth_flight (out_of_range : Z) : Flight (option AccessToken) (option AccessToken) http_reply :=
  mkFlight (fun t => t) usable (fun rep now => r ← token_of_reply out_of_range rep; Ok (Some (token_at r now)))
    false false None.

#[export] Instance oauth_laws n : FlightLaws (oauth_flight n).
Proof.
  split; [|done]. intros [v|] t t'; cbn; [|done]. rewrite !Z.ltb_lt. intros Ht Hf.
  pose proof (Z.div_le_mono t t' second ltac:(done) Ht). lia.
Qed.

(** Along any interleaving of callers, each gets a token that the endpoint
    granted, and none is asked for while the last one is valid: a later one is
    made when every earlier one had expired. *)
Theorem tokens_shared n t l s : no_invalidate l -> acts (oauth_flight n) l (started None t) = Some s ->
  (forall i tok, goroutines s !! i = Some (Finished (Ok tok)) -> tok ∈ fetched s) /\
  (forall k1 k2 t1 v2, fetched s !! k1 = Some (Some t1) -> fetched s !! k2 = Some v2 -> (k1 < k2)%nat ->
     exists r now, v2 = Some (token_at r now) /\ Expiration t1 <= now / second).
Proof.
  intros Hn Ha. split.
  - intros i tok Hi. destruct (answers_cached (oauth_flight n) None t l s i tok (or_introl eq_refl) Ha Hi) as (v & [Hv|(-> & now & Hf)] & ->); [done|].
    by rewrite (dropped_stale (F := oauth_flight n)) in Hf.
  - intros k1 k2 t1 v2 H1 H2 Hk. pose proof (locked_started (A := option AccessToken) (@None AccessToken) t) as Hl.
    destruct (fetches_spaced (oauth_flight n) l _ s Hl) as [Hsp _]; [done..|].
    destruct (Hsp k1 k2 (Some t1) v2) as (rep & now & _ & Hr & Hf); [cbn; lia|done..|]. cbn in Hr, Hf. inv_ok.
    apply Z.ltb_ge in Hf. eauto.
Qed.

(** ** One request *)

Section Spec.
Context {E L : Type} `{Net E} `{Limiter L}.
Variable out_of_range : Z.

Implicit Types (s : orbital_state E L).

Lemma run_on_oauth {A} (m : Prog (oauth_state E) A) s o r : m (oauth s) = (o, r) -> on_oauth m s = (mkOrbital (limiter s) o, r).
Proof. intros Hm. unfold on_oauth. by rewrite Hm. Qed.

(** The request for random values under a token. *)
Definition seed_request (c : AptosClient) (noSig : bool) (n : Z) (tok : string) : http_request :=
  mkHttp "GET" (seed_url c noSig n) (Some ("Bearer " +:+ tok)) None None.

(** What is made of the reply to it. *)
Definition seeds_of (rep : http_reply) : TrngResponse :=
  match response_of dec_seeds [] rep with
  | Ok (r :: l) => mkTrngResponse (map Chunk (r :: l)) (Signature r)
  | _ => mkTrngResponse [] ""
  end.

Lemma run_Allow s : exists lim e ok, limiter_Allow s =
  (mkOrbital lim (OAuth.mkState e (lastToken (oauth s)) (calls (oauth s))), Returned (Ok ok)).
Proof.
  unfold limiter_Allow. destruct (time_now _) as [e now]. destruct (Allow _ now) as [lim ok]. eauto.
Qed.

(** The one request of a call, when its URL is good. *)
Lemma run_makeRequest {R} (d : decoder R) zero method url auth s : url_error url = None ->
  let req := mkHttp method url (Some auth) None None in
  makeRequest d zero method url auth None None s =
    (mkOrbital (limiter s) (OAuth.mkState (http_do (net (oauth s)) req).1 (lastToken (oauth s)) (calls (oauth s) ++ [req])),
     Returned (response_of d zero (http_do (net (oauth s)) req).2)).
Proof.
  intros Hu req. unfold makeRequest. cbv zeta. rewrite Hu. fold req.
  unfold mbind, Prog_bind, on_oauth, mret, Prog_ret, OAuth.Do, lift. cbn. by destruct (http_do (net (oauth s)) req).
Qed.

(** A call of the client: nothing, or one request under the token that is held. *)
Lemma run_seed c noSig n s : exists s' r l1 l2, GetTrueRandomnessSeed out_of_range c noSig n s = (s', Returned r) /\
  calls (oauth s') = calls (oauth s) ++ l1 ++ l2 /\ (l1 = [] \/ l1 = [token_request (authClient c)]) /\
  ((l2 = [] /\ is_ok r = false) \/
   exists tok e, l2 = [seed_request c noSig n (Value tok)] /\ lastToken (oauth s') = Some tok /\
     (l1 = [] -> lastToken (oauth s) = Some tok) /\
     match r with
     | Ok resp => resp = seeds_of (http_do e (seed_request c noSig n (Value tok))).2
     | Err _ => seeds_of (http_do e (seed_request c noSig n (Value tok))).2 = mkTrngResponse [] ""
     end).
Proof.
  unfold GetTrueRandomnessSeed. destruct (run_Allow s) as (lim & e0 & ok & Ea). rewrite (run_bind _ _ _ _ _ Ea).
  set (o1 := OAuth.mkState e0 _ _). destruct ok; [|eexists _, _, [], []; rewrite !app_nil_r; split; [reflexivity|]; cbn; auto].
  rewrite (run_bind _ _ _ (mkOrbital lim o1) tt) by done.
  destruct (run_GetAccessToken out_of_range (authClient c) o1) as (o2 & r & l1 & E2 & Hc & Hl1 & Hr).
  apply (run_on_oauth _ (mkOrbital lim o1)) in E2. destruct r as [tok|err].
  2:{ eexists _, _, l1, []. rewrite app_nil_r. split; [by eapply run_bind_err, run_bind_err, run_on_err_err|]. cbn. auto. }
  assert (getHeaders out_of_range c (mkOrbital lim o1) = (mkOrbital lim o2, Returned (Ok ("Bearer " +:+ Value tok)))) as Eh.
  { unfold getHeaders. by rewrite (run_bind _ _ _ _ _ (run_on_err _ _ _ _ _ E2)). }
  rewrite (run_bind _ _ _ _ _ Eh). destruct Hr as [Ht Hn]. destruct (url_error (seed_url c noSig n)) as [msg|] eqn:Eu.
  { eexists _, _, l1, []. rewrite app_nil_r. unfold makeRequest. cbv zeta. rewrite Eu. split; [reflexivity|]. cbn. auto. }
  pose proof (run_makeRequest dec_seeds [] "GET" _ ("Bearer " +:+ Value tok) (mkOrbital lim o2) Eu) as Em. cbv zeta in Em.
  fold (seed_request c noSig n (Value tok)) in Em. set (req := seed_request c noSig n (Value tok)) in *. cbn [limiter oauth] in Em.
  assert (forall s' r, calls (oauth s') = calls o2 ++ [req] -> lastToken (oauth s') = Some tok ->
    (match r with Ok resp => resp = seeds_of (http_do (net o2) req).2 | Err _ => seeds_of (http_do (net o2) req).2 = mkTrngResponse [] "" end) ->
    calls (oauth s') = calls (oauth s) ++ l1 ++ [req] /\ (l1 = [] \/ l1 = [token_request (authClient c)]) /\
    (([req] = [] /\ is_ok r = false) \/ exists tok0 e, [req] = [seed_request c noSig n (Value tok0)] /\ lastToken (oauth s') = Some tok0 /\
       (l1 = [] -> lastToken (oauth s) = Some tok0) /\
       match r with Ok resp => resp = seeds_of (http_do e (seed_request c noSig n (Value tok0))).2
                  | Err _ => seeds_of (http_do e (seed_request c noSig n (Value tok0))).2 = mkTrngResponse [] "" end)) as Hdone.
  { intros s' r -> -> Hr. rewrite Hc. cbn. rewrite <- app_assoc. split; [done|]. split; [done|]. right. exists tok, (net o2). auto. }
  destruct (response_of dec_seeds [] (http_do (net o2) req).2) as [[|r0 resp]|err] eqn:Er.
  - rewrite (run_bind _ _ _ _ _ (run_on_err _ _ _ _ _ Em)). eexists _, _, l1, [req]. split; [reflexivity|].
    apply Hdone; [done..|]. unfold seeds_of. by rewrite Er.
  - rewrite (run_bind _ _ _ _ _ (run_on_err _ _ _ _ _ Em)). eexists _, _, l1, [req]. split; [reflexivity|].
    apply Hdone; [done..|]. unfold seeds_of. by rewrite Er.
  - eexists _, _, l1, [req]. split; [by eapply run_bind_err, run_on_err_err|].
    apply Hdone; [done..|]. unfold seeds_of. by rewrite Er.
Qed.

(** C39: [GetTrng] never fails. It sends at most two requests, the first for a
    token only where none is valid, the second for the requested number of chunks
    under the token that is then held; its answer is every chunk of a successful
    reply, with the signature of the first, and in every other case, the rate
    limit and an outage included, the empty answer, which makes the callers fall
    back to the master seeds. *)
Theorem GetTrng_answers c req s : exists s' resp l1 l2, GetTrng out_of_range c req s = (s', Returned (Ok resp)) /\
  calls (oauth s') = calls (oauth s) ++ l1 ++ l2 /\ (l1 = [] \/ l1 = [token_request (authClient c)]) /\
  ((l2 = [] /\ resp = mkTrngResponse [] "") \/
   exists tok e, let r := seed_request c (IgnoreSig req) (if Chunks req =? 0 then 1 else Chunks req) (Value tok) in
     l2 = [r] /\ lastToken (oauth s') = Some tok /\ (l1 = [] -> lastToken (oauth s) = Some tok) /\
     resp = seeds_of (http_do e r).2).
Proof.
  unfold GetTrng. cbv zeta. set (n := if Chunks req =? 0 then 1 else Chunks req).
  destruct (run_seed c (IgnoreSig req) n s) as (s' & r & l1 & l2 & Er & Hc & Hl1 & Hr).
  rewrite (run_bind _ _ _ _ _ (run_attempt _ _ _ _ Er)). eexists s', _, l1, l2. split; [reflexivity|]. split; [done|]. split; [done|].
  destruct Hr as [[-> Hf]|(tok & e & -> & Ht & Hn & Hr)]; [left; by destruct r|right]. exists tok, e. cbv zeta.
  split; [done|]. split; [done|]. split; [done|]. destruct r as [resp|err]; [|done]. subst resp. unfold seeds_of.
  destruct (response_of _ _ _) as [[|r0 l]|]; done.
Qed.

End Spec.

(** ** A run *)

Module Runs.

(** An API that grants tokens and answers with two chunks, at a fixed time. *)
#[export] Instance api : Net unit :=
  {| http_do := fun e req =>
       (e, if String.eqb (hr_Method req) "POST"
           then HttpResponse 200 (print (JObj [("access_token", JStr "tok"); ("expires_in", JNum "3.6e3")])) None
           else if String.eqb (default "" (hr_Bearer req)) "Bearer tok"
           then HttpResponse 200 (print (JArr [JObj [("chunk", JStr "aa"); ("signature", JStr "sig")]; JObj [("chunk", JStr "bb")]])) None
           else HttpResponse 401 "" None);
     time_now := fun e => (e, 1000 * second);
     url_error := fun _ => None |}.

(** A limiter that allows so many requests. *)
#[export] Instance counter : Limiter Z :=
  {| NewLimiter := fun _ burst => burst; Allow := fun n _ => if 0 <? n then (n - 1, true) else (n, false) |}.

Definition config : aptosOrbitalConfig := mkConfig "https://api" "https://auth" "id" "secret" (float_lit "0.5") 20.

Definition request : TrngRequest := mkTrngRequest false 2.

(** Two requests are answered under one token, the third meets the limit. *)
Example three_requests : exists c l, NewPlugin config = Ok (c, l) /\
  let run s := GetTrng (E := unit) 0 c request s in
  let s1 := run (mkOrbital l (OAuth.mkState tt None [])) in let s2 := run s1.1 in let s3 := run s2.1 in
  s1.2 = Returned (Ok (mkTrngResponse ["aa"; "bb"] "sig")) /\ s2.2 = s1.2 /\ s3.2 = Returned (Ok (mkTrngResponse [] "")) /\
  lastToken (oauth s3.1) = Some (mkAccessToken "tok" 4540) /\ length (calls (oauth s3.1)) = 3%nat.
Proof. eexists _, _. split; [reflexivity|]. vm_compute. done. Qed.

End Runs.
