(* ===== verification/BeaconRandomness.v ===== *)
(** * Where the beacon's random values come from

    An execution asks aptosorbital for one chunk and expands it with masterseed's
    code, or, where it gets none, asks masterseed for the values. [SeedSource] is
    what the beacon relies on; the masterseed plugin keeps it, and together with
    the orbital plugin it is put behind the beacon plugin. *)

From S2P Require Import Prelude GoStrings Errors State Json Http MasterSeed Beacon BeaconSpec.
From S2P Require Orbital OrbitalSpec BeaconIpfs.

(** The values that are asked for arrive, as many as were asked for. *)
Class SeedSource (E : Type) `{BeaconEnv E} :=
  seeds_count : forall e n l, (Beacon.GetSeeds e n).2 = Ok l -> length l = Z.to_nat (if n <=? 0 then 1 else n).

Definition batch (m : BeaconMetadata) : Z := if BatchSize m <=? 0 then 1 else BatchSize m.

Lemma batch_pos m : 0 < batch m.
Proof. unfold batch. destruct (Z.leb_spec (BatchSize m) 0); lia. Qed.

(** A derivation that succeeds gives the number of values asked for. *)
Lemma length_DeriveBulkAtOffset seed n off outLen l : 0 < n ->
  DeriveBulkAtOffset seed n off outLen = Returned (Ok l) -> length l = Z.to_nat n.
Proof.
  intros Hn. unfold DeriveBulkAtOffset. destruct (Z.leb_spec n 0); [lia|]. cbv zeta.
  destruct (mulUint64Checked _ _) as [need []]; cbn [negb]; [|done]. destruct (maxInt <? need); [done|].
  destruct (parseTRNGBlock seed); [|done]. destruct (ChaCha20.FillBytes _ _) as [[buf ?]|]; [|done].
  intros [= <-]. by rewrite length_fmap, length_seqZ.
Qed.

(** The masterseed plugin is such a source. *)
Lemma length_GetSeeds p n draws l p' : MasterSeed.GetSeeds p n draws = (Returned (Ok l), p') ->
  length l = Z.to_nat (if n <=? 0 then 1 else n).
Proof.
  unfold MasterSeed.GetSeeds. set (count := if n <=? 0 then 1 else n).
  assert (0 < count) by (unfold count; destruct (Z.leb_spec n 0); lia).
  destruct (reserveSeedOffset p count draws) as [[[[seedHex start]|e]| |] p1]; try done.
  destruct (DeriveBulkAtOffset _ count start _) as [[vs|e]| |] eqn:Ed; try done.
  intros [= <- <-]. by eapply length_DeriveBulkAtOffset.
Qed.

Section Client.
Context {E : Type} `{BeaconEnv E} `{!SeedSource E}.

Implicit Types (s : state E).

(** The loader delivers nothing, or the whole batch. *)
Lemma loadCtrngs_batch m s s' l : batch m < 2 ^ 32 -> loadCtrngs m s = (s', Returned (Ok l)) ->
  l = [] \/ length l = Z.to_nat (batch m).
Proof.
  intros Hb Hl. pose proof (batch_pos m) as Hp. unfold loadCtrngs in Hl. fold (batch m) in Hl. cbv zeta in Hl.
  apply run_bind_inv in Hl as (s1 & resp & _ & Hl). apply run_bind_inv in Hl as (s2 & [err|] & _ & Hl); [inv_run; by left|].
  apply run_bind_inv in Hl as (s3 & vs & Hv & Hl).
  assert (l = [] \/ l = vs) as [Hnil | Hvs].
  { destruct vs; [inv_run; by left|]. apply run_bind_inv in Hl as (s4 & [err|] & _ & Hl); inv_run; auto. }
  { by left. } subst l.
  destruct (negb _).
  - unfold i64, swrap in Hv. rewrite Z.mod_small in Hv by lia. replace (batch m + 2 ^ (64 - 1) - 2 ^ (64 - 1)) with (batch m) in Hv by lia.
    destruct (DeriveBulkFromSeedHex _ (batch m)) as [[l0|e]| |] eqn:Ed; try done; inv_run; [right|by left]. by eapply length_DeriveBulkAtOffset.
  - rewrite wrap_small in Hv by lia. apply run_bind_inv in Hv as (s4 & r & Hr & Hv). apply run_attempt_inv in Hr.
    rewrite run_ask in Hr. simplify_eq. unfold mret, Prog_ret in Hv. simplify_eq.
    destruct (Beacon.GetSeeds (env s2) (batch m)).2 as [l'|e] eqn:Eg; [right|by left].
    rewrite (seeds_count _ _ _ Eg). destruct (Z.leb_spec (batch m) 0); [lia|done].
Qed.

Lemma execute_read_values m s s1 ctrngs path last : execute_read m s = (s1, Returned (Ok (ctrngs, path, last))) ->
  exists s0, loadCtrngs m s = (s0, Returned (Ok ctrngs)).
Proof.
  unfold execute_read. intros Hr. apply run_bind_inv in Hr as (s0 & c & Hc & Hr). exists s0. rewrite Hc.
  apply run_bind_inv in Hr as (s2 & [p l] & _ & Hr). cbn [fst snd] in Hr. destruct l; [|done]. by inv_run.
Qed.

(** C21: a block holds a whole batch. An execution that succeeds has added one
    block, with the head's successor as its sequence number and exactly
    [BatchSize] random values (one, where the size is not positive), whether they
    were expanded from a chunk of true randomness or came from the master seeds;
    it never appends part of a batch. *)
Theorem executeBeacon_batch m s s' : batch m < 2 ^ 32 -> executeBeacon m s = (s', Returned (Ok tt)) ->
  exists path last now ctrngs cid l, was_head m path last /\ length ctrngs = Z.to_nat (batch m) /\
    sent s' = sent s ++ l ++ [RAdd (print (Block_json (next_block path last now ctrngs))); RPublish cid (Name m)] /\
    Forall (fun r => writes r = false) l.
Proof.
  intros Hb He. unfold executeBeacon in He. apply run_bind_inv in He as (s1 & [[ctrngs path] last] & Hr & Hw).
  destruct (execute_read_Ok m s s1 ctrngs path last Hr) as [(l & Hs1 & Hl) Hh].
  apply execute_read_values in Hr as [s0 Hr]. apply loadCtrngs_batch in Hr; [|done].
  destruct (execute_write_run m ctrngs path last s1) as (s2 & r & Ew & Hcase). rewrite Ew in Hw. simplify_eq.
  destruct Hcase as [(_ & _ & [=])|(Hne & now & _ & [[_ [=]]|(e & cid & _ & Hs' & _)])].
  destruct Hr as [|Hr]; [done|]. exists path, last, now, ctrngs, cid, l. split_and!; try done.
  by rewrite Hs', Hs1, <- app_assoc.
Qed.

End Client.

(** ** The plugins behind the beacon *)

(** The aptosorbital plugin, and the masterseed plugin with what its next
    requests will draw. *)
Record sources (E L : Type) := mkSources {
  orbital : Orbital.orbital_state E L;
  masterseed : MasterSeed.Plugin;
  draws : list (list (result (list Z)));
}.
Arguments mkSources {E L} orbital masterseed draws.
Arguments orbital {E L} s.
Arguments masterseed {E L} s.
Arguments draws {E L} s.

Section Plugins.
Context {E L : Type} `{Net E} `{Orbital.Limiter L}.
Context (out_of_range : Z) (c : Orbital.AptosClient).

(** The request that the loader sends. *)
Definition trng_request : Orbital.TrngRequest := Orbital.mkTrngRequest true 1.

Definition serve_GetTrng (r : sources E L) : sources E L * result (list string) :=
  let '(o, out) := Orbital.GetTrng out_of_range c trng_request (orbital r) in
  (mkSources o (masterseed r) (draws r), resp ← answer out; Ok (Orbital.Values resp)).

Definition serve_GetSeeds (r : sources E L) (n : Z) : sources E L * result (list string) :=
  let '(out, p) := MasterSeed.GetSeeds (masterseed r) n (hd [] (draws r)) in
  (mkSources (orbital r) p (tl (draws r)), answer out).

(** The beacon's clock and the waits of its context run on the same host. *)
Context (now : sources E L -> sources E L * Z) (wait : sources E L -> Z -> sources E L * option error)
  (ctx_Err : sources E L -> sources E L * option error).

#[export] Instance plugin_services : BeaconIpfs.OtherServices (sources E L) :=
  {| BeaconIpfs.svc_GetTrng := serve_GetTrng;
     BeaconIpfs.svc_GetSeeds := serve_GetSeeds;
     BeaconIpfs.svc_now := now;
     BeaconIpfs.svc_wait := wait;
     BeaconIpfs.svc_ctx_Err := ctx_Err |}.

(** The aptosorbital plugin answers every request of the beacon. *)
Lemma serve_GetTrng_answers r : exists o l, serve_GetTrng r = (mkSources o (masterseed r) (draws r), Ok l).
Proof.
  unfold serve_GetTrng, Orbital.GetTrng. cbv zeta.
  destruct (OrbitalSpec.run_seed out_of_range c true 1 (orbital r)) as (o & res & l1 & l2 & Er & _).
  cbn [Orbital.Chunks Orbital.IgnoreSig trng_request Z.eqb].
  rewrite (run_bind _ _ _ _ _ (run_attempt _ _ _ _ Er)). unfold mret, Prog_ret. eauto.
Qed.

Context {K : Type} {C : Type -> Type} `{Ipfs.Kubo K} `{Ipfs.Lru C} (p : Ipfs.Plugin).

Abbreviation world := (Ipfs.state K C * sources E L)%type.

#[export] Instance plugins_seed_source : SeedSource world (H := BeaconIpfs.plugins_env p).
Proof.
  intros [i r] n l. cbn. unfold BeaconIpfs.on_other. cbn. unfold serve_GetSeeds.
  destruct (MasterSeed.GetSeeds (masterseed r) n (hd [] (draws r))) as [out p'] eqn:Eg. cbn.
  destruct out as [[l'|e]| |]; cbn; try done. intros [= ->]. by eapply length_GetSeeds.
Qed.

(** An outage of the satellite API costs the beacon nothing but the source: when
    aptosorbital has no chunk (which is how every failure of the API reaches the
    beacon), the values are those of the range that masterseed reserves for this
    request, and its cursors have moved past them. *)
Theorem values_without_satellite m (s : state world) l : batch m < 2 ^ 32 -> (forall r, (ctx_Err r).2 = None) ->
  (serve_GetTrng (env s).2).2 = Ok [] ->
  (MasterSeed.GetSeeds (masterseed (env s).2) (batch m) (hd [] (draws (env s).2))).1 = Returned (Ok l) ->
  exists s' r, loadCtrngs (H := BeaconIpfs.plugins_env p) m s = (s', Returned (Ok l)) /\
    length l = Z.to_nat (batch m) /\ (env s').2 = (ctx_Err r).1 /\
    masterseed r = (MasterSeed.GetSeeds (masterseed (env s).2) (batch m) (hd [] (draws (env s).2))).2.
Proof.
  intros Hb Hctx Htrng Hseeds. pose proof (batch_pos m) as Hp.
  destruct (serve_GetTrng_answers (env s).2) as (o & l0 & Et). rewrite Et in Htrng. cbn in Htrng. simplify_eq.
  destruct (MasterSeed.GetSeeds _ _ _) as [out q] eqn:Eg. cbn in Hseeds. subst out.
  assert (length l = Z.to_nat (batch m)) as Hlen.
  { apply length_GetSeeds in Eg. destruct (Z.leb_spec (batch m) 0); [lia|done]. }
  unfold loadCtrngs. fold (batch m). cbv zeta.
  erewrite run_bind; [|apply run_attempt; rewrite run_ask; reflexivity]. cbn. unfold BeaconIpfs.on_other. cbn. rewrite Et. cbn.
  erewrite run_bind by done. cbv beta iota. rewrite (wrap_small 32) by lia.
  set (r := mkSources o q (tl (draws (env s).2))). set (s2 := mkState _ _).
  assert (l <> [] ->
    match l with [] => mret [] | _ => look (fun w : world => let '(r0, a) := ctx_Err w.2 in (w.1, r0, a)) ≫=
       fun stop => mret match stop with Some _ => [] | None => l end end (mkState ((env s).1, r) (sent s2 ++ [RGetSeeds (batch m)])) =
    (mkState ((env s).1, (ctx_Err r).1) (sent s2 ++ [RGetSeeds (batch m)]), Returned (Ok l))) as Hlast.
  { intros Hne. destruct l; [done|]. unfold mbind, Prog_bind, look. cbn. specialize (Hctx r).
    destruct (ctx_Err r) as [r1 e1]. cbn in Hctx. by subst e1. }
  exists (mkState ((env s).1, (ctx_Err r).1) (sent s2 ++ [RGetSeeds (batch m)])), r. split_and!; [|done..].
  erewrite run_bind.
  2:{ erewrite run_bind; [|apply run_attempt; rewrite run_ask; subst s2; cbn; unfold serve_GetSeeds; cbn; rewrite Eg; reflexivity]. reflexivity. }
  apply Hlast. intros ->. cbn in Hlen. lia.
Qed.

End Plugins.

(** ** A beacon on three plugins *)

Module Runs.

Import IpfsSpec.Runs BeaconIpfs.Runs.

(** An API with one chunk to give: the limiter refuses the second request. *)
#[export] Instance api : Net unit :=
  {| http_do := fun e req =>
       (e, if String.eqb (hr_Method req) "POST"
           then HttpResponse 200 (print (JObj [("access_token", JStr "tok"); ("expires_in", JNum "3600")])) None
           else HttpResponse 200 (print (JArr [JObj [("chunk", JStr seedA); ("signature", JStr "")]])) None);
     time_now := fun e => (e, 1000 * second);
     url_error := fun _ => None |}.

#[export] Instance counter : Orbital.Limiter Z := OrbitalSpec.Runs.counter.

Definition client : Orbital.AptosClient :=
  Eval vm_compute in match Orbital.NewPlugin (L := Z) OrbitalSpec.Runs.config with
                     | Ok (c, _) => c
                     | Err _ => Orbital.mkAptosClient Orbital.no_options (OAuth.NewOAuthClient "" "" "" 0)
                     end.

Definition host : Type := sources unit Z.

Definition the_services : BeaconIpfs.OtherServices host :=
  plugin_services 0 client (fun r => (r, 1700000000 * second)) (fun r _ => (r, None)) (fun r => (r, None)).

Definition the_env : BeaconEnv (ipfs_state * host) := BeaconIpfs.plugins_env (H1 := the_services) plugin.

Definition on_start : state (ipfs_state * host) :=
  mkState (empty, mkSources (Orbital.mkOrbital 1 (OAuth.mkState tt None [])) plugin2 [draw 3; draw 2]) [].

Definition the_beacon : BeaconMetadata := mkMetadata "beacon" "k-beacon" "1.0" "json" 3 "msg" (60 * second).

Definition created : state (ipfs_state * host) := Eval vm_compute in (createBeacon (H := the_env) "beacon" "msg" 60 on_start).1.
Definition first : state (ipfs_state * host) := Eval vm_compute in (executeBeacon (H := the_env) the_beacon created).1.
Definition second_ : state (ipfs_state * host) := Eval vm_compute in (executeBeacon (H := the_env) the_beacon first).1.

(** The values of the beacon's head. *)
Definition head_values (s : state (ipfs_state * host)) : outcome (list string) :=
  match (loadLastBeaconBlock (H := the_env) "beacon" s).2 with
  | Returned (Ok (_, Some b)) => Returned (Ok (CTRNG b))
  | Returned (Ok (_, None)) => Returned (Ok [])
  | Returned (Err e) => Returned (Err e)
  | Blocked => Blocked
  | Panicked => Panicked
  end.

(** The first block is expanded from the chunk, the second comes from the master
    seed that was drawn, whose cursor moves by three outputs. *)
Example two_blocks : head_values first = DeriveBulkFromSeedHex seedA 3 /\
  head_values second_ = DeriveBulkFromSeedHex seedB 3 /\
  map Offset (masterSeeds (masterseed (env first).2)) = [0; 0] /\
  map Offset (masterSeeds (masterseed (env second_).2)) = [0; 96].
Proof. split_and!; vm_compute; reflexivity. Qed.

Lemma executeBeacon_batch_witness : exists path last now ctrngs cid l, was_head (H := the_env) the_beacon path last /\
  length ctrngs = 3%nat /\ sent first = sent created ++ l ++ [RAdd (print (Block_json (next_block path last now ctrngs))); RPublish cid "beacon"].
Proof.
  destruct (executeBeacon_batch (H := the_env) (SeedSource0 := plugins_seed_source 0 client _ _ _ plugin) the_beacon created first)
    as (path & last & now & ctrngs & cid & l & Hh & Hlen & Hs & _).
  - reflexivity.
  - vm_compute. reflexivity.
  - exists path, last, now, ctrngs, cid, l. split; [exact Hh|]. split; [exact Hlen|exact Hs].
Defined.

End Runs.
