(* ===== verification/BeaconLifecycle.v ===== *)
(** * Start and close of the beacon plugin (beacon/plugin.go, builder.go, scheduler.go)

    The plugin runs the scheduler's ticker and the builder's listener, each in a
    group of goroutines of its own, with a channel between them; an execution and
    its loader are goroutines of the builder's group. A state holds both groups,
    the scheduler and the channel; one action is one step of one goroutine, or of
    [Close]. *)

From S2P Require Import Prelude GoStrings Errors State Http Beacon.
From S2P Require ThreadControl.

(** ** Connections *)

Inductive conn_event := Opened (target : string) | Closed (target : string).

(** [fmt.Errorf(format, err)] with a [%v] for an error that may be nil. *)
Definition Printf_nil (format : string) (err : option error) : error :=
  match err with None => Errorf format ["<nil>"] | Some e => Printf format [] e end.

Section Connections.
(** The outcomes of [grpc.NewClient] and of the connection's [Close]. *)
Context (NewClient : string -> result unit) (Close : string -> option error).

Abbreviation P := (Prog (list conn_event)).

Definition dial (target : string) : P unit := fun s =>
  match NewClient target with
  | Ok _ => (s ++ [Opened target], Returned (Ok tt))
  | Err e => (s, Returned (Err e))
  end.

Definition conn_Close (target : string) : P (option error) := fun s => (s ++ [Closed target], Returned (Ok (Close target))).

Definition getIpfsPluginClient (cfg : Config) : P unit :=
  on_err (Wrapf "failed to connect to IPFS plugin: %w" []) (dial (IPFSPlugin cfg)).
Definition getCtrngPluginClient (cfg : Config) : P unit :=
  on_err (Wrapf "failed to connect to CTRNG plugin: %w" []) (dial (CTRNGPlugin cfg)).
Definition getMasterSeedPluginClient (cfg : Config) : P unit :=
  on_err (Wrapf "failed to connect to MasterSeed plugin: %w" []) (dial (MasterSeedPlugin cfg)).

(** [Builder.Start], up to the start of its listener. *)
Definition Builder_Start (cfg : Config) : P unit :=
  _ ← on_err (Printf "failed to connect to IPFS plugin: %v" []) (getIpfsPluginClient cfg);
  r ← attempt (getCtrngPluginClient cfg);
  match r with
  | Err _ =>
      err ← conn_Close (IPFSPlugin cfg);
      throw (Printf_nil "failed to connect to CTRNG plugin: %v" err)
  | Ok _ =>
      r ← attempt (getMasterSeedPluginClient cfg);
      match r with
      | Err err =>
          _ ← conn_Close (IPFSPlugin cfg);
          _ ← conn_Close (CTRNGPlugin cfg);
          throw (Printf "failed to connect to MasterSeed plugin: %v" [] err)
      | Ok _ => mret tt
      end
  end.

(** The deferred function of the listener. *)
Definition close_connections (cfg : Config) : P unit :=
  _ ← conn_Close (IPFSPlugin cfg); _ ← conn_Close (CTRNGPlugin cfg); _ ← conn_Close (MasterSeedPlugin cfg); mret tt.

End Connections.

Section Start.
Context (NewClient : string -> result unit) (Close : string -> option error).

(** The listener starts exactly when all three clients can be made, with its
    connections open; otherwise what was opened is closed again. *)
Theorem Builder_Start_outcome cfg s : exists r, Builder_Start NewClient Close cfg s =
  (s ++ (match NewClient (IPFSPlugin cfg) with
         | Err _ => []
         | Ok _ => Opened (IPFSPlugin cfg) :: match NewClient (CTRNGPlugin cfg) with
           | Err _ => [Closed (IPFSPlugin cfg)]
           | Ok _ => Opened (CTRNGPlugin cfg) :: match NewClient (MasterSeedPlugin cfg) with
             | Err _ => [Closed (IPFSPlugin cfg); Closed (CTRNGPlugin cfg)]
             | Ok _ => [Opened (MasterSeedPlugin cfg)]
             end end end), Returned r) /\
  (is_ok r = true <-> is_ok (NewClient (IPFSPlugin cfg)) = true /\ is_ok (NewClient (CTRNGPlugin cfg)) = true /\
                      is_ok (NewClient (MasterSeedPlugin cfg)) = true).
Proof.
  unfold Builder_Start, getIpfsPluginClient, getCtrngPluginClient, getMasterSeedPluginClient, dial, conn_Close, on_err, attempt, throw, mret, Prog_ret, mbind, Prog_bind.
  destruct (NewClient (IPFSPlugin cfg)); cbn; [|eexists; rewrite app_nil_r; split; [reflexivity|cbn; naive_solver]].
  destruct (NewClient (CTRNGPlugin cfg)); cbn; [|eexists; rewrite <- app_assoc; split; [reflexivity|cbn; naive_solver]].
  destruct (NewClient (MasterSeedPlugin cfg)); cbn; eexists; rewrite <- !app_assoc; (split; [reflexivity|cbn; naive_solver]).
Qed.

(** When the listener returns, what it was started with is closed. *)
Lemma listener_closes cfg s s1 : Builder_Start NewClient Close cfg s = (s1, Returned (Ok tt)) ->
  (close_connections Close cfg s1).1 =
  s ++ map Opened [IPFSPlugin cfg; CTRNGPlugin cfg; MasterSeedPlugin cfg] ++ map Closed [IPFSPlugin cfg; CTRNGPlugin cfg; MasterSeedPlugin cfg].
Proof.
  unfold Builder_Start, close_connections, getIpfsPluginClient, getCtrngPluginClient, getMasterSeedPluginClient, dial, conn_Close, on_err, attempt, throw, mret, Prog_ret, mbind, Prog_bind.
  destruct (NewClient (IPFSPlugin cfg)); cbn; [|done]. destruct (NewClient (CTRNGPlugin cfg)); cbn; [|done].
  destruct (NewClient (MasterSeedPlugin cfg)); cbn; [|done]. intros [= <-]. by rewrite <- !app_assoc.
Qed.

(** The error of the CTRNG client is lost: [err] is assigned the outcome of the
    other connection's [Close], and that is what is reported. *)
Theorem Builder_Start_loses_error cfg s e : NewClient (IPFSPlugin cfg) = Ok tt -> NewClient (CTRNGPlugin cfg) = Err e ->
  Close (IPFSPlugin cfg) = None ->
  (Builder_Start NewClient Close cfg s).2 = Returned (Err (Errorf "failed to connect to CTRNG plugin: %v" ["<nil>"])).
Proof.
  intros H1 H2 H3.
  unfold Builder_Start, getIpfsPluginClient, getCtrngPluginClient, dial, conn_Close, on_err, attempt, throw, mbind, Prog_bind.
  rewrite H1. cbn. rewrite H2. cbn. by rewrite H3.
Qed.

End Start.

(** ** The running plugin *)

(** What a goroutine of the builder's group is for. *)
Inductive role :=
| Listener
| Execution (m : BeaconMetadata)
| CtrngLoader.

(** How far [Plugin.Close] is. *)
Inductive closing :=
| NotClosing
| WaitingScheduler       (* in [scheduler.Close], at its wait *)
| QueueClosed            (* between the two calls *)
| WaitingBuilder         (* in [builder.Close], at its wait *)
| PluginClosed.

Record lifecycle := mkLifecycle {
  sched : ThreadControl.threadControl;
  build : ThreadControl.threadControl;
  scheduler : Scheduler;                (* with the buffer of the channel *)
  queue_closed : bool;
  roles : list role;                    (* of the builder's goroutines *)
  phase : closing;
  pushed : list BeaconMetadata;         (* what was sent on the channel *)
  received : list BeaconMetadata;       (* what the listener took from it *)
  panicked : bool;
}.

(** After [Plugin.Start]: the ticker and the listener were started with [Go]. What
    the ticker does before the listener is there is the same as before the
    listener's first step. *)
Definition started (s : Scheduler) : lifecycle :=
  mkLifecycle (ThreadControl.Go ThreadControl.NewThreadControl) (ThreadControl.Go ThreadControl.NewThreadControl)
    s false [Listener] NotClosing (q s) [] false.

Definition set_sched (c : ThreadControl.threadControl) (s : lifecycle) : lifecycle :=
  mkLifecycle c (build s) (scheduler s) (queue_closed s) (roles s) (phase s) (pushed s) (received s) (panicked s).
Definition set_build (c : ThreadControl.threadControl) (s : lifecycle) : lifecycle :=
  mkLifecycle (sched s) c (scheduler s) (queue_closed s) (roles s) (phase s) (pushed s) (received s) (panicked s).
Definition set_phase (p : closing) (s : lifecycle) : lifecycle :=
  mkLifecycle (sched s) (build s) (scheduler s) (queue_closed s) (roles s) p (pushed s) (received s) (panicked s).

(** A goroutine of the builder's group calls [GoCtx]. *)
Definition spawn (i : nat) (ctx : ThreadControl.context) (r : role) (s : lifecycle) : option lifecycle :=
  c ← ThreadControl.act (ThreadControl.Spawn (Some i) ctx) (build s);
  Some (mkLifecycle (sched s) c (scheduler s) (queue_closed s) (roles s ++ [r]) (phase s) (pushed s) (received s) (panicked s)).

(** [case event := <-q]: a closed channel that is empty gives the zero value. *)
Definition receive_event (s : lifecycle) : option (BeaconMetadata * lifecycle) :=
  match receive (scheduler s) with
  | Some (m, sc) => Some (m, mkLifecycle (sched s) (build s) sc (queue_closed s) (roles s) (phase s) (pushed s) (received s ++ [m]) (panicked s))
  | None => if queue_closed s
            then Some (metadata_zero, mkLifecycle (sched s) (build s) (scheduler s) (queue_closed s) (roles s) (phase s) (pushed s) (received s ++ [metadata_zero]) (panicked s))
            else None
  end.

(** The turn of a beacon in a tick; a send on a closed channel panics. *)
Definition turn (b : BeaconMetadata) (checked pushed_at : Z) (s : lifecycle) : lifecycle :=
  let sc := scheduler s in
  if skips sc b checked then s
  else if queue_closed s
  then mkLifecycle (sched s) (build s) sc (queue_closed s) (roles s) (phase s) (pushed s) (received s) true
  else mkLifecycle (sched s) (build s) (trigger sc b checked pushed_at) (queue_closed s) (roles s) (phase s)
         (if (length (q sc) <? queue_capacity)%nat then pushed s ++ [b] else pushed s) (received s) (panicked s).

(** The group's own steps, which are free but for the return of a function. *)
Definition group_step (a : ThreadControl.action) : bool :=
  match a with
  | ThreadControl.Cancel _ | ThreadControl.Derive _ | ThreadControl.Enter _ | ThreadControl.Done _ | ThreadControl.Watch _ _ => true
  | _ => false
  end.

Definition runs (c : ThreadControl.threadControl) (i : nat) : option ThreadControl.context :=
  t ← ThreadControl.threads c !! i;
  match ThreadControl.now t with ThreadControl.Running => Some (ThreadControl.own t) | _ => None end.

Inductive action :=
| SchedStep (a : ThreadControl.action)
| BuildStep (a : ThreadControl.action)
| Turn (k : nat) (checked pushed_at : Z)   (* of the [k]-th beacon, in a tick of the ticker's goroutine *)
| TickerReturn
| Listen                                  (* the listener takes an event and starts its execution *)
| ListenerReturn
| Load (i : nat)                          (* an execution derives its context and starts its loader *)
| FnReturn (i : nat)                      (* an execution or a loader returns *)
| CloseStep.                              (* of the goroutine that calls [Plugin.Close] *)

Definition close_step (s : lifecycle) : option lifecycle :=
  match phase s with
  | NotClosing => c ← ThreadControl.act ThreadControl.Close (sched s); Some (set_phase WaitingScheduler (set_sched c s))
  | WaitingScheduler =>
      c ← ThreadControl.act ThreadControl.Joined (sched s);
      Some (mkLifecycle c (build s) (scheduler s) true (roles s) QueueClosed (pushed s) (received s) (panicked s || queue_closed s))
  | QueueClosed => c ← ThreadControl.act ThreadControl.Close (build s); Some (set_phase WaitingBuilder (set_build c s))
  | WaitingBuilder => c ← ThreadControl.act ThreadControl.Joined (build s); Some (set_phase PluginClosed (set_build c s))
  | PluginClosed => None
  end.

Definition act (a : action) (s : lifecycle) : option lifecycle :=
  match a with
  | SchedStep a => if group_step a then c ← ThreadControl.act a (sched s); Some (set_sched c s) else None
  | BuildStep a => if group_step a then c ← ThreadControl.act a (build s); Some (set_build c s) else None
  | Turn k t1 t2 =>
      _ ← runs (sched s) 0;
      b ← Beacons (registry (scheduler s)) !! k;
      Some (turn b t1 t2 s)
  | TickerReturn =>
      ctx ← runs (sched s) 0;
      if ThreadControl.is_done (sched s) ctx
      then c ← ThreadControl.act (ThreadControl.Return 0) (sched s); Some (set_sched c s) else None
  | Listen =>
      ctx ← runs (build s) 0;
      '(m, s) ← receive_event s;
      spawn 0 ctx (Execution m) s
  | ListenerReturn =>
      ctx ← runs (build s) 0;
      if ThreadControl.is_done (build s) ctx
      then c ← ThreadControl.act (ThreadControl.Return 0) (build s); Some (set_build c s) else None
  | Load i =>
      ctx ← runs (build s) i;
      match roles s !! i with
      | Some (Execution _) => let '(ctx, c) := ThreadControl.WithCancel ctx (build s) in spawn i ctx CtrngLoader (set_build c s)
      | _ => None
      end
  | FnReturn i =>
      match roles s !! i with
      | Some (Execution _) | Some CtrngLoader => c ← ThreadControl.act (ThreadControl.Return i) (build s); Some (set_build c s)
      | _ => None
      end
  | CloseStep => close_step s
  end.

Fixpoint acts (l : list action) (s : lifecycle) : option lifecycle :=
  match l with
  | [] => Some s
  | a :: l => s' ← act a s; acts l s'
  end.

(** The plugin was started with a registry and the times of the last blocks. *)
Definition reachable (s : lifecycle) : Prop := exists reg times l, acts l (started (mkScheduler reg [] times)) = Some s.

(** ** The invariant *)

(** How the groups and the channel stand at each point of [Close]. *)
Definition stage_ok (s : lifecycle) : Prop :=
  match phase s with
  | NotClosing | WaitingScheduler => queue_closed s = false
  | QueueClosed | WaitingBuilder | PluginClosed => ThreadControl.joined (sched s) = true
  end /\
  match phase s with PluginClosed => ThreadControl.joined (build s) = true | _ => True end.

(** The listener got the events in the order in which they were sent; after
    them, zero values, and those only from the closed channel. *)
Definition events_ok (s : lifecycle) : Prop := exists k : nat,
  pushed s ++ replicate k metadata_zero = received s ++ q (scheduler s) /\
  (k <> 0%nat -> queue_closed s = true /\ q (scheduler s) = []).

Definition group_ok (c : ThreadControl.threadControl) : Prop :=
  ThreadControl.ok c /\ (ThreadControl.joined c = true -> ThreadControl.all_gone c).

Definition executions (l : list role) : list BeaconMetadata := omap (fun r => match r with Execution m => Some m | _ => None end) l.

Record lifecycle_ok (s : lifecycle) : Prop := {
  sched_ok : group_ok (sched s);
  build_ok : group_ok (build s);
  the_stage : stage_ok s;
  the_events : events_ok s;
  the_roles : length (roles s) = length (ThreadControl.threads (build s));
  the_executions : executions (roles s) = received s;
  the_registry : Forall (fun m => m ∈ Beacons (registry (scheduler s))) (pushed s);
  no_panic : panicked s = false;
}.

Lemma group_ok_act a c c' : ThreadControl.from_inside a -> group_ok c -> ThreadControl.act a c = Some c' -> group_ok c'.
Proof. intros Hin [Hok Hg] Ha. split; [by eapply ThreadControl.ok_act|]. by eapply ThreadControl.gone_act. Qed.

Lemma group_step_inside a : group_step a = true -> ThreadControl.from_inside a.
Proof. intros Ha ctx ->. done. Qed.

(** Only [Spawn] makes threads, and only [Joined] says that they are gone. *)
Lemma act_threads a c c' : ThreadControl.act a c = Some c' ->
  length (ThreadControl.threads c') = (length (ThreadControl.threads c) + (if ThreadControl.spawns a then 1 else 0))%nat /\
  (a <> ThreadControl.Joined -> ThreadControl.joined c' = ThreadControl.joined c).
Proof.
  intros Ha. destruct a as [[j|] ctx|ctx|x|i|i|i|i on_stop| |]; ThreadControl.unfold_act Ha; cbn [ThreadControl.spawns];
    try (destruct (ThreadControl.threads c !! _) as [t|]; [cbn -[Nat.ltb] in Ha|done]); repeat case_match; try done; simplify_eq;
    cbn; rewrite ?length_app, ?length_insert; cbn; split; try done; lia.
Qed.

(** A group whose [Close] has returned runs nothing. *)
Lemma runs_joined c i ctx : group_ok c -> runs c i = Some ctx -> ThreadControl.joined c = false.
Proof.
  intros [_ Hg] Hr. destruct (ThreadControl.joined c); [|done]. specialize (Hg eq_refl). unfold runs in Hr.
  destruct (ThreadControl.threads c !! i) as [t|] eqn:Ei; [|done]. cbn in Hr. unfold ThreadControl.all_gone in Hg.
  rewrite Forall_lookup in Hg. by rewrite (Hg i t Ei) in Hr.
Qed.

Lemma sched_step_ok a c s : lifecycle_ok s -> ThreadControl.from_inside a -> a <> ThreadControl.Joined ->
  ThreadControl.act a (sched s) = Some c -> lifecycle_ok (set_sched c s).
Proof.
  intros [Hs Hb [Hst1 Hst2] He Hr Hx Hreg Hp] Hin Hj Ha. pose proof (group_ok_act _ _ _ Hin Hs Ha). apply act_threads in Ha as [_ Ej].
  specialize (Ej Hj). split; try done. split; [|done]. cbn. by rewrite Ej.
Qed.

Lemma build_step_ok a c s : lifecycle_ok s -> ThreadControl.spawns a = false -> a <> ThreadControl.Joined ->
  ThreadControl.act a (build s) = Some c -> lifecycle_ok (set_build c s).
Proof.
  intros [Hs Hb [Hst1 Hst2] He Hr Hx Hreg Hp] Hin Hj Ha.
  assert (ThreadControl.from_inside a) as Hins by (intros ctx ->; done).
  pose proof (group_ok_act _ _ _ Hins Hb Ha). apply act_threads in Ha as [El Ej]. rewrite Hin in El.
  specialize (Ej Hj). split; try done; cbn; [|by rewrite El, Nat.add_0_r]. split; [done|]. cbn. by rewrite Ej.
Qed.

(** The channel is open as long as the ticker runs. *)
Lemma ticker_queue_open s ctx : lifecycle_ok s -> runs (sched s) 0 = Some ctx -> queue_closed s = false.
Proof.
  intros [Hs _ [Hst _] _ _ _ _ _] Hr. apply (runs_joined _ _ _ Hs) in Hr. destruct (phase s); congruence.
Qed.

Lemma trigger_registry sc b t1 t2 : registry (trigger sc b t1 t2) = registry sc.
Proof. unfold trigger. by repeat case_match. Qed.

Lemma turn_ok b t1 t2 s ctx : lifecycle_ok s -> runs (sched s) 0 = Some ctx -> b ∈ Beacons (registry (scheduler s)) ->
  lifecycle_ok (turn b t1 t2 s).
Proof.
  intros Hok Hr Hb. pose proof (ticker_queue_open s ctx Hok Hr) as Hq. unfold turn. destruct (skips (scheduler s) b t1) eqn:Esk; [done|].
  rewrite Hq. destruct Hok as [H1 H2 [Hst1 Hst2] (k & He & Hk) H3 H4 Hreg Hp]. unfold trigger. rewrite Esk.
  destruct (Nat.ltb_spec (length (q (scheduler s))) queue_capacity) as [Hlt|Hge]; split; try done; cbn.
  - split; cbn; [destruct (phase s); congruence|done].
  - destruct k as [|k]; [|destruct Hk; congruence]. exists 0%nat. split; [|done]. cbn. rewrite app_nil_r in *. by rewrite He, app_assoc.
  - apply Forall_app. split; [done|]. by constructor.
  - split; cbn; [destruct (phase s); congruence|done].
  - exists k. split; [done|]. intros Hne. destruct (Hk Hne). congruence.
Qed.

Lemma spawn_run i ctx r s s' : spawn i ctx r s = Some s' -> exists c, ThreadControl.act (ThreadControl.Spawn (Some i) ctx) (build s) = Some c /\
  s' = mkLifecycle (sched s) c (scheduler s) (queue_closed s) (roles s ++ [r]) (phase s) (pushed s) (received s) (panicked s).
Proof. unfold spawn. destruct (ThreadControl.act _ _) as [c|]; [|done]. intros [= <-]. eauto. Qed.

Lemma executions_snoc l r : executions (l ++ [r]) = executions l ++ match r with Execution m => [m] | _ => [] end.
Proof. unfold executions. rewrite omap_app. by destruct r. Qed.

Lemma listen_ok s m s1 s2 ctx : lifecycle_ok s -> receive_event s = Some (m, s1) -> spawn 0 ctx (Execution m) s1 = Some s2 -> lifecycle_ok s2.
Proof.
  intros [H1 H2 [Hst1 Hst2] (k & He & Hk) H3 H4 Hreg Hp] Hrc Hsp. apply spawn_run in Hsp as (c & Hc & ->).
  assert (build s1 = build s /\ sched s1 = sched s /\ queue_closed s1 = queue_closed s /\ roles s1 = roles s /\ phase s1 = phase s /\
    pushed s1 = pushed s /\ received s1 = received s ++ [m] /\ panicked s1 = panicked s /\ registry (scheduler s1) = registry (scheduler s) /\ events_ok s1)
    as (Eb & Es & Eq & Er & Ep & Epu & Erc & Epa & Ereg & Hev).
  { unfold receive_event, receive in Hrc. destruct (q (scheduler s)) as [|x l] eqn:Eq.
    - destruct (queue_closed s) eqn:Ec; [|done]. simplify_eq. split_and!; try done. exists (S k). cbn [pushed received scheduler queue_closed].
      rewrite Eq, app_nil_r in *. split; [|done]. by rewrite replicate_S_end, app_assoc, He.
    - simplify_eq. split_and!; try done. exists k. cbn. split; [by rewrite <- app_assoc|]. intros Hne. by destruct (Hk Hne). }
  rewrite Eb in Hc. pose proof (group_ok_act (ThreadControl.Spawn (Some 0%nat) ctx) _ _ ltac:(done) H2 Hc) as Hc'.
  apply act_threads in Hc as [El Ej]. cbn in El. specialize (Ej ltac:(done)).
  split; cbn [sched build scheduler roles pushed received panicked].
  - by rewrite Es.
  - done.
  - split; cbn; rewrite ?Ep, ?Eq, ?Es, ?Ej; done.
  - exact Hev.
  - rewrite Er, length_app. cbn. lia.
  - by rewrite Er, executions_snoc, H4, Erc.
  - by rewrite Epu, Ereg.
  - by rewrite Epa.
Qed.

Lemma WithCancel_ok ctx s : lifecycle_ok s -> lifecycle_ok (set_build (ThreadControl.WithCancel ctx (build s)).2 s).
Proof. intros Hok. by apply (build_step_ok (ThreadControl.Derive ctx)). Qed.

Lemma load_ok i ctx s s' : lifecycle_ok s -> spawn i ctx CtrngLoader s = Some s' -> lifecycle_ok s'.
Proof.
  intros [H1 H2 [Hst1 Hst2] He H3 H4 Hreg Hp] Hsp. apply spawn_run in Hsp as (c & Hc & ->).
  pose proof (group_ok_act (ThreadControl.Spawn (Some i) ctx) _ _ ltac:(done) H2 Hc) as Hc'.
  apply act_threads in Hc as [El Ej]. cbn in El. specialize (Ej ltac:(done)). split; cbn; try done.
  - split; cbn; rewrite ?Ej; done.
  - rewrite length_app. cbn. lia.
  - by rewrite executions_snoc, H4, app_nil_r.
Qed.

Lemma joined_act c c' : ThreadControl.act ThreadControl.Joined c = Some c' -> group_ok c -> group_ok c' /\ ThreadControl.joined c' = true /\
  length (ThreadControl.threads c') = length (ThreadControl.threads c).
Proof.
  intros Ha Hg. split; [by apply (group_ok_act ThreadControl.Joined c)|]. ThreadControl.unfold_act Ha.
  destruct (_ && _); [|done]. by injection Ha as <-.
Qed.

Lemma close_step_ok s s' : lifecycle_ok s -> close_step s = Some s' -> lifecycle_ok s'.
Proof.
  intros Hok Ha. unfold close_step in Ha. pose proof Hok as [H1 H2 [Hst1 Hst2] He H3 H4 Hreg Hp]. destruct (phase s) eqn:Ep; [| | | |done].
  - destruct (ThreadControl.act _ _) as [c|] eqn:Ec; [|done]. cbn in Ha. simplify_eq.
    apply (sched_step_ok ThreadControl.Close) in Ec; [|done..]. destruct Ec as [? ? _ ? ? ? ? ?]. split; try done.
  - destruct (ThreadControl.act _ _) as [c|] eqn:Ec; [|done]. cbn in Ha. simplify_eq. apply joined_act in Ec as (? & ? & _); [|done].
    split; try done; cbn.
    + destruct He as (k & He & Hk). exists k. split; [done|]. intros Hne. by destruct (Hk Hne).
    + by rewrite Hst1, Hp.
  - destruct (ThreadControl.act _ _) as [c|] eqn:Ec; [|done]. cbn in Ha. simplify_eq.
    apply (build_step_ok ThreadControl.Close) in Ec; [|done..]. destruct Ec as [? ? _ ? ? ? ? ?]. split; try done.
  - destruct (ThreadControl.act _ _) as [c|] eqn:Ec; [|done]. cbn in Ha. simplify_eq. apply joined_act in Ec as (? & ? & El); [|done].
    split; try done; cbn. by rewrite El.
Qed.

Lemma group_step_quiet a : group_step a = true -> ThreadControl.spawns a = false /\ a <> ThreadControl.Joined.
Proof. by destruct a. Qed.

Lemma lifecycle_ok_act a s s' : lifecycle_ok s -> act a s = Some s' -> lifecycle_ok s'.
Proof.
  intros Hok Ha. destruct a as [a|a|k t1 t2| | | |i|i|]; cbn [act] in Ha.
  - destruct (group_step a) eqn:Eg; [|done]. destruct (ThreadControl.act _ _) as [c|] eqn:Ec; [|done]. cbn [mbind option_bind] in Ha. simplify_eq.
    by apply (sched_step_ok a); [|by apply group_step_inside|by apply group_step_quiet|].
  - destruct (group_step a) eqn:Eg; [|done]. destruct (ThreadControl.act _ _) as [c|] eqn:Ec; [|done]. cbn [mbind option_bind] in Ha. simplify_eq.
    by apply (build_step_ok a); [|by apply group_step_quiet..|].
  - destruct (runs (sched s) 0) as [ctx|] eqn:Er; [|done]. destruct (Beacons _ !! k) as [b|] eqn:Eb; [|done]. cbn [mbind option_bind] in Ha. simplify_eq.
    eapply turn_ok; [done|done|]. by eapply list_elem_of_lookup_2.
  - destruct (runs (sched s) 0) as [ctx|]; [|done]. cbn [mbind option_bind] in Ha. destruct (ThreadControl.is_done _ _); [|done].
    destruct (ThreadControl.act _ _) as [c|] eqn:Ec; [|done]. cbn [mbind option_bind] in Ha. simplify_eq.
    by apply (sched_step_ok (ThreadControl.Return 0)).
  - destruct (runs (build s) 0) as [ctx|]; [|done]. destruct (receive_event s) as [[m s1]|] eqn:Er; [|done]. cbn [mbind option_bind] in Ha.
    by eapply listen_ok.
  - destruct (runs (build s) 0) as [ctx|]; [|done]. cbn [mbind option_bind] in Ha. destruct (ThreadControl.is_done _ _); [|done].
    destruct (ThreadControl.act _ _) as [c|] eqn:Ec; [|done]. cbn [mbind option_bind] in Ha. simplify_eq.
    by apply (build_step_ok (ThreadControl.Return 0)).
  - destruct (runs (build s) i) as [ctx|]; [|done]. cbn [mbind option_bind] in Ha. destruct (roles s !! i) as [[|m|]|]; try done.
    eapply load_ok; [|exact Ha]. by apply (WithCancel_ok ctx).
  - destruct (roles s !! i) as [[|m|]|]; try done; (destruct (ThreadControl.act _ _) as [c|] eqn:Ec; [|done]); cbn [mbind option_bind] in Ha; simplify_eq;
      by apply (build_step_ok (ThreadControl.Return i)).
  - by eapply close_step_ok.
Qed.

Lemma lifecycle_ok_acts l s s' : lifecycle_ok s -> acts l s = Some s' -> lifecycle_ok s'.
Proof.
  revert s. induction l as [|a l IH]; intros s Hok Ha; cbn in Ha; [by simplify_eq|].
  destruct (act a s) as [s1|] eqn:E1; [|done]. apply (IH s1); [by eapply lifecycle_ok_act|done].
Qed.

Lemma lifecycle_ok_reachable s : reachable s -> lifecycle_ok s.
Proof.
  intros (reg & times & l & Hl). eapply lifecycle_ok_acts; [|exact Hl].
  assert (group_ok (ThreadControl.Go ThreadControl.NewThreadControl)) as Hg.
  { split; [|done]. apply ThreadControl.ok_GoCtx. split; [done|split; [by constructor|done]]. }
  split; try done. by exists 0%nat.
Qed.

(** C20: from [Start] to [Close]. Along every interleaving of the ticker, the
    listener, the executions, their loaders and [Close]: nothing is sent on the
    closed channel; the executions were started once for each event that was sent,
    in order, each event being a beacon of the registry, the rest still being in
    the channel, apart from empty events that follow them once the channel is
    closed; and when [Close] has returned, no goroutine of the plugin is left. *)
Theorem plugin_lifecycle s : reachable s ->
  panicked s = false /\
  (exists k : nat, executions (roles s) ++ q (scheduler s) = pushed s ++ replicate k metadata_zero /\
    (k <> 0%nat -> queue_closed s = true)) /\
  Forall (fun m => m ∈ Beacons (registry (scheduler s))) (pushed s) /\
  (phase s = PluginClosed -> Forall (fun t => ThreadControl.now t = ThreadControl.Gone) (ThreadControl.threads (sched s)) /\
                             Forall (fun t => ThreadControl.now t = ThreadControl.Gone) (ThreadControl.threads (build s))).
Proof.
  intros Hr. apply lifecycle_ok_reachable in Hr as [[_ Hs] [_ Hb] [Hst1 Hst2] (k & He & Hk) _ -> Hreg Hp].
  split; [done|]. split; [|split; [done|]].
  - exists k. split; [done|]. intros Hne. by destruct (Hk Hne).
  - intros E. rewrite E in *. by split; [apply Hs|apply Hb].
Qed.

(** ** A run, and what [Close] can start *)

Module Runs.

Import ThreadControl(Enter, Return, Done, Watch).

Definition the_beacon : BeaconMetadata := mkMetadata "beacon" "k-beacon" "1.0" "json" 3 "msg" (60 * second).
Definition start : lifecycle := started (mkScheduler (mkRegistry [the_beacon]) [] ∅).

(** One event is executed; then the plugin is closed. *)
Definition one_event : list action :=
  [SchedStep (Enter 0); BuildStep (Enter 0); Turn 0 0 0; Listen; BuildStep (Enter 1); Load 1; BuildStep (Enter 2);
   FnReturn 2; BuildStep (Done 2); FnReturn 1; BuildStep (Done 1);
   CloseStep; SchedStep (Watch 0 true); TickerReturn; SchedStep (Done 0); CloseStep;
   CloseStep; BuildStep (Watch 0 true); ListenerReturn; BuildStep (Done 0); CloseStep]%nat.

Definition closed : lifecycle := Eval vm_compute in default start (acts one_event start).

Example one_event_run : acts one_event start = Some closed /\ phase closed = PluginClosed /\ received closed = [the_beacon].
Proof. split_and!; vm_compute; reflexivity. Qed.

Lemma plugin_lifecycle_witness : panicked closed = false /\
  Forall (fun t => ThreadControl.now t = ThreadControl.Gone) (ThreadControl.threads (build closed)).
Proof.
  destruct (plugin_lifecycle closed) as (Hp & _ & _ & Hg).
  - exists (mkRegistry [the_beacon]), ∅, one_event. vm_compute. reflexivity.
  - split; [exact Hp|]. apply Hg. reflexivity.
Defined.

Definition closing_queue : list action :=
  [SchedStep (Enter 0); BuildStep (Enter 0); CloseStep; SchedStep (Watch 0 true); TickerReturn; SchedStep (Done 0); CloseStep]%nat.

Definition between : lifecycle := Eval vm_compute in default start (acts closing_queue start).

(** Between the two calls in [Close] the listener finds the channel closed, and
    starts an execution of a beacon without a name for every receive, without
    limit: nothing was ever sent here. *)
Theorem closed_queue_executes n : exists s, acts (closing_queue ++ replicate n Listen) start = Some s /\
  executions (roles s) = replicate n metadata_zero /\ pushed s = [].
Proof.
  assert (forall n s ctx, runs (build s) 0 = Some ctx -> q (scheduler s) = [] -> queue_closed s = true ->
    exists s', acts (replicate n Listen) s = Some s' /\ executions (roles s') = executions (roles s) ++ replicate n metadata_zero /\ pushed s' = pushed s) as Hspin.
  { clear n. induction n as [|n IH]; intros s ctx Hr Hq Hc; [exists s; cbn; by rewrite app_nil_r|].
    unfold runs in Hr. destruct (ThreadControl.threads (build s) !! 0%nat) as [t|] eqn:Et; [|done]. cbn in Hr.
    destruct (ThreadControl.now t) eqn:En; try done. simplify_eq.
    set (s1 := mkLifecycle (sched s) (ThreadControl.GoCtx (ThreadControl.own t) (build s)) (scheduler s) (queue_closed s)
      (roles s ++ [Execution metadata_zero]) (phase s) (pushed s) (received s ++ [metadata_zero]) (panicked s)).
    assert (act Listen s = Some s1) as Ea.
    { cbn [act]. unfold runs. rewrite Et. cbn. rewrite En. cbn. unfold receive_event, receive. rewrite Hq, Hc. cbn.
      unfold spawn. cbn. rewrite Et. cbn. rewrite En. cbn. by rewrite <- Hc. }
    destruct (IH s1 (ThreadControl.own t)) as (s' & Ha & Hx & Hp); [|done..|].
    - unfold runs, s1. cbn. rewrite (lookup_app_l_Some _ _ _ _ Et). cbn. by rewrite En.
    - exists s'. cbn [replicate acts]. rewrite Ea. split; [exact Ha|]. rewrite Hx. subst s1. cbn.
      rewrite executions_snoc, <- app_assoc. done. }
  assert (acts closing_queue start = Some between) as Hc by (vm_compute; reflexivity).
  destruct (Hspin n between [0%nat]) as (s' & Ha & Hx & Hp); [reflexivity..|]. exists s'. split; [|done].
  generalize dependent start. induction closing_queue as [|a l IH]; intros s Hc; cbn in *; [by simplify_eq|].
  destruct (act a s) as [s1|]; [|done]. by apply IH.
Qed.

End Runs.
