(* ===== verification/DevPlugins.v ===== *)
(** * The development plugins (pkg/plugin/accountnoop, pkg/plugin/authnoop)

    They stand in for the account and auth plugins without a backend: every hold
    is granted and every token accepted. Logging is left out. *)

From S2P Require Import Prelude GoStrings Errors Codec Sha2.
From S2P Require Account Auth.

Module AccountNoop.

Definition defaultTenant := "noop-tenant".

Record Plugin := mkPlugin { kmsTenant : string }.

(** [tenant] is the value of ORBITPORT_ACCOUNTNOOP_KMS_TENANT. *)
Definition NewPlugin (tenant : string) : Plugin := mkPlugin (if String.eqb tenant "" then defaultTenant else tenant).

Definition Hold (p : Plugin) (req : Account.HoldRequest) : result Account.HoldResponse :=
  Ok (Account.mkHoldResponse true "noop-ledger" 0 "" (kmsTenant p)).

Definition Settle (ledgerID : string) : result Account.SettleResponse := Ok (Account.mkSettleResponse true 0 "").

Definition Release (ledgerID : string) : result Account.ReleaseResponse := Ok (Account.mkReleaseResponse true 0 "").

(** A granted hold always names a tenancy. *)
Lemma Hold_names_tenant tenant req : exists resp, Hold (NewPlugin tenant) req = Ok resp /\ Account.hr_KmsTenant resp <> "".
Proof. eexists. split; [done|]. cbn. destruct (String.eqb_spec tenant ""); [discriminate|done]. Qed.

End AccountNoop.

Module AuthNoop.

Definition client_id (token : string) : string := "dev_" +:+ Hex.EncodeToString (firstn 8 (Sum256 (bytes_of_string token))).

Definition ValidateToken (token : string) : result Auth.TokenValidationResponse :=
  Ok (Auth.mkTokenResponse true (client_id token) "" "").

Definition ValidateServiceToken (req : Auth.ServiceTokenValidationRequest) : result Auth.ServiceTokenValidationResponse :=
  Ok (Auth.mkServiceResponse true (client_id (Auth.svc_Token req))).

(** The id is "dev_" and sixteen digits, whatever the token. *)
Lemma length_client_id token : String.length (client_id token) = 20%nat.
Proof.
  unfold client_id. rewrite length_append, Hex.length_hex_Encode, length_firstn, length_Sum256. reflexivity.
Qed.

End AuthNoop.
