(* ===== verification/Health.v ===== *)
(** * Health checks (pkg/core/health)

    The states a plugin reports, and the wait of a plugin for the ones it needs.
    The gRPC health service of the other plugins and the timers are the parameter
    [HealthEnv]; the state is that environment with the answers of the services
    and the waits so far. Iteration over a Go map is [map_order], that may permute
    the keys. Logging is left out. *)

From S2P Require Import Prelude GoStrings Errors State.

(** ** grpc.go *)

Inductive ServingStatus := UNKNOWN | SERVING | NOT_SERVING | SERVICE_UNKNOWN.

#[export] Instance ServingStatus_eq_dec : EqDecision ServingStatus.
Proof. solve_decision. Defined.

Definition ServingStatus_text (st : ServingStatus) : string :=
  match st with UNKNOWN => "UNKNOWN" | SERVING => "SERVING" | NOT_SERVING => "NOT_SERVING" | SERVICE_UNKNOWN => "SERVICE_UNKNOWN" end.

(** [HealthState] is a [uint8]. *)
Definition HealthState : Type := Z.
Definition HealthStateUnknown : HealthState := 0.
Definition HealthStateHealthy : HealthState := 1.
Definition HealthStateUnhealthy : HealthState := 2.

Definition ToHealthCheckStatus (st : HealthState) : ServingStatus :=
  if st =? HealthStateUnknown then UNKNOWN
  else if st =? HealthStateHealthy then SERVING
  else if st =? HealthStateUnhealthy then NOT_SERVING
  else UNKNOWN.

(** [HealthServer.Check]; [checker] gives a state and an error. *)
Definition server_Check {E} (checker : E -> E * (HealthState * option error)) (e : E) : E * ServingStatus :=
  let '(e, (st, err)) := checker e in
  (e, ToHealthCheckStatus (match err with Some _ => HealthStateUnknown | None => st end)).

(** ** client.go *)

(** [grpc_NewClient] and [grpc_Check] are the connection and the RPC, [select]
    the select on a timer and the context: the context's error where it is done
    first. *)
Class HealthEnv (E : Type) := {
  grpc_NewClient : string -> result unit;
  grpc_Check : E -> string -> E * result ServingStatus;
  select : E -> Z -> E * option error;
}.

(** [answers] are the outcomes of the RPCs, [waits] those of the selects. *)
Record state (E : Type) := mkState { env : E; answers : list (string * result ServingStatus); waits : list (Z * option error) }.
Arguments mkState {E} env answers waits.
Arguments env {E} s.
Arguments answers {E} s.
Arguments waits {E} s.

Section Health.
Context {E : Type} `{HealthEnv E}.
Variable map_order : list string -> list string.

Abbreviation W := (Prog (state E)).

Definition Check (addr : string) : W unit := fun s =>
  match grpc_NewClient addr with
  | Err err => (s, Returned (Err (Wrapf "connect: %w" [] err)))
  | Ok _ =>
      let '(e, r) := grpc_Check (env s) addr in
      (mkState e (answers s ++ [(addr, r)]) (waits s),
       Returned (resp ← map_err (Wrapf "health check RPC: %w" []) r;
                 reject (negb (bool_decide (resp = SERVING))) (Errorf "status %s" [ServingStatus_text resp])))
  end.

Definition checkDepHealth (addr : string) : W bool :=
  r ← attempt (Check addr);
  mret (match r with Ok _ => true | Err _ => false end).

Definition wait (d : Z) : W (option error) := fun s =>
  let '(e, stop) := select (env s) d in (mkState e (answers s) (waits s ++ [(d, stop)]), Returned (Ok stop)).

(** The dependencies of a round that are healthy. *)
Fixpoint check_round (l : list string) : W (list string) :=
  match l with
  | [] => mret []
  | addr :: l => ok ← checkDepHealth addr; toRemove ← check_round l; mret (if (ok : bool) then addr :: toRemove else toRemove)
  end.

(** The loop, for so many rounds. *)
Fixpoint wait_loop (rounds : nat) (remaining : list string) (retryDelay maxDelay : Z) : W unit :=
  match rounds with
  | O => fun s => (s, Blocked)
  | S rounds =>
      toRemove ← check_round (map_order remaining);
      let remaining := filter (fun addr => addr ∉ toRemove) remaining in
      match remaining with
      | [] => mret tt
      | _ =>
          stop ← wait retryDelay;
          match stop with
          | Some err => throw (Wrapf "retry canceled for timeout: %w" [] err)
          | None =>
              let doubled := i64 (retryDelay * 2) in
              wait_loop rounds remaining (if maxDelay <? doubled then maxDelay else doubled) maxDelay
          end
      end
  end.

Definition WaitForDependencies (rounds : nat) (retryDelay maxDelay : Z) (dependencies : list string) : W unit :=
  wait_loop rounds (remove_dups dependencies) retryDelay maxDelay.

End Health.
