(* ===== verification/HealthSpec.v ===== *)
(** * What the wait for dependencies promises *)

From S2P Require Import Prelude GoStrings Errors State Health.

Section Spec.
Context {E : Type} `{HealthEnv E}.
Variable map_order : list string -> list string.
Hypothesis map_order_perm : forall l, map_order l ≡ₚ l.

Implicit Types (s : state E).

(** [addr] answered that it serves; or it answered something else, so many times;
    or there is no connecting to it. *)
Definition served (addr : string) (l : list (string * result ServingStatus)) : Prop := (addr, Ok SERVING) ∈ l.

Definition refusals (addr : string) (l : list (string * result ServingStatus)) : nat :=
  length (filter (fun c => c.1 = addr /\ c.2 <> Ok SERVING) l).

Definition unreachable (addr : string) : Prop := is_ok (grpc_NewClient addr) = false.

(** Nobody is asked again after it served. *)
Definition settled (l : list (string * result ServingStatus)) : Prop := forall addr l1 l2,
  l = l1 ++ (addr, Ok SERVING) :: l2 -> addr ∉ map fst l2.

Lemma settled_nil : settled [].
Proof. by intros addr [|] l2. Qed.

Lemma settled_app l k : settled l -> settled k -> (forall addr, served addr l -> addr ∉ map fst k) -> settled (l ++ k).
Proof.
  intros Hl Hk Hlk addr l1 l2 He. apply app_eq_inv in He as [(m & -> & He)|(m & -> & He)]; [|by eapply Hk].
  destruct m as [|x m]; cbn in He; [by apply (Hk addr [] l2)|]. injection He as <- ->. rewrite map_app, elem_of_app.
  intros [Hx|Hx]; [by apply (Hl addr l1 m)|]. apply (Hlk addr); [|done]. apply elem_of_app. right. left.
Qed.

Lemma refusals_app addr l1 l2 : refusals addr (l1 ++ l2) = (refusals addr l1 + refusals addr l2)%nat.
Proof. unfold refusals. by rewrite filter_app, length_app. Qed.

(** One check: the RPC's answer is what counts. *)
Lemma run_checkDep addr s : exists e new ok, checkDepHealth addr s = (mkState e (answers s ++ new) (waits s), Returned (Ok ok)) /\
  Forall (fun a => a.1 = addr) new /\ (length new <= 1)%nat /\
  if ok : bool then served addr new else ~ served addr new /\ (unreachable addr \/ refusals addr new = 1%nat).
Proof.
  unfold checkDepHealth, Check, unreachable, served, refusals. destruct (grpc_NewClient addr) as [u|err] eqn:Ec.
  - destruct (grpc_Check (env s) addr) as [e r] eqn:Er. exists e, [(addr, r)], (bool_decide (r = Ok SERVING)).
    assert (filter (fun c : string * result ServingStatus => c.1 = addr /\ c.2 <> Ok SERVING) [(addr, r)] = if bool_decide (r = Ok SERVING) then [] else [(addr, r)]) as Hf.
    { rewrite filter_cons, filter_nil. case_bool_decide; case_decide; naive_solver. }
    split; [|split; [by repeat constructor|]; split; [cbn; lia|]].
    + unfold attempt, mbind at 1, Prog_bind at 1. rewrite Er. f_equal. destruct r as [[]|]; by (case_bool_decide; try done).
    + rewrite Hf. case_bool_decide; [subst; apply list_elem_of_here|]. split; [|by right]. rewrite list_elem_of_singleton. congruence.
  - exists (env s), [], false. rewrite app_nil_r. destruct s. split; [done|].
    split; [constructor|]. split; [cbn; lia|]. split; [apply not_elem_of_nil|by left].
Qed.

(** A round checks each address once; [healthy] are those that served. *)
Lemma run_round l s : NoDup l -> exists e new healthy, check_round l s = (mkState e (answers s ++ new) (waits s), Returned (Ok healthy)) /\
  (forall addr r, (addr, r) ∈ new -> addr ∈ l) /\
  (forall addr, addr ∈ healthy <-> served addr new) /\
  (forall addr, addr ∈ l -> addr ∉ healthy -> unreachable addr \/ (1 <= refusals addr new)%nat) /\
  settled new.
Proof.
  revert s. induction l as [|a l IH]; intros s Hn; cbn [check_round].
  { exists (env s), [], []. rewrite app_nil_r. split; [by destruct s|]. split; [intros addr r Hx; by apply elem_of_nil in Hx|].
    split; [intros addr; split; intros Hx; by apply elem_of_nil in Hx|].
    split; [intros addr Hx; by apply elem_of_nil in Hx|apply settled_nil]. }
  apply NoDup_cons in Hn as [Ha Hn]. destruct (run_checkDep a s) as (e1 & new1 & ok & E1 & Hf1 & Hl1 & Hok). rewrite (run_bind _ _ _ _ _ E1).
  destruct (IH (mkState e1 (answers s ++ new1) (waits s)) Hn) as (e2 & new & healthy & E2 & Hin & Hh & Hr & Hs). rewrite (run_bind _ _ _ _ _ E2).
  cbn [answers waits] in *. rewrite <- app_assoc. exists e2, (new1 ++ new), (if ok then a :: healthy else healthy). split; [reflexivity|].
  assert (forall addr r, (addr, r) ∈ new1 -> addr = a) as H1 by (intros addr r Hx; rewrite Forall_forall in Hf1; by apply (Hf1 _ Hx)).
  split; [intros addr r [Hx|Hx]%elem_of_app; [rewrite (H1 _ _ Hx); left|right; eauto]|]. split; [|split].
  - intros addr. unfold served in *. rewrite elem_of_app. destruct ok; rewrite ?elem_of_cons, Hh; split; naive_solver.
  - intros addr Haddr Hnot. rewrite refusals_app. apply elem_of_cons in Haddr as [->|Haddr].
    + destruct ok; [by destruct Hnot; left|]. destruct Hok as [_ [?|Hk]]; [by left|]. right. lia.
    + destruct (Hr addr Haddr) as [?|?]; [|by left|right; lia]. destruct ok; [|done]. intros Hx. apply Hnot. by right.
  - apply settled_app; [|done|].
    + intros addr [|z l1] l2 He; destruct new1 as [|x [|y k]]; cbn in He, Hl1; try (lia || done).
      * injection He as -> <-. apply not_elem_of_nil.
      * injection He as -> He. by destruct l1.
    + intros addr Hx Hy. rewrite (H1 _ _ Hx) in Hy. apply list_elem_of_fmap in Hy as ([a' r] & -> & Hy). by apply Ha, (Hin a' r).
Qed.

(** The delays double up to the maximum. *)
Definition delay (retryDelay maxDelay : Z) (k : nat) : Z := Z.min maxDelay (retryDelay * 2 ^ Z.of_nat k).

Lemma delay_next r m k : 0 <= r <= m -> m < 2 ^ 62 ->
  delay (if m <? i64 (r * 2) then m else i64 (r * 2)) m k = delay r m (S k).
Proof.
  intros Hr Hm. unfold swrap. rewrite Z.mod_small by (change (2 ^ (64 - 1)) with (2 * 2 ^ 62); lia).
  replace (r * 2 + _ - _) with (r * 2) by lia. unfold delay. rewrite Nat2Z.inj_succ, Z.pow_succ_r by lia.
  assert (0 < 2 ^ Z.of_nat k) by (apply Z.pow_pos_nonneg; lia). destruct (Z.ltb_spec m (r * 2)); [|f_equal; lia].
  rewrite !Z.min_l by nia. done.
Qed.

(** A wait that the timer ended. *)
Definition timed (w : Z * option error) : Prop := w.2 = None.

(** How a loop over [remaining] ended. *)
Definition loop_end (rounds : nat) (remaining : list string) (new : list (string * result ServingStatus)) (ws : list (Z * option error))
    (o : outcome unit) : Prop :=
  match o with
  | Returned (Ok _) => (forall dep, dep ∈ remaining -> served dep new) /\ Forall timed ws
  | Returned (Err e) => exists ws0 d err dep, ws = ws0 ++ [(d, Some err)] /\ Forall timed ws0 /\
      e = Wrapf "retry canceled for timeout: %w" [] err /\ dep ∈ remaining /\ ~ served dep new
  | Blocked => length ws = rounds /\ Forall timed ws /\
      (remaining <> [] \/ rounds <> 0%nat -> exists dep, dep ∈ remaining /\ ~ served dep new /\ (unreachable dep \/ (rounds <= refusals dep new)%nat))
  | Panicked => False
  end.

Lemma next_delay r m : 0 <= r <= m -> m < 2 ^ 62 -> 0 <= (if m <? i64 (r * 2) then m else i64 (r * 2)) <= m.
Proof.
  intros Hr Hm. destruct (Z.ltb_spec m (i64 (r * 2))); [lia|]. unfold swrap in *.
  rewrite Z.mod_small in * by (change (2 ^ (64 - 1)) with (2 * 2 ^ 62); lia). lia.
Qed.

(** A round after which some of [remaining] are [left], and the rest of the loop. *)
Lemma loop_end_cons rounds remaining (healthy : list string) new new2 d ws o :
  (forall addr, addr ∈ healthy <-> served addr new) ->
  (forall addr, addr ∈ remaining -> addr ∉ healthy -> unreachable addr \/ (1 <= refusals addr new)%nat) ->
  let left := filter (fun addr => addr ∉ healthy) remaining in left <> [] ->
  loop_end rounds left new2 ws o -> loop_end (S rounds) remaining (new ++ new2) ((d, None) :: ws) o.
Proof.
  intros Hh Hr left Hne He. assert (forall dep, dep ∈ left <-> dep ∈ remaining /\ ~ served dep new) as Hleft.
  { intros dep. unfold left. rewrite list_elem_of_filter, Hh. tauto. }
  assert (forall dep, served dep (new ++ new2) <-> served dep new \/ served dep new2) as Hs by (intros; apply elem_of_app).
  destruct o as [[u|e]| |]; cbn in He |- *; [..|done].
  - destruct He as [He Hw]. split; [|by constructor]. intros dep Hd. rewrite Hs. destruct (decide (dep ∈ healthy)) as [Hi|Hi]; [left; by apply Hh|].
    right. apply He, Hleft. split; [done|]. by rewrite <- Hh.
  - destruct He as (ws0 & d' & err & dep & -> & Hw & -> & Hd & Hn). apply Hleft in Hd as [Hd Hn1].
    exists ((d, None) :: ws0), d', err, dep. rewrite Hs. split; [done|]. split; [by constructor|]. tauto.
  - destruct He as (Hl & Hw & He). split; [lia|]. split; [by constructor|]. intros _. destruct He as (dep & Hd & Hn & Hk); [by left|].
    apply Hleft in Hd as [Hd Hn1]. exists dep. rewrite Hs, refusals_app. split; [done|]. split; [tauto|].
    destruct Hk as [?|Hk]; [by left|]. destruct (Hr dep Hd) as [?|?]; [by rewrite Hh|by left|right; lia].
Qed.

Lemma run_loop rounds remaining r m s : NoDup remaining -> 0 <= r <= m -> m < 2 ^ 62 ->
  exists s' o new ws, wait_loop map_order rounds remaining r m s = (s', o) /\
    answers s' = answers s ++ new /\ waits s' = waits s ++ ws /\
    (forall k d stop, ws !! k = Some (d, stop) -> d = delay r m k) /\
    (forall addr x, (addr, x) ∈ new -> addr ∈ remaining) /\
    settled new /\
    loop_end rounds remaining new ws o.
Proof.
  intros Hnd Hr Hm. revert remaining r s Hnd Hr. induction rounds as [|n IH]; intros remaining r s Hnd Hr; cbn [wait_loop].
  { exists s, Blocked, [], []. rewrite !app_nil_r. split; [done|]. split; [done|]. split; [done|]. split; [done|].
    split; [by intros ? ? ?%elem_of_nil|]. split; [apply settled_nil|]. split; [done|]. split; [constructor|]. intros Hne. destruct remaining as [|dep l]; [by destruct Hne|].
    exists dep. split; [left|]. split; [apply not_elem_of_nil|]. right. lia. }
  destruct (run_round (map_order remaining) s) as (e & new & healthy & E1 & Hin & Hh & Hk & Hs); [by rewrite map_order_perm|].
  rewrite (run_bind _ _ _ _ _ E1). cbv zeta. setoid_rewrite map_order_perm in Hin. setoid_rewrite map_order_perm in Hk.
  pose proof (loop_end_cons n remaining healthy new) as Hcons. cbv zeta in Hcons. specialize Hcons with (1 := Hh) (2 := Hk).
  set (left := filter (fun addr => addr ∉ healthy) remaining) in *.
  assert (forall dep, dep ∈ left <-> dep ∈ remaining /\ ~ served dep new) as Hleft.
  { intros dep. unfold left. rewrite list_elem_of_filter, Hh. tauto. }
  destruct left as [|d0 rest] eqn:Ef.
  { eexists _, _, new, []. rewrite app_nil_r. split; [reflexivity|]. cbn. split_and!; try done. intros dep Hd.
    apply Hh. destruct (decide (dep ∈ healthy)) as [|Hn]; [done|]. rewrite Hh in Hn. destruct (Hleft dep) as [_ Hl]. by apply elem_of_nil in Hl. }
  rewrite <- Ef in *. assert (left <> []) as Hne by by rewrite Ef. clear Ef.
  unfold wait. unfold mbind at 1, Prog_bind at 1. cbn [env answers waits]. destruct (select e r) as [e2 stop]. destruct stop as [err|].
  { eexists _, _, new, [(r, Some err)]. split; [reflexivity|]. cbn. split_and!; try done.
    - intros [|k] d stop Hd; [|done]. cbn in Hd. injection Hd as <- <-. unfold delay. cbn. lia.
    - destruct left as [|dep l]; [done|]. exists [], r, err, dep. split; [done|]. split; [constructor|]. split; [done|]. apply Hleft. left. }
  destruct (IH left _ (mkState e2 (answers s ++ new) (waits s ++ [(r, None)])) (NoDup_filter _ _ Hnd) (next_delay r m Hr Hm))
    as (s' & o & new2 & ws & E2 & Hc & Hw & Hd & Hin2 & Hs2 & Ho).
  exists s', o, (new ++ new2), ((r, None) :: ws). split; [exact E2|]. cbn in Hc, Hw. rewrite Hc, Hw, <- !app_assoc. split_and!; try done.
  - intros [|k] d stop Hx; cbn in Hx; [injection Hx as <- <-; unfold delay; cbn; lia|]. rewrite (Hd k d stop Hx). by apply delay_next.
  - intros addr x [Hx|Hx]%elem_of_app; [by eapply Hin|]. apply Hin2, Hleft in Hx. by destruct Hx.
  - apply settled_app; [done..|]. intros addr Hx Hy. apply list_elem_of_fmap in Hy as ([a' x] & -> & Hy).
    apply Hin2, Hleft in Hy. by destruct Hy.
  - by apply Hcons.
Qed.
(** C40: a plugin starts only after every plugin it needs answered that it
    serves. The wait returns exactly when each dependency has answered SERVING
    once, which it is asked for only until then; between the rounds of checks it
    waits, with delays that double up to the maximum. It fails only when its
    context is done during a wait, with the context's error and a dependency that
    has not served; and it is still waiting after some rounds only if all its
    waits timed out and one dependency has answered something else, or cannot be
    connected to, in every one of them. *)
Theorem WaitForDependencies_outcome rounds retryDelay maxDelay dependencies s :
  0 <= retryDelay <= maxDelay -> maxDelay < 2 ^ 62 ->
  exists s' o new ws, WaitForDependencies map_order rounds retryDelay maxDelay dependencies s = (s', o) /\
    answers s' = answers s ++ new /\ waits s' = waits s ++ ws /\
    (forall k d stop, ws !! k = Some (d, stop) -> d = Z.min maxDelay (retryDelay * 2 ^ Z.of_nat k)) /\
    (forall addr r, (addr, r) ∈ new -> addr ∈ dependencies) /\ settled new /\
    match o with
    | Returned (Ok _) => (forall dep, dep ∈ dependencies -> (dep, Ok SERVING) ∈ new) /\ Forall (fun w => w.2 = None) ws
    | Returned (Err e) => exists ws0 d err dep, ws = ws0 ++ [(d, Some err)] /\ Forall (fun w => w.2 = None) ws0 /\
        e = Wrapf "retry canceled for timeout: %w" [] err /\ dep ∈ dependencies /\ (dep, Ok SERVING) ∉ new
    | Blocked => length ws = rounds /\ Forall (fun w => w.2 = None) ws /\
        (rounds <> 0%nat -> exists dep, dep ∈ dependencies /\ (dep, Ok SERVING) ∉ new /\
           (unreachable dep \/ (rounds <= refusals dep new)%nat))
    | Panicked => False
    end.
Proof.
  intros Hr Hm. destruct (run_loop rounds (remove_dups dependencies) retryDelay maxDelay s (NoDup_remove_dups _) Hr Hm)
    as (s' & o & new & ws & E1 & Hc & Hw & Hd & Hin & Hs & Ho).
  setoid_rewrite elem_of_remove_dups in Hin. exists s', o, new, ws. split_and!; try done.
  destruct o as [[u|err]| |]; cbn in Ho; [..|done].
  - destruct Ho as [Ho Hf]. split; [|done]. intros dep Hdep. apply Ho. by apply elem_of_remove_dups.
  - destruct Ho as (ws0 & d & x & dep & ? & ? & ? & Hdep & ?). exists ws0, d, x, dep. by rewrite elem_of_remove_dups in Hdep.
  - destruct Ho as (? & ? & Ho). split; [done|]. split; [done|]. intros Hne. destruct Ho as (dep & Hdep & ?); [by right|].
    exists dep. by rewrite elem_of_remove_dups in Hdep.
Qed.

End Spec.

Module Runs.

(** Two plugins, of which the second is healthy from the third check on. *)
#[export] Instance plugins : HealthEnv nat :=
  {| grpc_NewClient := fun _ => Ok tt;
     grpc_Check := fun e addr => (S e, Ok (if String.eqb addr "ipfs" || (4 <=? e)%nat then SERVING else NOT_SERVING));
     select := fun e _ => (e, None) |}.

Definition deps : list string := ["ipfs"; "ctrng"; "ipfs"].

Definition waited : state nat := Eval vm_compute in (WaitForDependencies (fun l => l) 10 1 60 deps (mkState 0%nat [] [])).1.

Example waited_run : WaitForDependencies (fun l => l) 10 1 60 deps (mkState 0%nat [] []) = (waited, Returned (Ok tt)) /\
  waits waited = [(1, None); (2, None); (4, None)] /\ last (answers waited) = Some ("ctrng", Ok SERVING).
Proof. vm_compute. done. Qed.

Lemma WaitForDependencies_outcome_witness : exists new, answers waited = new /\ ("ctrng", Ok SERVING) ∈ new.
Proof.
  destruct (WaitForDependencies_outcome (fun l => l) (fun l => Permutation_refl l) 10 1 60 deps (mkState 0%nat [] []))
    as (s' & o & new & ws & E & Hc & _ & _ & _ & _ & Ho); [lia|lia|].
  exists new. assert ((s', o) = (waited, Returned (Ok tt))) as Es by (rewrite <- E; vm_compute; reflexivity).
  injection Es as -> ->. split; [exact Hc|]. apply (proj1 Ho). right. left.
Defined.

End Runs.
