(* ===== verification/Metrics.v ===== *)
(** * Metrics (the metrics.go files, pkg/core/metrics.go)

    The collectors that the packages declare and register when the process
    starts, and the interceptor that counts every RPC. The registry is
    Prometheus's, the parameter [Registry]; what a collector does with its
    observations is left out. *)

From S2P Require Import Prelude GoStrings Errors State.

(** ** Collectors *)

Inductive collector_kind := Counter | CounterVec | Histogram | HistogramVec | GaugeVec | GaugeFunc.

(** Explicit buckets are integers everywhere in the source. *)
Inductive buckets := NoBuckets | DefBuckets | Explicit (bounds : list Z).

#[export] Instance kind_eq_dec : EqDecision collector_kind.
Proof. solve_decision. Defined.

#[export] Instance buckets_eq_dec : EqDecision buckets.
Proof. solve_decision. Defined.

Record collector := mkCollector {
  kind : collector_kind;
  Namespace : string;
  Subsystem : string;
  Name : string;
  Help : string;
  Buckets : buckets;
  labels : list string;
}.

#[export] Instance collector_eq_dec : EqDecision collector.
Proof. solve_decision. Defined.

(** [prometheus.BuildFQName]: the three parts are joined by underscores. *)
Definition fqName (c : collector) : string := Join "_" [Namespace c; Subsystem c; Name c].

(** ** What each package declares, and the [MustRegister] calls of its [init] *)

(** *** core/metrics.go *)

Definition pluginRPCRequestsTotal : collector :=
  mkCollector CounterVec "op" "plugin" "rpc_requests_total"
    "Total number of plugin gRPC requests." NoBuckets ["plugin"; "method"; "code"].
Definition pluginRPCDurationSeconds : collector :=
  mkCollector HistogramVec "op" "plugin" "rpc_duration_seconds"
    "Duration of plugin gRPC requests in seconds." DefBuckets ["plugin"; "method"; "code"].
Definition core_init : list (list collector) :=
  [[pluginRPCRequestsTotal; pluginRPCDurationSeconds]].

(** *** oauth/metrics.go *)

Definition authStatusCollector : collector :=
  mkCollector GaugeVec "op" "rand_aptos_orb" "auth_status"
    "Status of the Aptos Orbital API authentication" NoBuckets ["endpoint"].
Definition authExpireCollector : collector :=
  mkCollector GaugeVec "op" "rand_aptos_orb" "auth_expire"
    "Expiration time of the Aptos Orbital API access token" NoBuckets ["endpoint"].
Definition oauth_init : list (list collector) :=
  [[authStatusCollector];
   [authExpireCollector]].

(** *** plugin/aptosorbital/metrics.go *)

Definition requestDuration : collector :=
  mkCollector Histogram "op" "rand_aptos_orb" "req_duration"
    "Duration of requests to the Aptos Orbital API" DefBuckets [].
Definition requestTotal : collector :=
  mkCollector CounterVec "op" "rand_aptos_orb" "req_total"
    "Total number of requests to the Aptos Orbital API" NoBuckets ["status"].
Definition trngChunksTotal : collector :=
  mkCollector Counter "op" "rand_aptos_orb" "trng_chunks_total"
    "Total number of TRNG chunks returned by Aptos Orbital." NoBuckets [].
Definition trngBytesTotal : collector :=
  mkCollector Counter "op" "rand_aptos_orb" "trng_bytes_total"
    "Total number of TRNG bytes returned by Aptos Orbital." NoBuckets [].
Definition trngChunksPerRequest : collector :=
  mkCollector Histogram "op" "rand_aptos_orb" "trng_chunks_per_request"
    "Distribution of TRNG chunks returned per successful Aptos Orbital request." (Explicit [1; 2; 4; 8; 16; 32; 64; 128; 256; 512; 1024; 1500]) [].
Definition aptosorbital_init : list (list collector) :=
  [[requestDuration; requestTotal; trngChunksTotal; trngBytesTotal; trngChunksPerRequest]].

(** *** plugin/beacon/metrics.go *)

Definition execDuration : collector :=
  mkCollector HistogramVec "op" "beacon" "exec_duration_seconds"
    "Total time to build, add annd publish one beacon block" DefBuckets ["beacon"].
Definition execTotal : collector :=
  mkCollector CounterVec "op" "beacon" "exec_total"
    "Total executions of beacon builds" NoBuckets ["beacon"; "status"].
Definition loadLastDuration : collector :=
  mkCollector HistogramVec "op" "beacon" "load_last_block_duration_seconds"
    "Duration to load and unmarshal the last beacon block" DefBuckets ["beacon"].
Definition loadLastTotal : collector :=
  mkCollector CounterVec "op" "beacon" "load_last_block_total"
    "Total attempts to load the last beacon block" NoBuckets ["beacon"; "status"].
Definition ctrngDuration : collector :=
  mkCollector HistogramVec "op" "beacon" "ctrng_load_duration_seconds"
    "Timee to get CTRNG values for a beacon execution" DefBuckets ["beacon"].
Definition ctrngTotal : collector :=
  mkCollector CounterVec "op" "beacon" "ctrng_load_total"
    "Total CTRNG retrieval attempts (per beacon execution)" NoBuckets ["beacon"; "status"].
Definition ipfsAddDuration : collector :=
  mkCollector HistogramVec "op" "beacon" "ipfs_add_duration_seconds"
    "Duration of ipfs add of a beacon block" DefBuckets ["beacon"].
Definition ipfsAddTotal : collector :=
  mkCollector CounterVec "op" "beacon" "ipfs_add_total"
    "Total ipfs add attempts of beacon block" NoBuckets ["beacon"; "status"].
Definition ipnsPublishDuration : collector :=
  mkCollector HistogramVec "op" "beacon" "ipns_publish_duration_seconds"
    "Duration of IPNS publish of block to beacon" DefBuckets ["beacon"].
Definition ipnsPublishTotal : collector :=
  mkCollector CounterVec "op" "beacon" "ipns_publish_total"
    "Total IPNS publish attempts of block to beacon" NoBuckets ["beacon"; "status"].
Definition schedTickTotal : collector :=
  mkCollector Counter "op" "beacon" "scheduler_tick_total"
    "Number of periodic scheduler ticks" NoBuckets [].
Definition scheduledExecutionsTotal : collector :=
  mkCollector CounterVec "op" "beacon" "scheduled_executions_total"
    "Number of beacon executions scheduled" NoBuckets ["beacon"].
Definition skippedTotal : collector :=
  mkCollector CounterVec "op" "beacon" "skipped_total"
    "Number of beacons execeutions skipped by scheduler" NoBuckets ["beacon"; "reason"].
Definition lastSequence : collector :=
  mkCollector GaugeVec "op" "beacon" "last_sequence"
    "Last published sequence number observed locally" NoBuckets ["beacon"].
Definition lastTimestampSeconds : collector :=
  mkCollector GaugeVec "op" "beacon" "last_timestamp_seconds"
    "Last published beacon block timestamp (seconds since epoch)" NoBuckets ["beacon"].
Definition genesisStepTotal : collector :=
  mkCollector CounterVec "op" "beacon" "genesis_step_total"
    "Steps during two-step genesis: temp_add|temp_publish|final_add|final_publish" NoBuckets ["beacon"; "step"; "status"].
Definition genesisStepDuration : collector :=
  mkCollector HistogramVec "op" "beacon" "genesis_step_duration_seconds"
    "Duration of each genesis step" DefBuckets ["beacon"; "step"].
Definition queueDepth : collector :=
  mkCollector GaugeFunc "op" "beacon" "queue_depth"
    "Current number of queued beacon executions" NoBuckets [].
Definition beacon_init : list (list collector) :=
  [[execDuration; execTotal];
   [loadLastDuration; loadLastTotal];
   [ctrngDuration; ctrngTotal];
   [ipfsAddDuration; ipfsAddTotal];
   [ipnsPublishDuration; ipnsPublishTotal];
   [schedTickTotal; scheduledExecutionsTotal];
   [lastSequence; lastTimestampSeconds];
   [genesisStepTotal; genesisStepDuration]].

(** *** plugin/ipfs/metrics.go *)

Definition addDuration : collector :=
  mkCollector HistogramVec "op" "ipfs" "add_duration_seconds"
    "Total time to add (and pin & cache) a block with Add RPC" DefBuckets ["status"].
Definition addBytesTotal : collector :=
  mkCollector Counter "op" "ipfs" "add_bytes_total"
    "Total bytes submitted to Add RPC" NoBuckets [].
Definition addTotal : collector :=
  mkCollector CounterVec "op" "ipfs" "add_total"
    "Total Add RPC attempts" NoBuckets ["status"].
Definition getDuration : collector :=
  mkCollector HistogramVec "op" "ipfs" "get_duration_seconds"
    "End-to-end time of Get RPC (including cache check, resolve, fetch, read)" DefBuckets ["source"; "namespace"; "status"].
Definition getBytesTotal : collector :=
  mkCollector Counter "op" "ipfs" "get_bytes_total"
    "Total bytes returned by Get" NoBuckets [].
Definition getTotal : collector :=
  mkCollector CounterVec "op" "ipfs" "get_total"
    "Total Get RPC attempts" NoBuckets ["source"; "namespace"; "status"].
Definition publishDuration : collector :=
  mkCollector HistogramVec "op" "ipfs" "publish_duration_seconds"
    "End-to-end time of Publish RPC" DefBuckets ["status"].
Definition publishTotal : collector :=
  mkCollector CounterVec "op" "ipfs" "publish_total"
    "Total Publish RPC attempts" NoBuckets ["status"].
Definition deleteDuration : collector :=
  mkCollector HistogramVec "op" "ipfs" "delete_duration_seconds"
    "End-to-end time of Delete RPC" DefBuckets ["status"].
Definition deleteTotal : collector :=
  mkCollector CounterVec "op" "ipfs" "delete_total"
    "Total Delete RPC attempts" NoBuckets ["status"].
Definition cacheHitsTotal : collector :=
  mkCollector CounterVec "op" "ipfs" "cache_hits_total"
    "Cache hits by namespace" NoBuckets ["namespace"].
Definition cacheMissesTotal : collector :=
  mkCollector CounterVec "op" "ipfs" "cache_misses_total"
    "Cache misses by namespace" NoBuckets ["namespace"].
Definition cacheItems : collector :=
  mkCollector GaugeVec "op" "ipfs" "cache_items"
    "Current items stored in caches" NoBuckets ["kind"].
Definition ipfs_init : list (list collector) :=
  [[addDuration; addBytesTotal; addTotal; getDuration; getBytesTotal; getTotal; publishDuration; publishTotal; deleteDuration; deleteTotal; cacheHitsTotal; cacheMissesTotal; cacheItems]].
(** ** The registry *)

Class Registry (R : Type) := { Register : R -> collector -> R * option error }.

(** Names of letters, digits and underscores that do not start with a digit. *)
Definition valid_name (s : string) : bool :=
  match s with
  | "" => false
  | String c _ => negb (is_digit c) && all_chars (fun c => alnum c || Ascii.eqb c "_") s
  end.

Definition valid (c : collector) : bool := valid_name (fqName c) && forallb valid_name (labels c).

(** A collector is accepted if its names are valid, once. *)
Class RegistryLaws (R : Type) `{Registry R} (registered : R -> gset string) := {
  Register_new : forall r c, valid c = true -> fqName c ∉ registered r ->
    (Register r c).2 = None /\ registered (Register r c).1 = {[fqName c]} ∪ registered r;
  Register_duplicate : forall r c, fqName c ∈ registered r -> exists e, (Register r c).2 = Some e;
}.

Section Startup.
Context {R : Type} `{Registry R}.

Abbreviation M := (Prog R).

Fixpoint MustRegister (cs : list collector) : M unit :=
  match cs with
  | [] => mret tt
  | c :: cs => fun r =>
      match Register r c with
      | (r, Some _) => (r, Panicked)
      | (r, None) => MustRegister cs r
      end
  end.

Fixpoint run_init (calls : list (list collector)) : M unit :=
  match calls with
  | [] => mret tt
  | cs :: calls => _ ← MustRegister cs; run_init calls
  end.

(** The packages of the process are initialised one after the other. *)
Fixpoint startup (inits : list (list (list collector))) : M unit :=
  match inits with
  | [] => mret tt
  | calls :: inits => _ ← run_init calls; startup inits
  end.

Definition RegisterQueueDepthGauge : M unit := MustRegister [queueDepth].

Context (registered : R -> gset string) `{!RegistryLaws R registered}.

Lemma MustRegister_new cs : forall r, forallb valid cs = true -> NoDup (map fqName cs) -> (forall c, c ∈ cs -> fqName c ∉ registered r) ->
  exists r', MustRegister cs r = (r', Returned (Ok tt)) /\ registered r' = list_to_set (map fqName cs) ∪ registered r.
Proof.
  induction cs as [|c cs IH]; intros r Hv Hn Hf; [exists r; split; [done|cbn; set_solver]|].
  cbn [forallb] in Hv. apply andb_true_iff in Hv as [Hvc Hv].
  cbn [map] in Hn. apply NoDup_cons in Hn as [Hc Hn]. destruct (Register_new r c Hvc) as [He Hr]; [apply Hf; by left|].
  cbn [MustRegister]. destruct (Register r c) as [r1 [e|]]; [done|]. cbn in Hr.
  destruct (IH r1) as (r' & Hm & Hr'); [done..| |exists r'; split; [done|rewrite Hr', Hr; cbn; set_solver]].
  intros c' Hc'. rewrite Hr. apply not_elem_of_union. split; [|apply Hf; by right].
  intros Heq. apply elem_of_singleton in Heq. apply Hc, list_elem_of_fmap. by exists c'.
Qed.

(** Registering in several calls is registering in one. *)
Lemma MustRegister_app cs1 cs2 r : MustRegister (cs1 ++ cs2) r = (_ ← MustRegister cs1; MustRegister cs2) r.
Proof.
  revert r. induction cs1 as [|c cs1 IH]; intros r; [done|]. cbn. unfold mbind, Prog_bind.
  destruct (Register r c) as [r1 [e|]]; [done|apply IH].
Qed.

Lemma run_init_concat calls r : run_init calls r = MustRegister (concat calls) r.
Proof.
  revert r. induction calls as [|cs calls IH]; intros r; [done|]. cbn [run_init concat]. rewrite MustRegister_app.
  unfold mbind, Prog_bind. destruct (MustRegister cs r) as [r1 [[a|e]| |]]; [apply IH|done..].
Qed.

Lemma startup_concat inits r : startup inits r = MustRegister (concat (map (@concat _) inits)) r.
Proof.
  revert r. induction inits as [|calls inits IH]; intros r; [done|]. cbn [startup map concat]. rewrite MustRegister_app.
  unfold mbind, Prog_bind. rewrite run_init_concat. destruct (MustRegister (concat calls) r) as [r1 [[a|e]| |]]; [apply IH|done..].
Qed.

Definition packages : list (list (list collector)) := [core_init; oauth_init; aptosorbital_init; beacon_init; ipfs_init].

Definition declared : list collector :=
  [pluginRPCRequestsTotal; pluginRPCDurationSeconds; authStatusCollector; authExpireCollector; requestDuration; requestTotal; trngChunksTotal; trngBytesTotal; trngChunksPerRequest; execDuration; execTotal; loadLastDuration; loadLastTotal; ctrngDuration; ctrngTotal; ipfsAddDuration; ipfsAddTotal; ipnsPublishDuration; ipnsPublishTotal; schedTickTotal; scheduledExecutionsTotal; skippedTotal; lastSequence; lastTimestampSeconds; genesisStepTotal; genesisStepDuration; queueDepth; addDuration; addBytesTotal; addTotal; getDuration; getBytesTotal; getTotal; publishDuration; publishTotal; deleteDuration; deleteTotal; cacheHitsTotal; cacheMissesTotal; cacheItems].

(** What the packages register, and the scheduler's gauge. *)
Definition exported : list collector := concat (map (@concat _) packages) ++ [queueDepth].

Lemma names_distinct : NoDup (map fqName exported).
Proof. apply (bool_decide_unpack _). vm_compute. exact I. Qed.

Lemma exported_valid c : c ∈ exported -> valid c = true.
Proof. revert c. apply Forall_forall, (bool_decide_unpack _). vm_compute. exact I. Qed.

Lemma exported_declared : Forall (fun c => c = skippedTotal \/ c ∈ exported) declared /\ fqName skippedTotal ∉ map fqName exported.
Proof. apply (bool_decide_unpack _). vm_compute. exact I. Qed.

Lemma concat_perm {X} (l l' : list (list X)) : l ≡ₚ l' -> concat l ≡ₚ concat l'.
Proof.
  induction 1 as [|x l l' Hl IH|x y l|l1 l2 l3 H12 IH12 H23 IH23]; cbn; [done|by rewrite IH| |by etrans].
  by rewrite !app_assoc, (Permutation_app_comm y x).
Qed.

(** C29: the process comes up with its metrics, and with one scheduler at most.
    In whatever order the packages are initialised, no registration panics; once
    the scheduler has added its gauge, every declared collector is exported but
    [skipped_total], which [init] forgets; a second scheduler in the process
    panics. *)
Theorem startup_registers inits (r : R) : inits ≡ₚ packages -> (forall c, c ∈ declared -> fqName c ∉ registered r) ->
  exists r', (_ ← startup inits; RegisterQueueDepthGauge) r = (r', Returned (Ok tt)) /\
    (forall c, c ∈ declared -> fqName c ∈ registered r' <-> c <> skippedTotal) /\
    registered r ⊆ registered r' /\ (RegisterQueueDepthGauge r').2 = Panicked.
Proof.
  intros Hp Hr. set (l := concat (map (@concat _) inits) ++ [queueDepth]).
  assert (l ≡ₚ exported) as Hl by (unfold l, exported; by rewrite (concat_perm _ _ (Permutation_map _ Hp))).
  destruct exported_declared as [Hd Hsk]. rewrite Forall_forall in Hd.
  assert (Hin : forall c, c ∈ exported -> c ∈ declared).
  { apply Forall_forall, (bool_decide_unpack _). vm_compute. exact I. }
  destruct (MustRegister_new l r) as (r' & Hm & Hr').
  { apply forallb_forall. intros c Hc%list_elem_of_In. apply exported_valid. by rewrite <- Hl. }
  { rewrite (Permutation_map fqName Hl). apply names_distinct. }
  { intros c Hc. apply Hr, Hin. by rewrite <- Hl. }
  exists r'. split.
  { rewrite <- Hm. unfold l. rewrite MustRegister_app. unfold mbind, Prog_bind. by rewrite startup_concat. }
  split; [|split; [rewrite Hr'; set_solver|]].
  - intros c Hc. specialize (Hd c Hc). specialize (Hr c Hc). rewrite Hr', elem_of_union, elem_of_list_to_set.
    rewrite (Permutation_map fqName Hl). split; [by intros [?|?] ->|]. intros Hne. left.
    destruct Hd as [|Hd]; [done|]. apply list_elem_of_fmap. by exists c.
  - unfold RegisterQueueDepthGauge. cbn [MustRegister]. destruct (Register_duplicate r' queueDepth) as [e He].
    + rewrite Hr'. apply elem_of_union_l, elem_of_list_to_set, list_elem_of_fmap. exists queueDepth. split; [done|]. set_solver.
    + by destruct (Register r' queueDepth) as [r1 [e1|]].
Qed.

End Startup.

(** ** The interceptor (pkg/core/metrics.go) *)

(** [path.Base] *)
Definition Base (p : string) : string :=
  if String.eqb p "" then "."
  else
    let b := default "" (last (Split slash (TrimRightChar slash p))) in
    if String.eqb b "" then "/" else b.

(** [strings.ToLower] on ASCII. *)
Fixpoint ToLower (s : string) : string :=
  match s with
  | "" => ""
  | String c s => String (if in_range "A" "Z" c then char_of (byte_of c + 32) else c) (ToLower s)
  end.

(** [codes.Code.String] *)
Definition code_String (c : code) : string :=
  match c with
  | Canceled => "Canceled" | Unknown => "Unknown" | InvalidArgument => "InvalidArgument"
  | DeadlineExceeded => "DeadlineExceeded" | NotFound => "NotFound" | AlreadyExists => "AlreadyExists"
  | PermissionDenied => "PermissionDenied" | ResourceExhausted => "ResourceExhausted"
  | FailedPrecondition => "FailedPrecondition" | Unimplemented => "Unimplemented" | Internal => "Internal"
  | Unavailable => "Unavailable" | Unauthenticated => "Unauthenticated"
  end.

(** [status.Code(err).String()]; a nil error is [OK]. *)
Definition result_code {A} (r : result A) : string := match r with Ok _ => "OK" | Err e => code_String (status_code e) end.

Definition shouldSkipRPCMetrics (fullMethod : string) : bool := HasPrefix fullMethod "/grpc.health.v1.Health/".

(** The observations of the two collectors, each with its label values; the
    clock is the interceptor's own. *)
Record meter (C S : Type) := mkMeter {
  app : S;
  clock : C;
  requests : list (list string);
  durations : list (list string * Z);
}.
Arguments mkMeter {C S} app clock requests durations.
Arguments app {C S} m.
Arguments clock {C S} m.
Arguments requests {C S} m.
Arguments durations {C S} m.

Section Interceptor.
Context {C S Req Resp : Type} (now : C -> C * Z).

(** A handler that panics or does not return leaves no observation. *)
Definition UnaryMetricsInterceptor (plugin fullMethod : string) (handler : Req -> Prog S Resp) (req : Req) : Prog (meter C S) Resp := fun m =>
  if shouldSkipRPCMetrics fullMethod then
    let '(a, out) := handler req (app m) in (mkMeter a (clock m) (requests m) (durations m), out)
  else
    let method := Base fullMethod in
    let '(c, started) := now (clock m) in
    let '(a, out) := handler req (app m) in
    match out with
    | Returned r =>
        let code := ToLower (result_code r) in
        let '(c, t) := now c in
        (mkMeter a c (requests m ++ [[plugin; method; code]]) (durations m ++ [([plugin; method; code], t - started)]), out)
    | _ => (mkMeter a c (requests m) (durations m), out)
    end.

(** The name of an RPC is the last part of its path. *)
Lemma Base_method svc name : free_of slash name = true -> name <> "" -> Base ("/" +:+ svc +:+ "/" +:+ name) = name.
Proof.
  intros Hf Hn. unfold Base. change (String.eqb ("/" +:+ _) "") with false. cbv iota.
  assert (TrimRightChar slash ("/" +:+ svc +:+ "/" +:+ name) = "/" +:+ svc +:+ "/" +:+ name) as ->.
  { rewrite <- !append_assoc. rewrite TrimRightChar_append; [|by rewrite TrimRightChar_free]. by rewrite TrimRightChar_free. }
  assert (last (Split slash ("/" +:+ svc +:+ "/" +:+ name)) = Some name) as ->; [|cbn; by apply String.eqb_neq in Hn as ->].
  rewrite <- append_assoc. generalize ("/" +:+ svc). intros p.
  assert (Split slash (p +:+ "/" +:+ name) = Split slash p ++ [name]) as ->; [|apply last_snoc].
  induction p as [|c p IH].
  { change ("" +:+ "/" +:+ name) with ("" +:+ String slash name). rewrite Split_append by done. by rewrite Split_free. }
  rewrite append_cons. cbn [Split]. destruct (Ascii.eqb c slash); [by rewrite IH|]. rewrite IH.
  by destruct (Split slash p) eqn:E; [apply Split_not_nil in E|].
Qed.

Definition health_service := "grpc.health.v1.Health".

Lemma shouldSkip_service svc name : free_of slash svc = true ->
  shouldSkipRPCMetrics ("/" +:+ svc +:+ "/" +:+ name) = String.eqb svc health_service.
Proof.
  intros Hf. unfold shouldSkipRPCMetrics. apply eq_true_iff_eq. rewrite HasPrefix_true, String.eqb_eq. split.
  - intros [r Hr]. injection Hr as Hr.
    assert (Hs : Split slash (svc +:+ String slash name) = Split slash (health_service +:+ String slash r)) by (f_equal; exact Hr).
    rewrite !Split_append in Hs by done. by simplify_eq.
  - intros ->. by exists name.
Qed.

(** C28: metering does not change an RPC, and counts it once. Whatever the handler
    does, the interceptor gives it the request and returns its outcome; an RPC of
    the plugin that returns is counted and timed once, under the plugin, the name
    of the method and the lower-cased status code, and a health check never. *)
Theorem UnaryMetricsInterceptor_counts plugin svc name handler req (m : meter C S) :
  free_of slash svc = true -> free_of slash name = true -> name <> "" ->
  let run := UnaryMetricsInterceptor plugin ("/" +:+ svc +:+ "/" +:+ name) handler req m in
  let l := match run.2 with
           | Returned r => if String.eqb svc health_service then [] else [[plugin; name; ToLower (result_code r)]]
           | _ => []
           end in
  run.2 = (handler req (app m)).2 /\ app run.1 = (handler req (app m)).1 /\
  requests run.1 = requests m ++ l /\ (durations run.1).*1 = (durations m).*1 ++ l.
Proof.
  intros Hs Hf Hn. unfold UnaryMetricsInterceptor. rewrite shouldSkip_service by done.
  destruct (handler req (app m)) as [a out] eqn:Eh. destruct (String.eqb svc health_service).
  - cbn. destruct out; by rewrite !app_nil_r.
  - cbv zeta. rewrite Base_method by done. destruct (now (clock m)) as [c t0].
    destruct out as [r| |]; [|cbn; by rewrite !app_nil_r..]. destruct (now c) as [c1 t1]. cbn. by rewrite fmap_app.
Qed.

End Interceptor.

(** ** A registry, and a service that fails *)

Module Runs.

#[export] Instance names : Registry (gset string) :=
  {| Register := fun r c => if decide (fqName c ∈ r) then (r, Some (Errorf "duplicate metrics collector registration attempted" []))
                            else ({[fqName c]} ∪ r, None) |}.

#[export] Instance names_laws : RegistryLaws (gset string) id.
Proof.
  split; [intros r c _ Hc|intros r c Hc]; cbn.
  - by rewrite decide_False.
  - rewrite decide_True by done. by eexists.
Qed.

(** A registry that holds a collector of the Go runtime. *)
Lemma startup_registers_witness : exists r',
  (_ ← startup (rev packages); RegisterQueueDepthGauge) ({["go_goroutines"]} : gset string) = (r', Returned (Ok tt)) /\
  (forall c, c ∈ declared -> fqName c ∈ r' <-> c <> skippedTotal) /\
  {["go_goroutines"]} ⊆ r' /\ (RegisterQueueDepthGauge r').2 = Panicked.
Proof.
  apply (startup_registers id (rev packages)).
  - symmetry. apply Permutation_rev.
  - apply Forall_forall, (bool_decide_unpack _). vm_compute. exact I.
Defined.

Definition refuse (req : string) : Prog nat string := fun n => (S n, Returned (Err (StatusErr InvalidArgument (Errorf "no %s" [req])))).
Definition idle : meter Z nat := mkMeter 0%nat 0 [] [].

Lemma UnaryMetricsInterceptor_counts_witness :
  let run := UnaryMetricsInterceptor (fun t => (t + 1, t)) "kms" "/plugins.KmsPlugin/Sign" refuse "key" idle in
  app run.1 = 1%nat /\ requests run.1 = [["kms"; "Sign"; "invalidargument"]] /\ (durations run.1).*1 = [["kms"; "Sign"; "invalidargument"]].
Proof.
  destruct (UnaryMetricsInterceptor_counts (fun t => (t + 1, t)) "kms" "plugins.KmsPlugin" "Sign" refuse "key" idle) as (_ & Ha & Hr & Hd);
    [reflexivity..|discriminate|]. split; [exact Ha|]. split; [exact Hr|exact Hd].
Defined.

End Runs.
