(* ===== verification/Mocker.v ===== *)
(** * The mocker (cmd/mocker, pkg/testutils/http_mock.go)

    Stand-ins for the satellite API and its token endpoint, and the network
    between them and the aptosorbital plugin. The source of random bytes is the
    parameter [Rand]. Printing is left out. *)

From S2P Require Import Prelude GoStrings Errors State Codec Json Http GoFloat OAuth Orbital OrbitalSpec.

(** ** main.go *)

(** The strings are ["happy"] and ["offline"]. *)
Inductive Profile := PROFILE_HAPPY_PATH | PROFILE_OFFLINE.

#[export] Instance Profile_eq_dec : EqDecision Profile.
Proof. solve_decision. Defined.

Definition stringToProfile (s : string) : Profile :=
  if String.eqb s "happy" || String.eqb s "load" then PROFILE_HAPPY_PATH
  else if String.eqb s "offline" then PROFILE_OFFLINE
  else PROFILE_HAPPY_PATH.

Record mockerConfig := mkMockerConfig { Service : string; Port : Z; cfg_Profile : Profile }.

(** [env_string] and [env_uint16] are the values viper finds. *)
Definition readFromEnv (env_string : string -> option string) (env_uint16 : string -> option Z) : mockerConfig :=
  mkMockerConfig (default "aptosorbital_api" (env_string "SERVICE")) (default 8000 (env_uint16 "PORT"))
    (stringToProfile (default "happy" (env_string "PROFILE"))).

(** ** testutils/http_mock.go *)

Record mockHandler := mkMockHandler { rotate : bool; responses : list string }.

(** Requests are served one at a time, under the handler's lock. *)
Definition mock_ServeHTTP (m : mockHandler) : mockHandler * http_reply :=
  match responses m with
  | [] => (m, HttpResponse 500 "" None)
  | resp :: rest => (mkMockHandler (rotate m) (if rotate m then rest ++ [resp] else rest), HttpResponse 200 resp None)
  end.

(** ** aptosorbital.go *)

(** [crypto/rand.Read] into a buffer of so many bytes. *)
Class Rand (R : Type) := { rand_Read : R -> nat -> R * result (list Z) }.

Definition generateLocalRandomBytes {R} `{Rand R} (r : R) (n : nat) : R * result (list Z) := rand_Read r n.

Definition quoted (s : string) : string := String dquote (s +:+ String dquote "").

Definition api_body (chunkBytes signatureBytes : list Z) : string :=
  "[{" +:+ quoted "chunk" +:+ ":" +:+ quoted (Hex.EncodeToString chunkBytes) +:+ "," +:+
  quoted "signature" +:+ ":" +:+ quoted (Hex.EncodeToString signatureBytes) +:+ "}]".

Definition api_ServeHTTP {R} `{Rand R} (p : Profile) (r : R) : R * http_reply :=
  if decide (p = PROFILE_OFFLINE) then (r, HttpResponse 503 "" None)
  else
    let '(r, c) := generateLocalRandomBytes r 32 in
    match c with
    | Err _ => (r, HttpResponse 500 "" None)
    | Ok chunkBytes =>
        let '(r, g) := generateLocalRandomBytes r 64 in
        match g with
        | Err _ => (r, HttpResponse 500 "" None)
        | Ok signatureBytes => (r, HttpResponse 200 (api_body chunkBytes signatureBytes) None)
        end
    end.

Definition auth_body : string :=
  "{" +:+ quoted "access_token" +:+ ": " +:+ quoted "11111111111111" +:+ ", " +:+ quoted "expires_in" +:+ ": 3600, " +:+
  quoted "token_type" +:+ ": " +:+ quoted "Bearer" +:+ "}".

Definition NewMockAptosOrbitalAuth (p : Profile) : mockHandler :=
  if decide (p = PROFILE_OFFLINE) then mkMockHandler false [] else mkMockHandler true [auth_body].

(** ** Where a server listens *)

Inductive server := ApiServer (p : Profile) | AuthServer (m : mockHandler).

(** [http.ListenAndServe] listens on the port of [addr], on every interface; an
    [httptest.Server] on a port that the system chose, on the loopback interface,
    and its [ListenAndServe] here does not look at [addr]. *)
Inductive listener := Everywhere (port : Z) | Loopback (port : Z).

Definition ListenAndServe (chosen : Z) (srv : server) (port : Z) : listener :=
  match srv with ApiServer _ => Everywhere port | AuthServer _ => Loopback chosen end.

(** [main]; an unknown service ends the process with status 1. *)
Definition main (chosen : Z) (cfg : mockerConfig) : option (server * listener) :=
  if String.eqb (Service cfg) "aptosorbital_api" then
    let srv := ApiServer (cfg_Profile cfg) in Some (srv, ListenAndServe chosen srv (Port cfg))
  else if String.eqb (Service cfg) "aptosorbital_auth" then
    let srv := AuthServer (NewMockAptosOrbitalAuth (cfg_Profile cfg)) in Some (srv, ListenAndServe chosen srv (Port cfg))
  else None.

(** Whether a dial to a port of the server's host gets through. *)
Definition reachable (remote : bool) (l : listener) (port : Z) : bool :=
  match l with Everywhere p => p =? port | Loopback p => negb remote && (p =? port) end.

(** ** A network with two mockers *)

(** What the client dials, and the processes that should be there. *)
Record network := mkNetwork {
  remote : bool;
  api_url : string; api_port : Z; api_process : option (server * listener);
  auth_url : string; auth_port : Z; auth_process : option (server * listener);
}.

(** The state of the network: the random source, the queue of the token mock,
    the time. *)
Record world (R : Type) := mkWorld { rng : R; queue : mockHandler; now : Z }.
Arguments mkWorld {R} rng queue now.
Arguments rng {R} w.
Arguments queue {R} w.
Arguments now {R} w.

Section Network.
Context {R L : Type} `{Rand R} `{Limiter L} (n : network).

Definition serve (srv : server) (w : world R) : world R * http_reply :=
  match srv with
  | ApiServer p => let '(r, rep) := api_ServeHTTP p (rng w) in (mkWorld r (queue w) (now w), rep)
  | AuthServer _ => let '(q, rep) := mock_ServeHTTP (queue w) in (mkWorld (rng w) q (now w), rep)
  end.

Definition dial (port : Z) (p : option (server * listener)) (w : world R) : world R * http_reply :=
  match p with
  | Some (srv, l) => if reachable (remote n) l port then serve srv w else (w, HttpFailed "connection refused")
  | None => (w, HttpFailed "connection refused")
  end.

#[export] Instance mock_net : Net (world R) :=
  {| http_do := fun w req =>
       if HasPrefix (hr_URL req) (api_url n) then dial (api_port n) (api_process n) w
       else if HasPrefix (hr_URL req) (auth_url n) then dial (auth_port n) (auth_process n) w
       else (w, HttpFailed "no such host");
     time_now := fun w => (w, now w);
     url_error := fun _ => None |}.

End Network.

(** ** What the mockers answer *)

Lemma quote_plain s : all_chars Hex.hexchar s = true -> quote s = quoted s.
Proof.
  intros Hs. unfold quote, quoted. do 2 f_equal. induction s as [|c s IH]; [done|]. cbn [all_chars] in Hs.
  apply andb_true_iff in Hs as [Hc Hs]. cbn [quote_from]. rewrite IH by done.
  assert (byte_of c <? 128 = true /\ quote_ascii c = String c "") as [-> ->]; [|done].
  destruct c as [[] [] [] [] [] [] [] []]; vm_compute in Hc; done || (vm_compute; done).
Qed.

Lemma hex_plain b : Forall is_byte b -> all_chars Hex.hexchar (Hex.EncodeToString b) = true.
Proof. by apply Hex.hex_Encode_chars. Qed.

Lemma sanitize_hex b : Forall is_byte b -> sanitize (Hex.EncodeToString b) = Hex.EncodeToString b.
Proof. intros Hb. apply sanitize_valid, valid_utf8_ascii. by apply Hex.hex_Encode_chars. Qed.

Lemma api_body_print c g : Forall is_byte c -> Forall is_byte g ->
  api_body c g = print (JArr [JObj [("chunk", JStr (Hex.EncodeToString c)); ("signature", JStr (Hex.EncodeToString g))]]).
Proof.
  intros Hc Hg. cbn [print map Join fst snd]. rewrite !(quote_plain (Hex.EncodeToString _)) by by apply hex_plain.
  change (quote "chunk") with (quoted "chunk"). change (quote "signature") with (quoted "signature").
  unfold api_body. rewrite !append_assoc. reflexivity.
Qed.

(** What the client makes of the API's answer. *)
Lemma api_body_reads c g : Forall is_byte c -> Forall is_byte g ->
  response_of dec_seeds [] (HttpResponse 200 (api_body c g) None) = Ok [mkSeed (Hex.EncodeToString c) (Hex.EncodeToString g)].
Proof.
  intros Hc Hg. rewrite api_body_print by done. unfold response_of. change ((200 <? 200) || (202 <? 200)) with false.
  cbn [reject mbind result_bind]. rewrite Unmarshal_print; [|by cbn; repeat constructor|by vm_compute].
  cbn [clean map fst snd]. by rewrite !sanitize_hex.
Qed.

Lemma auth_body_reads n : token_of_reply n (HttpResponse 200 auth_body None) = Ok ("11111111111111", 3600).
Proof. vm_compute. reflexivity. Qed.

Section Client.
Context {R L : Type} `{Rand R} `{Limiter L} (out_of_range : Z).

Implicit Types (w : world R) (s : orbital_state (world R) L).

Section Calls.
Context (n : network).

#[local] Hint Extern 0 (Net (world R)) => exact (mock_net n) : typeclass_instances.

Lemma run_limiter s : limiter_Allow s =
  (mkOrbital (Allow (limiter s) (now (net (oauth s)))).1 (oauth s), Returned (Ok (Allow (limiter s) (now (net (oauth s)))).2)).
Proof. unfold limiter_Allow. cbn. destruct (oauth s). cbn. by destruct (Allow _ _). Qed.

(** A token is at hand, or asked for with one request. *)
Lemma run_mock_token c (o : oauth_state (world R)) q rep : http_do (net o) (token_request c) = (q, rep) -> now q = now (net o) ->
  (exists t, lastToken o = Some t /\ GetAccessToken out_of_range c o = (o, Returned (Ok t))) \/
  GetAccessToken out_of_range c o =
    let o' := OAuth.mkState q (lastToken o) (calls o ++ [token_request c]) in
    match token_of_reply out_of_range rep with
    | Ok r => (OAuth.mkState q (Some (token_at r (now (net o)))) (calls o ++ [token_request c]), Returned (Ok (token_at r (now (net o)))))
    | Err e => (o', Returned (Err e))
    end.
Proof.
  intros Hq Hn. unfold GetAccessToken. erewrite run_bind by done.
  assert (Hask : (req ← new_request "bad request: %v" (token_request c);
    rep ← OAuth.Do req; r ← lift (token_of_reply out_of_range rep); now ← OAuth.Now;
    _ ← modify (fun o : oauth_state (world R) => OAuth.mkState (net o) (Some (token_at r now)) (calls o)); mret (token_at r now)) o =
    match token_of_reply out_of_range rep with
    | Ok r => (OAuth.mkState q (Some (token_at r (now (net o)))) (calls o ++ [token_request c]), Returned (Ok (token_at r (now (net o)))))
    | Err e => (OAuth.mkState q (lastToken o) (calls o ++ [token_request c]), Returned (Err e))
    end).
  { erewrite run_bind by done. erewrite run_bind by (unfold OAuth.Do; rewrite Hq; reflexivity).
    destruct (token_of_reply out_of_range rep) as [r|e]; [|by apply run_bind_err].
    erewrite run_bind by done. erewrite run_bind by reflexivity. cbn [net]. rewrite Hn. reflexivity. }
  assert (OAuth.Now o = (o, Returned (Ok (now (net o))))) as Hnow by (unfold OAuth.Now; cbn; by destruct o).
  destruct (lastToken o) as [t|] eqn:Et.
  - erewrite run_bind by (erewrite run_bind by exact Hnow; reflexivity).
    destruct (usable _ _); [left; by exists t|right; exact Hask].
  - erewrite run_bind by done. right. exact Hask.
Qed.

(** The number of chunks that [GetTrng] asks for. *)
Definition chunks_of (req : TrngRequest) : Z := if Chunks req =? 0 then 1 else Chunks req.

Lemma run_GetTrng c req s l o t : Allow (limiter s) (now (net (oauth s))) = (l, true) ->
  GetAccessToken out_of_range (authClient c) (oauth s) = (o, Returned (Ok t)) ->
  let r := seed_request c (IgnoreSig req) (chunks_of req) (Value t) in
  exists s', GetTrng out_of_range c req s = (s', Returned (Ok (seeds_of (http_do (net o) r).2))) /\ lastToken (oauth s') = lastToken o /\
    net (oauth s') = (http_do (net o) r).1.
Proof.
  intros Ha Ht r. unfold GetTrng. cbv zeta. fold (chunks_of req).
  assert (Hseed : exists s' r0, GetTrueRandomnessSeed out_of_range c (IgnoreSig req) (chunks_of req) s = (s', Returned r0) /\
    lastToken (oauth s') = lastToken o /\ net (oauth s') = (http_do (net o) r).1 /\
    match r0 with Ok resp => resp = seeds_of (http_do (net o) r).2 | Err _ => seeds_of (http_do (net o) r).2 = mkTrngResponse [] "" end).
  { unfold GetTrueRandomnessSeed. erewrite run_bind by apply run_limiter. rewrite Ha. cbn [fst snd]. erewrite run_bind by done.
    assert (getHeaders out_of_range c (mkOrbital l (oauth s)) = (mkOrbital l o, Returned (Ok ("Bearer " +:+ Value t)))) as Hh.
    { unfold getHeaders. erewrite run_bind; [|apply run_on_err, run_on_oauth; exact Ht]. reflexivity. }
    erewrite run_bind by exact Hh.
    pose proof (run_makeRequest dec_seeds [] "GET" (seed_url c (IgnoreSig req) (chunks_of req)) ("Bearer " +:+ Value t) (mkOrbital l o) eq_refl) as Hm.
    cbv zeta in Hm. change (mkHttp "GET" _ _ None None) with r in Hm. cbn [limiter oauth] in Hm. unfold seeds_of.
    destruct (response_of dec_seeds [] (http_do (net o) r).2) as [[|x resp]|e].
    - erewrite run_bind by (apply run_on_err; exact Hm). eexists _, _. split; [by apply run_bind_err|]. done.
    - erewrite run_bind by (apply run_on_err; exact Hm). erewrite run_bind by done. eexists _, _. split; [reflexivity|]. done.
    - eexists _, _. split; [apply run_bind_err, run_on_err_err; exact Hm|]. done. }
  destruct Hseed as (s' & r0 & Hr & Htok & Hn & Hresp). erewrite run_bind by (apply run_attempt; exact Hr). exists s'.
  split; [|done]. destruct r0 as [resp|e]; [|by rewrite Hresp]. rewrite Hresp. do 3 f_equal. unfold seeds_of.
  by destruct (response_of _ _ _) as [[|x l']|].
Qed.

(** Without a token there is no answer. *)
Lemma run_GetTrng_refused c req s : lastToken (oauth s) = None ->
  (exists msg, http_do (net (oauth s)) (token_request (authClient c)) = (net (oauth s), HttpFailed msg)) ->
  exists s', GetTrng out_of_range c req s = (s', Returned (Ok (mkTrngResponse [] ""))) /\ lastToken (oauth s') = None /\
    net (oauth s') = net (oauth s) /\ (forall r, r ∈ calls (oauth s') -> r ∈ calls (oauth s) \/ r = token_request (authClient c)).
Proof.
  intros Hl [msg Hf]. unfold GetTrng. cbv zeta. set (k := if Chunks req =? 0 then _ else _).
  assert (exists s' e, GetTrueRandomnessSeed out_of_range c (IgnoreSig req) k s = (s', Returned (Err e)) /\
    lastToken (oauth s') = None /\ net (oauth s') = net (oauth s) /\
    (forall r, r ∈ calls (oauth s') -> r ∈ calls (oauth s) \/ r = token_request (authClient c))) as (s' & e & Hr & Hrest).
  { unfold GetTrueRandomnessSeed. erewrite run_bind by apply run_limiter. destruct (Allow _ _) as [l []]; cbn [fst snd].
    - erewrite run_bind by done.
      destruct (run_mock_token (authClient c) (oauth s) _ _ Hf eq_refl) as [(t & Ht & _)|Hg]; [congruence|].
      eexists _, _. split.
      { apply run_bind_err. unfold getHeaders. apply run_bind_err, run_on_err_err. apply run_on_oauth. exact Hg. }
      cbn. split; [done|]. split; [done|]. intros r [?|?]%elem_of_app; [by left|right; set_solver].
    - eexists _, _. split; [by apply run_bind_err|]. cbn. auto. }
  exists s'. split; [|done]. erewrite run_bind by (apply run_attempt; exact Hr). done.
Qed.

End Calls.
(** The two processes, and a client that dials the API's port and [auth_port]. *)
Definition mocked (remote : bool) (chosen : Z) (api_cfg auth_cfg : mockerConfig) (c : AptosClient) (auth_port : Z) : network :=
  mkNetwork remote (apiURL (opts c)) (Port api_cfg) (main chosen api_cfg) (authURL (authClient c)) auth_port (main chosen auth_cfg).

Definition is_api (cfg : mockerConfig) : Prop := Service cfg = "aptosorbital_api".
Definition is_auth (cfg : mockerConfig) : Prop := Service cfg = "aptosorbital_auth".

Lemma HasPrefix_refl x : HasPrefix x x = true.
Proof. apply HasPrefix_true. exists "". by rewrite append_nil_r. Qed.

(** A request goes to the process it is for. *)
Lemma dial_auth b chosen api_cfg auth_cfg c port w : HasPrefix (authURL (authClient c)) (apiURL (opts c)) = false ->
  let n := mocked b chosen api_cfg auth_cfg c port in
  http_do (Net := mock_net n) w (token_request (authClient c)) = dial n port (main chosen auth_cfg) w.
Proof. intros Hp. cbn -[HasPrefix dial main]. by rewrite Hp, HasPrefix_refl. Qed.

Lemma dial_api b chosen api_cfg auth_cfg c port w noSig k tok :
  let n := mocked b chosen api_cfg auth_cfg c port in
  http_do (Net := mock_net n) w (seed_request c noSig k tok) = dial n (Port api_cfg) (main chosen api_cfg) w.
Proof.
  cbn -[HasPrefix dial main]. assert (HasPrefix (seed_url c noSig k) (apiURL (opts c)) = true) as ->; [|done].
  apply HasPrefix_true. unfold seed_url. by eexists.
Qed.

(** C27: the plugin works against the mockers of one host. In the happy profile
    every request that the limiter lets through is answered, whatever number of
    chunks it asks for, with one chunk of 32 random bytes and a signature of 64,
    as they were drawn, under a token that is asked for when none is at hand. *)
Theorem mocked_GetTrng chosen api_cfg auth_cfg c req s r1 r2 b g :
  is_api api_cfg -> cfg_Profile api_cfg = PROFILE_HAPPY_PATH -> is_auth auth_cfg -> cfg_Profile auth_cfg = PROFILE_HAPPY_PATH ->
  HasPrefix (authURL (authClient c)) (apiURL (opts c)) = false ->
  queue (net (oauth s)) = NewMockAptosOrbitalAuth (cfg_Profile auth_cfg) ->
  (Allow (limiter s) (now (net (oauth s)))).2 = true ->
  rand_Read (rng (net (oauth s))) 32 = (r1, Ok b) -> rand_Read r1 64 = (r2, Ok g) -> Forall is_byte b -> Forall is_byte g ->
  let n := mocked false chosen api_cfg auth_cfg c chosen in
  exists s' chunk sig, GetTrng (H := mock_net n) out_of_range c req s = (s', Returned (Ok (mkTrngResponse [chunk] sig))) /\
    Hex.DecodeString chunk = Ok b /\ Hex.DecodeString sig = Ok g /\
    net (oauth s') = mkWorld r2 (queue (net (oauth s))) (now (net (oauth s))) /\ is_Some (lastToken (oauth s')).
Proof.
  intros Ha Hap Hau Haup Hpre Hq Hl Hr1 Hr2 Hb Hg n. destruct (Allow (limiter s) (now (net (oauth s)))) as [l ok] eqn:El. cbn in Hl. subst ok.
  assert (Hauth : http_do (Net := mock_net n) (net (oauth s)) (token_request (authClient c)) = (net (oauth s), HttpResponse 200 auth_body None)).
  { unfold n. rewrite dial_auth by done. unfold dial, main. rewrite Hau. cbn. rewrite Z.eqb_refl. unfold mock_ServeHTTP.
    rewrite Haup in Hq. destruct (net (oauth s)) as [x q t]. cbn in *. by subst q. }
  assert (exists o t, GetAccessToken (H := mock_net n) out_of_range (authClient c) (oauth s) = (o, Returned (Ok t)) /\
    net o = net (oauth s) /\ lastToken o = Some t) as (o & t & Ht & Hn & Hlast).
  { destruct (run_mock_token n (authClient c) (oauth s) _ _ Hauth eq_refl) as [(t & Ht & E)|E]; rewrite E.
    - by exists (oauth s), t.
    - rewrite auth_body_reads. by eexists _, _. }
  destruct (run_GetTrng n c req s l o t El Ht) as (s' & Hrun & Htok & Hnet).
  rewrite Hn in Hrun, Hnet. unfold n in Hrun, Hnet. rewrite dial_api in Hrun, Hnet.
  assert (dial (mocked false chosen api_cfg auth_cfg c chosen) (Port api_cfg) (main chosen api_cfg) (net (oauth s)) =
    (mkWorld r2 (queue (net (oauth s))) (now (net (oauth s))), HttpResponse 200 (api_body b g) None)) as Hd.
  { unfold dial, main. rewrite Ha. cbn. rewrite Z.eqb_refl, Hap. unfold api_ServeHTTP, generateLocalRandomBytes. cbn.
    by rewrite Hr1, Hr2. }
  rewrite Hd in Hrun, Hnet. exists s', (Hex.EncodeToString b), (Hex.EncodeToString g). split.
  { unfold n. rewrite Hrun. unfold seeds_of. cbn [snd]. by rewrite api_body_reads. }
  split; [by apply Hex.hex_Decode_Encode|]. split; [by apply Hex.hex_Decode_Encode|]. split; [done|]. rewrite Htok, Hlast. by eexists.
Qed.

(** A token mocker on another host is never reached, whatever port it was
    told to listen on: a client that holds no token gets none, asks the API for
    nothing, and answers every request with no values. *)
Theorem remote_token_mocker_unreachable chosen api_cfg auth_cfg c reqs s :
  is_auth auth_cfg -> HasPrefix (authURL (authClient c)) (apiURL (opts c)) = false -> lastToken (oauth s) = None ->
  let n := mocked true chosen api_cfg auth_cfg c (Port auth_cfg) in
  exists s', mapM (GetTrng (H := mock_net n) out_of_range c) reqs s = (s', Returned (Ok (map (fun _ => mkTrngResponse [] "") reqs))) /\
    lastToken (oauth s') = None /\ forall r, r ∈ calls (oauth s') -> r ∈ calls (oauth s) \/ r = token_request (authClient c).
Proof.
  intros Hau Hpre Hl n. revert s Hl. induction reqs as [|req reqs IH]; intros s Hl; [exists s; by auto|].
  assert (http_do (Net := mock_net n) (net (oauth s)) (token_request (authClient c)) = (net (oauth s), HttpFailed "connection refused")) as Hf.
  { unfold n. rewrite dial_auth by done. unfold dial, main. rewrite Hau. done. }
  destruct (run_GetTrng_refused n c req s Hl) as (s1 & Hr & Hl1 & _ & Hc1); [by eexists|].
  destruct (IH s1 Hl1) as (s2 & Hm & Hl2 & Hc2). exists s2. split; [|split; [done|]].
  - cbn [mapM map]. erewrite run_bind by exact Hr. by erewrite run_bind by exact Hm.
  - intros r Hin. destruct (Hc2 r Hin) as [H'|H']; [by apply Hc1|by right].
Qed.

End Client.

(** ** A source that counts *)

Module Runs.

Import OrbitalSpec.Runs.

(** Its bytes are consecutive numbers. *)
#[export] Instance counting : Rand Z :=
  {| rand_Read := fun r n => (r + Z.of_nat n, Ok (map (fun i => (r + Z.of_nat i) mod 256) (seq 0 n))) |}.

Definition api_cfg : mockerConfig := mkMockerConfig "aptosorbital_api" 8001 PROFILE_HAPPY_PATH.
Definition auth_cfg : mockerConfig := mkMockerConfig "aptosorbital_auth" 8002 PROFILE_HAPPY_PATH.

Example from_env : readFromEnv (fun k => if String.eqb k "SERVICE" then Some "aptosorbital_auth" else None)
  (fun _ => Some 8002) = auth_cfg.
Proof. reflexivity. Qed.

Definition made := Eval vm_compute in Orbital.NewPlugin (L := Z) config.
Definition client : AptosClient := Eval vm_compute in match made with Ok (c, _) => c | Err _ => mkAptosClient no_options (NewOAuthClient "" "" "" 0) end.
Definition boot : orbital_state (world Z) Z :=
  mkOrbital 5 (OAuth.mkState (mkWorld 0 (NewMockAptosOrbitalAuth PROFILE_HAPPY_PATH) (1000 * second)) None []).

Lemma mocked_GetTrng_witness : exists s' chunk sig,
  GetTrng (H := mock_net (mocked false 33333 api_cfg auth_cfg client 33333)) 0 client request boot =
    (s', Returned (Ok (mkTrngResponse [chunk] sig))) /\
  Hex.DecodeString chunk = Ok (map Z.of_nat (seq 0 32)) /\ Hex.DecodeString sig = Ok (map Z.of_nat (seq 32 64)).
Proof.
  destruct (mocked_GetTrng 0 33333 api_cfg auth_cfg client request boot 32 96 (map Z.of_nat (seq 0 32)) (map Z.of_nat (seq 32 64)))
    as (s' & chunk & sig & Hr & Hc & Hg & _); try reflexivity.
  - apply Forall_forall. intros x (i & -> & Hi%elem_of_seq)%list_elem_of_fmap. unfold is_byte. lia.
  - apply Forall_forall. intros x (i & -> & Hi%elem_of_seq)%list_elem_of_fmap. unfold is_byte. lia.
  - exists s', chunk, sig. split; [exact Hr|]. split; [exact Hc|exact Hg].
Defined.

(** The development stack: the client has dialled the port that it was told. *)
Lemma remote_token_mocker_unreachable_witness : exists s',
  mapM (GetTrng (H := mock_net (mocked true 33333 api_cfg auth_cfg client 8002)) 0 client) [request; request] boot =
    (s', Returned (Ok [mkTrngResponse [] ""; mkTrngResponse [] ""])) /\ lastToken (oauth s') = None.
Proof.
  destruct (remote_token_mocker_unreachable 0 33333 api_cfg auth_cfg client [request; request] boot) as (s' & Hr & Hl & _);
    [reflexivity..|]. exists s'. split; [exact Hr|exact Hl].
Defined.

End Runs.
