(* ===== verification/FreePort.v ===== *)
(** * Ports for tests (pkg/testutils/freeport.go)

    The ports that were handed out are the state; [Listening] is [net.Listen] and
    the close of the listener it made. *)

From S2P Require Import Prelude Errors State.

Class Listening (E : Type) := { listen : E -> string -> Z -> E * bool }.

Record ports (E : Type) := mkPorts { env : E; reserved : list Z }.
Arguments mkPorts {E} env reserved.
Arguments env {E} p.
Arguments reserved {E} p.

Section FreePort.
Context {E : Type} `{Listening E}.

Abbreviation T := (Prog (ports E)).

Definition reserve (port : Z) : T bool :=
  taken ← gets reserved;
  if existsb (Z.eqb port) taken then mret false
  else _ ← modify (fun s => mkPorts (env s) (reserved s ++ [port])); mret true.

Definition IsPortFree (protocol : string) (port : Z) : T bool := fun s =>
  let '(e, b) := listen (env s) protocol port in (mkPorts e (reserved s), Returned (Ok b)).

(** The loop, for the [n] ports from [port] on; [port] is a [uint16] that stays
    below [to]. *)
Fixpoint try_ports (n : nat) (protocol : string) (port : Z) : T (option Z) :=
  match n with
  | 0%nat => mret None
  | S n =>
      mine ← reserve port;
      free ← (if (mine : bool) then IsPortFree protocol port else mret false : T bool);
      if (free : bool) then mret (Some port) else try_ports n protocol (wrap 16 (port + 1))
  end.

Definition FreePort (protocol : string) (from to : Z) : T Z :=
  port ← try_ports (Z.to_nat (to - from)) protocol from;
  match port with
  | Some port => mret port
  | None => throw (Errorf "no free %s port in range [%d, %d)" [protocol; pretty from; pretty to])
  end.

(** ** What it promises *)

Implicit Types (s : ports E).

Lemma run_reserve port s : exists l, reserve port s = (mkPorts (env s) (reserved s ++ l), Returned (Ok (bool_decide (l = [port])))) /\
  (l = [port] /\ port ∉ reserved s \/ l = [] /\ port ∈ reserved s).
Proof.
  unfold reserve, mbind, Prog_bind, gets, modify. destruct (existsb (Z.eqb port) (reserved s)) eqn:Ex.
  - exists []. rewrite app_nil_r, bool_decide_false by done. destruct s. split; [done|]. right. split; [done|]. apply existsb_exists in Ex as (q & Hq & ->%Z.eqb_eq).
    by apply list_elem_of_In.
  - exists [port]. rewrite bool_decide_true by done. split; [done|]. left. split; [done|]. intros Hin%list_elem_of_In.
    assert (existsb (Z.eqb port) (reserved s) = true); [|congruence]. apply existsb_exists. exists port. split; [done|apply Z.eqb_refl].
Qed.

(** The loop: it reserves the ports it tried, in order, and hands out the last. *)
Lemma run_try_ports n protocol : forall port s, 0 <= port -> port + Z.of_nat n < 2 ^ 16 -> exists s' r l,
  try_ports n protocol port s = (s', Returned (Ok r)) /\ reserved s' = reserved s ++ l /\
  match r with
  | Some p => port <= p < port + Z.of_nat n /\ p ∉ reserved s /\ p ∈ l
  | None => forall p, port <= p < port + Z.of_nat n -> p ∈ reserved s'
  end.
Proof.
  induction n as [|n IH]; intros port s Hp Hn.
  { exists s, None, []. rewrite app_nil_r. split; [done|]. split; [done|]. intros p; lia. }
  cbn [try_ports]. destruct (run_reserve port s) as (l & Er & Hl). rewrite (run_bind _ _ _ _ _ Er). clear Er.
  set (s1 := mkPorts (env s) (reserved s ++ l)).
  assert (exists s2 free, (if bool_decide (l = [port]) then IsPortFree protocol port else mret false) s1 = (s2, Returned (Ok free)) /\
    reserved s2 = reserved s ++ l /\ (free = true -> l = [port])) as (s2 & free & E2 & Hr2 & Hf).
  { case_bool_decide; [|by exists s1, false]. unfold IsPortFree. destruct (listen _ _ _) as [e b]. by eexists _, b. }
  rewrite (run_bind _ _ _ _ _ E2). destruct free.
  - exists s2, (Some port), l. split; [done|]. split; [done|]. rewrite (Hf eq_refl) in Hl |- *.
    split; [lia|]. split; [by destruct Hl as [[_ ?]|[? _]]|]. by apply list_elem_of_singleton.
  - replace (wrap 16 (port + 1)) with (port + 1) by (symmetry; apply wrap_small; lia).
    destruct (IH (port + 1) s2 ltac:(lia) ltac:(lia)) as (s' & r & l' & Et & Hr & Hres). exists s', r, (l ++ l').
    split; [done|]. rewrite Hr, Hr2, app_assoc. split; [done|]. destruct r as [p|].
    + destruct Hres as (Hb & Hnot & Hin). rewrite Hr2, elem_of_app in Hnot. split; [lia|]. rewrite elem_of_app. tauto.
    + intros p Hpp. destruct (decide (p = port)) as [->|]; [|rewrite <- Hr2, <- Hr; apply Hres; lia]. rewrite !elem_of_app.
      destruct Hl as [[-> _]|[_ ?]]; [rewrite list_elem_of_singleton|]; tauto.
Qed.

(** A call always returns; the port it hands out is one of its range that was
    never handed out or tried before, and when there is none all are reserved. *)
Lemma run_FreePort protocol from to s : 0 <= from -> to < 2 ^ 16 -> exists s' r l,
  FreePort protocol from to s = (s', Returned r) /\ reserved s' = reserved s ++ l /\
  match r with
  | Ok p => from <= p < to /\ p ∉ reserved s /\ p ∈ l
  | Err _ => forall p, from <= p < to -> p ∈ reserved s'
  end.
Proof.
  intros Hf Ht. destruct (decide (from <= to)) as [Hle|Hgt].
  - destruct (run_try_ports (Z.to_nat (to - from)) protocol from s Hf ltac:(lia)) as (s' & r & l & Et & Hr & Hres).
    unfold FreePort. rewrite (run_bind _ _ _ _ _ Et). destruct r as [p|]; eexists s', _, l; (split; [reflexivity|]); (split; [done|]).
    + destruct Hres as (? & ? & ?). split; [lia|done].
    + intros p Hp. apply Hres. lia.
  - unfold FreePort. replace (Z.to_nat (to - from)) with 0%nat by lia. cbn. eexists s, _, []. rewrite app_nil_r.
    split; [reflexivity|]. split; [done|]. intros p; lia.
Qed.

(** Calls one after the other, each with its protocol and range. *)
Fixpoint calls (l : list (string * Z * Z)) : T (list Z) :=
  match l with
  | [] => mret []
  | (protocol, from, to) :: l =>
      r ← attempt (FreePort protocol from to);
      rest ← calls l;
      mret (match r with Ok p => p :: rest | Err _ => rest end)
  end.

(** No port is handed out twice, whatever the calls, the protocols and the ports
    that other programs take and leave. *)
Theorem ports_distinct l : Forall (fun c => 0 <= c.1.2 /\ c.2 < 2 ^ 16) l -> forall s,
  exists s' ps, calls l s = (s', Returned (Ok ps)) /\ NoDup ps /\
    (exists tried, reserved s' = reserved s ++ tried) /\ (forall p, p ∈ ps -> p ∉ reserved s /\ p ∈ reserved s').
Proof.
  induction 1 as [|[[protocol from] to] l [Hf Ht] _ IH]; intros s; cbn [calls].
  { exists s, []. split; [done|]. split; [constructor|]. split; [exists []; by rewrite app_nil_r|]. by intros p ?%elem_of_nil. }
  destruct (run_FreePort protocol from to s Hf Ht) as (s1 & r & l1 & E1 & H1 & Hr). rewrite (run_bind _ _ _ _ _ (run_attempt _ _ _ _ E1)).
  destruct (IH s1) as (s' & ps & Ec & Hnd & [l2 H2] & Hps). rewrite (run_bind _ _ _ _ _ Ec).
  eexists s', _. split; [reflexivity|].
  assert (forall p, p ∈ ps -> p ∉ reserved s /\ p ∈ reserved s') as Hold.
  { intros p Hp. destruct (Hps p Hp) as [Hn Hin]. split; [|done]. rewrite H1, elem_of_app in Hn. tauto. }
  assert (exists tried, reserved s' = reserved s ++ tried) as Htr by (exists (l1 ++ l2); by rewrite H2, H1, app_assoc).
  destruct r as [p|e]; [|done]. destruct Hr as (_ & Hn & Hin).
  assert (p ∈ reserved s1) as Hp1 by (rewrite H1, elem_of_app; by right). split.
  - constructor; [|done]. intros Hp. by destruct (Hps p Hp).
  - split; [done|]. intros q [->|Hq]%elem_of_cons; [|by apply Hold]. split; [done|]. rewrite H2, elem_of_app. by left.
Qed.

End FreePort.
