(* ===== verification/Process.v ===== *)
(** * The plugin process (cmd/plugin/main.go, pkg/core, beacon/health.go)

    One binary is every plugin: its configuration names the one that it runs.
    The packages' constructors, gRPC, TCP and the environment are the parameter
    [Runtime]; the state is that environment with what the process did, in
    order, and how it ended. Signals, and the panic of the jwks plugin's listener,
    end a process at any point and are left out, as is logging. *)

From S2P Require Import Prelude GoStrings Errors State Json Http Health.
From S2P Require Beacon.

(** ** pkg/core/config.go *)

Record GrpcPluginConfig := mkConfig { Plugin : string; GrpcPort : Z; MetricsPort : Z }.

(** The file of ['-e <path>'], where [os.Args] has one. *)
Definition env_files (args : list string) : list string :=
  match args with
  | _ :: flag :: path :: _ => if String.eqb flag "-e" then [path] else []
  | _ => []
  end.

(** The values that viper finds, once the files are loaded. *)
Definition ReadFromEnv (env_string : list string -> string -> option string) (env_uint16 : list string -> string -> option Z)
    (args : list string) : GrpcPluginConfig :=
  let files := env_files args in
  mkConfig (default "aptosorbital" (env_string files "PLUGIN")) (default 50001 (env_uint16 files "GRPC_PORT"))
    (default 9000 (env_uint16 files "METRICS_PORT")).

(** ** The switch of main.go *)

Inductive package :=
| aptosorbital | auth | authnoop | accountnoop | ipfs | beacon | masterseed | patissuer | jwks | kms | account | threshold.

#[export] Instance package_eq_dec : EqDecision package.
Proof. solve_decision. Defined.

(** The packages by the names of the cases. *)
Definition cases : list (string * package) :=
  [("aptosorbital", aptosorbital); ("auth", auth); ("authnoop", authnoop); ("accountnoop", accountnoop);
   ("ipfs", ipfs); ("beacon", beacon); ("masterseed", masterseed); ("patissuer", patissuer); ("jwks", jwks);
   ("kms", kms); ("account", account); ("threshold", threshold)].

Definition package_of (name : string) : option package := assoc_lookup name cases.

Inductive service :=
| RandomnessPlugin | AuthPlugin | AccountPlugin | IpfsPlugin | MasterSeedPlugin | PatIssuerPlugin | KmsPlugin | ThresholdPlugin
| HealthService.

(** The registration of a case. *)
Definition service_of (p : package) : option service :=
  match p with
  | aptosorbital => Some RandomnessPlugin
  | auth | authnoop => Some AuthPlugin
  | accountnoop | account => Some AccountPlugin
  | ipfs => Some IpfsPlugin
  | beacon | jwks => None
  | masterseed => Some MasterSeedPlugin
  | patissuer => Some PatIssuerPlugin
  | kms => Some KmsPlugin
  | threshold => Some ThresholdPlugin
  end.

(** The cases that defer a [Close]. *)
Definition closes (p : package) : bool := match p with beacon | masterseed | account => true | _ => false end.

Inductive event :=
| New (p : package)
| Register (s : service)
| StartBeacon
| GoListenHTTP                       (* the goroutine of the jwks plugin *)
| GoListenMetrics (port : Z)
| Listen (port : Z)
| Serve
| Stop
| Close (p : package).

(** What a step outside of [main] does: its outcome. [serving] is the server, of
    which [None] says that it serves for ever. *)
Class Runtime (W : Type) := {
  perform : W -> event -> W * result unit;
  serving : W -> option (W * result unit);
}.

(** The log has the outcomes; that of a step that has not returned is [None]. *)
Record process (W : Type) := mkProcess { runtime : W; log : list (event * option (result unit)) }.
Arguments mkProcess {W} runtime log.
Arguments runtime {W} p.
Arguments log {W} p.

Section Main.
Context {W : Type} `{Runtime W}.

Abbreviation P := (Prog (process W)).

Definition do (e : event) : P unit := fun s =>
  let '(w, r) := perform (runtime s) e in (mkProcess w (log s ++ [(e, Some r)]), Returned r).

Definition serve : P unit := fun s =>
  match serving (runtime s) with
  | Some (w, r) => (mkProcess w (log s ++ [(Serve, Some r)]), Returned r)
  | None => (mkProcess (runtime s) (log s ++ [(Serve, None)]), Blocked)
  end.

(** [if err != nil { panic(err) }] *)
Definition must (m : P unit) : P unit := r ← attempt m; match r with Ok _ => mret tt | Err _ => panic end.

(** An error that is only logged, or a step that has none. *)
Definition ignore (m : P unit) : P unit := _ ← attempt m; mret tt.

(** A deferred call: it runs when the function returns and when it panics. *)
Definition defer (d m : P unit) : P unit := fun s =>
  match m s with
  | (s, Blocked) => (s, Blocked)
  | (s, out) => ((d s).1, out)
  end.

(** pkg/core/plugin.go *)
Definition ListenGrpc (port : Z) : P unit :=
  _ ← on_err (Wrapf "could not create TCP listener: %v" []) (do (Listen port));
  defer (ignore (do Stop)) (on_err (Wrapf "could not serve grpc: %v" []) serve).

(** The part of a case after the constructor, up to its deferred call. *)
Definition case_ (p : package) : P unit :=
  _ ← (match service_of p with Some s => ignore (do (Register s)) | None => mret tt end);
  _ ← (match p with jwks => ignore (do GoListenHTTP) | _ => mret tt end);
  match p with beacon => ignore (do StartBeacon) | _ => mret tt end.

(** The part after the switch. *)
Definition rest (cfg : GrpcPluginConfig) : P unit :=
  _ ← ignore (do (Register HealthService));
  _ ← ignore (do (GoListenMetrics (MetricsPort cfg)));
  must (ListenGrpc (GrpcPort cfg)).

Definition main (cfg : GrpcPluginConfig) : P unit :=
  match package_of (Plugin cfg) with
  | None => panic
  | Some p =>
      _ ← must (do (New p));
      _ ← case_ p;
      if closes p then defer (ignore (do (Close p))) (rest cfg) else rest cfg
  end.

(** ** What [main] does *)

(** The plugins by their names: what each does once it was made, before the health
    service is registered, and what it does at the end. *)
Definition plugins : list (string * (package * list event * list event)) :=
  [("aptosorbital", (aptosorbital, [Register RandomnessPlugin], []));
   ("auth", (auth, [Register AuthPlugin], []));
   ("authnoop", (authnoop, [Register AuthPlugin], []));
   ("account", (account, [Register AccountPlugin], [Close account]));
   ("accountnoop", (accountnoop, [Register AccountPlugin], []));
   ("beacon", (beacon, [StartBeacon], [Close beacon]));
   ("ipfs", (ipfs, [Register IpfsPlugin], []));
   ("jwks", (jwks, [GoListenHTTP], []));
   ("kms", (kms, [Register KmsPlugin], []));
   ("masterseed", (masterseed, [Register MasterSeedPlugin], [Close masterseed]));
   ("patissuer", (patissuer, [Register PatIssuerPlugin], []));
   ("threshold", (threshold, [Register ThresholdPlugin], []))].

(** The lives of a process whose plugin is [p]. *)
Inductive life (cfg : GrpcPluginConfig) (p : package) (ready closing : list event) :
    list (event * option (result unit)) -> outcome unit -> Prop :=
| not_made e : life cfg p ready closing [(New p, Some (Err e))] Panicked
| not_listening before after e :
    map fst before = ready ++ [Register HealthService; GoListenMetrics (MetricsPort cfg)] -> map fst after = closing ->
    life cfg p ready closing ((New p, Some (Ok tt)) :: before ++ (Listen (GrpcPort cfg), Some (Err e)) :: after) Panicked
| still_serving before :
    map fst before = ready ++ [Register HealthService; GoListenMetrics (MetricsPort cfg)] ->
    life cfg p ready closing ((New p, Some (Ok tt)) :: before ++ [(Listen (GrpcPort cfg), Some (Ok tt)); (Serve, None)]) Blocked
| served before after r :
    map fst before = ready ++ [Register HealthService; GoListenMetrics (MetricsPort cfg)] -> map fst after = Stop :: closing ->
    life cfg p ready closing ((New p, Some (Ok tt)) :: before ++ (Listen (GrpcPort cfg), Some (Ok tt)) :: (Serve, Some r) :: after)
      (if is_ok r then Returned (Ok tt) else Panicked).

Implicit Types (s : process W).

Lemma run_perform e s : do e s = (mkProcess (perform (runtime s) e).1 (log s ++ [(e, Some (perform (runtime s) e).2)]), Returned (perform (runtime s) e).2).
Proof. unfold do. by destruct (perform (runtime s) e). Qed.

Lemma run_ignore e s : ignore (do e) s =
  (mkProcess (perform (runtime s) e).1 (log s ++ [(e, Some (perform (runtime s) e).2)]), Returned (Ok tt)).
Proof. unfold ignore. by erewrite run_bind by (apply run_attempt, run_perform). Qed.

(** [does m l]: [m] takes the steps [l] and returns. *)
Definition does (m : P unit) (l : list event) : Prop := forall s, exists w new,
  m s = (mkProcess w (log s ++ new), Returned (Ok tt)) /\ map fst new = l.

Lemma does_ret : does (mret tt) [].
Proof. intros s. exists (runtime s), []. rewrite app_nil_r. split; [by destruct s|done]. Qed.

Lemma does_ignore e : does (ignore (do e)) [e].
Proof. intros s. rewrite run_ignore. eexists _, _. split; [reflexivity|done]. Qed.

Lemma does_then m k l1 l2 : does m l1 -> does k l2 -> does (_ ← m; k) (l1 ++ l2).
Proof.
  intros Hm Hk s. destruct (Hm s) as (w1 & n1 & E1 & <-). rewrite (run_bind _ _ _ _ _ E1).
  destruct (Hk (mkProcess w1 (log s ++ n1))) as (w2 & n2 & E2 & <-). rewrite E2. cbn [log].
  exists w2, (n1 ++ n2). by rewrite app_assoc, map_app.
Qed.

(** The case of a name, and what is deferred there. *)
Lemma case_plugins name : match package_of name, assoc_lookup name plugins with
  | None, None => True
  | Some p, Some (p', ready, closing) => p' = p /\ does (case_ p) ready /\ closing = if closes p then [Close p] else []
  | _, _ => False
  end.
Proof.
  assert (forall p (l1 l2 l3 : list event), does (match service_of p with Some s => ignore (do (Register s)) | None => mret tt end) l1 ->
    does (match p with jwks => ignore (do GoListenHTTP) | _ => mret tt end) l2 ->
    does (match p with beacon => ignore (do StartBeacon) | _ => mret tt end) l3 -> does (case_ p) (l1 ++ l2 ++ l3)) as Hc.
  { intros p l1 l2 l3 H1 H2 H3. unfold case_. by repeat apply does_then. }
  unfold package_of, plugins, cases. cbn [assoc_lookup].
  repeat match goal with
  | |- context [String.eqb name ?x] => destruct (String.eqb_spec name x) as [->|]; [cbn; split; [done|]; split; [|done]|]
  end; try done.
  all: first [exact (Hc aptosorbital [_] [] [] (does_ignore _) does_ret does_ret)|exact (Hc auth [_] [] [] (does_ignore _) does_ret does_ret)
    |exact (Hc authnoop [_] [] [] (does_ignore _) does_ret does_ret)|exact (Hc accountnoop [_] [] [] (does_ignore _) does_ret does_ret)
    |exact (Hc ipfs [_] [] [] (does_ignore _) does_ret does_ret)|exact (Hc beacon [] [] [_] does_ret does_ret (does_ignore _))
    |exact (Hc masterseed [_] [] [] (does_ignore _) does_ret does_ret)|exact (Hc patissuer [_] [] [] (does_ignore _) does_ret does_ret)
    |exact (Hc jwks [] [_] [] does_ret (does_ignore _) does_ret)|exact (Hc kms [_] [] [] (does_ignore _) does_ret does_ret)
    |exact (Hc account [_] [] [] (does_ignore _) does_ret does_ret)|exact (Hc threshold [_] [] [] (does_ignore _) does_ret does_ret)].
Qed.

(** The server, up to its stop. *)
Lemma run_ListenGrpc port s : exists w new out, ListenGrpc port s = (mkProcess w (log s ++ new), out) /\
  ((exists e, new = [(Listen port, Some (Err e))] /\ exists e', out = Returned (Err e')) \/
   (new = [(Listen port, Some (Ok tt)); (Serve, None)] /\ out = Blocked) \/
   (exists r stop, new = [(Listen port, Some (Ok tt)); (Serve, Some r); (Stop, Some stop)] /\
      out = Returned (map_err (Wrapf "could not serve grpc: %v" []) r))).
Proof.
  unfold ListenGrpc. destruct (perform (runtime s) (Listen port)) as [w [[]|e]] eqn:El.
  - assert (do (Listen port) s = (mkProcess w (log s ++ [(Listen port, Some (Ok tt))]), Returned (Ok tt))) as E1 by by rewrite run_perform, El.
    erewrite run_bind by (apply run_on_err; exact E1). unfold defer, on_err, serve. cbn [runtime log].
    destruct (serving w) as [[w1 r]|]; rewrite <- ?app_assoc.
    + rewrite run_ignore. cbn [runtime log fst]. rewrite <- !app_assoc. eexists _, _, _. split; [reflexivity|]. right; right. eauto.
    + eexists _, _, _. split; [reflexivity|]. auto.
  - erewrite run_bind_err; [|apply run_on_err_err; rewrite run_perform, El; reflexivity]. eexists _, _, _. split; [reflexivity|]. left. eauto.
Qed.

Lemma run_must (m : P unit) s s1 out : m s = (s1, out) ->
  must m s = (s1, match out with Returned (Ok _) => Returned (Ok tt) | Returned (Err _) => Panicked | Blocked => Blocked | Panicked => Panicked end).
Proof. intros E. unfold must, attempt, mbind, Prog_bind. rewrite E. by destruct out as [[[]|e]| |]. Qed.

Lemma run_rest cfg s : exists w new out, rest cfg s = (mkProcess w (log s ++ new), out) /\ exists before,
  map fst before = [Register HealthService; GoListenMetrics (MetricsPort cfg)] /\
  ((exists e, new = before ++ [(Listen (GrpcPort cfg), Some (Err e))] /\ out = Panicked) \/
   (new = before ++ [(Listen (GrpcPort cfg), Some (Ok tt)); (Serve, None)] /\ out = Blocked) \/
   (exists r stop, new = before ++ [(Listen (GrpcPort cfg), Some (Ok tt)); (Serve, Some r); (Stop, Some stop)] /\
      out = if is_ok r then Returned (Ok tt) else Panicked)).
Proof.
  unfold rest. erewrite run_bind by apply run_ignore. erewrite run_bind by apply run_ignore. cbn [runtime log].
  match goal with |- context [must _ ?s2] => destruct (run_ListenGrpc (GrpcPort cfg) s2) as (w & new & out & E & Ho) end.
  rewrite (run_must _ _ _ _ E). cbn [log]. rewrite <- !app_assoc. eexists _, _, _. split; [reflexivity|]. eexists [(_, _); (_, _)]. split; [reflexivity|].
  destruct Ho as [(e & -> & e' & ->)|[(-> & ->)|(r & stop & -> & ->)]]; [left; by exists e|right; by left|right; right].
  exists r, stop. split; [done|]. by destruct r as [[]|].
Qed.

(** C26: what a plugin process does. A process of an unknown name, or whose plugin
    cannot be made, ends without serving. Any other does what [plugins] says of
    its plugin and registers the health service before it listens on the
    configured port; then it serves. When the server ends it is stopped, and the
    plugins that keep something open are closed once, after that, also on a
    failure to listen or to serve, which is a panic; while it serves nothing is
    closed. *)
Theorem main_runs cfg s : exists w l out, main cfg s = (mkProcess w (log s ++ l), out) /\
  match assoc_lookup (Plugin cfg) plugins with
  | None => l = [] /\ out = Panicked
  | Some (p, ready, closing) => life cfg p ready closing l out
  end.
Proof.
  unfold main. pose proof (case_plugins (Plugin cfg)) as Hp. destruct (package_of (Plugin cfg)) as [p|], (assoc_lookup (Plugin cfg) plugins) as [[[p' ready] closing]|]; try done.
  2: { exists (runtime s), [], Panicked. rewrite app_nil_r. split; [by destruct s|done]. }
  destruct Hp as (-> & Hcase & ->). destruct (perform (runtime s) (New p)) as [w0 r] eqn:En.
  assert (do (New p) s = (mkProcess w0 (log s ++ [(New p, Some r)]), Returned r)) as E0 by by rewrite run_perform, En.
  apply run_must in E0. destruct r as [[]|e].
  2: { exists w0, [(New p, Some (Err e))], Panicked. split; [unfold mbind, Prog_bind; by rewrite E0|constructor]. }
  rewrite (run_bind _ _ _ _ _ E0). destruct (Hcase (mkProcess w0 (log s ++ [(New p, Some (Ok tt))]))) as (w1 & n1 & E1 & H1).
  rewrite (run_bind _ _ _ _ _ E1). destruct (run_rest cfg (mkProcess w1 ((log s ++ [(New p, Some (Ok tt))]) ++ n1))) as (w2 & n2 & out & E2 & before & Hb & Ho).
  cbn [log] in *.
  assert (exists w3 n3, (if closes p then defer (ignore (do (Close p))) (rest cfg) else rest cfg) (mkProcess w1 ((log s ++ [(New p, Some (Ok tt))]) ++ n1)) =
    (mkProcess w3 (log s ++ (New p, Some (Ok tt)) :: n1 ++ n2 ++ n3), out) /\
    (out = Blocked -> n3 = []) /\ (out <> Blocked -> map fst n3 = if closes p then [Close p] else [])) as (w3 & n3 & E3 & H3 & H3').
  { destruct (closes p).
    - unfold defer. rewrite E2. destruct out as [r| |]; rewrite ?run_ignore; cbn [fst runtime log]; rewrite <- ?app_assoc;
        [eexists _, [_]|eexists _, []|eexists _, [_]]; (split; [rewrite ?app_nil_r; reflexivity|done]).
    - rewrite E2. exists w2, []. rewrite app_nil_r, <- !app_assoc. done. }
  rewrite E3. exists w3, ((New p, Some (Ok tt)) :: n1 ++ n2 ++ n3), out. split; [done|]. rewrite <- H1 in *. clear E0 E1 E2 E3 H1.
  destruct Ho as [(e & -> & ->)|[(-> & ->)|(r & stop & -> & ->)]]; rewrite <- !app_assoc, (app_assoc n1).
  - apply not_listening; [by rewrite map_app, Hb|by apply H3'].
  - rewrite H3 by done. apply still_serving. by rewrite map_app, Hb.
  - apply (served _ _ _ _ _ ((Stop, Some stop) :: n3)); [by rewrite map_app, Hb|]. cbn. f_equal. apply H3'. by destruct r.
Qed.

End Main.

(** ** Health *)

(** beacon/health.go; [status] is the text of a status line. *)
Definition IpfsHealthCheck {E} `{Net E} (status : Z -> string) (cfg : Beacon.Config) (e : E) : E * (HealthState * option error) :=
  let url := Beacon.IPFSAddress cfg +:+ "/api/v0/version" in
  match url_error url with
  | Some msg => (e, (HealthStateUnhealthy, Some (Wrapf "build request: %w" [] (Errorf "parse: %s" [msg]))))
  | None =>
      match http_do e (mkHttp "POST" url None None None) with
      | (e, HttpFailed msg) => (e, (HealthStateUnhealthy, Some (Wrapf "IPFS not reachable: %w" [] (Errorf "%s" [msg]))))
      | (e, HttpResponse code _ _) =>
          if negb (code =? 200) then (e, (HealthStateUnhealthy, Some (Errorf "IPFS API error: %s" [status code])))
          else (e, (HealthStateHealthy, None))
      end
  end.

(** The check that a plugin's health service runs. *)
Definition healthCheck {E} `{Net E} (status : Z -> string) (cfg : Beacon.Config) (p : package) (e : E) : E * (HealthState * option error) :=
  if decide (p = ipfs) then IpfsHealthCheck status cfg e else (e, (HealthStateHealthy, None)).

Definition runHealthcheck {E} `{HealthEnv E} (cfg : GrpcPluginConfig) : Prog (Health.state E) Z :=
  r ← attempt (Check ("127.0.0.1:" +:+ pretty (GrpcPort cfg)));
  mret (match r with Ok _ => 0 | Err _ => 1 end).

(** ** The health check of a container *)

Section Container.
Context {E : Type} `{Net E} (status : Z -> string) (bcfg : Beacon.Config) (p : package) (up : bool).

(** The process of the container itself, where it is up, behind its port. *)
#[export] Instance own_health : HealthEnv E :=
  {| grpc_NewClient := fun _ => Ok tt;
     grpc_Check := fun e _ => if up then let '(e, st) := server_Check (healthCheck status bcfg p) e in (e, Ok st)
                              else (e, Err (StatusErr Unavailable (Errorf "connection refused" [])));
     select := fun e _ => (e, None) |}.

Definition version_request : http_request := mkHttp "POST" (Beacon.IPFSAddress bcfg +:+ "/api/v0/version") None None None.

(** The node answers the version request with 200. *)
Definition node_answers (e : E) : bool :=
  match url_error (hr_URL version_request), (http_do e version_request).2 with
  | None, HttpResponse code _ _ => code =? 200
  | _, _ => false
  end.

(** The health check of a container follows the process: it exits with 0
    exactly when the process serves and, for the ipfs plugin, the node answers
    the version request with 200; otherwise with 1. *)
Theorem runHealthcheck_exit cfg (s : Health.state E) : exists s', runHealthcheck cfg s =
  (s', Returned (Ok (if up && (negb (bool_decide (p = ipfs)) || node_answers (Health.env s)) then 0 else 1))).
Proof.
  unfold runHealthcheck, node_answers, version_request. cbn [hr_URL]. set (addr := "127.0.0.1:" +:+ _).
  assert (exists s1 r, Check addr s = (s1, Returned r) /\ is_ok r = up && (negb (bool_decide (p = ipfs)) ||
    match url_error (Beacon.IPFSAddress bcfg +:+ "/api/v0/version"), (http_do (Health.env s) version_request).2 with
    | None, HttpResponse code _ _ => code =? 200 | _, _ => false end)) as (s1 & r & Hc & Hr).
  { unfold Check. cbn [grpc_NewClient own_health grpc_Check]. destruct up; [|by eexists _, _].
    unfold server_Check, healthCheck. destruct (decide (p = ipfs)) as [->|Hp].
    - unfold IpfsHealthCheck, version_request. cbv zeta. rewrite bool_decide_eq_true_2 by done. cbn [negb orb andb].
      destruct (url_error _); [by eexists _, _|].
      destruct (http_do (Health.env s) _) as [e [msg|code body rd]]; cbn [snd]; [by eexists _, _|].
      destruct (code =? 200); by eexists _, _.
    - rewrite bool_decide_eq_false_2 by done. by eexists _, _. }
  erewrite run_bind by (apply run_attempt; exact Hc). exists s1. unfold version_request in Hr. rewrite <- Hr. by destruct r.
Qed.

End Container.

(** The state [Unhealthy] always comes with an error, for which the server
    answers [UNKNOWN]: no plugin ever reports [NOT_SERVING]. *)
Theorem never_not_serving {E} `{Net E} status bcfg p (e : E) :
  (server_Check (healthCheck status bcfg p) e).2 = SERVING \/ (server_Check (healthCheck status bcfg p) e).2 = UNKNOWN.
Proof.
  unfold server_Check, healthCheck. destruct (decide (p = ipfs)); [|by left]. unfold IpfsHealthCheck. cbv zeta.
  destruct (url_error _); [by right|]. destruct (http_do e _) as [e1 [msg|code body rd]]; [by right|].
  destruct (code =? 200); [by left|by right].
Qed.

(** ** A masterseed process whose server is stopped *)

Module Runs.

(** A runtime in which everything works, but the constructors of [broken]; the
    server is stopped, or serves for ever. *)
Definition runtime_of (broken : list package) (stopped : bool) : Runtime unit :=
  {| perform := fun w e => (w, match e with
                               | New p => if bool_decide (p ∈ broken) then Err (Errorf "no configuration" []) else Ok tt
                               | _ => Ok tt
                               end);
     serving := fun w => if stopped then Some (w, Err (Errorf "the server was stopped" [])) else None |}.

Definition config (name : string) : GrpcPluginConfig :=
  ReadFromEnv (fun _ k => if String.eqb k "PLUGIN" then Some name else None) (fun _ _ => None) ["plugin"].

Definition steps_of (p : process unit) : list event := map fst (log p).

Example masterseed_run : steps_of (main (H := runtime_of [] true) (config "masterseed") (mkProcess tt [])).1 =
  [New masterseed; Register MasterSeedPlugin; Register HealthService; GoListenMetrics 9000; Listen 50001; Serve; Stop; Close masterseed].
Proof. reflexivity. Qed.

Example serving_run : steps_of (main (H := runtime_of [] false) (config "account") (mkProcess tt [])).1 =
  [New account; Register AccountPlugin; Register HealthService; GoListenMetrics 9000; Listen 50001; Serve].
Proof. reflexivity. Qed.

Example broken_run : main (H := runtime_of [kms] true) (config "kms") (mkProcess tt []) =
  (mkProcess tt [(New kms, Some (Err (Errorf "no configuration" [])))], Panicked).
Proof. reflexivity. Qed.

(** The default plugin is aptosorbital; an empty name is no plugin. *)
Example names : package_of (Plugin (ReadFromEnv (fun _ _ => None) (fun _ _ => None) [])) = Some aptosorbital /\ package_of "" = None.
Proof. done. Qed.

End Runs.
